(** * Zakrom: search orchestration and distributed coordination engine.

    A shallow embedding of the grid partitioner ([src/lib/grid-generator.ts]),
    the places gateway ([src/lib/gateway/google-places.ts]), the
    traffic-control primitives ([lib/traffic-control]) and the credit-metered
    orchestrator ([executeSearchCore]), with the properties of the written
    specification stated and settled against them. *)

From stdpp Require Import gmap strings list pretty.
From Stdlib Require Import ZArith Lia Reals Lra QArith Qround Ascii.
From Stdlib Require Floats.

(** ** GridPartitioner ([src/lib/grid-generator.ts]), over the reals

    The grid as the mathematical values the code approximates: numbers are
    real numbers ([R]), [Math.floor] and [Math.ceil] are [Zfloor] and
    [Zceil].  This is the grid the gateway model scans and the one whose
    cells are shown to tile the viewport; it has no [NaN] and no rounding.
    The code as it computes, in double precision, is [GridGeneratorFloat]
    below. *)

Module GridGenerator.
Local Open Scope R_scope.

Record LatLng := { lat : R; lng : R }.

Record Viewport := { northeast : LatLng; southwest : LatLng }.

Record GridPoint := { gp_lat : R; gp_lng : R; radius : R }.

Definition MAX_RADIUS : R := 50000.

(** [private static calculateRadius(latSize, lngSize, baseLat)]. *)
Definition calculateRadius (latSize lngSize baseLat : R) : R :=
  let heightMeters := latSize * 111000 in
  let widthMeters := lngSize * 111000 * cos (baseLat * (PI / 180)) in
  let diagonal := sqrt (heightMeters * heightMeters + widthMeters * widthMeters) in
  Rmin MAX_RADIUS (IZR (Zceil (diagonal / 2 * (11 / 10)))).

(** [Math.max(1, Math.min(20, Math.floor(gridSize)))]. *)
Definition clampSize (gridSize : R) : Z :=
  Z.max 1 (Z.min 20 (Zfloor gridSize)).

(** [static generateGrid(viewport, gridSize)]: the two nested [for] loops
    push one point per (row, col), rows outermost. *)
Definition generateGrid (viewport : Viewport) (gridSize : R) : list GridPoint :=
  let size := clampSize gridSize in
  let latSpan := lat (northeast viewport) - lat (southwest viewport) in
  let lngSpan := lng (northeast viewport) - lng (southwest viewport) in
  let cellLatSize := latSpan / IZR size in
  let cellLngSize := lngSpan / IZR size in
  let radiusMeters :=
    calculateRadius cellLatSize cellLngSize (lat (southwest viewport)) in
  flat_map
    (fun row : nat =>
       List.map
         (fun col : nat =>
            {| gp_lat := lat (southwest viewport) + INR row * cellLatSize
                         + cellLatSize / 2;
               gp_lng := lng (southwest viewport) + INR col * cellLngSize
                         + cellLngSize / 2;
               radius := radiusMeters |})
         (seq 0 (Z.to_nat size)))
    (seq 0 (Z.to_nat size)).

(** [static generate3x3Grid(viewport)]. *)
Definition generate3x3Grid (viewport : Viewport) : list GridPoint :=
  generateGrid viewport 3.

(** The contract of section 4.1 in the spec's words: [n * n] points, the
    point of index [i] sits in row [i / n] and column [i mod n] counted from
    the southwest corner, at the centre of its cell, and the radius is the
    capped, rounded-up, 1.1-scaled half diagonal of a cell in metres. *)
Definition cellDiagonalMeters (cellLat cellLng southLat : R) : R :=
  sqrt (Rsqr (cellLat * 111000)
        + Rsqr (cellLng * (111000 * cos (southLat * PI / 180)))).

Definition specRadius (viewport : Viewport) (n : Z) : R :=
  let cellLat := (lat (northeast viewport) - lat (southwest viewport)) / IZR n in
  let cellLng := (lng (northeast viewport) - lng (southwest viewport)) / IZR n in
  Rmin 50000
    (IZR (Zceil (11 / 10 *
                 (cellDiagonalMeters cellLat cellLng (lat (southwest viewport)) / 2)))).

Definition specPoint (viewport : Viewport) (n : Z) (row col : nat) : GridPoint :=
  let cellLat := (lat (northeast viewport) - lat (southwest viewport)) / IZR n in
  let cellLng := (lng (northeast viewport) - lng (southwest viewport)) / IZR n in
  {| gp_lat := lat (southwest viewport) + (INR row + 1 / 2) * cellLat;
     gp_lng := lng (southwest viewport) + (INR col + 1 / 2) * cellLng;
     radius := specRadius viewport n |}.

Definition specGrid (viewport : Viewport) (n : Z) : list GridPoint :=
  List.map
    (fun i : nat => specPoint viewport n (i / Z.to_nat n) (i mod Z.to_nat n))
    (seq 0 (Z.to_nat n * Z.to_nat n)).

End GridGenerator.

(** ** GridPartitioner ([src/lib/grid-generator.ts]), in double precision

    JavaScript numbers are IEEE 754 binary64 values: the primitive floats,
    whose [+], [-], [*], [/] and [sqrt] are the correctly rounded
    operations the language prescribes. *)

Module GridGeneratorFloat.
Import PrimFloat SpecFloat FloatOps FloatAxioms.
Local Open Scope float_scope.

Record LatLng := { lat : float; lng : float }.

Record Viewport := { northeast : LatLng; southwest : LatLng }.

Record GridPoint := { gp_lat : float; gp_lng : float; radius : float }.

(** The exact value of a finite double, [(-1)^s * m * 2^e]. *)
Definition valueOf (x : float) : Q :=
  match Prim2SF x with
  | S754_finite s m e =>
      let z := if s then Z.neg m else Z.pos m in
      if (0 <=? e)%Z then inject_Z (z * 2 ^ e)
      else Qmake z (Z.to_pos (2 ^ (- e)))
  | _ => 0%Q
  end.

(** [Number.isFinite]. *)
Definition isFinite (x : float) : bool :=
  match Prim2SF x with
  | S754_zero _ | S754_finite _ _ _ => true
  | _ => false
  end.

(** The double of an integer, exact below [2^53] in size. *)
Definition ofZ (z : Z) : float :=
  let a := of_uint63 (Uint63.of_Z (Z.abs z)) in
  if (z <? 0)%Z then - a else a.

(** [Math.ceil]: a double with no fractional bits, an infinity or [NaN] is
    returned as it is; a value in [(-1, 0)] gives [-0]. *)
Definition mathCeil (x : float) : float :=
  match Prim2SF x with
  | S754_finite s m e =>
      if (0 <=? e)%Z then x
      else
        let n := Qceiling (valueOf x) in
        if (n =? 0)%Z then (-0) else ofZ n
  | _ => x
  end.

(** [Math.min] of two numbers: [NaN] when either is, and [-0] below [+0]. *)
Definition mathMin (a b : float) : float :=
  if is_nan a || is_nan b then nan
  else if a <? b then a
  else if b <? a then b
  else if get_sign a then a else b.

Definition MAX_RADIUS : float := 50000.

(** [Math.PI]. *)
Definition PI : float := 0x1.921fb54442d18p+1.

(** [Math.max(1, Math.min(20, Math.floor(gridSize)))]: an integer from 1 to
    20, or [NaN] ([None]) when [gridSize] is [NaN]. *)
Definition clampSize (gridSize : float) : option Z :=
  match Prim2SF gridSize with
  | S754_nan => None
  | S754_infinity s => Some (if s then 1 else 20)%Z
  | _ => Some (Z.max 1 (Z.min 20 (Qfloor (valueOf gridSize))))
  end.

Section WithCosine.

(** [Math.cos], whose results the language leaves to the implementation. *)
Variable mathCos : float -> float.

(** [private static calculateRadius(latSize, lngSize, baseLat)]; the
    literal [1.1] is the double [0x1.199999999999ap+0]. *)
Definition calculateRadius (latSize lngSize baseLat : float) : float :=
  let heightMeters := latSize * 111000 in
  let widthMeters := lngSize * 111000 * mathCos (baseLat * (PI / 180)) in
  let diagonal :=
    sqrt ((heightMeters * heightMeters) + (widthMeters * widthMeters)) in
  mathMin MAX_RADIUS (mathCeil ((diagonal / 2) * 0x1.199999999999ap+0)).

(** [static generateGrid(viewport, gridSize)]: the loops
    [for (row = 0; row < size; row++)] run [size] times, and not at all
    when [size] is [NaN]. *)
Definition generateGrid (viewport : Viewport) (gridSize : float)
  : list GridPoint :=
  let size := clampSize gridSize in
  let sizeNumber := match size with Some n => ofZ n | None => nan end in
  let latSpan := lat (northeast viewport) - lat (southwest viewport) in
  let lngSpan := lng (northeast viewport) - lng (southwest viewport) in
  let cellLatSize := latSpan / sizeNumber in
  let cellLngSize := lngSpan / sizeNumber in
  let radiusMeters :=
    calculateRadius cellLatSize cellLngSize (lat (southwest viewport)) in
  let count := Z.to_nat (default 0%Z size) in
  flat_map
    (fun row : nat =>
       List.map
         (fun col : nat =>
            {| gp_lat := lat (southwest viewport)
                         + (ofZ (Z.of_nat row) * cellLatSize)
                         + (cellLatSize / 2);
               gp_lng := lng (southwest viewport)
                         + (ofZ (Z.of_nat col) * cellLngSize)
                         + (cellLngSize / 2);
               radius := radiusMeters |})
         (seq 0 count))
    (seq 0 count).

(** [static generate3x3Grid(viewport)]. *)
Definition generate3x3Grid (viewport : Viewport) : list GridPoint :=
  generateGrid viewport 3.

End WithCosine.

End GridGeneratorFloat.

(** ** JavaScript values used by the coordination code *)

Module Js.

(** An [Error] object: [error.name] and [error.message]. *)
Record JsError := { err_name : string; err_message : string }.

Definition mkError (message : string) : JsError :=
  {| err_name := "Error"; err_message := message |}.

(** A [number] where the code tests [Number.isFinite]. *)
Inductive JsNumber :=
| JsFinite (q : Q)
| JsPosInf
| JsNegInf
| JsNaN.

Definition ofZ (z : Z) : JsNumber := JsFinite (inject_Z z).

Definition isFinite (n : JsNumber) : bool :=
  match n with JsFinite _ => true | _ => false end.

(** [a <= b] and [a < b] on numbers; any comparison with [NaN] is false. *)
Definition le (a b : JsNumber) : bool :=
  match a, b with
  | JsNaN, _ | _, JsNaN => false
  | JsNegInf, _ => true
  | _, JsPosInf => true
  | JsFinite x, JsFinite y => Qle_bool x y
  | _, _ => false
  end.

Definition lt (a b : JsNumber) : bool :=
  match a, b with
  | JsNaN, _ | _, JsNaN => false
  | JsPosInf, _ | _, JsNegInf => false
  | JsNegInf, _ | _, JsPosInf => true
  | JsFinite x, JsFinite y => negb (Qle_bool y x)
  end.

(** [Array.prototype.slice(start, end)] with integer arguments: a negative
    index counts from the end, and both ends are clamped to the array. *)
Definition sliceIndex (len i : Z) : Z :=
  if (i <? 0)%Z then Z.max (len + i) 0 else Z.min i len.

Definition slice {A : Type} (l : list A) (start stop : Z) : list A :=
  let len := Z.of_nat (length l) in
  let from := sliceIndex len start in
  let to := sliceIndex len stop in
  firstn (Z.to_nat (to - from)) (skipn (Z.to_nat from) l).

(** The double-quote character, as a string. *)
Definition dquote : string := String (Ascii.ascii_of_nat 34) EmptyString.

(** [s.includes(c)] for a one-character [c]. *)
Fixpoint includesChar (c : Ascii.ascii) (s : string) : bool :=
  match s with
  | EmptyString => false
  | String a rest => if Ascii.eqb a c then true else includesChar c rest
  end.

(** [s.split(c)]. *)
Fixpoint splitOn (c : Ascii.ascii) (s : string) : list string :=
  match s with
  | EmptyString => [EmptyString]
  | String a rest =>
      if Ascii.eqb a c then EmptyString :: splitOn c rest
      else match splitOn c rest with
           | piece :: pieces => String a piece :: pieces
           | [] => [String a EmptyString]
           end
  end.

Definition digitOf (a : Ascii.ascii) : option Z :=
  let n := Z.of_nat (Ascii.nat_of_ascii a) in
  if (48 <=? n)%Z && (n <=? 57)%Z then Some (n - 48)%Z else None.

Fixpoint leadingDigits (s : string) (acc : option Z) : option Z :=
  match s with
  | EmptyString => acc
  | String a rest =>
      match digitOf a with
      | Some d => leadingDigits rest (Some (10 * default 0%Z acc + d)%Z)
      | None => acc
      end
  end.

(** [parseInt(s)] on an optional sign followed by decimal digits; [None] is
    [NaN].  Leading blanks and the hexadecimal prefix are not modelled. *)
Definition parseInt (s : string) : option Z :=
  match s with
  | String a rest =>
      if Ascii.eqb a "-"%char then Z.opp <$> leadingDigits rest None
      else if Ascii.eqb a "+"%char then leadingDigits rest None
      else leadingDigits s None
  | EmptyString => None
  end.

(** Truthiness of an optional string: [undefined] and [""] are falsy. *)
Definition truthy (s : option string) : bool :=
  match s with
  | Some t => negb (String.eqb t "")
  | None => false
  end.

End Js.

(** ** Records shared by the gateway, the stores and the orchestrator *)

Module Data.

(** A JSON value the code passes along without looking inside. *)
Definition Json : Type := string.

Record RawLatLng := { latitude : option R; longitude : option R }.

(** The provider's viewport object: corners named [high]/[low], or
    [northeast]/[southwest]. *)
Record RawViewport := {
  vp_northeast : option RawLatLng;
  vp_high : option RawLatLng;
  vp_southwest : option RawLatLng;
  vp_low : option RawLatLng
}.

(** One element of [data.places] in the provider's response. *)
Record RawPlace := {
  raw_id : string;
  raw_displayName : option string;       (* displayName?.text *)
  raw_rating : option Json;
  raw_userRatingCount : option Json;
  raw_formattedAddress : option string;
  raw_nationalPhoneNumber : option string;
  raw_websiteUri : option string;
  raw_businessStatus : option string;
  raw_location : option Json;
  raw_viewport : option RawViewport;
  raw_photos : option (list Json);
  raw_openNow : option bool              (* regularOpeningHours?.openNow *)
}.

(** A place object as the gateway and the orchestrator pass it around: the
    normalized fields of [transformPlace], and the enrichment fields the
    orchestrator adds ([undefined] until then). *)
Record Place := {
  place_id : string;
  name : string;
  rating : option Json;
  user_ratings_total : option Json;
  formatted_address : option string;
  formatted_phone_number : option string;
  website : option string;
  business_status : option string;
  location : option Json;
  viewport : option RawViewport;
  photos : list Json;
  open_now : option bool;
  emails : option (list string);
  emailScores : option Json;
  phones : option (list string);
  socials : option Json
}.

(** The result object of [executeSearchCore]. *)
Record SearchResult := {
  res_places : list Place;
  res_nextPageToken : option string;
  res_jobId : string
}.

Inductive SubscriptionTier := FREE | STARTER | PRO | BUSINESS.

Inductive ScrapeStatus := PENDING | PROCESSING | COMPLETED | FAILED.

End Data.

(** ** The shared low-latency store (Redis) and the process state

    The store client ([@/lib/redis], an ioredis connection) is an external
    collaborator.  Its commands are modelled by [RedisClient]; [idealRedis]
    is the reference behaviour of a reliable single store with key expiry. *)

Module Runtime.
Import Js Data.
Local Open Scope Z_scope.

(** What a store string holds.  JSON payloads are kept structured:
    [JSON.parse (JSON.stringify v)] is [v]. *)
Inductive Payload :=
| PText (s : string)
| PIds (ids : list string)
| PPlaces (places : list Place)
| PDeepList (places : list Place) (pageSize : Z)
| PResult (result : SearchResult).

Inductive RValue :=
| VStr (p : Payload)
| VInt (n : Z)
| VZSet (members : list (Z * string)).

(** A key with its absolute expiry time in milliseconds, if any. *)
Record Entry := { value : RValue; expireAt : option Z }.

Inductive RCmd :=
| GET (key : string)
| SET (key : string) (v : Payload) (ttlMs : option Z) (nx : bool)
| INCR (key : string)
| DECR (key : string)
| EXPIRE (key : string) (seconds : Z)
| DEL (key : string)
| ZREMRANGEBYSCORE (key : string) (lo hi : Z)
| ZADD (key : string) (score : Z) (member : string)
| ZCARD (key : string)
| PUBLISH (channel : string) (message : Payload).

Inductive Reply :=
| Nil
| Bulk (p : Payload)
| Int (n : Z)
| Status (s : string).

Inductive Outcome (A : Type) :=
| Return (a : A)
| Throw (e : JsError).
Arguments Return {A} a.
Arguments Throw {A} e.

Definition live (now : Z) (e : Entry) : bool :=
  match expireAt e with
  | Some t => now <? t
  | None => true
  end.

Definition lookupLive (now : Z) (key : string) (st : gmap string Entry)
  : option Entry :=
  match st !! key with
  | Some e => if live now e then Some e else None
  | None => None
  end.

Definition wrongType : JsError :=
  {| err_name := "ReplyError";
     err_message := "WRONGTYPE Operation against a key holding the wrong kind of value" |}.

Definition notAnInteger : JsError :=
  {| err_name := "ReplyError";
     err_message := "ERR value is not an integer or out of range" |}.

Definition invalidExpire : JsError :=
  {| err_name := "ReplyError";
     err_message := "ERR invalid expire time" |}.

Definition addToCounter (now : Z) (key : string) (delta : Z)
    (st : gmap string Entry) : Outcome Reply * gmap string Entry :=
  match lookupLive now key st with
  | None =>
      (Return (Int delta), <[key := {| value := VInt delta; expireAt := None |}]> st)
  | Some {| value := VInt n; expireAt := t |} =>
      (Return (Int (n + delta)),
       <[key := {| value := VInt (n + delta); expireAt := t |}]> st)
  | Some _ => (Throw notAnInteger, st)
  end.

Definition zaddMember (score : Z) (member : string) (l : list (Z * string))
  : list (Z * string) :=
  List.filter (fun sm => negb (String.eqb (snd sm) member)) l ++ [(score, member)].

(** The semantics of one command on a reliable store at time [now].
    A value written by INCR or DECR is kept as its integer. *)
Definition runCmd (now : Z) (c : RCmd) (st : gmap string Entry)
  : Outcome Reply * gmap string Entry :=
  match c with
  | GET key =>
      match lookupLive now key st with
      | None => (Return Nil, st)
      | Some {| value := VStr p |} => (Return (Bulk p), st)
      | Some {| value := VInt n |} => (Return (Bulk (PText (pretty n))), st)
      | Some {| value := VZSet _ |} => (Throw wrongType, st)
      end
  | SET key v ttlMs nx =>
      match ttlMs with
      | Some t =>
          if t <=? 0 then (Throw invalidExpire, st)
          else if nx && bool_decide (is_Some (lookupLive now key st))
               then (Return Nil, st)
               else (Return (Status "OK"),
                     <[key := {| value := VStr v; expireAt := Some (now + t) |}]> st)
      | None =>
          if nx && bool_decide (is_Some (lookupLive now key st))
          then (Return Nil, st)
          else (Return (Status "OK"),
                <[key := {| value := VStr v; expireAt := None |}]> st)
      end
  | INCR key => addToCounter now key 1 st
  | DECR key => addToCounter now key (-1) st
  | EXPIRE key seconds =>
      match lookupLive now key st with
      | None => (Return (Int 0), st)
      | Some e =>
          if seconds <=? 0 then (Return (Int 1), delete key st)
          else (Return (Int 1),
                <[key := {| value := value e;
                            expireAt := Some (now + 1000 * seconds) |}]> st)
      end
  | DEL key =>
      match lookupLive now key st with
      | None => (Return (Int 0), delete key st)
      | Some _ => (Return (Int 1), delete key st)
      end
  | ZREMRANGEBYSCORE key lo hi =>
      match lookupLive now key st with
      | None => (Return (Int 0), st)
      | Some {| value := VZSet l; expireAt := t |} =>
          let kept := List.filter (fun sm => negb ((lo <=? fst sm) && (fst sm <=? hi))) l in
          (Return (Int (Z.of_nat (length l) - Z.of_nat (length kept))),
           match kept with
           | [] => delete key st
           | _ => <[key := {| value := VZSet kept; expireAt := t |}]> st
           end)
      | Some _ => (Throw wrongType, st)
      end
  | ZADD key score member =>
      match lookupLive now key st with
      | None =>
          (Return (Int 1),
           <[key := {| value := VZSet [(score, member)]; expireAt := None |}]> st)
      | Some {| value := VZSet l; expireAt := t |} =>
          let l' := zaddMember score member l in
          (Return (Int (Z.of_nat (length l') - Z.of_nat (length l))),
           <[key := {| value := VZSet l'; expireAt := t |}]> st)
      | Some _ => (Throw wrongType, st)
      end
  | ZCARD key =>
      match lookupLive now key st with
      | None => (Return (Int 0), st)
      | Some {| value := VZSet l |} => (Return (Int (Z.of_nat (length l))), st)
      | Some _ => (Throw wrongType, st)
      end
  | PUBLISH _ _ => (Return (Int 0), st)
  end.

(** A server-side script: it runs atomically against the store and issues
    commands through [redis.call]; an error raised by a command aborts it. *)
Definition LuaScript : Type :=
  list string -> list string -> Z -> gmap string Entry
  -> Outcome Reply * gmap string Entry.

(** Provider traffic seen by the gateway. *)
Inductive GatewayEvent :=
| EvKey (index : nat) (key : string)
| EvFetch (key : string) (pageToken : option string)
| EvSleep (ms : Z)
| EvSearch (circle : option (R * R * R)) (pageToken : option string).

(** Rows of the durable record store (Prisma). *)
Record User := {
  credits : Z;
  subscriptionTier : option SubscriptionTier;
  email : string
}.

Record DbPlace := {
  db_id : string;
  googleId : string;
  db_name : string;
  db_address : option string;
  db_rating : option Json;
  db_userRatingsTotal : option Json;
  db_location : option Json;
  db_website : option string;
  db_emails : list string;
  db_emailScores : option Json;
  db_phones : list string;
  db_socials : option Json;
  scrapeStatus : ScrapeStatus
}.

Record CreditTransaction := {
  ct_userId : string;
  ct_amount : Z;
  ct_type : string;
  ct_description : string;
  ct_resultCount : option Z;
  ct_pageToken : option string
}.

Record SearchHistory := {
  sh_userId : string;
  sh_city : string;
  sh_keyword : string;
  sh_resultCount : Z
}.

Record EnrichmentJob := {
  ej_placeId : string;
  ej_website : string;
  ej_name : string;
  ej_address : option string;
  ej_jobId : string
}.

Record Database := {
  users : gmap string User;
  placeRows : gmap string DbPlace;           (* unique on googleId *)
  leads : list (string * string);            (* unique on (userId, placeId) *)
  creditTransactions : list CreditTransaction;
  searchHistory : list SearchHistory;
  searchCache : gmap string SearchResult     (* unique on queryKey *)
}.

Definition emptyDb : Database :=
  {| users := ∅; placeRows := ∅; leads := []; creditTransactions := [];
     searchHistory := []; searchCache := ∅ |}.

(** The state of one server process and of the stores it talks to. *)
Record World := {
  store : gmap string Entry;
  clock : Z;
  published : list (string * Payload);
  uuidSeed : nat;
  currentKeyIndex : nat;
  fetchCount : nat;
  events : list GatewayEvent;
  db : Database;
  enrichmentQueue : list EnrichmentJob
}.

Definition withStore (st : gmap string Entry) (w : World) : World :=
  {| store := st; clock := clock w; published := published w;
     uuidSeed := uuidSeed w; currentKeyIndex := currentKeyIndex w;
     fetchCount := fetchCount w; events := events w; db := db w;
     enrichmentQueue := enrichmentQueue w |}.

Definition withClock (t : Z) (w : World) : World :=
  {| store := store w; clock := t; published := published w;
     uuidSeed := uuidSeed w; currentKeyIndex := currentKeyIndex w;
     fetchCount := fetchCount w; events := events w; db := db w;
     enrichmentQueue := enrichmentQueue w |}.

Definition withPublished (p : list (string * Payload)) (w : World) : World :=
  {| store := store w; clock := clock w; published := p;
     uuidSeed := uuidSeed w; currentKeyIndex := currentKeyIndex w;
     fetchCount := fetchCount w; events := events w; db := db w;
     enrichmentQueue := enrichmentQueue w |}.

Definition withUuidSeed (n : nat) (w : World) : World :=
  {| store := store w; clock := clock w; published := published w;
     uuidSeed := n; currentKeyIndex := currentKeyIndex w;
     fetchCount := fetchCount w; events := events w; db := db w;
     enrichmentQueue := enrichmentQueue w |}.

Definition withKeyIndex (i : nat) (w : World) : World :=
  {| store := store w; clock := clock w; published := published w;
     uuidSeed := uuidSeed w; currentKeyIndex := i;
     fetchCount := fetchCount w; events := events w; db := db w;
     enrichmentQueue := enrichmentQueue w |}.

Definition withFetchCount (n : nat) (w : World) : World :=
  {| store := store w; clock := clock w; published := published w;
     uuidSeed := uuidSeed w; currentKeyIndex := currentKeyIndex w;
     fetchCount := n; events := events w; db := db w;
     enrichmentQueue := enrichmentQueue w |}.

Definition withEvents (l : list GatewayEvent) (w : World) : World :=
  {| store := store w; clock := clock w; published := published w;
     uuidSeed := uuidSeed w; currentKeyIndex := currentKeyIndex w;
     fetchCount := fetchCount w; events := l; db := db w;
     enrichmentQueue := enrichmentQueue w |}.

Definition withDb (d : Database) (w : World) : World :=
  {| store := store w; clock := clock w; published := published w;
     uuidSeed := uuidSeed w; currentKeyIndex := currentKeyIndex w;
     fetchCount := fetchCount w; events := events w; db := d;
     enrichmentQueue := enrichmentQueue w |}.

Definition withQueue (q : list EnrichmentJob) (w : World) : World :=
  {| store := store w; clock := clock w; published := published w;
     uuidSeed := uuidSeed w; currentKeyIndex := currentKeyIndex w;
     fetchCount := fetchCount w; events := events w; db := db w;
     enrichmentQueue := q |}.

Definition emptyWorld : World :=
  {| store := ∅; clock := 0; published := []; uuidSeed := 0%nat;
     currentKeyIndex := 0%nat; fetchCount := 0%nat; events := [];
     db := emptyDb; enrichmentQueue := [] |}.

(** Asynchronous code: a computation reads and updates the world and either
    returns or throws.  Effects made before a throw are kept. *)
Definition IO (A : Type) : Type := World -> Outcome A * World.

Definition ret {A : Type} (a : A) : IO A := fun w => (Return a, w).

Definition throw {A : Type} (e : JsError) : IO A := fun w => (Throw e, w).

Definition bind {A B : Type} (m : IO A) (k : A -> IO B) : IO B :=
  fun w =>
    match m w with
    | (Return a, w') => k a w'
    | (Throw e, w') => (Throw e, w')
    end.

#[global] Instance IO_ret : MRet IO := @ret.
#[global] Instance IO_bind : MBind IO := fun A B k m => bind m k.

(** [try { body } catch (error) { handler error }]. *)
Definition tryCatch {A : Type} (body : IO A) (handler : JsError -> IO A) : IO A :=
  fun w =>
    match body w with
    | (Return a, w') => (Return a, w')
    | (Throw e, w') => handler e w'
    end.

(** [try { body } finally { cleanup }]: a throw of [cleanup] replaces the
    outcome of [body]. *)
Definition tryFinally {A : Type} (body : IO A) (cleanup : IO unit) : IO A :=
  fun w =>
    match body w with
    | (r, w') =>
        match cleanup w' with
        | (Return _, w'') => (r, w'')
        | (Throw e, w'') => (Throw e, w'')
        end
    end.

(** [sleep(ms)] of [lib/traffic-control]: time passes. *)
Definition sleep (ms : Z) : IO unit :=
  fun w => (Return tt,
            withEvents (events w ++ [EvSleep ms]) (withClock (clock w + Z.max ms 0) w)).

Definition dateNow : IO Z := fun w => (Return (clock w), w).

Definition randomUUID : IO string :=
  fun w => (Return ("uuid-" +:+ pretty (uuidSeed w)), withUuidSeed (S (uuidSeed w)) w).

(** [Math.random()], printed: a fresh tag at each call. *)
Definition mathRandom : IO string :=
  fun w => (Return ("0." +:+ pretty (uuidSeed w)), withUuidSeed (S (uuidSeed w)) w).

(** The commands of the store connection. *)
Class RedisClient := {
  call : RCmd -> IO Reply;
  eval : LuaScript -> list string -> list string -> IO Reply;
  exec : list RCmd -> IO (option (list (Outcome Reply)))
}.

Fixpoint runBatch (now : Z) (cs : list RCmd) (st : gmap string Entry)
  : list (Outcome Reply) * gmap string Entry :=
  match cs with
  | [] => ([], st)
  | c :: rest =>
      let '(r, st1) := runCmd now c st in
      let '(rs, st2) := runBatch now rest st1 in
      (r :: rs, st2)
  end.

(** The reference store: every command is executed, at the current time. *)
Definition idealCall (c : RCmd) : IO Reply :=
  fun w =>
    let '(r, st) := runCmd (clock w) c (store w) in
    let w1 := withStore st w in
    match c with
    | PUBLISH ch msg => (r, withPublished (published w1 ++ [(ch, msg)]) w1)
    | _ => (r, w1)
    end.

Definition idealEval (script : LuaScript) (keys args : list string) : IO Reply :=
  fun w =>
    let '(r, st) := script keys args (clock w) (store w) in
    match r with
    | Return v => (Return v, withStore st w)
    | Throw e => (Throw e, withStore st w)
    end.

Definition idealExec (cs : list RCmd) : IO (option (list (Outcome Reply))) :=
  fun w =>
    let '(rs, st) := runBatch (clock w) cs (store w) in
    (Return (Some rs), withStore st w).

Definition idealRedis : RedisClient :=
  {| call := idealCall; eval := idealEval; exec := idealExec |}.

(** How the code looks at a reply. *)
Definition replyIsText (r : Reply) (s : string) : bool :=
  match r with
  | Bulk (PText t) | Status t => String.eqb t s
  | _ => false
  end.

Definition replyTruthy (r : Reply) : bool :=
  match r with
  | Nil => false
  | Bulk (PText t) | Status t => negb (String.eqb t "")
  | Bulk _ => true
  | Int n => negb (n =? 0)
  end.

(** A reply used as a number: an integer reply is itself, [null] compares as
    0, a non-numeric string as [NaN]. *)
Definition replyNumber (r : Reply) : JsNumber :=
  match r with
  | Int n => ofZ n
  | Nil => ofZ 0
  | _ => JsNaN
  end.

Definition replyIsInt (r : Reply) (n : Z) : bool :=
  match r with
  | Int m => m =? n
  | _ => false
  end.

(** Store commands do not touch the provider side of the world. *)
Definition sameProvider (w w' : World) : Prop :=
  events w' = events w
  /\ fetchCount w' = fetchCount w
  /\ currentKeyIndex w' = currentKeyIndex w.

Definition Quiet {A : Type} (m : IO A) : Prop :=
  forall w : World, sameProvider w (snd (m w)).

(** Either the wrapper rejects the call without running the work, or the work
    runs once, from a world with the same provider state, and the wrapper
    returns only what the work returned. *)
Definition Wraps {T : Type} (wrapped work : IO T) : Prop :=
  forall w : World,
    ((exists e, fst (wrapped w) = Throw e) /\ sameProvider w (snd (wrapped w)))
    \/ exists w0 : World,
         sameProvider w w0
         /\ sameProvider (snd (work w0)) (snd (wrapped w))
         /\ (forall v, fst (wrapped w) = Return v -> fst (work w0) = Return v).

End Runtime.

(** ** Traffic-control primitives ([lib/traffic-control]) *)

Module TrafficControl.
Import Js Runtime.
Local Open Scope Z_scope.

(** [RELEASE_LOCK_LUA]: compare the stored value with the caller's token and
    delete the key only when they are equal. *)
Definition RELEASE_LOCK_LUA : LuaScript :=
  fun KEYS ARGV now st =>
    match KEYS, ARGV with
    | key :: _, token :: _ =>
        match runCmd now (GET key) st with
        | (Throw e, st1) => (Throw e, st1)
        | (Return held, st1) =>
            if match held with
               | Bulk (PText s) => String.eqb s token
               | _ => false
               end
            then runCmd now (DEL key) st1
            else (Return (Int 0), st1)
        end
    | _, _ => (Throw (mkError "ERR wrong number of arguments"), st)
    end.

Record CircuitConfig := {
  failureThreshold : option Z;
  resetTimeoutSec : option Z
}.

Record RateDecision := { allowed : bool }.

Definition circuitOpenError (serviceName : string) : JsError :=
  mkError ("Service " +:+ serviceName
           +:+ " is currently unavailable (Circuit Breaker OPEN)").

Definition capacityError : JsError :=
  mkError "Sistem yoğun. Lütfen biraz sonra tekrar deneyin.".

Definition stateKeyOf (serviceName : string) : string :=
  "cb:" +:+ serviceName +:+ ":state".

Definition failureCountKeyOf (serviceName : string) : string :=
  "cb:" +:+ serviceName +:+ ":failures".

(** [config.failureThreshold ?? 50] and [config.resetTimeoutSec ?? 60]. *)
Definition actualFailureThreshold (config : CircuitConfig) : Z :=
  default 50 (failureThreshold config).

Definition actualResetTimeoutSec (config : CircuitConfig) : Z :=
  default 60 (resetTimeoutSec config).

(** [!Number.isFinite(limit) || limit <= 0]. *)
Definition limitDisabled (limit : JsNumber) : bool :=
  negb (isFinite limit) || le limit (ofZ 0).

(** What the breaker keys of a service hold in a given world. *)
Definition isOpen (serviceName : string) (w : World) : bool :=
  match lookupLive (clock w) (stateKeyOf serviceName) (store w) with
  | Some {| value := VStr (PText s) |} => String.eqb s "OPEN"
  | _ => false
  end.

(** The state key is absent or has expired: the breaker is closed. *)
Definition isClosed (serviceName : string) (w : World) : bool :=
  match lookupLive (clock w) (stateKeyOf serviceName) (store w) with
  | None => true
  | Some _ => false
  end.

Definition failuresRecorded (serviceName : string) (w : World) : option Z :=
  match lookupLive (clock w) (failureCountKeyOf serviceName) (store w) with
  | None => Some 0
  | Some {| value := VInt n |} => Some n
  | Some _ => None
  end.

(** The world right after the breaker of a service has opened, following a
    failure that left the world [w1]. *)
Definition openedAfter (serviceName : string) (config : CircuitConfig)
    (w1 : World) : World :=
  withStore
    (<[stateKeyOf serviceName :=
         {| value := VStr (PText "OPEN");
            expireAt := Some (clock w1 + 1000 * actualResetTimeoutSec config) |}]>
       (delete (failureCountKeyOf serviceName) (store w1)))
    w1.

(** The text a GET of [key] returns, if any. *)
Definition heldText (key : string) (w : World) : option string :=
  match lookupLive (clock w) key (store w) with
  | Some {| value := VStr (PText s) |} => Some s
  | Some {| value := VInt n |} => Some (pretty n)
  | _ => None
  end.

Section WithClient.
Context {redis : RedisClient}.

(** [acquireLock(key, ttlMs)]. *)
Definition acquireLock (key : string) (ttlMs : Z) : IO (option string) :=
  token ← randomUUID;
  result ← call (SET key (PText token) (Some ttlMs) true);
  if replyIsText result "OK" then mret (Some token) else mret None.

(** [releaseLock(key, token)]: the script runs inside [try], the [catch]
    block is empty. *)
Definition releaseLock (key token : string) : IO unit :=
  tryCatch
    (_ ← eval RELEASE_LOCK_LUA [key] [token]; mret tt)
    (fun _ => mret tt).

(** The [catch] block of [withCircuitBreaker]: count the failure, open the
    breaker when the count has reached the threshold, and rethrow. *)
Definition recordFailure {T : Type} (serviceName : string)
    (actualFailureThreshold actualResetTimeoutSec : Z) (error : JsError)
  : IO T :=
  failures ← call (INCR (failureCountKeyOf serviceName));
  (if le (ofZ actualFailureThreshold) (replyNumber failures)
   then
     _ ← call (SET (stateKeyOf serviceName) (PText "OPEN")
                 (Some (1000 * actualResetTimeoutSec)) false);
     _ ← call (DEL (failureCountKeyOf serviceName));
     mret tt
   else mret tt);;
  throw error.

(** [withCircuitBreaker(serviceName, config, work)]. *)
Definition withCircuitBreaker {T : Type} (serviceName : string)
    (config : CircuitConfig) (work : IO T) : IO T :=
  state ← call (GET (stateKeyOf serviceName));
  if replyIsText state "OPEN" then throw (circuitOpenError serviceName)
  else
    tryCatch work
      (recordFailure serviceName (actualFailureThreshold config)
         (actualResetTimeoutSec config)).

(** [if (count === 1) await redis.expire(key, seconds)]: the expiry set by
    the first increment of a counter. *)
Definition expireOnFirst (count : Reply) (key : string) (seconds : Z) : IO unit :=
  if replyIsInt count 1
  then _ ← call (EXPIRE key seconds); mret tt
  else mret tt.

(** [rateLimitFixedWindow(key, limit, windowSec)]. *)
Definition rateLimitFixedWindow (key : string) (limit : JsNumber)
    (windowSec : Z) : IO RateDecision :=
  if limitDisabled limit then mret {| allowed := true |}
  else
    count ← call (INCR key);
    expireOnFirst count key windowSec;;
    mret {| allowed := le (replyNumber count) limit |}.

(** [rateLimitSlidingWindow(key, limit, windowSec)]: the four queued commands
    run as one batch; [results[2][1]] is the reply of ZCARD. *)
Definition rateLimitSlidingWindow (key : string) (limit : JsNumber)
    (windowSec : Z) : IO RateDecision :=
  if limitDisabled limit then mret {| allowed := true |}
  else
    now ← dateNow;
    tag ← mathRandom;
    let windowMs := windowSec * 1000 in
    let min := now - windowMs in
    results ← exec [ZREMRANGEBYSCORE key 0 min;
                    ZADD key now (pretty now +:+ "-" +:+ tag);
                    ZCARD key;
                    EXPIRE key (windowSec + 1)];
    match results with
    | None => mret {| allowed := false |}
    | Some rs =>
        match nth_error rs 2 with
        | None =>
            throw {| err_name := "TypeError";
                     err_message := "Cannot read properties of undefined" |}
        | Some (Return count) =>
            mret {| allowed := le (replyNumber count) limit |}
        | Some (Throw _) => mret {| allowed := false |}
        end
    end.

(** [withInflightLimiter(key, maxConcurrent, ttlSec, work)]. *)
Definition withInflightLimiter {T : Type} (key : string)
    (maxConcurrent : JsNumber) (ttlSec : Z) (work : IO T) : IO T :=
  if limitDisabled maxConcurrent then work
  else
    current ← call (INCR key);
    expireOnFirst current key ttlSec;;
    if lt maxConcurrent (replyNumber current)
    then _ ← call (DECR key); throw capacityError
    else tryFinally work (_ ← call (DECR key); mret tt).

End WithClient.

End TrafficControl.

(** ** PlacesGateway ([src/lib/gateway/google-places.ts]) *)

Module Gateway.
Import Js Data Runtime TrafficControl.
Local Open Scope Z_scope.

Definition transformPlace (place : RawPlace) : Place :=
  {| place_id := raw_id place;
     name := default "" (raw_displayName place);
     rating := raw_rating place;
     user_ratings_total := raw_userRatingCount place;
     formatted_address := raw_formattedAddress place;
     formatted_phone_number := raw_nationalPhoneNumber place;
     website := raw_websiteUri place;
     business_status := raw_businessStatus place;
     location := raw_location place;
     viewport := raw_viewport place;
     photos := default [] (raw_photos place);
     open_now := raw_openNow place;
     emails := None;
     emailScores := None;
     phones := None;
     socials := None |}.

Record GatewayResponse := {
  places : list Place;
  nextPageToken : option string
}.

Record LocationBias := {
  center_latitude : R;
  center_longitude : R;
  circle_radius : R
}.

Record SearchOptions := {
  pageToken : option string;
  pageSize : option Z;
  locationBias : option LocationBias
}.

Definition noOptions : SearchOptions :=
  {| pageToken := None; pageSize := None; locationBias := None |}.

(** The JSON body of one request. *)
Record SearchRequest := {
  textQuery : string;
  languageCode : string;
  req_pageSize : Z;
  req_pageToken : option string;
  req_locationBias : option LocationBias
}.

(** The parsed body of a successful response. *)
Record ApiData := {
  api_places : option (list RawPlace);
  api_nextPageToken : option string
}.

(** How one [fetchWithTimeout] ends: a response with its status, its text
    and (when it parses) its JSON, or a rejection.  The abort of the timeout
    controller rejects with an error named AbortError. *)
Inductive FetchOutcome :=
| Responded (status : Z) (text : string) (json : option ApiData)
| Rejected (e : JsError).

Definition abortError : JsError :=
  {| err_name := "AbortError"; err_message := "This operation was aborted" |}.

Definition syntaxError : JsError :=
  {| err_name := "SyntaxError"; err_message := "Unexpected token in JSON" |}.

Definition responseOk (status : Z) : bool :=
  (200 <=? status) && (status <=? 299).

(** [[429, 500, 502, 503, 504].includes(response.status)]. *)
Definition isRetryable (status : Z) : bool :=
  bool_decide (status ∈ [429; 500; 502; 503; 504]).

Definition maxAttempts : Z := 3.

Definition MAX_CONCURRENCY : JsNumber := ofZ 100.

Definition backoffMs (attempt : Z) : Z := Z.min (1000 * 2 ^ attempt) 4000.

Section WithProvider.
Context {redis : RedisClient}.

(** [GOOGLE_API_KEYS], and the provider: the outcome of the [n]-th request
    of the process, sent with a key and a body. *)
Variable GOOGLE_API_KEYS : list string.
Variable fetch : nat -> string -> SearchRequest -> FetchOutcome.

(** [private getNextApiKey()]. *)
Definition getNextApiKey : IO string :=
  fun w =>
    if bool_decide (length GOOGLE_API_KEYS = 0%nat)
    then (Throw (mkError "Google API Keys configuration is missing."), w)
    else
      let key := default "" (GOOGLE_API_KEYS !! currentKeyIndex w) in
      (Return key,
       withEvents (events w ++ [EvKey (currentKeyIndex w) key])
         (withKeyIndex
            ((currentKeyIndex w + 1) `mod` length GOOGLE_API_KEYS)%nat w)).

(** [private fetchWithTimeout(url, options, timeoutMs)]. *)
Definition fetchWithTimeout (apiKey : string) (body : SearchRequest)
  : IO FetchOutcome :=
  fun w =>
    (Return (fetch (fetchCount w) apiKey body),
     withEvents (events w ++ [EvFetch apiKey (req_pageToken body)])
       (withFetchCount (S (fetchCount w)) w)).

(** The [body] object built at each attempt. *)
Definition requestBody (query : string) (options : SearchOptions)
  : SearchRequest :=
  {| textQuery := query;
     languageCode := "tr";
     req_pageSize := match pageSize options with
                     | Some n => if n =? 0 then 20 else n
                     | None => 20
                     end;
     req_pageToken := pageToken options;
     req_locationBias := locationBias options |}.

(** The [while (attempt < maxAttempts)] loop of [searchText].  [fuel] bounds
    the number of iterations; [maxAttempts] iterations never exhaust it. *)
Fixpoint attemptLoop (fuel : nat) (query : string) (options : SearchOptions)
    (attempt : Z) : IO GatewayResponse :=
  if attempt <? maxAttempts then
    match fuel with
    | O => throw (mkError "Google Places API: Max retries exceeded.")
    | S fuel' =>
        apiKey ← getNextApiKey;
        let body := requestBody query options in
        response ← fetchWithTimeout apiKey body;
        match response with
        | Responded status errorText json =>
            if negb (responseOk status) then
              if isRetryable status && (attempt <? maxAttempts - 1) then
                let backoff := backoffMs attempt in
                sleep backoff;;
                attemptLoop fuel' query options (attempt + 1)
              else
                throw (mkError ("Google Places API Error: " +:+ pretty status
                                +:+ " - " +:+ errorText))
            else
              match json with
              | Some data =>
                  mret {| places := List.map transformPlace
                                      (default [] (api_places data));
                          nextPageToken := api_nextPageToken data |}
              | None => throw syntaxError
              end
        | Rejected error =>
            if String.eqb (err_name error) "AbortError"
               && (attempt <? maxAttempts - 1)
            then attemptLoop fuel' query options (attempt + 1)
            else throw error
        end
    end
  else throw (mkError "Google Places API: Max retries exceeded.").

(** [public async searchText(query, options)]. *)
Definition searchText (query : string) (options : SearchOptions)
  : IO GatewayResponse :=
  withCircuitBreaker "google-places"
    {| failureThreshold := None; resetTimeoutSec := Some 60 |}
    (withInflightLimiter "google-places:inflight" MAX_CONCURRENCY 30
       (attemptLoop (Z.to_nat maxAttempts) query options 0)).

(** The attempts of one call, seen from the world it starts in: the [k]-th
    attempt takes the credential at [(index + k) mod pool size] and receives
    the outcome of request number [count + k]. *)
Definition keyIndexAt (index k : nat) : nat :=
  ((index + k) `mod` length GOOGLE_API_KEYS)%nat.

Definition keyAt (index k : nat) : string :=
  default "" (GOOGLE_API_KEYS !! keyIndexAt index k).







End WithProvider.

Section Scan.
Import GridGenerator.

(** [this.searchText], as [scanCity] uses it. *)
Variable search : string -> SearchOptions -> IO GatewayResponse.

Record ScanOptions := {
  gridSize : option R;
  maxPagesPerGrid : option nat
}.

Definition biasOf (point : GridPoint) : LocationBias :=
  {| center_latitude := gp_lat point;
     center_longitude := gp_lng point;
     circle_radius := radius point |}.

(** The [do ... while (nextPageToken && pageCount < MAX_PAGES_PER_GRID)]
    loop of one sector; [fuel] bounds the iterations. *)
Fixpoint sectorLoop (fuel : nat) (query : string) (bias : LocationBias)
    (MAX_PAGES_PER_GRID : nat) (allGridPlaces : list Place)
    (nextToken : option string) (pageCount : nat) : IO (list Place) :=
  match fuel with
  | O => mret allGridPlaces
  | S fuel' =>
      (if (0 <? pageCount)%nat then sleep 2000 else mret tt);;
      response ← search query {| locationBias := Some bias;
                                 pageToken := nextToken;
                                 pageSize := None |};
      let allGridPlaces' :=
        if (0 <? length (places response))%nat
        then allGridPlaces ++ places response
        else allGridPlaces in
      let nextToken' := nextPageToken response in
      let pageCount' := S pageCount in
      if truthy nextToken' && (pageCount' <? MAX_PAGES_PER_GRID)%nat
      then sectorLoop fuel' query bias MAX_PAGES_PER_GRID allGridPlaces'
             nextToken' pageCount'
      else mret allGridPlaces'
  end.

(** The callback passed to [gridPoints.map]: one sector. *)
Definition scanSector (query : string) (MAX_PAGES_PER_GRID : nat)
    (point : GridPoint) : IO (list Place) :=
  tryCatch
    (sectorLoop (Nat.max 1 MAX_PAGES_PER_GRID) query (biasOf point)
       MAX_PAGES_PER_GRID [] None 0%nat)
    (fun _ => mret []).

(** [Promise.all] over the sectors.  In the code the callbacks run
    concurrently and their calls interleave as the scheduler decides; here
    they run one sector after the other.  The order of the results does not
    depend on that, nor, with a provider that answers from the request
    alone, what each callback does and returns; the order of calls across
    sectors does, and no property is stated about it. *)
Fixpoint promiseAll {A B : Type} (f : A -> IO B) (l : list A) : IO (list B) :=
  match l with
  | [] => mret []
  | x :: rest =>
      y ← f x;
      ys ← promiseAll f rest;
      mret (y :: ys)
  end.

(** [const gridPoints = options.gridSize ? generateGrid(...) :
    generate3x3Grid(viewport)]. *)
Definition gridPointsOf (viewport : Viewport) (options : ScanOptions)
  : list GridPoint :=
  match gridSize options with
  | Some g => if Req_dec_T g 0 then generate3x3Grid viewport
              else generateGrid viewport g
  | None => generate3x3Grid viewport
  end.

(** [const MAX_PAGES_PER_GRID = options.maxPagesPerGrid || 3]. *)
Definition pagesPerGridOf (options : ScanOptions) : nat :=
  match maxPagesPerGrid options with
  | Some (S n) => S n
  | _ => 3%nat
  end.

(** [public async scanCity(query, viewport, options)]. *)
Definition scanCity (query : string) (viewport : Viewport)
    (options : ScanOptions) : IO (list Place) :=
  let gridPoints := gridPointsOf viewport options in
  let MAX_PAGES_PER_GRID := pagesPerGridOf options in
  results ← promiseAll (scanSector query MAX_PAGES_PER_GRID) gridPoints;
  mret (concat results).

End Scan.









End Gateway.

(** ** SearchOrchestrator ([executeSearchCore]) *)

Module Orchestrator.
Import Js Data Runtime TrafficControl Gateway.
Local Open Scope Z_scope.

(** Values read from the environment, and the plan table of [lib/plans]
    (not part of the sources at hand), taken as given. *)
Record Config := {
  DEEP_SEARCH_MAX_PAGES : Z;                   (* 200 when unset *)
  DEEP_SEARCH_PAGE_SIZE : Z;                   (* 60 when unset *)
  DEEP_SEARCH_BUSINESS_GRID_SIZE : Z;          (* 0 when unset *)
  DEEP_SEARCH_BUSINESS_MAX_PAGES_PER_GRID : Z; (* 0 when unset *)
  resultsPerSearch : SubscriptionTier -> Z     (* PLANS[tier].resultsPerSearch *)
}.

(** The gateway singleton, as the orchestrator calls it. *)
Record PlacesGateway := {
  gw_searchText : string -> SearchOptions -> IO GatewayResponse;
  gw_scanCity : string -> GridGenerator.Viewport -> ScanOptions -> IO (list Place)
}.

Definition LONG_TERM_TTL : Z := 2592000.

Definition insufficientBalance (requiredCredits : Z) : JsError :=
  mkError ("Yetersiz bakiye. Bu işlem için " +:+ pretty requiredCredits
           +:+ " kredi gerekiyor.").

Definition withUsers (u : gmap string User) (d : Database) : Database :=
  {| users := u; placeRows := placeRows d; leads := leads d;
     creditTransactions := creditTransactions d;
     searchHistory := searchHistory d; searchCache := searchCache d |}.

Definition withPlaces (p : gmap string DbPlace) (d : Database) : Database :=
  {| users := users d; placeRows := p; leads := leads d;
     creditTransactions := creditTransactions d;
     searchHistory := searchHistory d; searchCache := searchCache d |}.

Definition withLeads (l : list (string * string)) (d : Database) : Database :=
  {| users := users d; placeRows := placeRows d; leads := l;
     creditTransactions := creditTransactions d;
     searchHistory := searchHistory d; searchCache := searchCache d |}.

Definition withCreditTransactions (l : list CreditTransaction) (d : Database)
  : Database :=
  {| users := users d; placeRows := placeRows d; leads := leads d;
     creditTransactions := l;
     searchHistory := searchHistory d; searchCache := searchCache d |}.

Definition withSearchHistory (l : list SearchHistory) (d : Database) : Database :=
  {| users := users d; placeRows := placeRows d; leads := leads d;
     creditTransactions := creditTransactions d;
     searchHistory := l; searchCache := searchCache d |}.

Definition withSearchCache (c : gmap string SearchResult) (d : Database)
  : Database :=
  {| users := users d; placeRows := placeRows d; leads := leads d;
     creditTransactions := creditTransactions d;
     searchHistory := searchHistory d; searchCache := c |}.

(** [prisma.$transaction(async tx => body)]: the writes of a body that
    throws are rolled back. *)
Definition transaction {A : Type} (body : IO A) : IO A :=
  fun w =>
    match body w with
    | (Return a, w') => (Return a, w')
    | (Throw e, w') => (Throw e, withDb (db w) w')
    end.

(** [tx.user.updateMany({ where: { id, credits: { gte } }, data: { credits:
    { decrement } } })]; without [gte] the filter is the id alone.  The
    result is [count]. *)
Definition updateManyCredits (userId : string) (gte : option Z) (decrement : Z)
  : IO Z :=
  fun w =>
    match users (db w) !! userId with
    | Some u =>
        if match gte with Some m => m <=? credits u | None => true end
        then
          (Return 1,
           withDb (withUsers
                     (<[userId := {| credits := credits u - decrement;
                                     subscriptionTier := subscriptionTier u;
                                     email := email u |}]> (users (db w)))
                     (db w)) w)
        else (Return 0, w)
    | None => (Return 0, w)
    end.

Definition createCreditTransaction (row : CreditTransaction) : IO unit :=
  fun w =>
    (Return tt,
     withDb (withCreditTransactions (creditTransactions (db w) ++ [row]) (db w)) w).

Definition createSearchHistory (row : SearchHistory) : IO unit :=
  fun w =>
    (Return tt, withDb (withSearchHistory (searchHistory (db w) ++ [row]) (db w)) w).

(** [prisma.place.upsert({ where: { googleId }, update, create })]. *)
Definition upsertPlace (place : Place) : IO DbPlace :=
  fun w =>
    let saved :=
      match placeRows (db w) !! place_id place with
      | Some row =>
          {| db_id := db_id row; googleId := googleId row;
             db_name := name place;
             db_address := formatted_address place;
             db_rating := rating place;
             db_userRatingsTotal := user_ratings_total place;
             db_location := location place;
             db_website := website place;
             db_emails := db_emails row; db_emailScores := db_emailScores row;
             db_phones := db_phones row; db_socials := db_socials row;
             scrapeStatus := scrapeStatus row |}
      | None =>
          {| db_id := "place-" +:+ place_id place; googleId := place_id place;
             db_name := name place;
             db_address := formatted_address place;
             db_rating := rating place;
             db_userRatingsTotal := user_ratings_total place;
             db_location := location place;
             db_website := website place;
             db_emails := []; db_emailScores := None;
             db_phones := []; db_socials := None;
             scrapeStatus := PENDING |}
      end in
    (Return saved,
     withDb (withPlaces (<[place_id place := saved]> (placeRows (db w))) (db w)) w).

(** [prisma.lead.upsert] on [(userId, placeId)] with an empty update. *)
Definition upsertLead (userId placeId : string) : IO unit :=
  fun w =>
    if bool_decide ((userId, placeId) ∈ leads (db w)) then (Return tt, w)
    else (Return tt, withDb (withLeads (leads (db w) ++ [(userId, placeId)]) (db w)) w).

(** [prisma.place.findMany({ where: { googleId: { in: ids } } })], the rows
    listed in the order of [ids]. *)
Definition findManyPlaces (ids : list string) : IO (list DbPlace) :=
  fun w =>
    (Return (flat_map (fun id => match placeRows (db w) !! id with
                                 | Some row => [row]
                                 | None => []
                                 end) ids),
     w).

(** [prisma.searchCache.upsert({ where: { queryKey }, ... })]. *)
Definition upsertSearchCache (queryKey : string) (results : SearchResult)
  : IO unit :=
  fun w =>
    (Return tt,
     withDb (withSearchCache (<[queryKey := results]> (searchCache (db w)))
               (db w)) w).

Definition addEnrichmentJob (job : EnrichmentJob) : IO unit :=
  fun w => (Return tt, withQueue (enrichmentQueue w ++ [job]) w).

(** [Number(a?.latitude || b?.latitude || 0)] and the like: the first
    defined, non-zero number. *)
Definition firstNonZero (a b : option R) : R :=
  match a with
  | Some x => if Req_dec_T x 0 then
                match b with
                | Some y => if Req_dec_T y 0 then 0%R else y
                | None => 0%R
                end
              else x
  | None => match b with
            | Some y => if Req_dec_T y 0 then 0%R else y
            | None => 0%R
            end
  end.

Definition viewportOf (v : RawViewport) : GridGenerator.Viewport :=
  {| GridGenerator.northeast :=
       {| GridGenerator.lat := firstNonZero (vp_northeast v ≫= latitude)
                                 (vp_high v ≫= latitude);
          GridGenerator.lng := firstNonZero (vp_northeast v ≫= longitude)
                                 (vp_high v ≫= longitude) |};
     GridGenerator.southwest :=
       {| GridGenerator.lat := firstNonZero (vp_southwest v ≫= latitude)
                                 (vp_low v ≫= latitude);
          GridGenerator.lng := firstNonZero (vp_southwest v ≫= longitude)
                                 (vp_low v ≫= longitude) |} |}.

(** The grid path is taken unless there is no viewport or its northeast
    corner is (0, 0). *)
Definition usableViewport (v : GridGenerator.Viewport) : bool :=
  if Req_dec_T (GridGenerator.lat (GridGenerator.northeast v)) 0
  then if Req_dec_T (GridGenerator.lng (GridGenerator.northeast v)) 0
       then false else true
  else true.

(** [gridResults.filter(p => { if (seen.has(p.place_id)) return false;
    seen.add(p.place_id); return true; })]. *)
Fixpoint dedupeByPlaceId (seen : gset string) (l : list Place) : list Place :=
  match l with
  | [] => []
  | p :: rest =>
      if bool_decide (place_id p ∈ seen) then dedupeByPlaceId seen rest
      else p :: dedupeByPlaceId ({[place_id p]} ∪ seen) rest
  end.

(** The slim projection cached for deep-search pagination. *)
Definition slimPlace (p : Place) : Place :=
  {| place_id := place_id p; name := name p;
     rating := rating p; user_ratings_total := user_ratings_total p;
     formatted_address := formatted_address p;
     formatted_phone_number := formatted_phone_number p;
     website := website p; business_status := business_status p;
     location := location p; viewport := None;
     photos := photos p; open_now := open_now p;
     emails := None; emailScores := None; phones := None; socials := None |}.

(** A row of the record store presented like a provider place (deep-search
    continuation from the id list). *)
Definition placeOfRow (row : DbPlace) : Place :=
  {| place_id := googleId row; name := db_name row;
     rating := db_rating row; user_ratings_total := db_userRatingsTotal row;
     formatted_address := db_address row;
     formatted_phone_number := None;
     website := db_website row; business_status := None;
     location := db_location row; viewport := None;
     photos := []; open_now := None;
     emails := Some (db_emails row); emailScores := db_emailScores row;
     phones := Some (db_phones row); socials := db_socials row |}.

Definition baseGridSizeByTier (config : Config) (tier : SubscriptionTier) : Z :=
  match tier with
  | FREE => 3
  | STARTER => 4
  | PRO => 5
  | BUSINESS => if 0 <? DEEP_SEARCH_BUSINESS_GRID_SIZE config
                then DEEP_SEARCH_BUSINESS_GRID_SIZE config else 10
  end.

Definition basePagesByTier (config : Config) (tier : SubscriptionTier) : Z :=
  match tier with
  | FREE => 2
  | STARTER => 3
  | PRO => 4
  | BUSINESS => if 0 <? DEEP_SEARCH_BUSINESS_MAX_PAGES_PER_GRID config
                then DEEP_SEARCH_BUSINESS_MAX_PAGES_PER_GRID config else 8
  end.

(** [Math.max(10, Math.min(configuredDeepPageSize, 500))]. *)
Definition DEEP_PAGE_SIZE (config : Config) : Z :=
  Z.max 10 (Z.min (DEEP_SEARCH_PAGE_SIZE config) 500).

(** The cost of a call: 10 for a new deep search, 1 otherwise. *)
Definition requiredCreditsOf (initialPageToken : option string)
    (deepSearch : bool) : Z :=
  if negb (truthy initialPageToken) && deepSearch then 10 else 1.

Definition isDeepToken (initialPageToken : option string) : bool :=
  match initialPageToken with
  | Some t => negb (String.eqb t "") && String.prefix "deep:" t
  | None => false
  end.

(** [isPaidPagination]: set in the [else if] branch of the cost rules. *)
Definition isPaidPaginationOf (initialPageToken : option string)
    (deepSearch : bool) : bool :=
  if negb (truthy initialPageToken) && deepSearch then false
  else isDeepToken initialPageToken.

(** [Math.max(0, user.credits - requiredCredits)]. *)
Definition remainingCreditsOf (user : User) (requiredCredits : Z) : Z :=
  Z.max 0 (credits user - requiredCredits).

(** [Math.min(MAX_DEEP_PAGES, Math.max(1, 1 + remainingCredits))
     * DEEP_PAGE_SIZE]. *)
Definition maxResultsByCredits (config : Config) (remainingCredits : Z) : Z :=
  Z.min (DEEP_SEARCH_MAX_PAGES config) (Z.max 1 (1 + remainingCredits))
  * DEEP_PAGE_SIZE config.

(** The continuation policy of a standard search. *)
Definition standardNextToken (STANDARD_PAGE_SIZE : Z) (allPlaces : list Place)
    (currentToken : option string) : option string :=
  let limitedPlaces := slice allPlaces 0 STANDARD_PAGE_SIZE in
  if negb (truthy currentToken) then
    if 60 <=? Z.of_nat (length allPlaces) then Some "google_limit_reached"
    else None
  else
    if (length limitedPlaces <? length allPlaces)%nat
    then Some "plan_limit_reached"
    else currentToken.

Section Core.
Context {redis : RedisClient}.
Variable config : Config.
Variable gateway : PlacesGateway.
Variable normalizeInput : string -> string.   (* value.trim().toLowerCase() *)

(** [persistAndPublish(placesToSave)], for one place. *)
Definition persistOne (userId effectiveJobId : string) (place : Place)
  : IO Place :=
  savedPlace ← upsertPlace place;
  upsertLead userId (db_id savedPlace);;
  (if bool_decide (db_emails savedPlace = [])
      && match scrapeStatus savedPlace with PENDING => true | _ => false end
   then addEnrichmentJob
          {| ej_placeId := db_id savedPlace;
             ej_website := default "" (website place);
             ej_name := name place;
             ej_address := formatted_address place;
             ej_jobId := effectiveJobId |}
   else mret tt);;
  mret {| place_id := googleId savedPlace; name := db_name savedPlace;
          rating := rating place;
          user_ratings_total := user_ratings_total place;
          formatted_address := formatted_address place;
          formatted_phone_number := formatted_phone_number place;
          website := db_website savedPlace;
          business_status := business_status place;
          location := location place; viewport := viewport place;
          photos := photos place; open_now := open_now place;
          emails := Some (db_emails savedPlace);
          emailScores := Some (default "{}" (db_emailScores savedPlace));
          phones := Some (db_phones savedPlace);
          socials := db_socials savedPlace |}.

Definition persistAndPublish (userId effectiveJobId : string)
    (placesToSave : list Place) : IO (list Place) :=
  if bool_decide (placesToSave = []) then mret []
  else
    enrichedBatch ← promiseAll (persistOne userId effectiveJobId) placesToSave;
    (if negb (String.eqb effectiveJobId "")
        && (0 <? length enrichedBatch)%nat
     then _ ← call (PUBLISH ("search:updates:" +:+ effectiveJobId)
                      (PPlaces enrichedBatch)); mret tt
     else mret tt);;
    mret enrichedBatch.

(** Step 1: the billing record of the user is found or created. *)
Definition findOrCreateUser (userId : string) : IO User :=
  fun w =>
    match users (db w) !! userId with
    | Some u => (Return u, w)
    | None =>
        let u := {| credits := 100;
                    subscriptionTier := Some FREE;
                    email := if includesChar "@" userId then userId
                             else userId +:+ "@zakrom-test.com" |} in
        (Return u, withDb (withUsers (<[userId := u]> (users (db w))) (db w)) w)
    end.

(** Branch A: a page of a cached deep search, [deep:<offset>]. *)
Definition deepContinuation (userId effectiveJobId : string)
    (listCacheKey listDataCacheKey : string) (token : string)
  : IO (list Place * option string) :=
  match parseInt (default "" (splitOn ":" token !! 1%nat)) with
  | None => throw (mkError "Geçersiz sayfa tokenı.")
  | Some startIndex =>
      allPlacesParam ← call (GET listDataCacheKey);
      allIdsParam ← call (GET listCacheKey);
      let pageEnd := startIndex + DEEP_PAGE_SIZE config in
      if replyTruthy allPlacesParam then
        let allPlaces := match allPlacesParam with
                         | Bulk (PPlaces l) | Bulk (PDeepList l _) => l
                         | _ => []
                         end in
        let limitedPlaces := slice allPlaces startIndex pageEnd in
        enrichedPlaces ← persistAndPublish userId effectiveJobId limitedPlaces;
        mret (enrichedPlaces,
              if pageEnd <? Z.of_nat (length allPlaces)
              then Some ("deep:" +:+ pretty pageEnd) else None)
      else
        if negb (replyTruthy allIdsParam)
        then throw (mkError "Arama süresi dolmuş, lütfen tekrar arayın.")
        else
          let allIds := match allIdsParam with
                        | Bulk (PIds l) => l
                        | _ => []
                        end in
          let sliceIds := slice allIds startIndex pageEnd in
          placesFromDb ← findManyPlaces sliceIds;
          mret (List.map placeOfRow placesFromDb,
                if pageEnd <? Z.of_nat (length allIds)
                then Some ("deep:" +:+ pretty pageEnd) else None)
  end.

(** Branch B, deep search: the scan (or the fallback query), the
    credit-aware cap, the cached lists and the first page. *)
Definition deepInitiation (userId effectiveJobId : string)
    (city keyword : string) (listCacheKey listDataCacheKey : string)
    (remainingCredits gridSize maxPagesPerGrid : Z)
  : IO (list Place * list Place * option string) :=
  cityResult ← gw_searchText gateway city
                 {| pageToken := None; pageSize := Some 1; locationBias := None |};
  let cityPlace := head (places cityResult) in
  let cityViewport := viewportOf <$> (cityPlace ≫= viewport) in
  '(allPlaces, enrichedPlaces) ←
    match cityViewport with
    | Some v =>
        if usableViewport v then
          gridResults ← gw_scanCity gateway keyword v
                          {| Gateway.gridSize := Some (IZR gridSize);
                             maxPagesPerGrid := Some (Z.to_nat maxPagesPerGrid) |};
          mret (dedupeByPlaceId ∅ gridResults, [])
        else
          result ← gw_searchText gateway (keyword +:+ " in " +:+ city) noOptions;
          persistedBatch ← persistAndPublish userId effectiveJobId (places result);
          mret (places result, persistedBatch)
    | None =>
        result ← gw_searchText gateway (keyword +:+ " in " +:+ city) noOptions;
        persistedBatch ← persistAndPublish userId effectiveJobId (places result);
        mret (places result, persistedBatch)
    end;
  let cap := maxResultsByCredits config remainingCredits in
  let allPlaces := if cap <? Z.of_nat (length allPlaces)
                   then slice allPlaces 0 cap else allPlaces in
  let allIds := List.map place_id allPlaces in
  let slimPlaces := List.map slimPlace allPlaces in
  _ ← call (SET listCacheKey (PIds allIds) (Some (1000 * LONG_TERM_TTL)) false);
  _ ← call (SET listDataCacheKey (PDeepList slimPlaces (DEEP_PAGE_SIZE config))
              (Some (1000 * LONG_TERM_TTL)) false);
  let limitedPlaces := slice allPlaces 0 (DEEP_PAGE_SIZE config) in
  let nextToken := if DEEP_PAGE_SIZE config <? Z.of_nat (length allPlaces)
                   then Some ("deep:" +:+ pretty (DEEP_PAGE_SIZE config))
                   else None in
  enrichedPlaces ←
    (if bool_decide (length enrichedPlaces = 0%nat)
     then persistAndPublish userId effectiveJobId limitedPlaces
     else mret enrichedPlaces);
  mret (limitedPlaces, enrichedPlaces, nextToken).

(** The [while (fetchCount < MAX_FETCHES && allPlaces.length <
    STANDARD_PAGE_SIZE)] loop of a standard search; it yields [allPlaces],
    [enrichedPlaces] and [currentToken]. *)
Fixpoint standardLoop (fuel : nat) (userId effectiveJobId : string)
    (query : string) (STANDARD_PAGE_SIZE MAX_FETCHES : Z)
    (allPlaces enrichedPlaces : list Place) (currentToken : option string)
    (fetchCount : Z) : IO (list Place * list Place * option string) :=
  if (fetchCount <? MAX_FETCHES)
     && (Z.of_nat (length allPlaces) <? STANDARD_PAGE_SIZE)
  then
    match fuel with
    | O => mret (allPlaces, enrichedPlaces, currentToken)
    | S fuel' =>
        result ← gw_searchText gateway query
                   {| pageToken := currentToken; pageSize := None;
                      locationBias := None |};
        let newPlaces := places result in
        batch ← (if (0 <? length newPlaces)%nat
                 then persistAndPublish userId effectiveJobId newPlaces
                 else mret []);
        let enrichedPlaces' := enrichedPlaces ++ batch in
        let allPlaces' := allPlaces ++ newPlaces in
        let currentToken' := nextPageToken result in
        if negb (truthy currentToken')
        then mret (allPlaces', enrichedPlaces', currentToken')
        else standardLoop fuel' userId effectiveJobId query STANDARD_PAGE_SIZE
               MAX_FETCHES allPlaces' enrichedPlaces' currentToken'
               (fetchCount + 1)
    end
  else mret (allPlaces, enrichedPlaces, currentToken).

(** Branch B, standard search. *)
Definition standardSearch (userId effectiveJobId : string)
    (city keyword : string) (STANDARD_PAGE_SIZE : Z)
  : IO (list Place * list Place * option string) :=
  let query := keyword +:+ " in " +:+ city in
  let MAX_FETCHES := (STANDARD_PAGE_SIZE + 19) / 20 + 1 in
  '(allPlaces, enrichedPlaces, currentToken) ←
    standardLoop (Z.to_nat MAX_FETCHES) userId effectiveJobId query
      STANDARD_PAGE_SIZE MAX_FETCHES [] [] None 0;
  let limitedPlaces := slice allPlaces 0 STANDARD_PAGE_SIZE in
  let enrichedPlaces := slice enrichedPlaces 0 STANDARD_PAGE_SIZE in
  mret (limitedPlaces, enrichedPlaces,
        standardNextToken STANDARD_PAGE_SIZE allPlaces currentToken).

(** The billing transaction of a new search. *)
Definition billingTransaction (userId normalizedCity normalizedKeyword : string)
    (city keyword : string) (deepSearch isPaidPagination : bool)
    (requiredCredits : Z) (limitedPlaces : list Place) : IO unit :=
  transaction
    (updated ← updateManyCredits userId (Some requiredCredits) requiredCredits;
     (if updated =? 0 then throw (mkError "Yetersiz bakiye.") else mret tt);;
     createCreditTransaction
       {| ct_userId := userId;
          ct_amount := - requiredCredits;
          ct_type := if deepSearch then "DEEP_SEARCH"
                     else if isPaidPagination then "PAGE_LOAD" else "SEARCH";
          ct_description :=
            dquote +:+ keyword +:+ dquote +:+ " için " +:+ city
            +:+ (if deepSearch then " bölgesinde derin arama"
                 else " bölgesinde arama");
          ct_resultCount := Some (Z.of_nat (length limitedPlaces));
          ct_pageToken := None |};;
     if negb isPaidPagination
     then createSearchHistory
            {| sh_userId := userId;
               sh_city := normalizedCity;
               sh_keyword := normalizedKeyword;
               sh_resultCount := if deepSearch then 999
                                 else Z.of_nat (length limitedPlaces) |}
     else mret tt).

(** The billing transaction of the legacy provider-token path. *)
Definition legacyBillingTransaction (userId normalizedCity normalizedKeyword : string)
    (keyword : string) (initialPageToken : option string) : IO unit :=
  transaction
    (_ ← updateManyCredits userId None 1;
     createCreditTransaction
       {| ct_userId := userId;
          ct_amount := -1;
          ct_type := "PAGE_LOAD";
          ct_description :=
            dquote +:+ keyword +:+ dquote +:+ " araması sayfa yüklemesi";
          ct_resultCount := None;
          ct_pageToken := initialPageToken |}).

(** [executeSearchCore(city, keyword, userId, initialPageToken, deepSearch,
    jobId)]. *)
Definition executeSearchCore (city keyword userId : string)
    (initialPageToken : option string) (deepSearch : bool)
    (jobId : option string) : IO SearchResult :=
  let normalizedCity := normalizeInput city in
  let normalizedKeyword := normalizeInput keyword in
  effectiveJobId ← (if truthy jobId then mret (default "" jobId) else randomUUID);
  let listCacheKey :=
    "search:list:" +:+ normalizedCity +:+ ":" +:+ normalizedKeyword in
  let listDataCacheKey :=
    "search:list:data:" +:+ normalizedCity +:+ ":" +:+ normalizedKeyword in
  let cacheKey :=
    "search:" +:+ normalizedCity +:+ ":" +:+ normalizedKeyword +:+ ":"
    +:+ (if truthy initialPageToken then default "" initialPageToken else "p1") in
  user ← findOrCreateUser userId;
  let requiredCredits := requiredCreditsOf initialPageToken deepSearch in
  let isPaidPagination := isPaidPaginationOf initialPageToken deepSearch in
  if credits user <? requiredCredits
  then throw (insufficientBalance requiredCredits)
  else
    let tier := default FREE (subscriptionTier user) in
    let STANDARD_PAGE_SIZE := resultsPerSearch config tier in
    let remainingCredits := remainingCreditsOf user requiredCredits in
    let creditBoost := if 200 <=? remainingCredits then 2
                       else if 50 <=? remainingCredits then 1 else 0 in
    let gridSize := Z.min (baseGridSizeByTier config tier + creditBoost) 12 in
    let maxPagesPerGrid := Z.min (basePagesByTier config tier + creditBoost) 10 in
    if isDeepToken initialPageToken then
      '(enrichedPlaces, nextToken) ←
        deepContinuation userId effectiveJobId listCacheKey listDataCacheKey
          (default "" initialPageToken);
      mret {| res_places := enrichedPlaces; res_nextPageToken := nextToken;
              res_jobId := effectiveJobId |}
    else if negb (truthy initialPageToken) then
      '(limitedPlaces, enrichedPlaces, nextToken) ←
        (if deepSearch
         then deepInitiation userId effectiveJobId city keyword listCacheKey
                listDataCacheKey remainingCredits gridSize maxPagesPerGrid
         else standardSearch userId effectiveJobId city keyword
                STANDARD_PAGE_SIZE);
      billingTransaction userId normalizedCity normalizedKeyword city keyword
        deepSearch isPaidPagination requiredCredits limitedPlaces;;
      let finalResult :=
        {| res_places := enrichedPlaces; res_nextPageToken := nextToken;
           res_jobId := effectiveJobId |} in
      _ ← call (SET cacheKey (PResult finalResult)
                  (Some (1000 * LONG_TERM_TTL)) false);
      upsertSearchCache cacheKey finalResult;;
      mret finalResult
    else
      result ← gw_searchText gateway (keyword +:+ " in " +:+ city)
                 {| pageToken := initialPageToken; pageSize := None;
                    locationBias := None |};
      legacyBillingTransaction userId normalizedCity normalizedKeyword keyword
        initialPageToken;;
      enrichedPlaces ← persistAndPublish userId effectiveJobId (places result);
      mret {| res_places := enrichedPlaces;
              res_nextPageToken := nextPageToken result;
              res_jobId := effectiveJobId |}.

End Core.

(** [googlePlacesGateway], the singleton built from the gateway class. *)
Definition googlePlacesGateway {redis : RedisClient}
    (GOOGLE_API_KEYS : list string)
    (fetch : nat -> string -> SearchRequest -> FetchOutcome) : PlacesGateway :=
  {| gw_searchText := searchText GOOGLE_API_KEYS fetch;
     gw_scanCity := scanCity (searchText GOOGLE_API_KEYS fetch) |}.

End Orchestrator.

(** ** Polling and repeated calls ([lib/traffic-control], [waitForValue]) *)

Module Polling.
Import Js Runtime TrafficControl.
Local Open Scope Z_scope.

(** What a key holds in a given world, as the primitives look at it: nothing
    (absent or expired), the integer of a counter (0 when there is none), the
    members of a sorted set (none when there is no set). *)
Definition isFree (key : string) (w : World) : bool :=
  match lookupLive (clock w) key (store w) with
  | None => true
  | Some _ => false
  end.

Definition counterOf (key : string) (w : World) : option Z :=
  match lookupLive (clock w) key (store w) with
  | None => Some 0
  | Some {| value := VInt n |} => Some n
  | Some _ => None
  end.


Definition payloadOf (key : string) (w : World) : option Payload :=
  match lookupLive (clock w) key (store w) with
  | Some {| value := VStr p |} => Some p
  | _ => None
  end.

Definition expiryOf (key : string) (w : World) : option Z :=
  lookupLive (clock w) key (store w) ≫= expireAt.

(** A GET of the key does not fail: the key does not hold a sorted set. *)
Definition readable (key : string) (w : World) : bool :=
  match lookupLive (clock w) key (store w) with
  | Some {| value := VZSet _ |} => false
  | _ => true
  end.

(** [n] calls one after the other, and calls spaced by sleeps: the [i]-th
    call is made [delays !! i] milliseconds after the previous one. *)
Fixpoint repeatCall {A : Type} (n : nat) (m : IO A) : IO (list A) :=
  match n with
  | O => mret []
  | S n' => x ← m; xs ← repeatCall n' m; mret (x :: xs)
  end.

Fixpoint spacedCalls {A : Type} (delays : list Z) (m : IO A) : IO (list A) :=
  match delays with
  | [] => mret []
  | d :: rest => sleep d;; x ← m; xs ← spacedCalls rest m; mret (x :: xs)
  end.

Section WithClient.
Context {redis : RedisClient}.

(** The [while (Date.now() < deadline)] loop of [waitForValue]; [fuel] bounds
    the number of polls. *)
Fixpoint waitLoop (fuel : nat) (key : string) (deadline pollMs : Z)
  : IO Reply :=
  now ← dateNow;
  if now <? deadline then
    match fuel with
    | O => mret Nil
    | S fuel' =>
        value ← call (GET key);
        if replyTruthy value then mret value
        else sleep pollMs;; waitLoop fuel' key deadline pollMs
    end
  else mret Nil.

(** [waitForValue(key, timeoutMs, pollMs)]; [null] is [Nil].  Time passes in
    [sleep] only, so with [pollMs >= 1] the loop makes at most
    [timeoutMs / pollMs + 1] polls. *)
Definition waitForValue (key : string) (timeoutMs pollMs : Z) : IO Reply :=
  now ← dateNow;
  let deadline := now + timeoutMs in
  waitLoop (Z.to_nat (timeoutMs / pollMs) + 1) key deadline pollMs.

End WithClient.

End Polling.

(** ** The entry points around [executeSearchCore]
    ([src/app/actions], [getEnrichedPlaces] and [searchPlacesAsync]) *)

Module SearchActions.
Import Js Data Runtime TrafficControl Gateway Orchestrator.
Local Open Scope Z_scope.

(** What [getEnrichedPlaces] answers for one place. *)
Record EnrichedFields := {
  ef_place_id : string;
  ef_emails : list string;
  ef_emailScores : Json;
  ef_phones : list string;
  ef_socials : Json;
  ef_website : option string;
  ef_scrapeStatus : ScrapeStatus
}.

(** [prisma.place.findMany({ where: { googleId: { in: ids } } })]: the rows
    whose [googleId] is listed, each row once, in the order of the table. *)
Definition findManyByGoogleId (ids : list string) : IO (list DbPlace) :=
  fun w =>
    (Return (List.filter (fun row => bool_decide (googleId row ∈ ids))
               (snd <$> map_to_list (placeRows (db w)))),
     w).

(** [getEnrichedPlaces(placeIds)]. *)
Definition getEnrichedPlaces (placeIds : list string)
  : IO (list EnrichedFields) :=
  if bool_decide (length placeIds = 0%nat) then mret []
  else
    let limitedIds := slice placeIds 0 200 in
    places ← findManyByGoogleId limitedIds;
    mret (List.map
            (fun p => {| ef_place_id := googleId p;
                         ef_emails := db_emails p;
                         ef_emailScores := default "{}" (db_emailScores p);
                         ef_phones := db_phones p;
                         ef_socials := default "{}" (db_socials p);
                         ef_website := db_website p;
                         ef_scrapeStatus := scrapeStatus p |})
            places).

(** The unique constraint on [googleId]: a row is found under its own id. *)
Definition wellKeyed (d : Database) : Prop :=
  forall (k : string) (row : DbPlace),
    placeRows d !! k = Some row -> googleId row = k.

(** The data of a search job, and what [searchPlacesAsync] answers. *)
Record SearchJobData := {
  job_city : string;
  job_keyword : string;
  job_userId : string;
  job_initialPageToken : option string;
  job_deepSearch : bool
}.

Inductive AsyncReply :=
| CACHED (results : Payload)
| JOB (jobId : Payload) (message : option string).

Definition alreadyRunning : string := "Arama zaten devrededir.".

Definition systemBusy : JsError :=
  mkError "Sistem şu an çok yoğun, lütfen az sonra tekrar deneyin.".

(** The string a reply stands for. *)
Definition replyPayload (r : Reply) : Payload :=
  match r with
  | Bulk p => p
  | Status s => PText s
  | Int n => PText (pretty n)
  | Nil => PText ""
  end.

(** The cache key shared by [executeSearchCore] and [searchPlacesAsync]. *)
Definition cacheKeyOf (normalizedCity normalizedKeyword : string)
    (initialPageToken : option string) : string :=
  "search:" +:+ normalizedCity +:+ ":" +:+ normalizedKeyword +:+ ":"
  +:+ (if truthy initialPageToken then default "" initialPageToken else "p1").

Section Entry.
Context {redis : RedisClient}.

Variable normalizeInput : string -> string.   (* value.trim().toLowerCase() *)

(** [SearchSchema.safeParse] (zod): the message of the first issue, or the
    trimmed city and keyword. *)
Variable safeParse : string -> string -> bool -> string + (string * string).

(** [addSearchJob] of [lib/queue/search-queue] (not part of the sources at
    hand): it enqueues the job and yields its id. *)
Variable addSearchJob : SearchJobData -> IO string.

(** [JSON.parse] of a text that is not one of the structured payloads. *)
Variable parseText : string -> Outcome Payload.

Definition jsonParse (cached : Reply) : IO Payload :=
  fun w =>
    (match replyPayload cached with
     | PText s => parseText s
     | p => Return p
     end, w).

(** The [for (let i = 0; i < 5; i++)] loop: sleep 300 ms, then look for the
    tracker of a job another request has created. *)
Fixpoint pollActiveJob (tries : nat) (trackerKey : string)
  : IO (option Reply) :=
  match tries with
  | O => mret None
  | S tries' =>
      sleep 300;;
      existingJobId ← call (GET trackerKey);
      if replyTruthy existingJobId then mret (Some existingJobId)
      else pollActiveJob tries' trackerKey
  end.

(** The [try { ... } finally { releaseLock }] block, entered with the lock. *)
Definition enqueueUnderLock (validatedCity validatedKeyword userId : string)
    (initialPageToken : option string) (deepSearch : bool)
    (cacheKey jobLockKey : string) (lockToken : option string)
  : IO AsyncReply :=
  tryFinally
    (secondCacheCheck ← call (GET cacheKey);
     if replyTruthy secondCacheCheck
     then results ← jsonParse secondCacheCheck; mret (CACHED results)
     else
       activeJobId ← call (GET ("active-job:" +:+ cacheKey));
       if replyTruthy activeJobId
       then mret (JOB (replyPayload activeJobId) (Some alreadyRunning))
       else
         jobId ← addSearchJob {| job_city := validatedCity;
                                 job_keyword := validatedKeyword;
                                 job_userId := userId;
                                 job_initialPageToken := initialPageToken;
                                 job_deepSearch := deepSearch |};
         _ ← call (SET ("job:" +:+ jobId +:+ ":status") (PText "pending")
                     (Some (1000 * 3600)) false);
         _ ← call (SET ("active-job:" +:+ cacheKey)
                     (PText (if String.eqb jobId "" then "pending" else jobId))
                     (Some (1000 * 60)) false);
         mret (JOB (PText jobId) None))
    (if truthy lockToken
     then releaseLock jobLockKey (default "" lockToken)
     else mret tt).

(** [searchPlacesAsync(city, keyword, userId, initialPageToken, deepSearch)]. *)
Definition searchPlacesAsync (city keyword userId : string)
    (initialPageToken : option string) (deepSearch : bool) : IO AsyncReply :=
  match safeParse city keyword deepSearch with
  | inl message => throw (mkError message)
  | inr (validatedCity, validatedKeyword) =>
      let normalizedCity := normalizeInput validatedCity in
      let normalizedKeyword := normalizeInput validatedKeyword in
      let cacheKey :=
        cacheKeyOf normalizedCity normalizedKeyword initialPageToken in
      let jobLockKey := "lock:job:" +:+ cacheKey in
      cachedResults ← call (GET cacheKey);
      if replyTruthy cachedResults
      then results ← jsonParse cachedResults; mret (CACHED results)
      else
        lockToken ← acquireLock jobLockKey 10000;
        if negb (truthy lockToken) then
          existing ← pollActiveJob 5 ("active-job:" +:+ cacheKey);
          match existing with
          | Some existingJobId =>
              mret (JOB (replyPayload existingJobId) (Some alreadyRunning))
          | None =>
              lockToken ← acquireLock jobLockKey 10000;
              if negb (truthy lockToken) then throw systemBusy
              else enqueueUnderLock validatedCity validatedKeyword userId
                     initialPageToken deepSearch cacheKey jobLockKey lockToken
          end
        else enqueueUnderLock validatedCity validatedKeyword userId
               initialPageToken deepSearch cacheKey jobLockKey lockToken
  end.

End Entry.

End SearchActions.

(** ** The enrichment worker ([setupEnrichmentWorker]) *)

Module EnrichmentWorker.
Import Js Data Runtime.

(** [ScrapedData] of [lib/scraper]; [meta] is only logged. *)
Record ScrapedData := {
  sd_emails : list string;
  sd_emailScores : option Json;
  sd_phones : list string;
  sd_socials : Json
}.

(** What [searchDuckDuckGoTargets] resolves to. *)
Record DdgTargets := {
  ddg_website : option string;
  ddg_socials : Json
}.

(** The object of the real-time update. *)
Record EnrichmentUpdate := {
  eu_place_id : string;
  eu_name : string;
  eu_emails : list string;
  eu_emailScores : option Json;
  eu_phones : list string;
  eu_socials : option Json;
  eu_website : option string;
  eu_formatted_address : option string
}.

(** The error of [prisma.place.update] when no row has the id. *)
Definition recordNotFound : JsError :=
  {| err_name := "PrismaClientKnownRequestError";
     err_message := "Record to update not found." |}.

(** The primary key of the place table: no two rows share an id. *)
Definition uniqueIds (d : Database) : Prop :=
  forall (k1 k2 : string) (r1 r2 : DbPlace),
    placeRows d !! k1 = Some r1 -> placeRows d !! k2 = Some r2 ->
    db_id r1 = db_id r2 -> k1 = k2.

Definition findPlaceById (placeId : string) (d : Database)
  : option (string * DbPlace) :=
  List.find (fun kr => String.eqb (db_id (snd kr)) placeId)
    (map_to_list (placeRows d)).

(** The world in which the row kept under [k] has been replaced. *)
Definition putRow (k : string) (row : DbPlace) (w : World) : World :=
  withDb (Orchestrator.withPlaces (<[k := row]> (placeRows (db w))) (db w)) w.

(** [prisma.place.update({ where: { id }, data })]: the updated row, or an
    error when there is none. *)
Definition updatePlaceById (placeId : string) (data : DbPlace -> DbPlace)
  : IO DbPlace :=
  fun w =>
    match findPlaceById placeId (db w) with
    | Some (k, row) => (Return (data row), putRow k (data row) w)
    | None => (Throw recordNotFound, w)
    end.

(** From [w] to [w'] the row kept under [k] has become [row'] and no other
    record has changed: the other rows, the users, the leads, the ledger,
    the history, the durable cache and the enrichment queue are as they
    were. *)
Definition onlyRow (k : string) (row' : DbPlace) (w w' : World) : Prop :=
  placeRows (db w') = <[k := row']> (placeRows (db w))
  /\ users (db w') = users (db w)
  /\ leads (db w') = leads (db w)
  /\ creditTransactions (db w') = creditTransactions (db w)
  /\ searchHistory (db w') = searchHistory (db w)
  /\ searchCache (db w') = searchCache (db w)
  /\ enrichmentQueue w' = enrichmentQueue w.

(** [data: { scrapeStatus }]. *)
Definition withStatus (status : ScrapeStatus) (row : DbPlace) : DbPlace :=
  {| db_id := db_id row; googleId := googleId row; db_name := db_name row;
     db_address := db_address row; db_rating := db_rating row;
     db_userRatingsTotal := db_userRatingsTotal row;
     db_location := db_location row; db_website := db_website row;
     db_emails := db_emails row; db_emailScores := db_emailScores row;
     db_phones := db_phones row; db_socials := db_socials row;
     scrapeStatus := status |}.

(** The [data] of the final update: the merged enrichment fields, the
    status, and the website when there is one to save. *)
Definition withEnrichment (emails : list string) (emailScores : Json)
    (phones : list string) (socials : Json) (website : option string)
    (row : DbPlace) : DbPlace :=
  {| db_id := db_id row; googleId := googleId row; db_name := db_name row;
     db_address := db_address row; db_rating := db_rating row;
     db_userRatingsTotal := db_userRatingsTotal row;
     db_location := db_location row;
     db_website := match website with
                   | Some site => Some site
                   | None => db_website row
                   end;
     db_emails := emails; db_emailScores := Some emailScores;
     db_phones := phones; db_socials := Some socials;
     scrapeStatus := COMPLETED |}.

Definition updateOf (updatedPlace : DbPlace) : EnrichmentUpdate :=
  {| eu_place_id := googleId updatedPlace;
     eu_name := db_name updatedPlace;
     eu_emails := db_emails updatedPlace;
     eu_emailScores := db_emailScores updatedPlace;
     eu_phones := db_phones updatedPlace;
     eu_socials := db_socials updatedPlace;
     eu_website := db_website updatedPlace;
     eu_formatted_address := db_address updatedPlace |}.

(** What is known of the row of a job while its processor runs from [w]: in
    [w'] the row is [r], still the only one with its id, and nothing else has
    been written. *)
Definition tracks (placeId k : string) (w w' : World) (r : DbPlace) : Prop :=
  placeRows (db w') !! k = Some r
  /\ uniqueIds (db w')
  /\ db_id r = placeId
  /\ onlyRow k r w w'.

Section Processor.
Context {redis : RedisClient}.

(** The scraper, and the operations of the language on JSON values the
    model keeps opaque: [x || {}], [Object.keys(o).length], [{...a, ...b}],
    [s.trim()] and [JSON.stringify] of the update. *)
Variable scrapeWebsite : string -> IO ScrapedData.
Variable searchDuckDuckGoTargets : string -> IO DdgTargets.
Variable orEmpty : option Json -> Json.
Variable objectKeys : Json -> nat.
Variable spread : Json -> Json -> Json.
Variable trim : string -> string.
Variable stringify : list EnrichmentUpdate -> string.

(** The fallback lookup: it yields [targetWebsite], [usedFallback] and
    [foundSocials]. *)
Definition lookupTargets (job : EnrichmentJob) (targetWebsite : string)
    (socialsMissing : bool) : IO (string * bool * Json) :=
  if negb (truthy (Some targetWebsite)) || socialsMissing then
    ddgResult ← searchDuckDuckGoTargets
                  (ej_name job +:+ " " +:+ default "undefined" (ej_address job));
    let foundUrl := ddg_website ddgResult in
    let foundSocials := ddg_socials ddgResult in
    if truthy foundUrl then
      if negb (truthy (Some targetWebsite))
      then mret (default "" foundUrl, true, foundSocials)
      else mret (targetWebsite, false, foundSocials)
    else mret (targetWebsite, false, foundSocials)
  else mret (targetWebsite, false, orEmpty None).

(** The [try] block of the processor. *)
Definition enrich (job : EnrichmentJob) : IO unit :=
  let placeId := ej_placeId job in
  let website := ej_website job in
  existingPlace ← updatePlaceById placeId (withStatus PROCESSING);
  let targetWebsite := if truthy (Some website) then website
                       else default "" (db_website existingPlace) in
  let existingSocials := orEmpty (db_socials existingPlace) in
  let socialsMissing := bool_decide (objectKeys existingSocials = 0%nat) in
  '(targetWebsite, usedFallback, foundSocials) ←
    lookupTargets job targetWebsite socialsMissing;
  if negb (truthy (Some targetWebsite)) then
    _ ← updatePlaceById placeId (withStatus COMPLETED);
    mret tt
  else
    data ← scrapeWebsite targetWebsite;
    let mergedSocials :=
      spread (spread existingSocials foundSocials) (sd_socials data) in
    let mergedEmails := if (0 <? length (sd_emails data))%nat
                        then sd_emails data else db_emails existingPlace in
    let mergedPhones := if (0 <? length (sd_phones data))%nat
                        then sd_phones data else db_phones existingPlace in
    let mergedEmailScores :=
      match sd_emailScores data with
      | Some scores => if (0 <? objectKeys scores)%nat then scores
                       else orEmpty (db_emailScores existingPlace)
      | None => orEmpty (db_emailScores existingPlace)
      end in
    let finalWebsite :=
      if truthy (Some (trim (default "" (db_website existingPlace))))
      then trim (default "" (db_website existingPlace))
      else targetWebsite in
    updatedPlace ←
      updatePlaceById placeId
        (withEnrichment mergedEmails mergedEmailScores mergedPhones
           mergedSocials
           (if usedFallback && truthy (Some targetWebsite)
            then Some targetWebsite
            else if truthy (Some finalWebsite) then Some finalWebsite
                 else None));
    if truthy (Some (ej_jobId job)) then
      _ ← call (PUBLISH ("search:updates:" +:+ ej_jobId job)
                  (PText (stringify [updateOf updatedPlace])));
      mret tt
    else mret tt.

(** The processor of the worker: [async (job) => { try { ... } catch (error)
    { ...; throw error } }]. *)
Definition processJob (job : EnrichmentJob) : IO unit :=
  tryCatch (enrich job)
    (fun error =>
       _ ← updatePlaceById (ej_placeId job) (withStatus FAILED);
       throw error).

End Processor.

End EnrichmentWorker.

(** ** What saving places may change *)

Module Invariants.
Import Data Runtime Orchestrator SearchActions.

(** The enrichment data of a row, its id and its scrape status are kept. *)
Definition keepsEnrichment (row row' : DbPlace) : Prop :=
  db_id row' = db_id row
  /\ googleId row' = googleId row
  /\ db_emails row' = db_emails row
  /\ db_emailScores row' = db_emailScores row
  /\ db_phones row' = db_phones row
  /\ db_socials row' = db_socials row
  /\ scrapeStatus row' = scrapeStatus row.

(** From [w] to [w'] only places, leads and enrichment jobs have been
    written: the store, the clock, the users, the ledger, the history, the
    durable cache and the provider side are as they were; the place table
    keeps its rows (with their enrichment data) and its unique constraint,
    and the leads keep their entries and their unique constraint. *)
Definition savesPlacesOnly (w w' : World) : Prop :=
  store w' = store w
  /\ clock w' = clock w
  /\ uuidSeed w' = uuidSeed w
  /\ sameProvider w w'
  /\ users (db w') = users (db w)
  /\ creditTransactions (db w') = creditTransactions (db w)
  /\ searchHistory (db w') = searchHistory (db w)
  /\ searchCache (db w') = searchCache (db w)
  /\ (wellKeyed (db w) -> wellKeyed (db w'))
  /\ (forall (k : string) (row : DbPlace),
        placeRows (db w) !! k = Some row ->
        exists row' : DbPlace,
          placeRows (db w') !! k = Some row' /\ keepsEnrichment row row')
  /\ (List.NoDup (leads (db w)) -> List.NoDup (leads (db w')))
  /\ (forall x : string * string, In x (leads (db w)) -> In x (leads (db w'))).

(** What saving one place leaves behind: its row, found under its id, and
    the lead of the user on that row. *)
Definition savedFor (userId : string) (place : Place) (w' : World) : Prop :=
  exists row : DbPlace,
    placeRows (db w') !! place_id place = Some row
    /\ In (userId, db_id row) (leads (db w')).

(** A computation keeps a relation between the world it starts in and the
    world it leaves, whether it returns or throws. *)
Definition Keeps (R : World -> World -> Prop) {A : Type} (m : IO A) : Prop :=
  forall w : World, R w (snd (m w)).

(** From [w] to [w'] no durable record has been written, no job has been
    queued, nothing has been published and no id has been drawn: only the
    store, the clock and the provider side may differ. *)
Definition sameRecords (w w' : World) : Prop :=
  db w' = db w
  /\ enrichmentQueue w' = enrichmentQueue w
  /\ published w' = published w
  /\ uuidSeed w' = uuidSeed w.

(** From [w] to [w'] no account has been touched: the users, the ledger and
    the search history are as they were. *)
Definition sameAccounts (w w' : World) : Prop :=
  users (db w') = users (db w)
  /\ creditTransactions (db w') = creditTransactions (db w)
  /\ searchHistory (db w') = searchHistory (db w).

(** From [w] to [w'] one search has been charged to [userId], who was [u]:
    [cost] is taken from the balance, the ledger has one more entry, of minus
    the cost, and the history one more entry, for the normalized query. *)
Definition chargedOnce (userId normalizedCity normalizedKeyword : string)
    (cost : Z) (u : User) (w w' : World) : Prop :=
  users (db w')
  = <[userId := {| credits := (credits u - cost)%Z;
                   subscriptionTier := subscriptionTier u;
                   email := email u |}]> (users (db w))
  /\ (exists entry : CreditTransaction,
        creditTransactions (db w') = creditTransactions (db w) ++ [entry]
        /\ ct_userId entry = userId /\ ct_amount entry = (- cost)%Z)
  /\ (exists h : SearchHistory,
        searchHistory (db w') = searchHistory (db w) ++ [h]
        /\ sh_userId h = userId
        /\ sh_city h = normalizedCity
        /\ sh_keyword h = normalizedKeyword).

(** A gateway that keeps out of the accounts. *)
Definition keepsAccounts (gateway : PlacesGateway) : Prop :=
  (forall (query : string) (options : Gateway.SearchOptions),
      Keeps sameAccounts (gw_searchText gateway query options))
  /\ (forall (query : string) (viewport : GridGenerator.Viewport)
             (options : Gateway.ScanOptions),
        Keeps sameAccounts (gw_scanCity gateway query viewport options)).

End Invariants.

(** ** Concrete runs used as witnesses and counterexamples *)

Module Scenarios.
Import Js Data Runtime TrafficControl.
Local Open Scope Z_scope.

(** A breaker with a threshold of two failures and a reset timeout of 30
    seconds, and a work that always fails. *)
Definition upstreamDown : IO unit := throw (mkError "upstream down").

Definition breakerDemo : CircuitConfig :=
  {| failureThreshold := Some 2; resetTimeoutSec := Some 30 |}.

(** After one recorded failure. *)
Definition afterFirstFailure : World :=
  snd (@withCircuitBreaker idealRedis unit "google-places" breakerDemo
         upstreamDown emptyWorld).

(** A pool of two credentials, and three providers: one that answers
    503, then times out, then succeeds; one that always times out. *)
Definition twoKeys : list string := ["key-a"; "key-b"].

Definition emptyPage : Gateway.ApiData :=
  {| Gateway.api_places := None; Gateway.api_nextPageToken := None |}.

Definition flakyProvider (n : nat) (key : string)
    (body : Gateway.SearchRequest) : Gateway.FetchOutcome :=
  match n with
  | O => Gateway.Responded 503 "unavailable" None
  | S O => Gateway.Rejected Gateway.abortError
  | _ => Gateway.Responded 200 "" (Some emptyPage)
  end.


(** A provider page of twenty places with a continuation token, and a plan
    whose per-search cap is twenty results. *)
Definition samplePlace (i : nat) : Data.Place :=
  {| Data.place_id := "place-" +:+ pretty i; Data.name := "Gym " +:+ pretty i;
     Data.rating := None; Data.user_ratings_total := None;
     Data.formatted_address := None; Data.formatted_phone_number := None;
     Data.website := None; Data.business_status := None;
     Data.location := None; Data.viewport := None;
     Data.photos := []; Data.open_now := None;
     Data.emails := None; Data.emailScores := None;
     Data.phones := None; Data.socials := None |}.

Definition twentyPlaces : list Data.Place := List.map samplePlace (seq 0 20).

Definition fullPageGateway : Orchestrator.PlacesGateway :=
  {| Orchestrator.gw_searchText :=
       fun _ _ => mret {| Gateway.places := twentyPlaces;
                          Gateway.nextPageToken := Some "T" |};
     Orchestrator.gw_scanCity := fun _ _ _ => mret [] |}.

Definition planOfTwenty : Orchestrator.Config :=
  {| Orchestrator.DEEP_SEARCH_MAX_PAGES := 200;
     Orchestrator.DEEP_SEARCH_PAGE_SIZE := 60;
     Orchestrator.DEEP_SEARCH_BUSINESS_GRID_SIZE := 0;
     Orchestrator.DEEP_SEARCH_BUSINESS_MAX_PAGES_PER_GRID := 0;
     Orchestrator.resultsPerSearch := fun _ => 20%Z |}.

Definition capReachedRun : Runtime.Outcome Data.SearchResult * Runtime.World :=
  @Orchestrator.executeSearchCore Runtime.idealRedis planOfTwenty
    fullPageGateway (fun s => s) "Rome" "gym" "user-1" None false
    (Some "job-1") Runtime.emptyWorld.


(** A deep search whose city lookup finds no viewport, with a configured
    deep page size of 10 and a fallback query answered by twenty places. *)
Definition tenPerPage : Orchestrator.Config :=
  {| Orchestrator.DEEP_SEARCH_MAX_PAGES := 200;
     Orchestrator.DEEP_SEARCH_PAGE_SIZE := 10;
     Orchestrator.DEEP_SEARCH_BUSINESS_GRID_SIZE := 0;
     Orchestrator.DEEP_SEARCH_BUSINESS_MAX_PAGES_PER_GRID := 0;
     Orchestrator.resultsPerSearch := fun _ => 20%Z |}.

Definition noViewportGateway : Orchestrator.PlacesGateway :=
  {| Orchestrator.gw_searchText :=
       fun query _ =>
         if String.eqb query "Rome"
         then mret {| Gateway.places := []; Gateway.nextPageToken := None |}
         else mret {| Gateway.places := twentyPlaces;
                      Gateway.nextPageToken := None |};
     Orchestrator.gw_scanCity := fun _ _ _ => mret [] |}.

Definition deepFallbackRun : Runtime.Outcome Data.SearchResult * Runtime.World :=
  @Orchestrator.executeSearchCore Runtime.idealRedis tenPerPage
    noViewportGateway (fun s => s) "Rome" "gym" "user-1" None true
    (Some "job-1") Runtime.emptyWorld.

(** Two provider-token page loads of the same user, the second one running
    to completion while the first one awaits the provider; the user starts
    with one credit. *)
Definition oneCredit : Runtime.World :=
  Runtime.withDb
    (Orchestrator.withUsers
       {[ "user-1" := {| Runtime.credits := 1;
                         Runtime.subscriptionTier := Some Data.FREE;
                         Runtime.email := "user-1@zakrom-test.com" |} ]}
       Runtime.emptyDb)
    Runtime.emptyWorld.

Definition quietGateway : Orchestrator.PlacesGateway :=
  {| Orchestrator.gw_searchText :=
       fun _ _ => mret {| Gateway.places := []; Gateway.nextPageToken := None |};
     Orchestrator.gw_scanCity := fun _ _ _ => mret [] |}.

Definition racingGateway : Orchestrator.PlacesGateway :=
  {| Orchestrator.gw_searchText :=
       fun _ _ w =>
         (Runtime.Return {| Gateway.places := []; Gateway.nextPageToken := None |},
          snd (@Orchestrator.executeSearchCore Runtime.idealRedis planOfTwenty
                 quietGateway (fun s => s) "Rome" "gym" "user-1"
                 (Some "provider-token") false (Some "job-2") w));
     Orchestrator.gw_scanCity := fun _ _ _ => mret [] |}.

Definition racingRun : Runtime.Outcome Data.SearchResult * Runtime.World :=
  @Orchestrator.executeSearchCore Runtime.idealRedis planOfTwenty
    racingGateway (fun s => s) "Rome" "gym" "user-1"
    (Some "provider-token") false (Some "job-1") oneCredit.

End Scenarios.

(** ** Further concrete worlds and providers *)

Module Samples.
Import Js Data Runtime TrafficControl.
Local Open Scope Z_scope.


(** All hundred slots of the gateway's in-flight limiter are taken. *)
Definition fullHouse : World :=
  withClock 5000
    (withStore
       {[ "google-places:inflight" :=
            {| value := VInt 100; expireAt := Some 30000 |} ]}
       emptyWorld).

(** A provider that answers every request with the same page of two places
    and a continuation token. *)
Definition rawGym (id : string) : RawPlace :=
  {| raw_id := id; raw_displayName := Some ("Gym " +:+ id);
     raw_rating := None; raw_userRatingCount := None;
     raw_formattedAddress := Some "Via Appia 1, Roma";
     raw_nationalPhoneNumber := None; raw_websiteUri := None;
     raw_businessStatus := Some "OPERATIONAL"; raw_location := None;
     raw_viewport := None; raw_photos := None; raw_openNow := Some true |}.

Definition steadyProvider (n : nat) (key : string)
    (body : Gateway.SearchRequest) : Gateway.FetchOutcome :=
  Gateway.Responded 200 ""
    (Some {| Gateway.api_places := Some [rawGym "g-1"; rawGym "g-2"];
             Gateway.api_nextPageToken := Some "next-page" |}).

Definition steadyRun : Outcome Gateway.GatewayResponse * World :=
  @Gateway.searchText idealRedis Scenarios.twoKeys steadyProvider
    "gym in Rome" Gateway.noOptions emptyWorld.

(** A user with five credits and the cached slim list of a deep search for
    gyms in Rome: twenty places, cached with a page size of 10. *)
Definition deepCached : World :=
  withDb
    (Orchestrator.withUsers
       {[ "user-1" := {| credits := 5; subscriptionTier := Some FREE;
                         email := "user-1@zakrom-test.com" |} ]}
       emptyDb)
    (withStore
       {[ "search:list:data:Rome:gym" :=
            {| value := VStr (PDeepList Scenarios.twentyPlaces 10);
               expireAt := None |} ]}
       emptyWorld).

(** Stand-ins for the collaborators of [searchPlacesAsync]: a validation
    that accepts its input as it is, a queue that hands out one job id, and a
    JSON parser that rejects every plain text. *)
Definition acceptAll (city keyword : string) (deepSearch : bool)
  : string + (string * string) :=
  inr (city, keyword).

Definition queueStub (data : SearchActions.SearchJobData) : IO string :=
  mret "job-7".

Definition noJson (text : string) : Outcome Payload :=
  Throw Gateway.syntaxError.

(** The world after twenty places have been saved for a user. *)
Definition savedTwenty : World :=
  snd (@Orchestrator.persistAndPublish idealRedis "user-1" "job-1"
         Scenarios.twentyPlaces emptyWorld).

(** Another request holds the job lock of the query for ten seconds. *)
Definition lockHeld : World :=
  withStore
    {[ "lock:job:search:Rome:gym:p1" :=
         {| value := VStr (PText "uuid-other"); expireAt := Some 10000 |} ]}
    emptyWorld.

(** A standard search for gyms in Rome by the user of [deepCached], who
    holds five credits, on a plan of twenty results. *)
Definition chargedRun : Outcome Data.SearchResult * World :=
  @Orchestrator.executeSearchCore idealRedis Scenarios.planOfTwenty
    Scenarios.fullPageGateway (fun s => s) "Rome" "gym" "user-1" None false
    (Some "job-1") deepCached.




(** A store that refuses to write a finished result and serves every other
    command as the reference store does. *)
Definition refusingResults : RedisClient :=
  {| call := fun c =>
               match c with
               | SET _ (PResult _) _ _ =>
                   throw (Js.mkError "READONLY You can't write against a read only replica.")
               | _ => @call idealRedis c
               end;
     eval := @eval idealRedis;
     exec := @exec idealRedis |}.

(** The search of [chargedRun] on that store. *)
Definition chargedThenRefused : Outcome Data.SearchResult * World :=
  @Orchestrator.executeSearchCore refusingResults Scenarios.planOfTwenty
    Scenarios.fullPageGateway (fun s => s) "Rome" "gym" "user-1" None false
    (Some "job-1") deepCached.

(** The slim list of a deep search has expired and only its id list is
    left: the twenty places saved for user-1, who holds five credits. *)
Definition idsOnly : World :=
  withStore
    {[ "search:list:Rome:gym" :=
         {| value := VStr (PIds (List.map Data.place_id Scenarios.twentyPlaces));
            expireAt := None |} ]}
    (withDb
       (Orchestrator.withUsers
          {[ "user-1" := {| credits := 5; subscriptionTier := Some FREE;
                            email := "user-1@zakrom-test.com" |} ]}
          (db savedTwenty))
       savedTwenty).

(** A place that has been enriched before, the job that enriches it again,
    and stand-ins for the scraper and the JSON operations of the worker:
    this time the site shows no address and no number, the web search finds
    another site, and every JSON object is taken as one without keys. *)
Definition knownGym : DbPlace :=
  {| db_id := "row-1"; googleId := "g-1"; db_name := "Gym g-1";
     db_address := Some "Via Appia 1, Roma"; db_rating := None;
     db_userRatingsTotal := None; db_location := None;
     db_website := Some "https://gym.it";
     db_emails := ["info@gym.it"]; db_emailScores := None;
     db_phones := ["+39 06 1234"]; db_socials := None;
     scrapeStatus := PENDING |}.

Definition oneListing : World :=
  withDb (Orchestrator.withPlaces {[ "g-1" := knownGym ]} emptyDb) emptyWorld.

Definition gymJob : EnrichmentJob :=
  {| ej_placeId := "row-1"; ej_website := ""; ej_name := "Gym g-1";
     ej_address := Some "Via Appia 1, Roma"; ej_jobId := "job-1" |}.

Definition strayJob : EnrichmentJob :=
  {| ej_placeId := "row-9"; ej_website := ""; ej_name := "Gym g-9";
     ej_address := None; ej_jobId := "job-1" |}.

Definition silentSite (url : string) : IO EnrichmentWorker.ScrapedData :=
  mret {| EnrichmentWorker.sd_emails := [];
          EnrichmentWorker.sd_emailScores := None;
          EnrichmentWorker.sd_phones := [];
          EnrichmentWorker.sd_socials := "{}" |}.

Definition otherSite (query : string) : IO EnrichmentWorker.DdgTargets :=
  mret {| EnrichmentWorker.ddg_website := Some "https://other.example";
          EnrichmentWorker.ddg_socials := "{}" |}.

Definition gymRun (job : EnrichmentJob) : Outcome unit * World :=
  @EnrichmentWorker.processJob idealRedis silentSite otherSite
    (fun j => default "{}" j) (fun _ => 0%nat) (fun a b => b) (fun s => s)
    (fun _ => "[update]") job oneListing.

Import PrimFloat.

(** A viewport half a degree tall and a quarter of a degree wide at the
    equator, and the one of no width, in doubles and over the reals. *)
Definition equatorBox : GridGeneratorFloat.Viewport :=
  {| GridGeneratorFloat.northeast :=
       {| GridGeneratorFloat.lat := 0.5; GridGeneratorFloat.lng := 0.25 |};
     GridGeneratorFloat.southwest :=
       {| GridGeneratorFloat.lat := 0; GridGeneratorFloat.lng := 0 |} |}%float.

Definition meridianSegment : GridGeneratorFloat.Viewport :=
  {| GridGeneratorFloat.northeast :=
       {| GridGeneratorFloat.lat := 0.5; GridGeneratorFloat.lng := 0 |};
     GridGeneratorFloat.southwest :=
       {| GridGeneratorFloat.lat := 0; GridGeneratorFloat.lng := 0 |} |}%float.

Definition meridianSegmentExact : GridGenerator.Viewport :=
  {| GridGenerator.northeast :=
       {| GridGenerator.lat := 1 / 2; GridGenerator.lng := 0 |};
     GridGenerator.southwest :=
       {| GridGenerator.lat := 0; GridGenerator.lng := 0 |} |}%R.

(** A stand-in for [Math.cos] near 0: the polynomial [1 - x^2 / 2], which
    is 1 at 0 as the language requires of [Math.cos]. *)
Definition cosineNearZero (x : PrimFloat.float) : PrimFloat.float :=
  (1 - x * x / 2)%float.

End Samples.

Import Scenarios Samples.

(** ** Properties of the grid partitioner *)

Section GridFacts.
Import GridGenerator.

Lemma clampSize_range (g : R) : (1 <= clampSize g <= 20)%Z.
Proof. unfold clampSize. lia. Qed.

Lemma seq_from_offset (b n : nat) :
  seq b n = List.map (fun j => (b + j)%nat) (seq 0 n).
Proof.
  revert b. induction n as [|k IHk]; intros b; [reflexivity|].
  cbn [seq List.map]. rewrite Nat.add_0_r. f_equal.
  rewrite (IHk (S b)), (IHk 1%nat), List.map_map.
  apply List.map_ext. intros; lia.
Qed.

Lemma flat_map_row_major {A : Type} (f : nat -> nat -> A) (n m : nat) :
  flat_map (fun r => List.map (f r) (seq 0 n)) (seq 0 m)
  = List.map (fun i => f (i / n)%nat (i mod n)%nat) (seq 0 (m * n)).
Proof.
  induction m as [|m IH].
  - reflexivity.
  - rewrite seq_S, flat_map_app, IH. cbn [flat_map plus].
    rewrite app_nil_r.
    replace (S m * n)%nat with (m * n + n)%nat by lia.
    rewrite seq_app, List.map_app. f_equal.
    cbn [plus].
    destruct n as [|n']; [reflexivity|].
    rewrite (seq_from_offset (m * S n') (S n')), List.map_map.
    apply List.map_ext_in.
    intros j Hj. apply in_seq in Hj.
    f_equal.
    + rewrite Nat.add_comm, Nat.div_add by lia.
      rewrite Nat.div_small; lia.
    + rewrite Nat.add_comm, Nat.Div0.mod_add.
      symmetry. apply Nat.mod_small; lia.
Qed.

Lemma generateGrid_unfold (viewport : Viewport) (gridSize : R) :
  generateGrid viewport gridSize
  = List.map
      (fun i : nat =>
         let n := Z.to_nat (clampSize gridSize) in
         let cellLat := ((lat (northeast viewport) - lat (southwest viewport))
                         / IZR (clampSize gridSize))%R in
         let cellLng := ((lng (northeast viewport) - lng (southwest viewport))
                         / IZR (clampSize gridSize))%R in
         {| gp_lat := lat (southwest viewport) + INR (i / n) * cellLat + cellLat / 2;
            gp_lng := lng (southwest viewport) + INR (i mod n) * cellLng + cellLng / 2;
            radius := calculateRadius cellLat cellLng (lat (southwest viewport)) |}%R)
      (seq 0 (Z.to_nat (clampSize gridSize) * Z.to_nat (clampSize gridSize))).
Proof.
  unfold generateGrid. cbv zeta.
  apply (flat_map_row_major
           (fun row col =>
              {| gp_lat := _ + INR row * _ + _ / 2;
                 gp_lng := _ + INR col * _ + _ / 2;
                 radius := _ |}%R)).
Qed.

Lemma calculateRadius_spec (latSize lngSize baseLat : R) :
  calculateRadius latSize lngSize baseLat
  = Rmin 50000
      (IZR (Zceil (11 / 10 * (cellDiagonalMeters latSize lngSize baseLat / 2)))).
Proof.
  unfold calculateRadius, cellDiagonalMeters, MAX_RADIUS, Rsqr. cbv zeta.
  replace (baseLat * (PI / 180))%R with (baseLat * PI / 180)%R by field.
  replace (lngSize * 111000 * cos (baseLat * PI / 180))%R
    with (lngSize * (111000 * cos (baseLat * PI / 180)))%R by ring.
  do 3 f_equal. field.
Qed.

Lemma calculateRadius_capped (latSize lngSize baseLat : R) :
  (calculateRadius latSize lngSize baseLat <= 50000)%R.
Proof. unfold calculateRadius, MAX_RADIUS. apply Rmin_l. Qed.

Lemma calculateRadius_zero (baseLat : R) (n : Z) :
  calculateRadius (0 / IZR n) (0 / IZR n) baseLat = 0%R.
Proof.
  unfold calculateRadius, MAX_RADIUS. cbv zeta.
  replace (0 / IZR n)%R with 0%R by (unfold Rdiv; ring).
  rewrite !Rmult_0_l, Rplus_0_r, sqrt_0.
  replace (0 / 2 * (11 / 10))%R with (IZR 0) by (simpl; field).
  rewrite Zceil_eq with (z := 0%Z) by (simpl; lra).
  apply Rmin_right. lra.
Qed.

End GridFacts.

(** The contract of section 4.1 over the reals: [generateGrid] returns
    exactly [size * size] points for [size = max 1 (min 20 (floor gridSize))];
    the point of index [i] is the centre of the cell in row [i / size] and
    column [i mod size] counted from the southwest corner; every radius is
    [min 50000 (ceil (1.1 * half the cell diagonal in metres))]; no radius
    exceeds 50000 and a zero-span viewport yields zero-radius points. *)
Lemma generateGrid_exact_contract
    (viewport : GridGenerator.Viewport) (gridSize : R) :
  let size := Z.max 1 (Z.min 20 (Zfloor gridSize)) in
  (1 <= size <= 20)%Z
  /\ GridGenerator.generateGrid viewport gridSize
     = GridGenerator.specGrid viewport size
  /\ length (GridGenerator.generateGrid viewport gridSize)
     = Z.to_nat (size * size)
  /\ Forall (fun p => (GridGenerator.radius p <= 50000)%R)
       (GridGenerator.generateGrid viewport gridSize)
  /\ Forall (fun p => GridGenerator.radius p = 0%R)
       (GridGenerator.generateGrid
          {| GridGenerator.northeast := GridGenerator.southwest viewport;
             GridGenerator.southwest := GridGenerator.southwest viewport |}
          gridSize).
Proof.
  intros size.
  assert (Hsize : size = GridGenerator.clampSize gridSize) by reflexivity.
  pose proof (clampSize_range gridSize) as Hr. rewrite <- Hsize in Hr.
  split; [exact Hr|]. split; [|split; [|split]].
  - rewrite generateGrid_unfold. unfold GridGenerator.specGrid.
    rewrite <- Hsize. apply List.map_ext. intros i. cbv zeta.
    unfold GridGenerator.specPoint, GridGenerator.specRadius. cbv zeta.
    rewrite calculateRadius_spec. f_equal; field;
      apply not_0_IZR; lia.
  - rewrite generateGrid_unfold, List.length_map, List.length_seq, <- Hsize.
    rewrite Z2Nat.inj_mul by lia. reflexivity.
  - rewrite generateGrid_unfold. apply List.Forall_forall. intros p Hp.
    apply List.in_map_iff in Hp as (i & <- & _). cbn.
    apply calculateRadius_capped.
  - rewrite generateGrid_unfold. apply List.Forall_forall. intros p Hp.
    apply List.in_map_iff in Hp as (i & <- & _). cbn.
    rewrite !Rminus_diag. apply calculateRadius_zero.
Qed.

(** ** The grid in double precision *)

Section GridFloatFacts.
Import GridGeneratorFloat PrimFloat SpecFloat FloatOps FloatAxioms.
Local Open Scope float_scope.

Lemma is_nan_Prim2SF (x : float) :
  is_nan x = true <-> Prim2SF x = S754_nan.
Proof.
  unfold is_nan. rewrite eqb_spec. unfold SFeqb.
  destruct (Prim2SF x) as [s|s| |s m e]; cbn [SFcompare negb].
  - split; discriminate.
  - destruct s; split; discriminate.
  - split; reflexivity.
  - rewrite Z.compare_refl, Pos.compare_cont_refl.
    destruct s; split; discriminate.
Qed.

Lemma clampSize_nan (gridSize : float) :
  is_nan gridSize = true -> clampSize gridSize = None.
Proof.
  intros H. apply is_nan_Prim2SF in H. unfold clampSize. rewrite H.
  reflexivity.
Qed.

Lemma clampSize_number (gridSize : float) :
  is_nan gridSize = false ->
  exists size : Z,
    clampSize gridSize = Some size
    /\ (1 <= size <= 20)%Z
    /\ size = match Prim2SF gridSize with
              | S754_infinity s => if s then 1%Z else 20%Z
              | _ => Z.max 1 (Z.min 20 (Qfloor (valueOf gridSize)))
              end.
Proof.
  intros H. unfold clampSize.
  destruct (Prim2SF gridSize) as [s|s| |s m e] eqn:E.
  - eexists; split; [reflexivity|]. split; [lia | reflexivity].
  - destruct s; eexists; (split; [reflexivity|]; split; [lia | reflexivity]).
  - assert (Hn : is_nan gridSize = true) by (apply is_nan_Prim2SF, E).
    congruence.
  - eexists; split; [reflexivity|]. split; [lia | reflexivity].
Qed.

(** [Math.min(50000, x)] is never above 50000, and is a number at most
    50000 when [x] is a number. *)
Lemma mathMin_capped (x : float) :
  (MAX_RADIUS <? mathMin MAX_RADIUS x) = false.
Proof.
  unfold mathMin.
  destruct (is_nan MAX_RADIUS || is_nan x); [reflexivity|].
  destruct (MAX_RADIUS <? x) eqn:H1; [reflexivity|].
  destruct (x <? MAX_RADIUS); [exact H1|].
  destruct (get_sign MAX_RADIUS); [reflexivity | exact H1].
Qed.

Lemma mathMin_number (x : float) :
  is_nan x = false ->
  is_nan (mathMin MAX_RADIUS x) = false
  /\ (mathMin MAX_RADIUS x <=? MAX_RADIUS) = true.
Proof.
  intros Hx. unfold mathMin. rewrite Hx.
  change (is_nan MAX_RADIUS || false) with false. cbv iota.
  destruct (MAX_RADIUS <? x) eqn:H1; [split; reflexivity|].
  destruct (x <? MAX_RADIUS) eqn:H2.
  - split; [exact Hx|]. rewrite ltb_spec in H2. rewrite leb_spec.
    unfold SFltb in H2. unfold SFleb.
    destruct (SFcompare (Prim2SF x) (Prim2SF MAX_RADIUS)) as [[]|];
      try discriminate H2; reflexivity.
  - change (get_sign MAX_RADIUS) with false. cbv iota.
    split; [exact Hx|].
    rewrite ltb_spec in H1, H2. rewrite leb_spec.
    unfold SFltb in H1, H2. unfold SFleb.
    assert (Hn : Prim2SF x <> S754_nan).
    { intros E. apply is_nan_Prim2SF in E. congruence. }
    remember (Prim2SF MAX_RADIUS) as cap eqn:Hcap. vm_compute in Hcap.
    subst cap.
    destruct (Prim2SF x) as [s|s| |s m e]; cbn [SFcompare] in *.
    + discriminate H2.
    + destruct s; [discriminate H2 | discriminate H1].
    + congruence.
    + destruct s; [discriminate H2|].
      rewrite (Z.compare_antisym e) in H1.
      destruct (e ?= _)%Z; cbn [CompOpp] in H1;
        try discriminate H1; try discriminate H2.
      match type of H1 with
      | context [Pos.compare_cont Eq ?cap m] =>
          replace (Pos.compare_cont Eq cap m)
            with (CompOpp (Pos.compare_cont Eq m cap)) in H1
            by exact (Pos.compare_cont_antisym m cap Eq)
      end.
      destruct (Pos.compare_cont Eq m _); cbn [CompOpp] in H1;
        try discriminate H1; try discriminate H2. reflexivity.
Qed.

Lemma sub_diag_finite (x : float) : isFinite x = true -> x - x = 0.
Proof.
  unfold isFinite. intros H. apply Prim2SF_inj. rewrite sub_spec.
  destruct (Prim2SF x) as [s|s| |s m e]; try discriminate H.
  - destruct s; reflexivity.
  - unfold SF64sub, SFsub. rewrite Z.sub_diag. reflexivity.
Qed.

Lemma mul_zero_finite (c : float) :
  isFinite c = true -> 0 * c = 0 \/ 0 * c = -0.
Proof.
  unfold isFinite. intros H.
  assert (E : Prim2SF (0 * c) = S754_zero false
              \/ Prim2SF (0 * c) = S754_zero true).
  { rewrite mul_spec.
    destruct (Prim2SF c) as [s|s| |s m e]; try discriminate H;
      destruct s; cbn; auto. }
  destruct E as [E|E]; [left | right]; apply Prim2SF_inj; rewrite E;
    reflexivity.
Qed.

Lemma zero_div_size (size : Z) :
  (1 <= size <= 20)%Z -> 0 / ofZ size = 0.
Proof.
  intros H.
  assert (E : size = Z.of_nat (S (Z.to_nat (size - 1)))) by lia.
  assert (Hk : (Z.to_nat (size - 1) < 20)%nat) by lia.
  rewrite E. clear E. revert Hk. generalize (Z.to_nat (size - 1)).
  intros k Hk.
  do 20 (destruct k as [|k]; [vm_compute; reflexivity|]). lia.
Qed.

Variable mathCos : float -> float.

Lemma calculateRadius_flat (baseLat : float) :
  isFinite (mathCos (baseLat * (PI / 180))) = true ->
  calculateRadius mathCos 0 0 baseLat = 0.
Proof.
  intros H. unfold calculateRadius. cbv zeta.
  change (0 * 111000) with 0.
  destruct (mul_zero_finite _ H) as [-> | ->]; vm_compute; reflexivity.
Qed.

(** The grid of a grid size that is a number, row by row. *)
Lemma generateGrid_rows (viewport : Viewport) (gridSize : float) (size : Z) :
  clampSize gridSize = Some size ->
  let cellLat := (lat (northeast viewport) - lat (southwest viewport))
                 / ofZ size in
  let cellLng := (lng (northeast viewport) - lng (southwest viewport))
                 / ofZ size in
  generateGrid mathCos viewport gridSize
  = List.map
      (fun i : nat =>
         {| gp_lat := lat (southwest viewport)
                      + ofZ (Z.of_nat (i / Z.to_nat size)) * cellLat
                      + cellLat / 2;
            gp_lng := lng (southwest viewport)
                      + ofZ (Z.of_nat (i mod Z.to_nat size)) * cellLng
                      + cellLng / 2;
            radius := calculateRadius mathCos cellLat cellLng
                        (lat (southwest viewport)) |})
      (seq 0 (Z.to_nat size * Z.to_nat size)).
Proof.
  intros Hsize. cbv zeta. unfold generateGrid. rewrite Hsize. cbv zeta.
  cbn [default Datatypes.id].
  apply (flat_map_row_major
           (fun row col =>
              {| gp_lat := _ + ofZ (Z.of_nat row) * _ + _ / 2;
                 gp_lng := _ + ofZ (Z.of_nat col) * _ + _ / 2;
                 radius := _ |})).
Qed.

End GridFloatFacts.

Section GridFloatContract.
Import PrimFloat.

(** C5 (amended).  [generateGrid] in double precision, for every viewport,
    every requested grid size and every [Math.cos].  When the grid size is
    [NaN] no point is returned.  Otherwise exactly [size * size] points are
    returned, [size] being the floor of the grid size clamped to [1, 20]
    (20 for [Infinity], 1 for [-Infinity]); the point of index [i] is the
    one of row [i / size] and column [i mod size] counted from the
    southwest corner, at [southwest + index * cellSpan + cellSpan / 2] per
    axis; all points carry the radius
    [Math.min(50000, Math.ceil((diagonal / 2) * 1.1))], every operation
    rounded to a double, for the cell diagonal in metres with one degree of
    latitude taken as 111000 m and one degree of longitude as
    [111000 * cos (southwest latitude)] m.  No radius is above 50000; it is
    a number, at most 50000, whenever the rounded half diagonal is a number;
    and a zero-span viewport with finite coordinates, where the cosine is
    finite, yields zero-radius points. *)
Theorem generateGrid_contract
    (mathCos : PrimFloat.float -> PrimFloat.float)
    (viewport : GridGeneratorFloat.Viewport) (gridSize : PrimFloat.float) :
  let sw := GridGeneratorFloat.southwest viewport in
  let ne := GridGeneratorFloat.northeast viewport in
  let grid := GridGeneratorFloat.generateGrid mathCos viewport gridSize in
  (PrimFloat.is_nan gridSize = true -> grid = [])
  /\ (PrimFloat.is_nan gridSize = false ->
      exists size : Z,
        (1 <= size <= 20)%Z
        /\ size = match FloatOps.Prim2SF gridSize with
                  | SpecFloat.S754_infinity s => if s then 1%Z else 20%Z
                  | _ => Z.max 1
                           (Z.min 20
                              (Qfloor (GridGeneratorFloat.valueOf gridSize)))
                  end
        /\ length grid = Z.to_nat (size * size)
        /\ (let cellLat :=
              ((GridGeneratorFloat.lat ne - GridGeneratorFloat.lat sw)
               / GridGeneratorFloat.ofZ size)%float in
            let cellLng :=
              ((GridGeneratorFloat.lng ne - GridGeneratorFloat.lng sw)
               / GridGeneratorFloat.ofZ size)%float in
            let heightMeters := (cellLat * 111000)%float in
            let widthMeters :=
              (cellLng * 111000
               * mathCos (GridGeneratorFloat.lat sw
                          * (GridGeneratorFloat.PI / 180)))%float in
            let diagonal :=
              PrimFloat.sqrt ((heightMeters * heightMeters)
                              + (widthMeters * widthMeters))%float in
            let rounded :=
              GridGeneratorFloat.mathCeil
                ((diagonal / 2) * 0x1.199999999999ap+0)%float in
            let radiusMeters := GridGeneratorFloat.mathMin 50000%float rounded in
            grid
            = List.map
                (fun i : nat =>
                   {| GridGeneratorFloat.gp_lat :=
                        (GridGeneratorFloat.lat sw
                         + GridGeneratorFloat.ofZ
                             (Z.of_nat (i / Z.to_nat size)) * cellLat
                         + cellLat / 2)%float;
                      GridGeneratorFloat.gp_lng :=
                        (GridGeneratorFloat.lng sw
                         + GridGeneratorFloat.ofZ
                             (Z.of_nat (i mod Z.to_nat size)) * cellLng
                         + cellLng / 2)%float;
                      GridGeneratorFloat.radius := radiusMeters |})
                (seq 0 (Z.to_nat size * Z.to_nat size))
            /\ PrimFloat.ltb 50000%float radiusMeters = false
            /\ (PrimFloat.is_nan rounded = false ->
                PrimFloat.is_nan radiusMeters = false
                /\ PrimFloat.leb radiusMeters 50000%float = true)))
  /\ Forall
       (fun p => PrimFloat.ltb 50000%float (GridGeneratorFloat.radius p) = false)
       grid
  /\ (PrimFloat.is_nan gridSize = false ->
      GridGeneratorFloat.isFinite (GridGeneratorFloat.lat sw) = true ->
      GridGeneratorFloat.isFinite (GridGeneratorFloat.lng sw) = true ->
      GridGeneratorFloat.isFinite
        (mathCos (GridGeneratorFloat.lat sw * (GridGeneratorFloat.PI / 180))%float)
      = true ->
      let flat :=
        GridGeneratorFloat.generateGrid mathCos
          {| GridGeneratorFloat.northeast := sw;
             GridGeneratorFloat.southwest := sw |} gridSize in
      flat <> []
      /\ Forall (fun p => GridGeneratorFloat.radius p = 0%float) flat).
Proof.
  intros sw ne grid.
  assert (Hnan : PrimFloat.is_nan gridSize = true -> grid = []).
  { intros H. subst grid. unfold GridGeneratorFloat.generateGrid.
    rewrite (clampSize_nan _ H). reflexivity. }
  assert (Hcap : Forall
                   (fun p => PrimFloat.ltb 50000%float
                               (GridGeneratorFloat.radius p) = false) grid).
  { destruct (PrimFloat.is_nan gridSize) eqn:E.
    - rewrite (Hnan eq_refl). constructor.
    - destruct (clampSize_number _ E) as (size & Hsize & _ & _).
      subst grid. rewrite (generateGrid_rows mathCos viewport _ _ Hsize).
      apply List.Forall_forall. intros p Hp.
      apply List.in_map_iff in Hp as (i & <- & _).
      cbn [GridGeneratorFloat.radius]. apply mathMin_capped. }
  split; [exact Hnan|]. split; [|split; [exact Hcap|]].
  - intros E. destruct (clampSize_number _ E) as (size & Hsize & Hr & Hval).
    exists size. split; [exact Hr|]. split; [exact Hval|].
    subst grid. rewrite (generateGrid_rows mathCos viewport _ _ Hsize).
    split.
    { rewrite List.length_map, List.length_seq, Z2Nat.inj_mul by lia.
      reflexivity. }
    cbv zeta. split; [reflexivity|].
    split; [apply mathMin_capped | apply mathMin_number].
  - intros E Hlat Hlng Hcos flat.
    destruct (clampSize_number _ E) as (size & Hsize & Hr & _).
    subst flat.
    rewrite (generateGrid_rows mathCos
               {| GridGeneratorFloat.northeast := sw;
                  GridGeneratorFloat.southwest := sw |} _ _ Hsize).
    cbn [GridGeneratorFloat.northeast GridGeneratorFloat.southwest].
    split.
    + intros Hnil. apply (f_equal (@length _)) in Hnil.
      rewrite List.length_map, List.length_seq in Hnil. cbn [length] in Hnil.
      nia.
    + apply List.Forall_forall. intros p Hp.
      apply List.in_map_iff in Hp as (i & <- & _).
      cbn [GridGeneratorFloat.radius].
      rewrite (sub_diag_finite _ Hlat), (sub_diag_finite _ Hlng).
      rewrite (zero_div_size _ Hr).
      apply calculateRadius_flat, Hcos.
Qed.

Lemma generateGrid_contract_witness :
  PrimFloat.is_nan 2.5%float = false
  /\ GridGeneratorFloat.generateGrid cosineNearZero equatorBox 2.5%float
     = [ {| GridGeneratorFloat.gp_lat := 0.125; GridGeneratorFloat.gp_lng := 0.0625;
            GridGeneratorFloat.radius := 17064 |};
         {| GridGeneratorFloat.gp_lat := 0.125; GridGeneratorFloat.gp_lng := 0.1875;
            GridGeneratorFloat.radius := 17064 |};
         {| GridGeneratorFloat.gp_lat := 0.375; GridGeneratorFloat.gp_lng := 0.0625;
            GridGeneratorFloat.radius := 17064 |};
         {| GridGeneratorFloat.gp_lat := 0.375; GridGeneratorFloat.gp_lng := 0.1875;
            GridGeneratorFloat.radius := 17064 |} ]%float
  /\ GridGeneratorFloat.generateGrid cosineNearZero
       {| GridGeneratorFloat.northeast := GridGeneratorFloat.southwest equatorBox;
          GridGeneratorFloat.southwest := GridGeneratorFloat.southwest equatorBox |}
       2.5%float
     = repeat {| GridGeneratorFloat.gp_lat := 0; GridGeneratorFloat.gp_lng := 0;
                 GridGeneratorFloat.radius := 0 |}%float 4.
Proof.
  split; [reflexivity|].
  destruct (generateGrid_contract cosineNearZero equatorBox 2.5%float)
    as (_ & Hgrid & _ & _).
  destruct (Hgrid eq_refl) as (size & _ & Hsize & _ & Hrows).
  cbv zeta in Hrows. destruct Hrows as (Hrows & _).
  vm_compute in Hsize. subst size.
  split; [rewrite Hrows; vm_compute; reflexivity|].
  vm_compute. reflexivity.
Defined.

(** C5, as stated, fails in two ways.  A grid size of [NaN] gives no point
    at all, where the claim promises [size * size] points for a [size] of
    at least 1.  And the radius is rounded up from the double
    [(diagonal / 2) * 1.1], not from the exact product: for one cell half a
    degree tall and of no width the half diagonal is 27750 m, 1.1 times
    that is 30525 exactly, which is the radius the claim gives, while the
    double product is 30525.000000000004 and the radius 30526. *)
Lemma generateGrid_nan_and_rounding :
  (forall mathCos : PrimFloat.float -> PrimFloat.float,
      GridGeneratorFloat.generateGrid mathCos meridianSegment PrimFloat.nan = [])
  /\ (forall mathCos : PrimFloat.float -> PrimFloat.float,
        mathCos 0%float = 1%float ->
        GridGeneratorFloat.generateGrid mathCos meridianSegment 1%float
        = [ {| GridGeneratorFloat.gp_lat := 0.25; GridGeneratorFloat.gp_lng := 0;
               GridGeneratorFloat.radius := 30526 |} ]%float)
  /\ ((27750 * 0x1.199999999999ap+0)%float = 0x1.dcf4000000001p+14%float
      /\ PrimFloat.ltb 30525%float (27750 * 0x1.199999999999ap+0)%float = true)
  /\ GridGenerator.specRadius meridianSegmentExact 1 = 30525%R.
Proof.
  split; [intros mathCos; reflexivity|].
  split.
  { intros mathCos Hcos.
    unfold GridGeneratorFloat.generateGrid, GridGeneratorFloat.calculateRadius.
    cbv zeta.
    change (GridGeneratorFloat.clampSize 1%float) with (Some 1%Z).
    cbn [default Datatypes.id Z.to_nat Pos.to_nat Pos.iter_op seq flat_map
         List.map app meridianSegment GridGeneratorFloat.lat
         GridGeneratorFloat.lng GridGeneratorFloat.northeast
         GridGeneratorFloat.southwest].
    change (0 * (GridGeneratorFloat.PI / 180))%float with 0%float.
    rewrite Hcos. vm_compute. reflexivity. }
  split; [split; vm_compute; reflexivity|].
  unfold GridGenerator.specRadius, GridGenerator.cellDiagonalMeters,
    meridianSegmentExact.
  cbn [GridGenerator.lat GridGenerator.lng GridGenerator.northeast
       GridGenerator.southwest].
  replace ((1 / 2 - 0) / 1 * 111000)%R with 55500%R by field.
  replace ((0 - 0) / 1 * (111000 * cos (0 * PI / 180)))%R with 0%R by field.
  rewrite Rsqr_0, Rplus_0_r, sqrt_Rsqr by lra.
  replace (11 / 10 * (55500 / 2))%R with (IZR 30525) by (simpl; field).
  rewrite (Zceil_eq 30525) by (simpl; lra).
  apply Rmin_right. lra.
Qed.

End GridFloatContract.


(** ** Properties of the traffic-control primitives *)

Section TrafficControlFacts.
Import Js Runtime TrafficControl.
Local Open Scope Z_scope.

Lemma withStore_same (w : World) : withStore (store w) w = w.
Proof. destruct w; reflexivity. Qed.

Lemma idealCall_GET (key : string) (w : World) :
  idealCall (GET key) w = (fst (runCmd (clock w) (GET key) (store w)), w).
Proof.
  unfold idealCall. cbn [runCmd].
  destruct (lookupLive (clock w) key (store w)) as [[[p|n|l] t]|];
    cbn [fst]; rewrite withStore_same; reflexivity.
Qed.

Lemma stateKey_ne_failureKey (service : string) :
  stateKeyOf service <> failureCountKeyOf service.
Proof.
  unfold stateKeyOf, failureCountKeyOf. intros H.
  apply (inj (String.app "cb:")) in H.
  apply (inj (String.app service)) in H.
  discriminate H.
Qed.

Lemma idealCall_store (c : RCmd) (w : World) :
  (forall ch m, c <> PUBLISH ch m) ->
  idealCall c w
  = (fst (runCmd (clock w) c (store w)),
     withStore (snd (runCmd (clock w) c (store w))) w).
Proof.
  intros Hc. unfold idealCall.
  destruct (runCmd (clock w) c (store w)) as [r st].
  destruct c; try reflexivity. exfalso. eapply Hc. reflexivity.
Qed.

(** C9. A limit that is not finite, or is at most 0, disables the guard
    instead of denying everything: with any store client, both rate limiters
    answer [allowed: true] and the in-flight limiter just runs the work, and
    none of them issues a single store command (the world is returned as it
    was received). *)
Theorem disabled_limit_skips_store
    (client : RedisClient) (T : Type) (key : string) (limit : JsNumber)
    (windowSec ttlSec : Z) (work : IO T) (w : World) :
  isFinite limit = false \/ le limit (ofZ 0) = true ->
  @rateLimitFixedWindow client key limit windowSec w
    = (Return {| allowed := true |}, w)
  /\ @rateLimitSlidingWindow client key limit windowSec w
    = (Return {| allowed := true |}, w)
  /\ @withInflightLimiter client T key limit ttlSec work w = work w.
Proof.
  intros Hlimit.
  assert (Hd : limitDisabled limit = true).
  { unfold limitDisabled. destruct Hlimit as [-> | ->]; [reflexivity|].
    apply orb_true_r. }
  unfold rateLimitFixedWindow, rateLimitSlidingWindow, withInflightLimiter.
  rewrite Hd. repeat split; reflexivity.
Qed.

Lemma disabled_limit_skips_store_witness :
  (isFinite JsNaN = false \/ le JsNaN (ofZ 0) = true)
  /\ @rateLimitFixedWindow idealRedis "rl:user" JsNaN 60 emptyWorld
     = (Return {| allowed := true |}, emptyWorld)
  /\ @rateLimitSlidingWindow idealRedis "rl:user" JsNaN 60 emptyWorld
     = (Return {| allowed := true |}, emptyWorld)
  /\ @withInflightLimiter idealRedis Z "rl:user" JsNaN 30 (mret 7) emptyWorld
     = (Return 7, emptyWorld).
Proof.
  split; [left; reflexivity|].
  exact (disabled_limit_skips_store idealRedis Z "rl:user" JsNaN 60 30
           (mret 7) emptyWorld (or_introl eq_refl)).
Defined.

(** C8. [releaseLock] never throws, whatever the store client does; on the
    reference store it deletes the key exactly when the value held under the
    key equals the caller's token, and otherwise (another holder, an absent
    or expired key) leaves the whole store as it was. *)
Theorem releaseLock_contract
    (client : RedisClient) (key token : string) (w : World) :
  fst (@releaseLock client key token w) = Return tt
  /\ @releaseLock idealRedis key token w
     = (Return tt,
        if bool_decide (heldText key w = Some token)
        then withStore (delete key (store w)) w
        else w).
Proof.
  split.
  - unfold releaseLock, tryCatch, mbind, IO_bind, bind, mret, IO_ret, ret.
    destruct (eval RELEASE_LOCK_LUA [key] [token] w) as [[r|e] w'];
      reflexivity.
  - unfold releaseLock, tryCatch, mbind, IO_bind, bind, mret, IO_ret, ret.
    cbn [eval idealRedis]. unfold idealEval, RELEASE_LOCK_LUA, heldText.
    cbn [runCmd].
    destruct (lookupLive (clock w) key (store w)) as [[[p|n|l] t]|] eqn:Hl.
    + destruct p as [s|ids|ps|ps n|res]; cbn.
      * destruct (String.eqb_spec s token) as [->|Hne].
        -- rewrite Hl. rewrite bool_decide_true by reflexivity. reflexivity.
        -- rewrite bool_decide_false by congruence.
           rewrite withStore_same. reflexivity.
      * rewrite bool_decide_false by discriminate.
        rewrite withStore_same. reflexivity.
      * rewrite bool_decide_false by discriminate.
        rewrite withStore_same. reflexivity.
      * rewrite bool_decide_false by discriminate.
        rewrite withStore_same. reflexivity.
      * rewrite bool_decide_false by discriminate.
        rewrite withStore_same. reflexivity.
    + cbn. destruct (String.eqb_spec (pretty n) token) as [<-|Hne].
      * rewrite Hl. rewrite bool_decide_true by reflexivity. reflexivity.
      * rewrite bool_decide_false by congruence.
        rewrite withStore_same. reflexivity.
    + cbn. rewrite bool_decide_false by discriminate.
      rewrite withStore_same. reflexivity.
    + cbn. rewrite bool_decide_false by discriminate.
      rewrite withStore_same. reflexivity.
Qed.

Ltac breaker_keys_differ :=
  first [ apply stateKey_ne_failureKey
        | apply not_eq_sym, stateKey_ne_failureKey ].

Lemma le_ofZ (a b : Z) : le (ofZ a) (ofZ b) = (a <=? b).
Proof.
  unfold le, ofZ, Qle_bool, inject_Z. cbn [Qnum Qden].
  rewrite !Z.mul_1_r. reflexivity.
Qed.

Lemma GET_when_open (service : string) (w : World) :
  isOpen service w = true ->
  idealCall (GET (stateKeyOf service)) w = (Return (Bulk (PText "OPEN")), w).
Proof.
  unfold isOpen. intros H. rewrite idealCall_GET. cbn [runCmd].
  destruct (lookupLive (clock w) (stateKeyOf service) (store w))
    as [[[[s| | | |]| |] t]|]; try discriminate H.
  apply String.eqb_eq in H. subst s. reflexivity.
Qed.

Lemma GET_when_closed (service : string) (w : World) :
  isClosed service w = true ->
  idealCall (GET (stateKeyOf service)) w = (Return Nil, w).
Proof.
  unfold isClosed. intros H. rewrite idealCall_GET. cbn [runCmd].
  destruct (lookupLive (clock w) (stateKeyOf service) (store w));
    [discriminate H | reflexivity].
Qed.

Lemma INCR_recorded (service : string) (w : World) (n : Z) :
  failuresRecorded service w = Some n ->
  exists t,
    idealCall (INCR (failureCountKeyOf service)) w
    = (Return (Int (n + 1)),
       withStore (<[failureCountKeyOf service :=
                      {| value := VInt (n + 1); expireAt := t |}]> (store w)) w).
Proof.
  unfold failuresRecorded. intros H.
  rewrite idealCall_store by discriminate. cbn [runCmd]. unfold addToCounter.
  destruct (lookupLive (clock w) (failureCountKeyOf service) (store w))
    as [[[p|m|l] t]|]; try discriminate H.
  - injection H as ->. exists t. reflexivity.
  - injection H as <-. exists None. reflexivity.
Qed.

Lemma lookupLive_insert_eq (now : Z) (key : string) (e : Entry)
    (st : gmap string Entry) :
  lookupLive now key (<[key := e]> st) = if live now e then Some e else None.
Proof. unfold lookupLive. rewrite lookup_insert_eq. reflexivity. Qed.

Lemma lookupLive_insert_ne (now : Z) (key key' : string) (e : Entry)
    (st : gmap string Entry) :
  key <> key' ->
  lookupLive now key' (<[key := e]> st) = lookupLive now key' st.
Proof. intros H. unfold lookupLive. rewrite lookup_insert_ne by exact H. reflexivity. Qed.

Section CircuitBreaker.
Context (T : Type) (service : string) (config : CircuitConfig).

(** The breaker case by case, in terms of the values the code works with
    ([actualFailureThreshold], [actualResetTimeoutSec]). *)
Lemma withCircuitBreaker_cases :
  1 <= actualResetTimeoutSec config ->
  (forall (work : IO T) (w : World),
      isOpen service w = true ->
      @withCircuitBreaker idealRedis T service config work w
      = (Throw (circuitOpenError service), w))
  /\ (forall (work : IO T) (w w1 : World) (v : T),
        isClosed service w = true ->
        work w = (Return v, w1) ->
        @withCircuitBreaker idealRedis T service config work w = (Return v, w1))
  /\ (forall (work : IO T) (w w1 : World) (e : JsError) (n : Z),
        isClosed service w = true ->
        work w = (Throw e, w1) ->
        failuresRecorded service w1 = Some n ->
        n + 1 < actualFailureThreshold config ->
        exists t,
          @withCircuitBreaker idealRedis T service config work w
          = (Throw e,
             withStore (<[failureCountKeyOf service :=
                            {| value := VInt (n + 1); expireAt := t |}]>
                          (store w1)) w1))
  /\ (forall (work : IO T) (w w1 : World) (e : JsError) (n : Z),
        isClosed service w = true ->
        work w = (Throw e, w1) ->
        failuresRecorded service w1 = Some n ->
        actualFailureThreshold config <= n + 1 ->
        @withCircuitBreaker idealRedis T service config work w
        = (Throw e, openedAfter service config w1)
        /\ store (openedAfter service config w1) !! failureCountKeyOf service
           = None
        /\ (forall w3 : World,
              store w3 = store (openedAfter service config w1) ->
              clock w3 < clock w1 + 1000 * actualResetTimeoutSec config ->
              isOpen service w3 = true)
        /\ (forall w3 : World,
              store w3 = store (openedAfter service config w1) ->
              clock w1 + 1000 * actualResetTimeoutSec config <= clock w3 ->
              isClosed service w3 = true)).
Proof.
  intros Hreset. unfold withCircuitBreaker, recordFailure, openedAfter.
  generalize dependent (actualResetTimeoutSec config). intros reset Hreset.
  generalize (actualFailureThreshold config). intros threshold.
  unfold mbind, IO_bind, bind. cbn [call idealRedis].
  split; [|split; [|split]].
  - intros work w Hopen. rewrite (GET_when_open _ _ Hopen). reflexivity.
  - intros work w w1 v Hclosed Hwork.
    rewrite (GET_when_closed _ _ Hclosed). cbn [replyIsText].
    unfold tryCatch. rewrite Hwork. reflexivity.
  - intros work w w1 e n Hclosed Hwork Hn Hlt.
    rewrite (GET_when_closed _ _ Hclosed). cbn [replyIsText].
    unfold tryCatch. rewrite Hwork.
    destruct (INCR_recorded _ _ _ Hn) as [t Ht]. exists t. rewrite Ht.
    cbn [replyNumber]. rewrite le_ofZ.
    destruct (Z.leb_spec threshold (n + 1)); [lia|]. reflexivity.
  - intros work w w1 e n Hclosed Hwork Hn Hge.
    split; [|split; [|split]].
    + rewrite (GET_when_closed _ _ Hclosed). cbn [replyIsText].
      unfold tryCatch. rewrite Hwork.
      destruct (INCR_recorded _ _ _ Hn) as [t Ht]. rewrite Ht.
      cbn [replyNumber]. rewrite le_ofZ.
      destruct (Z.leb_spec threshold (n + 1)); [|lia].
      rewrite !idealCall_store by discriminate. cbn [runCmd fst snd].
      destruct (Z.leb_spec (1000 * reset) 0); [lia|].
      cbn [andb fst snd]. cbn [clock store withStore].
      rewrite lookupLive_insert_ne by breaker_keys_differ.
      rewrite lookupLive_insert_eq.
      unfold throw, mret, IO_ret, ret.
      assert (Hstore :
        forall x : Outcome Reply * gmap string Entry,
          snd x = delete (failureCountKeyOf service)
                    (<[stateKeyOf service :=
                         {| value := VStr (PText "OPEN");
                            expireAt := Some (clock w1 + 1000 * reset) |}]>
                       (<[failureCountKeyOf service :=
                            {| value := VInt (n + 1); expireAt := t |}]>
                          (store w1))) ->
          withStore (snd x) w1
          = withStore
              (<[stateKeyOf service :=
                   {| value := VStr (PText "OPEN");
                      expireAt := Some (clock w1 + 1000 * reset) |}]>
                 (delete (failureCountKeyOf service) (store w1))) w1).
      { intros x ->. f_equal.
        rewrite delete_insert_ne by breaker_keys_differ.
        rewrite delete_insert_eq. reflexivity. }
      destruct (live (clock w1) {| value := VInt (n + 1); expireAt := t |});
        cbn [fst snd withStore store clock published uuidSeed currentKeyIndex
             fetchCount events db enrichmentQueue];
        (f_equal; exact (Hstore (Return Nil, _) eq_refl)).
    + cbn [store withStore].
      rewrite lookup_insert_ne by breaker_keys_differ.
      apply lookup_delete_eq.
    + intros w3 Hst Hclock. unfold isOpen. rewrite Hst.
      cbn [store withStore].
      rewrite lookupLive_insert_eq. unfold live. cbn [expireAt].
      destruct (Z.ltb_spec (clock w3) (clock w1 + 1000 * reset)); [|lia].
      reflexivity.
    + intros w3 Hst Hclock. unfold isClosed. rewrite Hst.
      cbn [store withStore].
      rewrite lookupLive_insert_eq. unfold live. cbn [expireAt].
      destruct (Z.ltb_spec (clock w3) (clock w1 + 1000 * reset)); [lia|].
      reflexivity.
Qed.

End CircuitBreaker.

Lemma payloadOf_OPEN (service : string) (w : World) :
  Polling.payloadOf ("cb:" +:+ service +:+ ":state") w = Some (PText "OPEN")
  <-> isOpen service w = true.
Proof.
  unfold Polling.payloadOf, isOpen, stateKeyOf.
  destruct (lookupLive (clock w) ("cb:" +:+ service +:+ ":state") (store w))
    as [[[[s| | | |]| |] t]|]; split; intros H; try discriminate H.
  - injection H as ->. reflexivity.
  - apply String.eqb_eq in H. subst s. reflexivity.
Qed.

(** C7. On the reference store, with [failureThreshold] and
    [resetTimeoutSec] the configured values (50 and 60 where the
    configuration leaves them out) and a reset timeout of at least one
    second: while the key [cb:<service>:state] holds OPEN a call fails at
    once with the service-unavailable error and the wrapped work is not
    run; a successful call writes nothing (state key and failure counter
    are as the work left them); a failure that leaves the counter
    [cb:<service>:failures] below [failureThreshold] only increments the
    counter; the failure that brings the counter to [failureThreshold] sets
    the state key to OPEN expiring [resetTimeoutSec] seconds later and
    deletes the counter; until that time the breaker is open, and from that
    time on the state key has expired and calls go through. *)
Theorem withCircuitBreaker_protocol
    (T : Type) (service : string) (config : CircuitConfig) :
  let threshold := default 50 (failureThreshold config) in
  let reset := default 60 (resetTimeoutSec config) in
  let stateKey := "cb:" +:+ service +:+ ":state" in
  let failureKey := "cb:" +:+ service +:+ ":failures" in
  1 <= reset ->
  (forall (work : IO T) (w : World),
      Polling.payloadOf stateKey w = Some (PText "OPEN") ->
      @withCircuitBreaker idealRedis T service config work w
      = (Throw (mkError ("Service " +:+ service
                         +:+ " is currently unavailable (Circuit Breaker OPEN)")),
         w))
  /\ (forall (work : IO T) (w w1 : World) (v : T),
        Polling.isFree stateKey w = true ->
        work w = (Return v, w1) ->
        @withCircuitBreaker idealRedis T service config work w = (Return v, w1))
  /\ (forall (work : IO T) (w w1 : World) (e : JsError) (n : Z),
        Polling.isFree stateKey w = true ->
        work w = (Throw e, w1) ->
        Polling.counterOf failureKey w1 = Some n ->
        n + 1 < threshold ->
        exists t,
          @withCircuitBreaker idealRedis T service config work w
          = (Throw e,
             withStore (<[failureKey :=
                            {| value := VInt (n + 1); expireAt := t |}]>
                          (store w1)) w1))
  /\ (forall (work : IO T) (w w1 : World) (e : JsError) (n : Z),
        Polling.isFree stateKey w = true ->
        work w = (Throw e, w1) ->
        Polling.counterOf failureKey w1 = Some n ->
        threshold <= n + 1 ->
        let opened :=
          withStore
            (<[stateKey :=
                 {| value := VStr (PText "OPEN");
                    expireAt := Some (clock w1 + 1000 * reset) |}]>
               (delete failureKey (store w1)))
            w1 in
        @withCircuitBreaker idealRedis T service config work w
        = (Throw e, opened)
        /\ store opened !! failureKey = None
        /\ (forall w3 : World,
              store w3 = store opened ->
              clock w3 < clock w1 + 1000 * reset ->
              Polling.payloadOf stateKey w3 = Some (PText "OPEN"))
        /\ (forall w3 : World,
              store w3 = store opened ->
              clock w1 + 1000 * reset <= clock w3 ->
              Polling.isFree stateKey w3 = true)).
Proof.
  intros threshold reset stateKey failureKey Hreset.
  destruct (withCircuitBreaker_cases T service config Hreset)
    as (Hopen & Hok & Hbelow & Hopening).
  split; [|split; [|split]].
  - intros work w Hstate. apply Hopen, payloadOf_OPEN, Hstate.
  - exact Hok.
  - exact Hbelow.
  - intros work w w1 e n Hclosed Hwork Hn Hge opened.
    destruct (Hopening work w w1 e n Hclosed Hwork Hn Hge)
      as (Hrun & Hgone & Hstill & Hexpired).
    split; [exact Hrun|]. split; [exact Hgone|]. split.
    + intros w3 Hst Hclock. apply payloadOf_OPEN. exact (Hstill w3 Hst Hclock).
    + exact Hexpired.
Qed.

Lemma withCircuitBreaker_protocol_witness :
  1 <= default 60 (resetTimeoutSec breakerDemo)
  /\ Polling.counterOf "cb:google-places:failures" afterFirstFailure = Some 1
  /\ exists opened : World,
       @withCircuitBreaker idealRedis unit "google-places" breakerDemo
         upstreamDown afterFirstFailure
       = (Throw (mkError "upstream down"), opened)
       /\ Polling.expiryOf "cb:google-places:state" opened = Some 30000
       /\ Polling.isFree "cb:google-places:failures" opened = true
       /\ @withCircuitBreaker idealRedis unit "google-places" breakerDemo
            (mret tt) (withClock 29999 opened)
          = (Throw
               (mkError "Service google-places is currently unavailable (Circuit Breaker OPEN)"),
             withClock 29999 opened)
       /\ @withCircuitBreaker idealRedis unit "google-places" breakerDemo
            (mret tt) (withClock 30000 opened)
          = (Return tt, withClock 30000 opened).
Proof.
  split; [cbn; lia|]. split; [reflexivity|].
  destruct (withCircuitBreaker_protocol unit "google-places" breakerDemo
              ltac:(cbn; lia)) as (Hopen & Hok & _ & Hopening).
  destruct (Hopening upstreamDown afterFirstFailure afterFirstFailure
              (mkError "upstream down") 1
              eq_refl eq_refl eq_refl ltac:(cbn; lia))
    as (Hrun & _ & Hstill & Hexpired).
  eexists. split; [exact Hrun|].
  split; [vm_compute; reflexivity|]. split; [vm_compute; reflexivity|].
  split.
  - apply Hopen. apply Hstill; [reflexivity|]. vm_compute. reflexivity.
  - apply Hok with (w := withClock 30000 _); [|reflexivity].
    apply Hexpired; [reflexivity|]. vm_compute. discriminate.
Defined.

End TrafficControlFacts.

(** ** Properties of the gateway *)

Section RetryFacts.
Import Js Data Runtime TrafficControl Gateway.
Local Open Scope Z_scope.

Variable keys : list string.
Variable fetch : nat -> string -> SearchRequest -> FetchOutcome.
Variable query : string.
Variable options : SearchOptions.


(** [maxAttempts] iterations are all the loop can make: any larger fuel
    gives the same run. *)
Lemma attemptLoop_fuel (fuel1 : nat) :
  forall (fuel2 : nat) (attempt : Z) (w : World),
    maxAttempts - attempt <= Z.of_nat fuel1 ->
    maxAttempts - attempt <= Z.of_nat fuel2 ->
    attemptLoop keys fetch fuel1 query options attempt w
    = attemptLoop keys fetch fuel2 query options attempt w.
Proof.
  induction fuel1 as [|fuel1 IH]; intros [|fuel2] attempt w H1 H2;
    cbn [attemptLoop];
    destruct (Z.ltb_spec attempt maxAttempts) as [Hlt|_];
    try reflexivity; try lia.
  unfold mbind, IO_bind, bind.
  destruct (getNextApiKey keys w) as [[apiKey|e] w1]; [|reflexivity].
  destruct (fetchWithTimeout fetch apiKey (requestBody query options) w1)
    as [[response|e] w2]; [|reflexivity].
  destruct response as [status text json|err].
  - destruct (negb (responseOk status)); [|reflexivity].
    destruct (isRetryable status && (attempt <? maxAttempts - 1)) eqn:Hre;
      [|reflexivity].
    apply andb_true_iff in Hre as [_ Hre]. apply Z.ltb_lt in Hre.
    destruct (sleep (backoffMs attempt) w2) as [[[]|e] w3]; [|reflexivity].
    apply IH; lia.
  - destruct (String.eqb (err_name err) "AbortError"
              && (attempt <? maxAttempts - 1)) eqn:Hre; [|reflexivity].
    apply andb_true_iff in Hre as [_ Hre]. apply Z.ltb_lt in Hre.
    apply IH; lia.
Qed.


Lemma sameProvider_refl (w : World) : sameProvider w w.
Proof. repeat split. Qed.

Lemma sameProvider_trans (w1 w2 w3 : World) :
  sameProvider w1 w2 -> sameProvider w2 w3 -> sameProvider w1 w3.
Proof. unfold sameProvider. intros (? & ? & ?) (? & ? & ?). repeat split; congruence. Qed.

Lemma Quiet_idealCall (c : RCmd) : Quiet (idealCall c).
Proof.
  intros w. unfold idealCall.
  destruct (runCmd (clock w) c (store w)) as [r st].
  destruct c; repeat split.
Qed.

Lemma Quiet_ret {A : Type} (a : A) : Quiet (mret a : IO A).
Proof. intros w. apply sameProvider_refl. Qed.

Lemma Quiet_throw {A : Type} (e : JsError) : Quiet (throw e : IO A).
Proof. intros w. apply sameProvider_refl. Qed.

Lemma Quiet_bind {A B : Type} (m : IO A) (k : A -> IO B) :
  Quiet m -> (forall a, Quiet (k a)) -> Quiet (mbind k m).
Proof.
  intros Hm Hk w. unfold mbind, IO_bind, bind.
  specialize (Hm w). destruct (m w) as [[a|e] w1]; cbn [snd] in *.
  - eapply sameProvider_trans; [exact Hm|]. apply Hk.
  - exact Hm.
Qed.

Lemma Quiet_recordFailure {T : Type} service threshold reset error :
  Quiet (@recordFailure idealRedis T service threshold reset error).
Proof.
  unfold recordFailure. cbn [call idealRedis].
  apply Quiet_bind; [apply Quiet_idealCall|]. intros failures.
  apply Quiet_bind; [|intros; apply Quiet_throw].
  destruct (le (ofZ threshold) (replyNumber failures)); [|apply Quiet_ret].
  apply Quiet_bind; [apply Quiet_idealCall|]. intros _.
  apply Quiet_bind; [apply Quiet_idealCall|]. intros _. apply Quiet_ret.
Qed.

Lemma recordFailure_throws {T : Type} service threshold reset error w :
  exists e,
    fst (@recordFailure idealRedis T service threshold reset error w) = Throw e.
Proof.
  unfold recordFailure, mbind, IO_bind, bind, throw. cbn [call idealRedis].
  destruct (idealCall (INCR _) w) as [[f|e] w1]; [|eauto].
  destruct (le (ofZ threshold) (replyNumber f)); cbn.
  - destruct (idealCall (SET _ _ _ _) w1) as [[?|e] w2]; [|eauto].
    destruct (idealCall (DEL _) w2) as [[?|e] w3]; cbn; eauto.
  - eauto.
Qed.

Lemma withCircuitBreaker_wraps {T : Type} (service : string)
    (config : CircuitConfig) (work : IO T) :
  Wraps (@withCircuitBreaker idealRedis T service config work) work.
Proof.
  intros w. unfold withCircuitBreaker, mbind, IO_bind, bind.
  cbn [call idealRedis].
  pose proof (Quiet_idealCall (GET (stateKeyOf service)) w) as Hq.
  destruct (idealCall (GET (stateKeyOf service)) w) as [[state|e] w0];
    cbn [snd] in Hq.
  - destruct (replyIsText state "OPEN").
    + left. split; [eexists; reflexivity | exact Hq].
    + right. exists w0. split; [exact Hq|].
      unfold tryCatch. destruct (work w0) as [[v|e] w1]; cbn [fst snd].
      * split; [apply sameProvider_refl|]. intros v' H. exact H.
      * split; [apply Quiet_recordFailure|].
        intros v Hv.
        destruct (@recordFailure_throws T service
                    (actualFailureThreshold config)
                    (actualResetTimeoutSec config) e w1) as [e' He'].
        rewrite He' in Hv. discriminate Hv.
  - left. split; [eexists; reflexivity | exact Hq].
Qed.

Lemma Quiet_expireOnFirst current key ttlSec :
  Quiet (@expireOnFirst idealRedis current key ttlSec).
Proof.
  unfold expireOnFirst. destruct (replyIsInt current 1); [|apply Quiet_ret].
  cbn [call idealRedis].
  apply Quiet_bind; [apply Quiet_idealCall|]. intros _. apply Quiet_ret.
Qed.

Lemma withInflightLimiter_wraps {T : Type} (key : string)
    (maxConcurrent : JsNumber) (ttlSec : Z) (work : IO T) :
  Wraps (@withInflightLimiter idealRedis T key maxConcurrent ttlSec work) work.
Proof.
  intros w. unfold withInflightLimiter.
  destruct (limitDisabled maxConcurrent).
  { right. exists w. split; [apply sameProvider_refl|].
    split; [apply sameProvider_refl|]. intros v H; exact H. }
  unfold mbind, IO_bind, bind. cbn [call idealRedis].
  pose proof (Quiet_idealCall (INCR key) w) as Hq1.
  destruct (idealCall (INCR key) w) as [[current|e] w1]; cbn [snd] in Hq1;
    [|left; split; [eexists; reflexivity | exact Hq1]].
  pose proof (Quiet_expireOnFirst current key ttlSec w1) as Hq2.
  destruct (expireOnFirst current key ttlSec w1) as [[[]|e] w2];
    cbn [snd] in Hq2;
    [|left; split; [eexists; reflexivity
                   | eapply sameProvider_trans; eauto]].
  assert (Hw2 : sameProvider w w2) by (eapply sameProvider_trans; eauto).
  destruct (lt maxConcurrent (replyNumber current)).
  - left. pose proof (Quiet_idealCall (DECR key) w2) as Hq3.
    destruct (idealCall (DECR key) w2) as [[?|e] w3]; cbn [snd] in Hq3;
      (split; [eexists; reflexivity | eapply sameProvider_trans; eauto]).
  - right. exists w2. split; [exact Hw2|].
    unfold tryFinally. destruct (work w2) as [r w3]. cbn [fst snd].
    pose proof (Quiet_idealCall (DECR key) w3) as Hq3.
    destruct (idealCall (DECR key) w3) as [[?|e] w4]; cbn [snd] in Hq3;
      cbn [fst snd mret IO_ret ret].
    + split; [exact Hq3|]. intros v H; exact H.
    + split; [exact Hq3|]. intros v H; discriminate H.
Qed.

Lemma Wraps_compose {T : Type} (outer middle work : IO T) :
  Wraps outer middle -> Wraps middle work -> Wraps outer work.
Proof.
  intros Ho Hm w.
  destruct (Ho w) as [[He Hs] | (w0 & Hs0 & Hs1 & Hret)].
  - left. split; assumption.
  - destruct (Hm w0) as [[[e He] Hs] | (w1 & Hs2 & Hs3 & Hret')].
    + left. split.
      * destruct (fst (outer w)) as [v|e'] eqn:Hout; [|eauto].
        rewrite (Hret v eq_refl) in He. discriminate He.
      * eapply sameProvider_trans; [exact Hs0|].
        eapply sameProvider_trans; [exact Hs | exact Hs1].
    + right. exists w1. split; [eapply sameProvider_trans; eauto|].
      split; [eapply sameProvider_trans; eauto|].
      intros v Hv. apply Hret'. apply Hret. exact Hv.
Qed.

Lemma searchText_wraps :
  Wraps (@searchText idealRedis keys fetch query options)
        (attemptLoop keys fetch (Z.to_nat maxAttempts) query options 0).
Proof.
  unfold searchText.
  eapply Wraps_compose; [apply withCircuitBreaker_wraps|].
  apply withInflightLimiter_wraps.
Qed.


End RetryFacts.


(** The flaky provider end to end: a 503 is followed by the one-second
    backoff and the second credential, the timeout by the first credential
    again at once, and the third attempt succeeds. *)
Example searchText_flaky_trace :
  let res := @Gateway.searchText Runtime.idealRedis twoKeys flakyProvider
               "gym in Rome" Gateway.noOptions Runtime.emptyWorld in
  fst res = Runtime.Return {| Gateway.places := [];
                              Gateway.nextPageToken := None |}
  /\ Runtime.events (snd res)
     = [Runtime.EvKey 0 "key-a"; Runtime.EvFetch "key-a" None;
        Runtime.EvSleep 1000;
        Runtime.EvKey 1 "key-b"; Runtime.EvFetch "key-b" None;
        Runtime.EvKey 0 "key-a"; Runtime.EvFetch "key-a" None].
Proof. vm_compute. split; reflexivity. Qed.


(** ** Properties of the grid scan *)

Section ScanFacts.
Import Js Data Runtime Gateway.

Variable respond :
  option LocationBias -> option string -> Outcome GatewayResponse.
Variable query : string.

(** The page budget bounds the iterations of a sector, with any gateway:
    any larger fuel gives the same run. *)
Lemma sectorLoop_fuel
    (search : string -> SearchOptions -> IO GatewayResponse)
    (MAX : nat) (bias : LocationBias) (fuel1 : nat) :
  forall (fuel2 pageCount : nat) (acc : list Place) (token : option string)
         (w : World),
    (1 <= fuel1)%nat -> (1 <= fuel2)%nat ->
    (Nat.max 1 MAX - pageCount <= fuel1)%nat ->
    (Nat.max 1 MAX - pageCount <= fuel2)%nat ->
    sectorLoop search fuel1 query bias MAX acc token pageCount w
    = sectorLoop search fuel2 query bias MAX acc token pageCount w.
Proof.
  induction fuel1 as [|fuel1 IH];
    intros [|fuel2] pageCount acc token w H1 H2 Hf1 Hf2; try lia.
  cbn [sectorLoop]. unfold mbind, IO_bind, bind.
  destruct ((if (0 <? pageCount)%nat then sleep 2000 else mret tt) w)
    as [[[]|e] w1]; [|reflexivity].
  destruct (search query _ w1) as [[response|e] w2]; [|reflexivity].
  destruct (truthy (nextPageToken response) && (S pageCount <? MAX)%nat)
    eqn:Hgo; [|reflexivity].
  apply andb_true_iff in Hgo as [_ Hlt]. apply Nat.ltb_lt in Hlt.
  apply IH; lia.
Qed.














End ScanFacts.



(** ** Properties of the orchestrator *)

Section StandardSearchFacts.
Import Js Data Runtime Gateway Orchestrator.
Local Open Scope Z_scope.

Context {redis : RedisClient}.
Variable config : Config.
Variable gateway : PlacesGateway.

Lemma slice_prefix_length {A : Type} (l : list A) (n : Z) :
  0 <= n ->
  length (slice l 0 n) = Nat.min (Z.to_nat n) (length l).
Proof.
  intros Hn. unfold slice, sliceIndex.
  destruct (Z.ltb_spec 0 0) as [?|_]; [lia|].
  destruct (Z.ltb_spec n 0) as [?|_]; [lia|].
  rewrite (Z.min_l 0) by lia. change (Z.to_nat 0) with 0%nat. rewrite drop_0.
  rewrite Z.sub_0_r, List.length_firstn. lia.
Qed.

(** The loop either does not run at all or runs with a positive cap. *)
Lemma standardLoop_ran (fuel : nat) (userId job query : string) (P MAXF : Z) :
  forall (all enr : list Place) (tok : option string) (fc : Z) (w w' : World)
         (all' enr' : list Place) (tok' : option string),
    standardLoop gateway fuel userId job query P MAXF all enr tok fc w
    = (Return (all', enr', tok'), w') ->
    (all', enr', tok') = (all, enr, tok) \/ 0 < P.
Proof.
  induction fuel as [|fuel IH]; intros all enr tok fc w w' all' enr' tok' H;
    cbn [standardLoop] in H.
  - destruct ((fc <? MAXF) && (Z.of_nat (length all) <? P));
      cbn in H; injection H as <- <- <- _; left; reflexivity.
  - destruct ((fc <? MAXF) && (Z.of_nat (length all) <? P)) eqn:Hc.
    + right. apply andb_true_iff in Hc as [_ Hc]. apply Z.ltb_lt in Hc. lia.
    + cbn in H. injection H as <- <- <- _. left; reflexivity.
Qed.

(** [MAX_FETCHES] iterations are all the fetch loop can make: any larger
    fuel gives the same run. *)
Lemma standardLoop_fuel (userId job query : string) (P MAXF : Z)
    (fuel1 : nat) :
  forall (fuel2 : nat) (all enr : list Place) (tok : option string) (fc : Z)
         (w : World),
    MAXF - fc <= Z.of_nat fuel1 ->
    MAXF - fc <= Z.of_nat fuel2 ->
    standardLoop gateway fuel1 userId job query P MAXF all enr tok fc w
    = standardLoop gateway fuel2 userId job query P MAXF all enr tok fc w.
Proof.
  induction fuel1 as [|fuel1 IH]; intros [|fuel2] all enr tok fc w H1 H2;
    cbn [standardLoop];
    destruct (Z.ltb_spec fc MAXF) as [Hlt|_];
    try reflexivity; try lia.
  cbn [andb].
  destruct (Z.of_nat (length all) <? P); [|reflexivity].
  unfold mbind, IO_bind, bind.
  destruct (gw_searchText gateway query _ w) as [[result|e] w1];
    [|reflexivity].
  destruct ((if (0 <? length (places result))%nat
             then persistAndPublish userId job (places result)
             else mret []) w1) as [[batch|e] w2]; [|reflexivity].
  destruct (negb (truthy (nextPageToken result))); [reflexivity|].
  apply IH; lia.
Qed.


Variable normalizeInput : string -> string.

(** A sequence that returns: its first step returned, and so did the rest. *)
Lemma bind_returns {A B : Type} (m : IO A) (k : A -> IO B)
    (w w' : World) (b : B) :
  mbind k m w = (Return b, w') ->
  exists (a : A) (w1 : World), m w = (Return a, w1) /\ k a w1 = (Return b, w').
Proof.
  unfold mbind, IO_bind, bind. destruct (m w) as [[a|e] w1]; intros H;
    [eauto | discriminate H].
Qed.

Lemma truthy_false_not_deep (tok : option string) :
  truthy tok = false -> isDeepToken tok = false.
Proof.
  unfold truthy, isDeepToken. destruct tok as [t|]; [|reflexivity].
  intros H. rewrite H. reflexivity.
Qed.


(** What every path of a deep-search initiation does: the list that is
    cached is capped by the credit-aware bound, [limitedPlaces] is its first
    page, and the token announces the second page exactly when the list is
    longer than a page. *)
Lemma deepInitiation_first_page
    (userId job city keyword listKey dataKey : string)
    (remainingCredits gridSize maxPagesPerGrid : Z) (w w' : World)
    (limited enriched : list Place) (next : option string) :
  deepInitiation config gateway userId job city keyword listKey dataKey
    remainingCredits gridSize maxPagesPerGrid w
  = (Return (limited, enriched, next), w') ->
  exists allPlaces : list Place,
    (0 <= DEEP_SEARCH_MAX_PAGES config ->
     Z.of_nat (length allPlaces) <= maxResultsByCredits config remainingCredits)
    /\ limited = slice allPlaces 0 (DEEP_PAGE_SIZE config)
    /\ Z.of_nat (length limited) <= DEEP_PAGE_SIZE config
    /\ next = if DEEP_PAGE_SIZE config <? Z.of_nat (length allPlaces)
              then Some ("deep:" +:+ pretty (DEEP_PAGE_SIZE config))
              else None.
Proof.
  intros H. unfold deepInitiation in H.
  apply bind_returns in H as (cityResult & w1 & _ & H).
  apply bind_returns in H as ([all0 enr0] & w2 & _ & H).
  cbv zeta in H.
  apply bind_returns in H as (? & w3 & _ & H).
  apply bind_returns in H as (? & w4 & _ & H).
  apply bind_returns in H as (enr & w5 & _ & H).
  injection H as <- _ <- _.
  assert (HD : 10 <= DEEP_PAGE_SIZE config) by (unfold DEEP_PAGE_SIZE; lia).
  eexists. split; [|split; [reflexivity|split; [|reflexivity]]].
  - intros HM.
    assert (Hcap : 0 <= maxResultsByCredits config remainingCredits).
    { unfold maxResultsByCredits. apply Z.mul_nonneg_nonneg; lia. }
    destruct (Z.ltb_spec (maxResultsByCredits config remainingCredits)
                (Z.of_nat (length all0))) as [Hlt|Hge]; [|lia].
    rewrite slice_prefix_length by exact Hcap. lia.
  - rewrite slice_prefix_length by lia. lia.
Qed.

End StandardSearchFacts.



Section BillingFacts.
Import Js Data Runtime Gateway Orchestrator.
Local Open Scope Z_scope.

(** The billing transaction of a new search is all or nothing, and it
    debits only a balance that covers the cost. *)
Lemma billingTransaction_guarded
    (userId nc nk city keyword : string) (deep paid : bool) (cost : Z)
    (limited : list Place) (w : World) :
  match billingTransaction userId nc nk city keyword deep paid cost limited w with
  | (Return _, w') =>
      exists u : User,
        users (db w) !! userId = Some u
        /\ cost <= credits u
        /\ users (db w')
           = <[userId := {| credits := credits u - cost;
                            subscriptionTier := subscriptionTier u;
                            email := email u |}]> (users (db w))
        /\ length (creditTransactions (db w'))
           = S (length (creditTransactions (db w)))
        /\ (ct_amount <$> last (creditTransactions (db w'))) = Some (- cost)
        /\ length (searchHistory (db w'))
           = (if paid then length (searchHistory (db w))
              else S (length (searchHistory (db w))))
  | (Throw _, w') => db w' = db w
  end.
Proof.
  unfold billingTransaction, transaction, mbind, IO_bind, bind,
    updateManyCredits.
  destruct (users (db w) !! userId) as [u|] eqn:Hu; [|reflexivity].
  destruct (Z.leb_spec cost (credits u)) as [Hle|Hgt]; [|reflexivity].
  cbn [Z.eqb throw mret IO_ret ret createCreditTransaction].
  destruct paid; cbn [negb createSearchHistory mret IO_ret ret db withDb
                      users withUsers creditTransactions withCreditTransactions
                      searchHistory withSearchHistory];
    exists u; repeat split; try assumption;
    rewrite ?List.length_app, ?last_snoc; cbn; try reflexivity; lia.
Qed.

(** The legacy transaction decrements whatever the balance is. *)
Lemma legacyBillingTransaction_unguarded
    (userId nc nk keyword : string) (token : option string) (w : World)
    (u : User) :
  users (db w) !! userId = Some u ->
  users (db (snd (legacyBillingTransaction userId nc nk keyword token w)))
    !! userId
  = Some {| credits := credits u - 1;
            subscriptionTier := subscriptionTier u;
            email := email u |}.
Proof.
  intros Hu.
  unfold legacyBillingTransaction, transaction, mbind, IO_bind, bind,
    updateManyCredits.
  rewrite Hu. cbn. apply lookup_insert_eq.
Qed.

End BillingFacts.

(** C1. The provider-token (legacy) pagination path debits without the
    balance condition: with one credit and two page loads of the same user
    in flight, both pass the balance check, both transactions commit, and
    the balance ends at -1 with two ledger entries of -1. *)
Theorem legacy_pagination_overdraws :
  (exists r, fst racingRun = Runtime.Return r)
  /\ (Runtime.credits <$> Runtime.users (Runtime.db oneCredit) !! "user-1")
     = Some 1%Z
  /\ (Runtime.credits <$> Runtime.users (Runtime.db (snd racingRun)) !! "user-1")
     = Some (-1)%Z
  /\ List.map (fun t => (Runtime.ct_type t, Runtime.ct_amount t))
       (Runtime.creditTransactions (Runtime.db (snd racingRun)))
     = [("PAGE_LOAD", (-1)%Z); ("PAGE_LOAD", (-1)%Z)].
Proof.
  split; [eexists; vm_compute; reflexivity|].
  repeat split; vm_compute; reflexivity.
Qed.

(** C4. In the fallback path of a deep-search initiation (no viewport for
    the city) the whole fallback batch is returned: with a deep page size of
    10 and twenty places from the fallback query, the call charges 10
    credits, caches twenty ids, announces [deep:10] and returns all twenty
    places as its first page. *)
Theorem deep_fallback_first_page_oversized :
  exists r : Data.SearchResult,
    fst deepFallbackRun = Runtime.Return r
    /\ Orchestrator.DEEP_PAGE_SIZE tenPerPage = 10%Z
    /\ length (Data.res_places r) = 20%nat
    /\ Data.res_nextPageToken r = Some "deep:10"
    /\ (Runtime.credits
          <$> Runtime.users (Runtime.db (snd deepFallbackRun)) !! "user-1")
       = Some 90%Z
    /\ (Runtime.value
          <$> Runtime.store (snd deepFallbackRun) !! "search:list:Rome:gym")
       = Some (Runtime.VStr (Runtime.PIds (List.map Data.place_id twentyPlaces))).
Proof.
  eexists. split; [vm_compute; reflexivity|].
  repeat split; vm_compute; reflexivity.
Qed.

(** ** Further properties of the grid partitioner *)

Section GridCoverFacts.
Import GridGenerator.
Local Open Scope R_scope.




End GridCoverFacts.





(** ** Further properties of the traffic-control primitives *)

Section LockFacts.
Import Js Runtime TrafficControl Polling.
Local Open Scope Z_scope.

Lemma acquireLock_free (key : string) (ttlMs : Z) (w : World) :
  0 < ttlMs -> isFree key w = true ->
  @acquireLock idealRedis key ttlMs w
  = (Return (Some ("uuid-" +:+ pretty (uuidSeed w))),
     withStore
       (<[key := {| value := VStr (PText ("uuid-" +:+ pretty (uuidSeed w)));
                    expireAt := Some (clock w + ttlMs) |}]> (store w))
       (withUuidSeed (S (uuidSeed w)) w)).
Proof.
  intros Httl Hfree. unfold acquireLock, mbind, IO_bind, bind, randomUUID.
  cbn [call idealRedis]. rewrite idealCall_store by discriminate.
  cbn [runCmd clock store withUuidSeed].
  destruct (Z.leb_spec ttlMs 0) as [?|_]; [lia|].
  unfold isFree in Hfree.
  destruct (lookupLive (clock w) key (store w)); [discriminate Hfree|].
  rewrite bool_decide_false by (intros [? H]; discriminate H).
  reflexivity.
Qed.

Lemma acquireLock_held (key : string) (ttlMs : Z) (w : World) :
  0 < ttlMs -> isFree key w = false ->
  @acquireLock idealRedis key ttlMs w
  = (Return None, withUuidSeed (S (uuidSeed w)) w).
Proof.
  intros Httl Hheld. unfold acquireLock, mbind, IO_bind, bind, randomUUID.
  cbn [call idealRedis]. rewrite idealCall_store by discriminate.
  cbn [runCmd clock store withUuidSeed].
  destruct (Z.leb_spec ttlMs 0) as [?|_]; [lia|].
  unfold isFree in Hheld.
  destruct (lookupLive (clock w) key (store w)) as [e|]; [|discriminate Hheld].
  rewrite bool_decide_true by (exists e; reflexivity).
  cbn [andb fst snd replyIsText]. destruct w; reflexivity.
Qed.

(** The release script on the reference store. *)
Lemma releaseLock_ideal (key token : string) (w : World) :
  @releaseLock idealRedis key token w
  = (Return tt,
     if bool_decide (heldText key w = Some token)
     then withStore (delete key (store w)) w
     else w).
Proof.
  unfold releaseLock, tryCatch, mbind, IO_bind, bind, mret, IO_ret, ret.
  cbn [eval idealRedis]. unfold idealEval, RELEASE_LOCK_LUA, heldText.
  cbn [runCmd].
  destruct (lookupLive (clock w) key (store w)) as [[[p|n|l] t]|] eqn:Hl.
  - destruct p as [s|ids|ps|ps n|res]; cbn;
      try (rewrite bool_decide_false by discriminate;
           rewrite withStore_same; reflexivity).
    destruct (String.eqb_spec s token) as [->|Hne].
    + rewrite Hl. rewrite bool_decide_true by reflexivity. reflexivity.
    + rewrite bool_decide_false by congruence.
      rewrite withStore_same. reflexivity.
  - cbn. destruct (String.eqb_spec (pretty n) token) as [<-|Hne].
    + rewrite Hl. rewrite bool_decide_true by reflexivity. reflexivity.
    + rewrite bool_decide_false by congruence.
      rewrite withStore_same. reflexivity.
  - cbn. rewrite bool_decide_false by discriminate.
    rewrite withStore_same. reflexivity.
  - cbn. rewrite bool_decide_false by discriminate.
    rewrite withStore_same. reflexivity.
Qed.

Lemma isFree_insert_eq (key : string) (e : Entry) (w w2 : World) :
  store w2 = <[key := e]> (store w) ->
  isFree key w2 = negb (live (clock w2) e).
Proof.
  intros Hst. unfold isFree. rewrite Hst, lookupLive_insert_eq.
  destruct (live (clock w2) e); reflexivity.
Qed.

End LockFacts.

(** X3. Mutual exclusion with a lease, on the reference store: acquiring a
    free lock with a positive TTL succeeds and stores the fresh token; as
    long as the store is not changed and the TTL has not elapsed, every
    further [acquireLock] on the key answers [null] and writes nothing; once
    the TTL has elapsed the key is free again, so a holder that never
    releases cannot block the others for ever. *)
Theorem acquireLock_mutual_exclusion
    (key : string) (ttlMs : Z) (w : Runtime.World) :
  (0 < ttlMs)%Z ->
  Polling.isFree key w = true ->
  exists (token : string) (w1 : Runtime.World),
    @TrafficControl.acquireLock Runtime.idealRedis key ttlMs w
    = (Runtime.Return (Some token), w1)
    /\ TrafficControl.heldText key w1 = Some token
    /\ Polling.expiryOf key w1 = Some (Runtime.clock w + ttlMs)%Z
    /\ (forall (w2 : Runtime.World) (ttl2 : Z),
          Runtime.store w2 = Runtime.store w1 ->
          (Runtime.clock w2 < Runtime.clock w + ttlMs)%Z ->
          (0 < ttl2)%Z ->
          fst (@TrafficControl.acquireLock Runtime.idealRedis key ttl2 w2)
          = Runtime.Return None
          /\ Runtime.store
               (snd (@TrafficControl.acquireLock Runtime.idealRedis key ttl2 w2))
             = Runtime.store w2)
    /\ (forall w2 : Runtime.World,
          Runtime.store w2 = Runtime.store w1 ->
          (Runtime.clock w + ttlMs <= Runtime.clock w2)%Z ->
          Polling.isFree key w2 = true).
Proof.
  intros Httl Hfree.
  eexists. eexists. split; [apply acquireLock_free; assumption|].
  assert (Hlive : forall t : Z,
            Runtime.live t
              {| Runtime.value :=
                   Runtime.VStr (Runtime.PText
                                   ("uuid-" +:+ pretty (Runtime.uuidSeed w)));
                 Runtime.expireAt := Some (Runtime.clock w + ttlMs)%Z |}
            = (t <? Runtime.clock w + ttlMs)%Z) by reflexivity.
  split; [|split; [|split]].
  - unfold TrafficControl.heldText.
    cbn [Runtime.store Runtime.clock Runtime.withStore Runtime.withUuidSeed].
    rewrite lookupLive_insert_eq, Hlive.
    destruct (Z.ltb_spec (Runtime.clock w) (Runtime.clock w + ttlMs)); [|lia].
    reflexivity.
  - unfold Polling.expiryOf.
    cbn [Runtime.store Runtime.clock Runtime.withStore Runtime.withUuidSeed].
    rewrite lookupLive_insert_eq, Hlive.
    destruct (Z.ltb_spec (Runtime.clock w) (Runtime.clock w + ttlMs)); [|lia].
    reflexivity.
  - intros w2 ttl2 Hst Hclock Httl2.
    rewrite acquireLock_held; [split; reflexivity | exact Httl2 |].
    rewrite (isFree_insert_eq key _ w w2 Hst), Hlive.
    destruct (Z.ltb_spec (Runtime.clock w2) (Runtime.clock w + ttlMs)); [|lia].
    reflexivity.
  - intros w2 Hst Hclock.
    rewrite (isFree_insert_eq key _ w w2 Hst), Hlive.
    destruct (Z.ltb_spec (Runtime.clock w2) (Runtime.clock w + ttlMs)); [lia|].
    reflexivity.
Qed.

Lemma acquireLock_mutual_exclusion_witness :
  (0 < 30000)%Z
  /\ Polling.isFree "lock:search:rome:gym" Runtime.emptyWorld = true
  /\ exists (token : string) (w1 : Runtime.World),
       @TrafficControl.acquireLock Runtime.idealRedis "lock:search:rome:gym"
         30000 Runtime.emptyWorld
       = (Runtime.Return (Some token), w1)
       /\ TrafficControl.heldText "lock:search:rome:gym" w1 = Some token
       /\ Polling.expiryOf "lock:search:rome:gym" w1
          = Some (Runtime.clock Runtime.emptyWorld + 30000)%Z
       /\ (forall (w2 : Runtime.World) (ttl2 : Z),
             Runtime.store w2 = Runtime.store w1 ->
             (Runtime.clock w2 < Runtime.clock Runtime.emptyWorld + 30000)%Z ->
             (0 < ttl2)%Z ->
             fst (@TrafficControl.acquireLock Runtime.idealRedis
                    "lock:search:rome:gym" ttl2 w2)
             = Runtime.Return None
             /\ Runtime.store
                  (snd (@TrafficControl.acquireLock Runtime.idealRedis
                          "lock:search:rome:gym" ttl2 w2))
                = Runtime.store w2)
       /\ (forall w2 : Runtime.World,
             Runtime.store w2 = Runtime.store w1 ->
             (Runtime.clock Runtime.emptyWorld + 30000 <= Runtime.clock w2)%Z ->
             Polling.isFree "lock:search:rome:gym" w2 = true).
Proof.
  split; [lia|]. split; [reflexivity|].
  apply (acquireLock_mutual_exclusion "lock:search:rome:gym" 30000
           Runtime.emptyWorld); [lia | reflexivity].
Defined.

(** X4. Acquire and release go round, and only the owner can release: after
    a successful [acquireLock], [releaseLock] with any other token changes
    nothing and the lock stays held, while [releaseLock] with the returned
    token removes the key, leaving the store as it was before the lock was
    taken, so that the next [acquireLock] succeeds. *)
Theorem lock_release_round_trip
    (key : string) (ttlMs : Z) (w : Runtime.World) :
  (0 < ttlMs)%Z ->
  Polling.isFree key w = true ->
  exists (token : string) (w1 w2 : Runtime.World),
    @TrafficControl.acquireLock Runtime.idealRedis key ttlMs w
    = (Runtime.Return (Some token), w1)
    /\ (forall other : string,
          other <> token ->
          @TrafficControl.releaseLock Runtime.idealRedis key other w1
          = (Runtime.Return tt, w1))
    /\ @TrafficControl.releaseLock Runtime.idealRedis key token w1
       = (Runtime.Return tt, w2)
    /\ Runtime.store w2 = delete key (Runtime.store w)
    /\ Polling.isFree key w2 = true
    /\ exists (token' : string) (w3 : Runtime.World),
         @TrafficControl.acquireLock Runtime.idealRedis key ttlMs w2
         = (Runtime.Return (Some token'), w3)
         /\ token' <> token.
Proof.
  intros Httl Hfree.
  rewrite acquireLock_free by assumption.
  set (token := "uuid-" +:+ pretty (Runtime.uuidSeed w)).
  set (w1 := Runtime.withStore _ _).
  assert (Hheld : TrafficControl.heldText key w1 = Some token).
  { unfold TrafficControl.heldText, w1.
    cbn [Runtime.store Runtime.clock Runtime.withStore Runtime.withUuidSeed].
    rewrite lookupLive_insert_eq. unfold Runtime.live. cbn [Runtime.expireAt].
    destruct (Z.ltb_spec (Runtime.clock w) (Runtime.clock w + ttlMs)); [|lia].
    reflexivity. }
  assert (Hfree2 : Polling.isFree key
                     (Runtime.withStore (delete key (Runtime.store w1)) w1)
                   = true).
  { unfold Polling.isFree, Runtime.lookupLive.
    cbn [Runtime.store Runtime.withStore]. rewrite lookup_delete_eq.
    reflexivity. }
  exists token, w1, (Runtime.withStore (delete key (Runtime.store w1)) w1).
  split; [reflexivity|]. split; [|split; [|split; [|split]]].
  - intros other Hother. rewrite releaseLock_ideal, Hheld.
    rewrite bool_decide_false by congruence. reflexivity.
  - rewrite releaseLock_ideal, Hheld.
    rewrite bool_decide_true by reflexivity. reflexivity.
  - unfold w1. cbn [Runtime.store Runtime.withStore].
    apply delete_insert_eq.
  - exact Hfree2.
  - rewrite acquireLock_free by assumption.
    eexists. eexists. split; [reflexivity|].
    unfold w1, token. cbn [Runtime.uuidSeed Runtime.withStore Runtime.withUuidSeed].
    intros H. apply (inj (String.app "uuid-")) in H.
    apply (inj pretty) in H. lia.
Qed.

Lemma lock_release_round_trip_witness :
  (0 < 30000)%Z
  /\ Polling.isFree "lock:search:rome:gym" Runtime.emptyWorld = true
  /\ exists (token : string) (w1 w2 : Runtime.World),
       @TrafficControl.acquireLock Runtime.idealRedis "lock:search:rome:gym"
         30000 Runtime.emptyWorld
       = (Runtime.Return (Some token), w1)
       /\ (forall other : string,
             other <> token ->
             @TrafficControl.releaseLock Runtime.idealRedis
               "lock:search:rome:gym" other w1
             = (Runtime.Return tt, w1))
       /\ @TrafficControl.releaseLock Runtime.idealRedis
            "lock:search:rome:gym" token w1
          = (Runtime.Return tt, w2)
       /\ Runtime.store w2
          = delete "lock:search:rome:gym" (Runtime.store Runtime.emptyWorld)
       /\ Polling.isFree "lock:search:rome:gym" w2 = true
       /\ exists (token' : string) (w3 : Runtime.World),
            @TrafficControl.acquireLock Runtime.idealRedis
              "lock:search:rome:gym" 30000 w2
            = (Runtime.Return (Some token'), w3)
            /\ token' <> token.
Proof.
  split; [lia|]. split; [reflexivity|].
  apply (lock_release_round_trip "lock:search:rome:gym" 30000
           Runtime.emptyWorld); [lia | reflexivity].
Defined.

Section PollingFacts.
Import Js Runtime TrafficControl Polling.
Local Open Scope Z_scope.

Lemma live_later (t1 t2 : Z) (e : Entry) :
  t1 <= t2 -> live t2 e = true -> live t1 e = true.
Proof.
  unfold live. destruct (expireAt e) as [t|]; [|reflexivity].
  intros Hle H. apply Z.ltb_lt in H. apply Z.ltb_lt. lia.
Qed.

(** A key that holds nothing stays so while nobody writes. *)
Lemma isFree_later (key : string) (w w2 : World) :
  store w2 = store w -> clock w <= clock w2 ->
  isFree key w = true -> isFree key w2 = true.
Proof.
  unfold isFree, lookupLive. intros -> Hle.
  destruct (store w !! key) as [e|]; [|reflexivity].
  destruct (live (clock w) e) eqn:H1; [discriminate|]. intros _.
  destruct (live (clock w2) e) eqn:H2; [|reflexivity].
  rewrite (live_later _ _ _ Hle H2) in H1. discriminate H1.
Qed.

Lemma idealCall_GET_free (key : string) (w : World) :
  isFree key w = true -> idealCall (GET key) w = (Return Nil, w).
Proof.
  unfold isFree. intros H. rewrite idealCall_GET. cbn [runCmd].
  destruct (lookupLive (clock w) key (store w)); [discriminate H | reflexivity].
Qed.

Lemma idealCall_GET_payload (key : string) (p : Payload) (w : World) :
  payloadOf key w = Some p -> idealCall (GET key) w = (Return (Bulk p), w).
Proof.
  unfold payloadOf. intros H. rewrite idealCall_GET. cbn [runCmd].
  destruct (lookupLive (clock w) key (store w)) as [[[q|n|l] t]|];
    try discriminate H.
  injection H as ->. reflexivity.
Qed.

(** Polling a key that holds nothing: the loop leaves when the deadline has
    passed, at most one poll interval late, whatever fuel covers the wait. *)
Lemma waitLoop_times_out (key : string) (deadline pollMs : Z) (fuel : nat) :
  forall w : World,
    1 <= pollMs ->
    isFree key w = true ->
    deadline - clock w <= Z.of_nat fuel * pollMs ->
    exists w' : World,
      @waitLoop idealRedis fuel key deadline pollMs w = (Return Nil, w')
      /\ store w' = store w
      /\ Z.max (clock w) deadline <= clock w'
      /\ (deadline <= clock w -> clock w' = clock w)
      /\ (clock w < deadline -> clock w' < deadline + pollMs).
Proof.
  induction fuel as [|fuel IH]; intros w Hpoll Hfree Hfuel.
  - cbn [waitLoop]. unfold mbind, IO_bind, bind, dateNow.
    destruct (Z.ltb_spec (clock w) deadline) as [?|Hge]; [lia|].
    exists w. split; [reflexivity|]. split; [reflexivity|]. lia.
  - cbn [waitLoop]. unfold mbind, IO_bind, bind, dateNow.
    destruct (Z.ltb_spec (clock w) deadline) as [Hlt|Hge].
    + cbn [call idealRedis]. rewrite (idealCall_GET_free _ _ Hfree).
      cbn [replyTruthy]. unfold sleep at 1.
      set (w1 := withEvents _ _).
      destruct (IH w1 Hpoll) as (w' & Hrun & Hst & Hlo & Hsame & Hhi).
      * apply (isFree_later key w w1); [reflexivity | cbn; lia | exact Hfree].
      * unfold w1. cbn [clock withEvents withClock]. lia.
      * exists w'. split; [exact Hrun|]. split; [rewrite Hst; reflexivity|].
        unfold w1 in Hlo, Hsame, Hhi.
        cbn [clock withEvents withClock] in Hlo, Hsame, Hhi.
        lia.
    + exists w. split; [reflexivity|]. split; [reflexivity|]. lia.
Qed.

End PollingFacts.

(** X5. [waitForValue] is a bounded wait.  With any store client, a timeout
    that is not positive answers [null] at once without reading the key.  On
    the reference store with a poll interval of at least 1 ms: a value that
    is present and truthy is returned by the first poll, with no sleep; and
    for a key that holds nothing the call answers [null] once the timeout
    has elapsed, less than one poll interval late, leaving the store as it
    was. *)
Theorem waitForValue_bounded_wait (key : string) (timeoutMs pollMs : Z) :
  (1 <= pollMs)%Z ->
  (forall (client : Runtime.RedisClient) (w : Runtime.World),
      (timeoutMs <= 0)%Z ->
      @Polling.waitForValue client key timeoutMs pollMs w
      = (Runtime.Return Runtime.Nil, w))
  /\ (forall (w : Runtime.World) (p : Runtime.Payload),
        (0 < timeoutMs)%Z ->
        Polling.payloadOf key w = Some p ->
        Runtime.replyTruthy (Runtime.Bulk p) = true ->
        @Polling.waitForValue Runtime.idealRedis key timeoutMs pollMs w
        = (Runtime.Return (Runtime.Bulk p), w))
  /\ (forall w : Runtime.World,
        Polling.isFree key w = true ->
        exists w' : Runtime.World,
          @Polling.waitForValue Runtime.idealRedis key timeoutMs pollMs w
          = (Runtime.Return Runtime.Nil, w')
          /\ Runtime.store w' = Runtime.store w
          /\ (Runtime.clock w + Z.max timeoutMs 0 <= Runtime.clock w')%Z
          /\ (Runtime.clock w' < Runtime.clock w + Z.max timeoutMs 0 + pollMs)%Z).
Proof.
  intros Hpoll. split; [|split].
  - intros client w Hto.
    unfold Polling.waitForValue, mbind, Runtime.IO_bind, Runtime.bind,
      Runtime.dateNow.
    destruct (Z.to_nat (timeoutMs / pollMs) + 1)%nat as [|fuel];
      cbn [Polling.waitLoop];
      unfold mbind, Runtime.IO_bind, Runtime.bind, Runtime.dateNow;
      (destruct (Z.ltb_spec (Runtime.clock w) (Runtime.clock w + timeoutMs));
       [lia | reflexivity]).
  - intros w p Hto Hp Htruthy.
    unfold Polling.waitForValue, mbind, Runtime.IO_bind, Runtime.bind,
      Runtime.dateNow.
    replace (Z.to_nat (timeoutMs / pollMs) + 1)%nat
      with (S (Z.to_nat (timeoutMs / pollMs))) by lia.
    cbn [Polling.waitLoop].
    unfold mbind, Runtime.IO_bind, Runtime.bind, Runtime.dateNow.
    destruct (Z.ltb_spec (Runtime.clock w) (Runtime.clock w + timeoutMs));
      [|lia].
    cbn [Runtime.call Runtime.idealRedis].
    rewrite (idealCall_GET_payload _ _ _ Hp), Htruthy. reflexivity.
  - intros w Hfree.
    unfold Polling.waitForValue, mbind, Runtime.IO_bind, Runtime.bind,
      Runtime.dateNow.
    destruct (waitLoop_times_out key (Runtime.clock w + timeoutMs) pollMs
                (Z.to_nat (timeoutMs / pollMs) + 1) w Hpoll Hfree)
      as (w' & Hrun & Hst & Hlo & Hsame & Hhi).
    + pose proof (Z.div_mod timeoutMs pollMs ltac:(lia)) as Hdm.
      pose proof (Z.mod_pos_bound timeoutMs pollMs ltac:(lia)) as Hmod.
      destruct (Z.le_gt_cases 0 timeoutMs) as [Hnn|Hneg]; [|nia].
      assert (0 <= timeoutMs / pollMs)%Z by (apply Z.div_pos; lia).
      rewrite Nat2Z.inj_add, Z2Nat.id by lia. nia.
    + exists w'. split; [exact Hrun|]. split; [exact Hst|]. lia.
Qed.

Lemma waitForValue_bounded_wait_witness :
  (1 <= 200)%Z
  /\ Polling.isFree "search:rome:gym:p1" Runtime.emptyWorld = true
  /\ exists w' : Runtime.World,
       @Polling.waitForValue Runtime.idealRedis "search:rome:gym:p1" 8000 200
         Runtime.emptyWorld
       = (Runtime.Return Runtime.Nil, w')
       /\ Runtime.store w' = Runtime.store Runtime.emptyWorld
       /\ (Runtime.clock Runtime.emptyWorld + Z.max 8000 0 <= Runtime.clock w')%Z
       /\ (Runtime.clock w'
           < Runtime.clock Runtime.emptyWorld + Z.max 8000 0 + 200)%Z.
Proof.
  split; [lia|]. split; [reflexivity|].
  destruct (waitForValue_bounded_wait "search:rome:gym:p1" 8000 200
              ltac:(lia)) as (_ & _ & H).
  exact (H Runtime.emptyWorld eq_refl).
Defined.

Section RateLimitFacts.
Import Js Runtime TrafficControl Polling.
Local Open Scope Z_scope.

Variable key : string.
Variable limit : JsNumber.
Variable windowSec : Z.

(** The first request of a window creates the counter and starts the
    window. *)
Lemma fixedWindow_first (w : World) :
  limitDisabled limit = false -> 1 <= windowSec -> isFree key w = true ->
  @rateLimitFixedWindow idealRedis key limit windowSec w
  = (Return {| allowed := le (ofZ 1) limit |},
     withStore (<[key := {| value := VInt 1;
                            expireAt := Some (clock w + 1000 * windowSec) |}]>
                  (store w)) w).
Proof.
  intros Hlimit Hwin Hfree. unfold rateLimitFixedWindow. rewrite Hlimit.
  unfold mbind, IO_bind, bind. cbn [call idealRedis].
  rewrite idealCall_store by discriminate. cbn [runCmd]. unfold addToCounter.
  unfold isFree in Hfree.
  destruct (lookupLive (clock w) key (store w)); [discriminate Hfree|].
  cbn [fst snd]. unfold expireOnFirst. cbn [replyIsInt Z.eqb Pos.eqb].
  unfold mbind, IO_bind, bind. cbn [call idealRedis].
  rewrite idealCall_store by discriminate.
  cbn [runCmd clock store withStore].
  rewrite lookupLive_insert_eq. cbn [live expireAt].
  destruct (Z.leb_spec windowSec 0) as [?|_]; [lia|].
  cbn [fst snd mret IO_ret ret replyNumber value].
  rewrite insert_insert_eq. reflexivity.
Qed.

(** A later request of the window increments the counter and leaves the end
    of the window where it was. *)
Lemma fixedWindow_next (w : World) (n t : Z) :
  limitDisabled limit = false ->
  store w !! key = Some {| value := VInt n; expireAt := Some t |} ->
  clock w < t -> 1 <= n ->
  @rateLimitFixedWindow idealRedis key limit windowSec w
  = (Return {| allowed := le (ofZ (n + 1)) limit |},
     withStore (<[key := {| value := VInt (n + 1); expireAt := Some t |}]>
                  (store w)) w).
Proof.
  intros Hlimit Hkey Hlive Hn. unfold rateLimitFixedWindow. rewrite Hlimit.
  unfold mbind, IO_bind, bind. cbn [call idealRedis].
  rewrite idealCall_store by discriminate. cbn [runCmd]. unfold addToCounter.
  unfold lookupLive. rewrite Hkey. cbn [live expireAt].
  destruct (Z.ltb_spec (clock w) t) as [_|?]; [|lia].
  cbn [fst snd]. unfold expireOnFirst. cbn [replyIsInt].
  destruct (Z.eqb_spec (n + 1) 1) as [?|_]; [lia|].
  reflexivity.
Qed.

Lemma map_seq_from_one {A : Type} (f : nat -> A) (n : nat) :
  List.map f (seq 1 n) = List.map (fun k => f (S k)) (seq 0 n).
Proof. rewrite <- seq_shift, List.map_map. reflexivity. Qed.

Lemma spacedCalls_fixedWindow (delays : list Z) :
  forall (w : World) (n t : Z),
    limitDisabled limit = false ->
    store w !! key = Some {| value := VInt n; expireAt := Some t |} ->
    1 <= n ->
    Forall (fun d => 0 <= d) delays ->
    clock w + foldr Z.add 0 delays < t ->
    exists w' : World,
      spacedCalls delays (@rateLimitFixedWindow idealRedis key limit windowSec) w
      = (Return (List.map
                   (fun k : nat => {| allowed := le (ofZ (n + Z.of_nat k)) limit |})
                   (seq 1 (length delays))),
         w')
      /\ store w' !! key
         = Some {| value := VInt (n + Z.of_nat (length delays));
                   expireAt := Some t |}
      /\ clock w' = clock w + foldr Z.add 0 delays.
Proof.
  induction delays as [|d rest IH]; intros w n t Hlimit Hkey Hn Hpos Hsum.
  - exists w. cbn. rewrite Z.add_0_r. repeat split. rewrite Hkey.
    reflexivity. lia.
  - apply Forall_cons in Hpos as [Hd Hrest]. cbn [foldr] in Hsum.
    assert (Hrest0 : 0 <= foldr Z.add 0 rest).
    { clear -Hrest. induction Hrest; cbn [foldr]; lia. }
    cbn [spacedCalls]. unfold mbind, IO_bind, bind. unfold sleep at 1.
    set (w1 := withEvents _ _).
    assert (Hc1 : clock w1 = clock w + d).
    { unfold w1. cbn [clock withEvents withClock]. lia. }
    rewrite (fixedWindow_next w1 n t Hlimit) by (try exact Hkey; lia).
    set (w2 := withStore _ w1).
    destruct (IH w2 (n + 1) t Hlimit) as (w' & Hrun & Hst & Hclock).
    + unfold w2. cbn [store withStore]. apply lookup_insert_eq.
    + lia.
    + exact Hrest.
    + unfold w2. cbn [clock withStore]. lia.
    + exists w'. unfold mbind, IO_bind, bind in Hrun. rewrite Hrun.
      cbn [mret IO_ret ret length]. split; [|split].
      * rewrite (map_seq_from_one _ (S (length rest))).
        rewrite (map_seq_from_one _ (length rest)).
        cbn [seq List.map].
        replace (n + Z.of_nat 1) with (n + 1) by lia.
        rewrite <- seq_shift, List.map_map.
        erewrite (List.map_ext (fun x : nat => _) (fun x : nat => _));
          [reflexivity|].
        intros k. cbn beta. do 3 f_equal. lia.
      * rewrite Hst. do 3 f_equal. lia.
      * rewrite Hclock. unfold w2. cbn [clock withStore foldr]. lia.
Qed.

End RateLimitFacts.

(** X6. The fixed-window limiter counts the requests of a window.  On the
    reference store, with an enabled limit and a window of at least one
    second: of the requests that start with a key holding nothing and keep
    within the window, the [k]-th one is allowed exactly when [k <= limit];
    the window ends [windowSec] seconds after its first request, not after
    the last one, and from then on the key holds nothing, so the count
    starts again. *)
Theorem rateLimitFixedWindow_counts
    (key : string) (limit : Js.JsNumber) (windowSec d : Z) (delays : list Z)
    (w : Runtime.World) :
  TrafficControl.limitDisabled limit = false ->
  (1 <= windowSec)%Z ->
  Polling.isFree key w = true ->
  (0 <= d)%Z ->
  Forall (fun x => (0 <= x)%Z) delays ->
  (foldr Z.add 0%Z delays < 1000 * windowSec)%Z ->
  exists w' : Runtime.World,
    Polling.spacedCalls (d :: delays)
      (@TrafficControl.rateLimitFixedWindow Runtime.idealRedis key limit
         windowSec) w
    = (Runtime.Return
         (List.map
            (fun k : nat =>
               {| TrafficControl.allowed := Js.le (Js.ofZ (Z.of_nat k)) limit |})
            (seq 1 (S (length delays)))),
       w')
    /\ Polling.counterOf key w' = Some (Z.of_nat (S (length delays)))
    /\ Polling.expiryOf key w'
       = Some (Runtime.clock w + d + 1000 * windowSec)%Z
    /\ forall w2 : Runtime.World,
         Runtime.store w2 = Runtime.store w' ->
         (Runtime.clock w + d + 1000 * windowSec <= Runtime.clock w2)%Z ->
         Polling.isFree key w2 = true.
Proof.
  intros Hlimit Hwin Hfree Hd Hpos Hsum.
  assert (Hsum0 : (0 <= foldr Z.add 0 delays)%Z).
  { clear -Hpos. induction Hpos; cbn [foldr]; lia. }
  cbn [Polling.spacedCalls]. unfold mbind, Runtime.IO_bind, Runtime.bind.
  unfold Runtime.sleep at 1.
  set (w1 := Runtime.withEvents _ _).
  assert (Hc1 : Runtime.clock w1 = (Runtime.clock w + d)%Z).
  { unfold w1. cbn [Runtime.clock Runtime.withEvents Runtime.withClock]. lia. }
  assert (Hfree1 : Polling.isFree key w1 = true).
  { apply (isFree_later key w w1); [reflexivity | lia | exact Hfree]. }
  rewrite (fixedWindow_first key limit windowSec w1 Hlimit Hwin Hfree1).
  set (w2 := Runtime.withStore _ w1).
  destruct (spacedCalls_fixedWindow key limit windowSec delays w2 1
              (Runtime.clock w1 + 1000 * windowSec) Hlimit)
    as (w' & Hrun & Hst & Hclock).
  - unfold w2. cbn [Runtime.store Runtime.withStore]. apply lookup_insert_eq.
  - lia.
  - exact Hpos.
  - unfold w2. cbn [Runtime.clock Runtime.withStore]. lia.
  - exists w'. unfold mbind, Runtime.IO_bind, Runtime.bind in Hrun.
    rewrite Hrun. cbn [mret Runtime.IO_ret Runtime.ret].
    assert (Hcw' : (Runtime.clock w' < Runtime.clock w1 + 1000 * windowSec)%Z).
    { rewrite Hclock. unfold w2. cbn [Runtime.clock Runtime.withStore]. lia. }
    split; [|split; [|split]].
    + rewrite (map_seq_from_one _ (S (length delays))).
      rewrite (map_seq_from_one _ (length delays)).
      cbn [seq List.map].
      rewrite <- seq_shift, List.map_map.
      erewrite (List.map_ext (fun x : nat => _) (fun x : nat => _));
        [reflexivity|].
      intros k. cbn beta. do 3 f_equal. lia.
    + unfold Polling.counterOf, Runtime.lookupLive. rewrite Hst.
      cbn [Runtime.live Runtime.expireAt].
      destruct (Z.ltb_spec (Runtime.clock w')
                  (Runtime.clock w1 + 1000 * windowSec)); [|lia].
      f_equal. lia.
    + unfold Polling.expiryOf, Runtime.lookupLive. rewrite Hst.
      cbn [Runtime.live Runtime.expireAt].
      destruct (Z.ltb_spec (Runtime.clock w')
                  (Runtime.clock w1 + 1000 * windowSec)); [|lia].
      cbn. f_equal. lia.
    + intros w3 Hst3 Hclock3.
      unfold Polling.isFree, Runtime.lookupLive. rewrite Hst3, Hst.
      cbn [Runtime.live Runtime.expireAt].
      destruct (Z.ltb_spec (Runtime.clock w3)
                  (Runtime.clock w1 + 1000 * windowSec)); [lia|].
      reflexivity.
Qed.

Lemma rateLimitFixedWindow_counts_witness :
  TrafficControl.limitDisabled (Js.ofZ 2) = false
  /\ (1 <= 60)%Z
  /\ Polling.isFree "rl:user-1" Runtime.emptyWorld = true
  /\ (0 <= 0)%Z
  /\ Forall (fun x => (0 <= x)%Z) [1000; 2000]%Z
  /\ (foldr Z.add 0%Z [1000; 2000] < 1000 * 60)%Z
  /\ exists w' : Runtime.World,
       Polling.spacedCalls [0; 1000; 2000]%Z
         (@TrafficControl.rateLimitFixedWindow Runtime.idealRedis "rl:user-1"
            (Js.ofZ 2) 60) Runtime.emptyWorld
       = (Runtime.Return
            (List.map
               (fun k : nat =>
                  {| TrafficControl.allowed :=
                       Js.le (Js.ofZ (Z.of_nat k)) (Js.ofZ 2) |})
               (seq 1 (S (length [1000; 2000]%Z)))),
          w')
       /\ Polling.counterOf "rl:user-1" w'
          = Some (Z.of_nat (S (length [1000; 2000]%Z)))
       /\ Polling.expiryOf "rl:user-1" w'
          = Some (Runtime.clock Runtime.emptyWorld + 0 + 1000 * 60)%Z
       /\ forall w2 : Runtime.World,
            Runtime.store w2 = Runtime.store w' ->
            (Runtime.clock Runtime.emptyWorld + 0 + 1000 * 60
             <= Runtime.clock w2)%Z ->
            Polling.isFree "rl:user-1" w2 = true.
Proof.
  assert (Hpos : Forall (fun x => (0 <= x)%Z) [1000; 2000]%Z).
  { repeat constructor; lia. }
  split; [reflexivity|]. split; [lia|]. split; [reflexivity|].
  split; [lia|]. split; [exact Hpos|]. split; [cbn; lia|].
  apply (rateLimitFixedWindow_counts "rl:user-1" (Js.ofZ 2) 60 0
           [1000; 2000]%Z Runtime.emptyWorld);
    [reflexivity | lia | reflexivity | lia | exact Hpos | cbn; lia].
Defined.

Section SlidingWindowFacts.
Import Js Runtime TrafficControl Polling.
Local Open Scope Z_scope.


End SlidingWindowFacts.



Section InflightFacts.
Import Js Runtime TrafficControl Polling.
Local Open Scope Z_scope.

(** INCR and DECR on a key read as a counter. *)
Lemma idealCall_counter (c : RCmd) (key : string) (delta n : Z) (w : World) :
  (c = INCR key /\ delta = 1) \/ (c = DECR key /\ delta = -1) ->
  counterOf key w = Some n ->
  exists t : option Z,
    idealCall c w
    = (Return (Int (n + delta)),
       withStore (<[key := {| value := VInt (n + delta); expireAt := t |}]>
                    (store w)) w)
    /\ (t = None \/ exists t0, t = Some t0 /\ clock w < t0).
Proof.
  intros Hc Hn. unfold counterOf in Hn.
  assert (Hrun : runCmd (clock w) c (store w)
                 = addToCounter (clock w) key delta (store w)).
  { destruct Hc as [[-> ->]|[-> ->]]; reflexivity. }
  rewrite idealCall_store by (destruct Hc as [[-> _]|[-> _]]; discriminate).
  rewrite Hrun. unfold addToCounter.
  destruct (lookupLive (clock w) key (store w)) as [[[p|m|l] t]|] eqn:Hl;
    try discriminate Hn; injection Hn as <-.
  - exists t. split; [reflexivity|].
    unfold lookupLive in Hl. destruct (store w !! key) as [e|]; [|discriminate].
    destruct (live (clock w) e) eqn:He; [|discriminate]. injection Hl as ->.
    unfold live in He. cbn [expireAt] in He.
    destruct t as [t0|]; [right | left; reflexivity].
    exists t0. split; [reflexivity|]. apply Z.ltb_lt. exact He.
  - exists None. split; [reflexivity | left; reflexivity].
Qed.

Lemma counterOf_insert (key : string) (n : Z) (t : option Z) (w w' : World) :
  store w' = <[key := {| value := VInt n; expireAt := t |}]> (store w) ->
  (t = None \/ exists t0, t = Some t0 /\ clock w' < t0) ->
  counterOf key w' = Some n.
Proof.
  intros Hst Ht. unfold counterOf. rewrite Hst, lookupLive_insert_eq.
  unfold live. cbn [expireAt].
  destruct Ht as [->|(t0 & -> & Hlt)]; [reflexivity|].
  destruct (Z.ltb_spec (clock w') t0); [reflexivity | lia].
Qed.

(** The first two steps of the limiter: the slot is taken, and the counter
    gets its expiry when it has just been created. *)
Lemma inflight_enter (key : string) (ttlSec n : Z) (w : World) :
  1 <= ttlSec -> counterOf key w = Some n ->
  exists (st0 st : gmap string Entry),
    idealCall (INCR key) w = (Return (Int (n + 1)), withStore st0 w)
    /\ @expireOnFirst idealRedis (Int (n + 1)) key ttlSec (withStore st0 w)
       = (Return tt, withStore st w)
    /\ counterOf key (withStore st w) = Some (n + 1).
Proof.
  intros Httl Hn.
  destruct (idealCall_counter (INCR key) key 1 n w
              (or_introl (conj eq_refl eq_refl)) Hn) as (t & Hrun & Ht).
  unfold expireOnFirst. cbn [replyIsInt].
  destruct (Z.eqb_spec (n + 1) 1) as [H1|H1];
    (eexists; eexists; split; [exact Hrun|]).
  - unfold mbind, IO_bind, bind. cbn [call idealRedis].
    rewrite idealCall_store by discriminate.
    cbn [runCmd clock store withStore].
    rewrite lookupLive_insert_eq.
    assert (Hl : live (clock w) {| value := VInt (n + 1); expireAt := t |} = true).
    { unfold live. cbn [expireAt].
      destruct Ht as [->|(t0 & -> & Hlt)]; [reflexivity|].
      apply Z.ltb_lt. exact Hlt. }
    rewrite Hl. destruct (Z.leb_spec ttlSec 0) as [?|_]; [lia|].
    cbn [fst snd mret IO_ret ret value]. rewrite insert_insert_eq.
    split; [reflexivity|].
    eapply counterOf_insert; [reflexivity|].
    right. eexists. split; [reflexivity|]. cbn [clock withStore]. lia.
  - cbn [mret IO_ret ret]. split; [reflexivity|].
    eapply counterOf_insert; [reflexivity | exact Ht].
Qed.

(** The last step: the slot is given back. *)
Lemma inflight_leave (key : string) (m : Z) (w : World) :
  counterOf key w = Some m ->
  exists st : gmap string Entry,
    idealCall (DECR key) w = (Return (Int (m - 1)), withStore st w)
    /\ counterOf key (withStore st w) = Some (m - 1).
Proof.
  intros Hm.
  destruct (idealCall_counter (DECR key) key (-1) m w
              (or_intror (conj eq_refl eq_refl)) Hm) as (t & Hrun & Ht).
  eexists. split; [exact Hrun|].
  eapply counterOf_insert; [reflexivity | exact Ht].
Qed.

End InflightFacts.

(** X8. Over capacity, the in-flight limiter rejects without running the
    work.  On the reference store, with an enabled limit and a positive
    TTL: when the counter already holds [n] and [n + 1] exceeds
    [maxConcurrent], every call throws the capacity error, the outcome and
    the world are the same whatever the work is, and the counter is back at
    [n]. *)
Theorem withInflightLimiter_rejects_over_capacity
    (key : string) (maxConcurrent : Js.JsNumber) (ttlSec n : Z)
    (w : Runtime.World) :
  TrafficControl.limitDisabled maxConcurrent = false ->
  (1 <= ttlSec)%Z ->
  Polling.counterOf key w = Some n ->
  Js.lt maxConcurrent (Js.ofZ (n + 1)) = true ->
  exists w' : Runtime.World,
    (forall (T : Type) (work : Runtime.IO T),
        @TrafficControl.withInflightLimiter Runtime.idealRedis T key
          maxConcurrent ttlSec work w
        = (Runtime.Throw TrafficControl.capacityError, w'))
    /\ Polling.counterOf key w' = Some n
    /\ w' = Runtime.withStore (Runtime.store w') w.
Proof.
  intros Hlimit Httl Hn Hover.
  destruct (inflight_enter key ttlSec n w Httl Hn)
    as (st0 & st & Hincr & Hexp & Hc1).
  destruct (inflight_leave key (n + 1) _ Hc1) as (st2 & Hdecr & Hc2).
  exists (Runtime.withStore st2 (Runtime.withStore st w)).
  split; [|split].
  - intros T work. unfold TrafficControl.withInflightLimiter. rewrite Hlimit.
    unfold mbind, Runtime.IO_bind, Runtime.bind.
    cbn [Runtime.call Runtime.idealRedis].
    rewrite Hincr, Hexp. cbn [Runtime.replyNumber]. rewrite Hover.
    rewrite Hdecr. reflexivity.
  - replace (n + 1 - 1)%Z with n in Hc2 by lia. exact Hc2.
  - reflexivity.
Qed.

Lemma withInflightLimiter_rejects_over_capacity_witness :
  TrafficControl.limitDisabled Gateway.MAX_CONCURRENCY = false
  /\ (1 <= 30)%Z
  /\ Polling.counterOf "google-places:inflight" fullHouse = Some 100%Z
  /\ Js.lt Gateway.MAX_CONCURRENCY (Js.ofZ (100 + 1)) = true
  /\ exists w' : Runtime.World,
       (forall (T : Type) (work : Runtime.IO T),
           @TrafficControl.withInflightLimiter Runtime.idealRedis T
             "google-places:inflight" Gateway.MAX_CONCURRENCY 30 work fullHouse
           = (Runtime.Throw TrafficControl.capacityError, w'))
       /\ Polling.counterOf "google-places:inflight" w' = Some 100%Z
       /\ w' = Runtime.withStore (Runtime.store w') fullHouse.
Proof.
  split; [reflexivity|]. split; [lia|]. split; [reflexivity|].
  split; [reflexivity|].
  exact (withInflightLimiter_rejects_over_capacity "google-places:inflight"
           Gateway.MAX_CONCURRENCY 30 100 fullHouse eq_refl ltac:(lia)
           eq_refl eq_refl).
Defined.

(** X9. A slot that has been taken is given back, whether the work returns
    or throws.  On the reference store, with an enabled limit and a
    positive TTL: when [n + 1] does not exceed [maxConcurrent], the work
    runs once, in a world where the counter holds [n + 1], the call ends as
    the work ended, and the counter is left one below what the work left
    it at; so a work that does not touch the store or the clock leaves the
    counter at [n]. *)
Theorem withInflightLimiter_releases_slot
    (key : string) (maxConcurrent : Js.JsNumber) (ttlSec n : Z)
    (w : Runtime.World) :
  TrafficControl.limitDisabled maxConcurrent = false ->
  (1 <= ttlSec)%Z ->
  Polling.counterOf key w = Some n ->
  Js.lt maxConcurrent (Js.ofZ (n + 1)) = false ->
  exists w1 : Runtime.World,
    Polling.counterOf key w1 = Some (n + 1)%Z
    /\ w1 = Runtime.withStore (Runtime.store w1) w
    /\ forall (T : Type) (work : Runtime.IO T) (r : Runtime.Outcome T)
              (w2 : Runtime.World) (m : Z),
         work w1 = (r, w2) ->
         Polling.counterOf key w2 = Some m ->
         exists w3 : Runtime.World,
           @TrafficControl.withInflightLimiter Runtime.idealRedis T key
             maxConcurrent ttlSec work w
           = (r, w3)
           /\ Polling.counterOf key w3 = Some (m - 1)%Z
           /\ w3 = Runtime.withStore (Runtime.store w3) w2
           /\ (Runtime.store w2 = Runtime.store w1 ->
               Runtime.clock w2 = Runtime.clock w1 ->
               Polling.counterOf key w3 = Some n).
Proof.
  intros Hlimit Httl Hn Hroom.
  destruct (inflight_enter key ttlSec n w Httl Hn)
    as (st0 & st & Hincr & Hexp & Hc1).
  exists (Runtime.withStore st w). split; [exact Hc1|].
  split; [reflexivity|].
  intros T work r w2 m Hwork Hm.
  destruct (inflight_leave key m w2 Hm) as (st2 & Hdecr & Hc2).
  exists (Runtime.withStore st2 w2). split; [|split; [|split]].
  - unfold TrafficControl.withInflightLimiter. rewrite Hlimit.
    unfold mbind, Runtime.IO_bind, Runtime.bind.
    cbn [Runtime.call Runtime.idealRedis].
    rewrite Hincr, Hexp. cbn [Runtime.replyNumber]. rewrite Hroom.
    unfold Runtime.tryFinally. rewrite Hwork.
    unfold mbind, Runtime.IO_bind, Runtime.bind.
    cbn [Runtime.call Runtime.idealRedis]. rewrite Hdecr. reflexivity.
  - exact Hc2.
  - reflexivity.
  - intros Hst Hclock.
    assert (Hsame : Polling.counterOf key w2
                    = Polling.counterOf key (Runtime.withStore st w)).
    { unfold Polling.counterOf. rewrite Hst, Hclock. reflexivity. }
    rewrite Hsame, Hc1 in Hm. injection Hm as <-.
    replace (n + 1 - 1)%Z with n in Hc2 by lia. exact Hc2.
Qed.

Lemma withInflightLimiter_releases_slot_witness :
  TrafficControl.limitDisabled Gateway.MAX_CONCURRENCY = false
  /\ (1 <= 30)%Z
  /\ Polling.counterOf "google-places:inflight" Runtime.emptyWorld = Some 0%Z
  /\ Js.lt Gateway.MAX_CONCURRENCY (Js.ofZ (0 + 1)) = false
  /\ exists w1 : Runtime.World,
       Polling.counterOf "google-places:inflight" w1 = Some (0 + 1)%Z
       /\ w1 = Runtime.withStore (Runtime.store w1) Runtime.emptyWorld
       /\ forall (T : Type) (work : Runtime.IO T) (r : Runtime.Outcome T)
                 (w2 : Runtime.World) (m : Z),
            work w1 = (r, w2) ->
            Polling.counterOf "google-places:inflight" w2 = Some m ->
            exists w3 : Runtime.World,
              @TrafficControl.withInflightLimiter Runtime.idealRedis T
                "google-places:inflight" Gateway.MAX_CONCURRENCY 30 work
                Runtime.emptyWorld
              = (r, w3)
              /\ Polling.counterOf "google-places:inflight" w3 = Some (m - 1)%Z
              /\ w3 = Runtime.withStore (Runtime.store w3) w2
              /\ (Runtime.store w2 = Runtime.store w1 ->
                  Runtime.clock w2 = Runtime.clock w1 ->
                  Polling.counterOf "google-places:inflight" w3 = Some 0%Z).
Proof.
  split; [reflexivity|]. split; [lia|]. split; [reflexivity|].
  split; [reflexivity|].
  exact (withInflightLimiter_releases_slot "google-places:inflight"
           Gateway.MAX_CONCURRENCY 30 0 Runtime.emptyWorld eq_refl ltac:(lia)
           eq_refl eq_refl).
Defined.

(** ** Further properties of the gateway *)

Section KeyRotationFacts.
Import Js Data Runtime Gateway Polling.
Local Open Scope nat_scope.

Variable keys : list string.

Lemma repeatCall_keys (n : nat) :
  forall w : World,
    currentKeyIndex w < length keys ->
    exists w' : World,
      repeatCall n (getNextApiKey keys) w
      = (Return (List.map (fun k => keyAt keys (currentKeyIndex w) k) (seq 0 n)),
         w')
      /\ currentKeyIndex w' = keyIndexAt keys (currentKeyIndex w) n
      /\ store w' = store w /\ clock w' = clock w /\ db w' = db w
      /\ fetchCount w' = fetchCount w.
Proof.
  induction n as [|n IH]; intros w Hi.
  - exists w. cbn. split; [reflexivity|]. split; [|repeat split].
    unfold keyIndexAt. rewrite Nat.add_0_r.
    symmetry. apply Nat.mod_small. exact Hi.
  - cbn [repeatCall]. unfold mbind, IO_bind, bind. unfold getNextApiKey at 1.
    rewrite bool_decide_false by lia.
    set (w1 := withEvents _ _).
    assert (Hi1 : currentKeyIndex w1 = (currentKeyIndex w + 1) mod length keys)
      by reflexivity.
    destruct (IH w1) as (w' & Hrun & Hidx & Hst & Hcl & Hdb & Hfc).
    { rewrite Hi1. apply Nat.mod_upper_bound. lia. }
    unfold mbind, IO_bind, bind in Hrun. rewrite Hrun.
    exists w'. cbn [mret IO_ret ret].
    assert (Hlist :
      List.map (fun k => keyAt keys (currentKeyIndex w) k) (seq 0 (S n))
      = default "" (keys !! currentKeyIndex w)
        :: List.map (fun k => keyAt keys (currentKeyIndex w1) k) (seq 0 n)).
    { cbn [seq List.map]. f_equal.
      - unfold keyAt, keyIndexAt. rewrite Nat.add_0_r.
        rewrite Nat.mod_small by exact Hi. reflexivity.
      - rewrite <- seq_shift, List.map_map. apply List.map_ext. intros k.
        unfold keyAt, keyIndexAt. rewrite Hi1.
        rewrite Nat.Div0.add_mod_idemp_l. do 3 f_equal. lia. }
    rewrite Hlist.
    split; [reflexivity|]. split; [|repeat split; assumption].
    + rewrite Hidx. unfold keyIndexAt. rewrite Hi1, Nat.Div0.add_mod_idemp_l.
      f_equal. lia.
Qed.

Lemma keys_in_rotation (i : nat) :
  i < length keys ->
  List.map (fun k => keyAt keys i k) (seq 0 (length keys)) = rotate i keys.
Proof.
  intros Hi. apply list_eq. intros j.
  destruct (Nat.lt_ge_cases j (length keys)) as [Hj|Hj].
  - rewrite lookup_rotate_r by exact Hj.
    assert (Hm : List.map (fun k => keyAt keys i k) (seq 0 (length keys))
                 = (fun k => keyAt keys i k) <$> seq 0 (length keys))
      by reflexivity.
    rewrite Hm, list_lookup_fmap, lookup_seq_lt by exact Hj.
    cbn [fmap option_fmap option_map].
    unfold keyAt, keyIndexAt, rotate_nat_add.
    assert (Hmod : Z.to_nat ((Z.of_nat i + Z.of_nat j) `mod` Z.of_nat (length keys))
                   = (i + j) mod length keys).
    { rewrite <- Nat2Z.inj_add, <- Nat2Z.inj_mod, Nat2Z.id. reflexivity. }
    rewrite Hmod. cbn [plus].
    destruct (keys !! ((i + j) mod length keys)) as [x|] eqn:Hx; [reflexivity|].
    apply lookup_ge_None in Hx.
    pose proof (Nat.mod_upper_bound (i + j) (length keys)). lia.
  - rewrite !lookup_ge_None_2; [reflexivity | |].
    + rewrite length_rotate. exact Hj.
    + rewrite List.length_map, List.length_seq. exact Hj.
Qed.

End KeyRotationFacts.

(** X10. The credential pool is served round-robin.  From an index inside
    the pool, [n] consecutive [getNextApiKey] calls hand out the keys at
    indices [index], [index + 1], ... modulo the pool size, and the index
    stays inside the pool; as many calls as there are keys hand out the pool
    rotated by [index], that is every key exactly once, and bring the index
    back to where it was.  No request is sent and the store is not
    touched. *)
Theorem getNextApiKey_round_robin (keys : list string) (w : Runtime.World) :
  (Runtime.currentKeyIndex w < length keys)%nat ->
  (forall n : nat,
      exists w' : Runtime.World,
        Polling.repeatCall n (Gateway.getNextApiKey keys) w
        = (Runtime.Return
             (List.map (fun k => Gateway.keyAt keys (Runtime.currentKeyIndex w) k)
                (seq 0 n)),
           w')
        /\ Runtime.currentKeyIndex w'
           = ((Runtime.currentKeyIndex w + n) mod length keys)%nat
        /\ (Runtime.currentKeyIndex w' < length keys)%nat
        /\ Runtime.fetchCount w' = Runtime.fetchCount w
        /\ Runtime.store w' = Runtime.store w)
  /\ exists w' : Runtime.World,
       Polling.repeatCall (length keys) (Gateway.getNextApiKey keys) w
       = (Runtime.Return (rotate (Runtime.currentKeyIndex w) keys), w')
       /\ Permutation (rotate (Runtime.currentKeyIndex w) keys) keys
       /\ Runtime.currentKeyIndex w' = Runtime.currentKeyIndex w.
Proof.
  intros Hi. split.
  - intros n.
    destruct (repeatCall_keys keys n w Hi)
      as (w' & Hrun & Hidx & Hst & _ & _ & Hfc).
    exists w'. split; [exact Hrun|]. unfold Gateway.keyIndexAt in Hidx.
    split; [exact Hidx|]. split; [|split; assumption].
    rewrite Hidx. apply Nat.mod_upper_bound. lia.
  - destruct (repeatCall_keys keys (length keys) w Hi)
      as (w' & Hrun & Hidx & _).
    exists w'. rewrite keys_in_rotation in Hrun by exact Hi.
    split; [exact Hrun|]. split.
    + unfold rotate. rewrite Permutation_app_comm. rewrite take_drop.
      reflexivity.
    + rewrite Hidx. unfold Gateway.keyIndexAt.
      rewrite <- Nat.Div0.add_mod_idemp_r, Nat.Div0.mod_same, Nat.add_0_r.
      apply Nat.mod_small. exact Hi.
Qed.

Lemma getNextApiKey_round_robin_witness :
  (Runtime.currentKeyIndex (Runtime.withKeyIndex 1 Runtime.emptyWorld)
   < length twoKeys)%nat
  /\ exists w' : Runtime.World,
       Polling.repeatCall (length twoKeys) (Gateway.getNextApiKey twoKeys)
         (Runtime.withKeyIndex 1 Runtime.emptyWorld)
       = (Runtime.Return ["key-b"; "key-a"], w')
       /\ Permutation
            (rotate (Runtime.currentKeyIndex
                       (Runtime.withKeyIndex 1 Runtime.emptyWorld)) twoKeys)
            twoKeys
       /\ Runtime.currentKeyIndex w'
          = Runtime.currentKeyIndex (Runtime.withKeyIndex 1 Runtime.emptyWorld).
Proof.
  assert (Hi : (Runtime.currentKeyIndex
                  (Runtime.withKeyIndex 1 Runtime.emptyWorld)
                < length twoKeys)%nat) by (cbn; lia).
  split; [exact Hi|].
  exact (proj2 (getNextApiKey_round_robin twoKeys
                  (Runtime.withKeyIndex 1 Runtime.emptyWorld) Hi)).
Defined.

Section GatewayResultFacts.
Import Js Data Runtime TrafficControl Gateway.
Local Open Scope Z_scope.

Variable keys : list string.
Variable fetch : nat -> string -> SearchRequest -> FetchOutcome.
Variable query : string.
Variable options : SearchOptions.

(** Whatever the retry loop returns is the normalized body of its last
    request, and that request was answered with a 2xx status. *)
Lemma attemptLoop_returns (fuel : nat) :
  forall (attempt : Z) (w w' : World) (resp : GatewayResponse),
    attemptLoop keys fetch fuel query options attempt w = (Return resp, w') ->
    exists (key text : string) (status : Z) (data : ApiData),
      (fetchCount w < fetchCount w')%nat
      /\ fetch (fetchCount w' - 1)%nat key (requestBody query options)
         = Responded status text (Some data)
      /\ responseOk status = true
      /\ resp = {| places := List.map transformPlace
                               (default [] (api_places data));
                   nextPageToken := api_nextPageToken data |}.
Proof.
  induction fuel as [|fuel IH]; intros attempt w w' resp H;
    cbn [attemptLoop] in H.
  - destruct (attempt <? maxAttempts); discriminate H.
  - destruct (attempt <? maxAttempts); [|discriminate H].
    apply bind_returns in H as (apiKey & w1 & Hkey & H).
    apply bind_returns in H as (response & w2 & Hfetch & H).
    assert (Hfc1 : fetchCount w1 = fetchCount w).
    { unfold getNextApiKey in Hkey.
      destruct (bool_decide (length keys = 0%nat)); [discriminate Hkey|].
      injection Hkey as _ <-. reflexivity. }
    unfold fetchWithTimeout in Hfetch. injection Hfetch as <- <-.
    rewrite Hfc1 in H.
    destruct (fetch (fetchCount w) apiKey (requestBody query options))
      as [status text json|err] eqn:Hout.
    + destruct (responseOk status) eqn:Hok; cbn [negb] in H.
      * destruct json as [data|]; [|discriminate H].
        injection H as <- <-.
        exists apiKey, text, status, data.
        cbn [fetchCount withEvents withFetchCount].
        rewrite ?Hfc1. rewrite Nat.sub_succ, Nat.sub_0_r.
        split; [lia|]. split; [exact Hout|]. split; [exact Hok | reflexivity].
      * destruct (isRetryable status && (attempt <? maxAttempts - 1));
          [|discriminate H].
        apply bind_returns in H as ([] & w3 & Hsleep & H).
        unfold sleep in Hsleep. injection Hsleep as <-.
        apply IH in H as (key & text' & status' & data & Hlt & Hf & Hok' & ->).
        cbn [fetchCount withEvents withFetchCount withClock] in Hlt.
        exists key, text', status', data.
        split; [lia|]. split; [exact Hf|]. split; [exact Hok' | reflexivity].
    + destruct (String.eqb (err_name err) "AbortError"
                && (attempt <? maxAttempts - 1)); [|discriminate H].
      apply IH in H as (key & text' & status' & data & Hlt & Hf & Hok' & ->).
      cbn [fetchCount withEvents withFetchCount withClock] in Hlt.
      exists key, text', status', data.
      split; [lia|]. split; [exact Hf|]. split; [exact Hok' | reflexivity].
Qed.

End GatewayResultFacts.

(** X11. With an empty credential pool [searchText] never returns and never
    reaches the provider: on the reference store every call throws, no
    credential is taken and no request is sent, so the missing configuration
    is not retried. *)
Theorem searchText_without_keys
    (fetch : nat -> string -> Gateway.SearchRequest -> Gateway.FetchOutcome)
    (query : string) (options : Gateway.SearchOptions) (w : Runtime.World) :
  let res := @Gateway.searchText Runtime.idealRedis [] fetch query options w in
  (exists e : Js.JsError, fst res = Runtime.Throw e)
  /\ Runtime.fetchCount (snd res) = Runtime.fetchCount w
  /\ Runtime.events (snd res) = Runtime.events w.
Proof.
  intros res. subst res.
  destruct (searchText_wraps [] fetch query options w)
    as [[He (Hev & Hfc & _)] | (w0 & (Hev0 & Hfc0 & _) & (Hev1 & Hfc1 & _) & Hret)].
  - split; [exact He|]. split; assumption.
  - assert (Hloop : Gateway.attemptLoop [] fetch (Z.to_nat Gateway.maxAttempts)
                      query options 0 w0
                    = (Runtime.Throw
                         (Js.mkError "Google API Keys configuration is missing."),
                       w0)) by reflexivity.
    rewrite Hloop in Hret, Hev1, Hfc1. cbn [fst snd] in Hret, Hev1, Hfc1.
    split; [|split; congruence].
    destruct (fst (Gateway.searchText [] fetch query options w)) as [v|e] eqn:Hres.
    + specialize (Hret v eq_refl). discriminate Hret.
    + exists e. reflexivity.
Qed.

(** X12. What [searchText] returns is the provider's last answer,
    normalized and nothing else: on the reference store, a call that returns
    has sent at least one request, its last request was answered with a 2xx
    status and a body, the returned places are the body's places in the
    provider's order, one for one and under the provider's ids, with no
    enrichment data, and the continuation token is the body's token,
    unchanged. *)
Theorem searchText_returns_provider_page
    (keys : list string)
    (fetch : nat -> string -> Gateway.SearchRequest -> Gateway.FetchOutcome)
    (query : string) (options : Gateway.SearchOptions)
    (w w' : Runtime.World) (resp : Gateway.GatewayResponse) :
  @Gateway.searchText Runtime.idealRedis keys fetch query options w
  = (Runtime.Return resp, w') ->
  exists (key text : string) (status : Z) (data : Gateway.ApiData),
    (Runtime.fetchCount w < Runtime.fetchCount w')%nat
    /\ fetch (Runtime.fetchCount w' - 1)%nat key
         (Gateway.requestBody query options)
       = Gateway.Responded status text (Some data)
    /\ (200 <= status <= 299)%Z
    /\ Gateway.places resp
       = List.map Gateway.transformPlace (default [] (Gateway.api_places data))
    /\ List.map Data.place_id (Gateway.places resp)
       = List.map Data.raw_id (default [] (Gateway.api_places data))
    /\ Forall (fun p => Data.emails p = None /\ Data.phones p = None)
         (Gateway.places resp)
    /\ Gateway.nextPageToken resp = Gateway.api_nextPageToken data.
Proof.
  intros H.
  destruct (searchText_wraps keys fetch query options w)
    as [[[e He] _] | (w0 & (_ & Hfc0 & _) & (_ & Hfc1 & _) & Hret)].
  - rewrite H in He. discriminate He.
  - rewrite H in Hret, Hfc1. cbn [fst snd] in Hret, Hfc1.
    specialize (Hret resp eq_refl).
    destruct (Gateway.attemptLoop keys fetch (Z.to_nat Gateway.maxAttempts)
                query options 0 w0) as [r w1] eqn:Hloop.
    cbn [fst snd] in Hret, Hfc1. subst r.
    apply attemptLoop_returns in Hloop
      as (key & text & status & data & Hlt & Hf & Hok & ->).
    exists key, text, status, data. rewrite Hfc1, <- Hfc0.
    split; [exact Hlt|]. split; [exact Hf|]. split.
    { unfold Gateway.responseOk in Hok. apply andb_true_iff in Hok as [H1 H2].
      apply Z.leb_le in H1. apply Z.leb_le in H2. lia. }
    cbn [Gateway.places Gateway.nextPageToken].
    split; [reflexivity|]. split; [|split; [|reflexivity]].
    + rewrite List.map_map. reflexivity.
    + apply List.Forall_forall. intros p Hp.
      apply List.in_map_iff in Hp as (raw & <- & _). split; reflexivity.
Qed.

Lemma searchText_returns_provider_page_witness :
  exists (resp : Gateway.GatewayResponse) (w' : Runtime.World),
    steadyRun = (Runtime.Return resp, w')
    /\ exists (key text : string) (status : Z) (data : Gateway.ApiData),
         (Runtime.fetchCount Runtime.emptyWorld < Runtime.fetchCount w')%nat
         /\ steadyProvider (Runtime.fetchCount w' - 1)%nat key
              (Gateway.requestBody "gym in Rome" Gateway.noOptions)
            = Gateway.Responded status text (Some data)
         /\ (200 <= status <= 299)%Z
         /\ Gateway.places resp
            = List.map Gateway.transformPlace
                (default [] (Gateway.api_places data))
         /\ List.map Data.place_id (Gateway.places resp)
            = List.map Data.raw_id (default [] (Gateway.api_places data))
         /\ Forall (fun p => Data.emails p = None /\ Data.phones p = None)
              (Gateway.places resp)
         /\ Gateway.nextPageToken resp = Gateway.api_nextPageToken data.
Proof.
  unfold steadyRun.
  destruct (@Gateway.searchText Runtime.idealRedis twoKeys steadyProvider
              "gym in Rome" Gateway.noOptions Runtime.emptyWorld)
    as [[resp|e] w'] eqn:E.
  - exists resp, w'. split; [reflexivity|].
    exact (searchText_returns_provider_page twoKeys steadyProvider
             "gym in Rome" Gateway.noOptions Runtime.emptyWorld w' resp E).
  - vm_compute in E. discriminate E.
Defined.

(** ** Further properties of the orchestrator *)

Section TokenFacts.
Import Js.
Local Open Scope Z_scope.

Lemma digitOf_pretty_N_char (d : N) :
  (d < 10)%N -> digitOf (pretty_N_char d) = Some (Z.of_N d).
Proof.
  intros Hd.
  assert (d = 0 \/ d = 1 \/ d = 2 \/ d = 3 \/ d = 4 \/ d = 5 \/ d = 6
          \/ d = 7 \/ d = 8 \/ d = 9)%N as Hcases by lia.
  repeat (destruct Hcases as [->|Hcases]; [reflexivity|]).
  subst d. reflexivity.
Qed.

Lemma pretty_N_char_not_colon (d : N) :
  Ascii.eqb (pretty_N_char d) ":"%char = false.
Proof.
  unfold pretty_N_char.
  destruct d as [|p]; [reflexivity|].
  repeat (destruct p as [p|p|]; try reflexivity).
Qed.

(** Reading back the digits the printer has put in front of a string. *)
Lemma leadingDigits_pretty_N_go (x : N) :
  (0 < x)%N ->
  exists m : Z,
    forall (s : string) (acc : option Z),
      leadingDigits (pretty_N_go x s) acc
      = leadingDigits s (Some (default 0 acc * m + Z.of_N x)).
Proof.
  induction (N.lt_wf_0 x) as [x _ IH]. intros Hx.
  assert (Hmod : (x `mod` 10 < 10)%N) by (apply N.mod_lt; lia).
  pose proof (N.div_mod x 10 ltac:(lia)) as Hdm.
  destruct (N.eq_dec (x `div` 10) 0) as [Hz|Hnz].
  - exists 10. intros s acc. rewrite pretty_N_go_step by exact Hx.
    rewrite Hz, pretty_N_go_0. cbn [leadingDigits].
    rewrite digitOf_pretty_N_char by exact Hmod.
    do 2 f_equal. lia.
  - destruct (IH (x `div` 10)%N) as [m Hm].
    + apply N.div_lt; lia.
    + lia.
    + exists (10 * m). intros s acc. rewrite pretty_N_go_step by exact Hx.
      rewrite Hm. cbn [leadingDigits].
      rewrite digitOf_pretty_N_char by exact Hmod.
      do 2 f_equal. cbn [default Datatypes.id]. lia.
Qed.

Lemma includesChar_pretty_N_go (x : N) :
  forall s : string,
    includesChar ":" (pretty_N_go x s) = includesChar ":" s.
Proof.
  induction (N.lt_wf_0 x) as [x _ IH]. intros s.
  destruct (N.eq_dec x 0) as [->|Hnz]; [rewrite pretty_N_go_0; reflexivity|].
  rewrite pretty_N_go_step by lia. rewrite IH by (apply N.div_lt; lia).
  cbn [includesChar]. rewrite pretty_N_char_not_colon. reflexivity.
Qed.

Lemma parseInt_pretty (n : Z) : 0 <= n -> parseInt (pretty n) = Some n.
Proof.
  intros Hn. destruct n as [|p|p]; [reflexivity| |lia].
  change (pretty (Z.pos p)) with (pretty (N.pos p)).
  unfold pretty, pretty_N. rewrite decide_False by discriminate.
  destruct (leadingDigits_pretty_N_go (N.pos p) ltac:(lia)) as [m Hm].
  specialize (Hm "" None). cbn [leadingDigits default] in Hm.
  replace (0 * m + Z.of_N (N.pos p)) with (Z.pos p) in Hm by lia.
  destruct (pretty_N_go (N.pos p) "") as [|a rest] eqn:Hs;
    [discriminate Hm|].
  unfold parseInt.
  destruct (Ascii.eqb_spec a "-"%char) as [->|_]; [discriminate Hm|].
  destruct (Ascii.eqb_spec a "+"%char) as [->|_]; [discriminate Hm|].
  exact Hm.
Qed.

Lemma includesChar_pretty (n : Z) :
  0 <= n -> includesChar ":" (pretty n) = false.
Proof.
  intros Hn. destruct n as [|p|p]; [reflexivity| |lia].
  change (pretty (Z.pos p)) with (pretty (N.pos p)).
  unfold pretty, pretty_N. rewrite decide_False by discriminate.
  apply includesChar_pretty_N_go.
Qed.

Lemma splitOn_without (c : Ascii.ascii) (s : string) :
  includesChar c s = false -> splitOn c s = [s].
Proof.
  induction s as [|a s IH]; [reflexivity|].
  cbn [includesChar splitOn].
  destruct (Ascii.eqb a c); [discriminate|].
  intros H. rewrite (IH H). reflexivity.
Qed.

(** The offset printed in a [deep:<offset>] token is read back as it was
    written. *)
Lemma deep_token_offset (n : Z) :
  0 <= n ->
  parseInt (default "" (splitOn ":" ("deep:" +:+ pretty n) !! 1%nat)) = Some n.
Proof.
  intros Hn.
  change ("deep:" +:+ pretty n)
    with (String "d" (String "e" (String "e" (String "p"
            (String ":" (pretty n)))))).
  cbn [splitOn Ascii.eqb Bool.eqb].
  rewrite (splitOn_without ":" (pretty n) (includesChar_pretty n Hn)).
  cbn. apply parseInt_pretty. exact Hn.
Qed.

Lemma deep_token_is_deep (n : Z) :
  Orchestrator.isDeepToken (Some ("deep:" +:+ pretty n)) = true
  /\ truthy (Some ("deep:" +:+ pretty n)) = true.
Proof.
  split; [|reflexivity].
  generalize (pretty n). intros s. destruct s; reflexivity.
Qed.

End TokenFacts.

Section DedupeFacts.
Import Js Data Runtime Orchestrator.

Lemma dedupeByPlaceId_spec (l : list Place) :
  forall seen : gset string,
    Forall (fun p => place_id p ∉ seen) (dedupeByPlaceId seen l)
    /\ List.NoDup (List.map place_id (dedupeByPlaceId seen l))
    /\ sublist (dedupeByPlaceId seen l) l
    /\ (forall p, In p l ->
          place_id p ∈ seen
          \/ In (place_id p) (List.map place_id (dedupeByPlaceId seen l)))
    /\ (forall p, In p (dedupeByPlaceId seen l) ->
          List.find (fun q => String.eqb (place_id q) (place_id p)) l = Some p).
Proof.
  induction l as [|q rest IH]; intros seen.
  - cbn. split; [constructor|]. split; [constructor|]. split; [constructor|].
    split; intros p [].
  - cbn [dedupeByPlaceId]. case_bool_decide as Hq.
    + destruct (IH seen) as (Hout & Hnd & Hsub & Hall & Hfirst).
      split; [exact Hout|]. split; [exact Hnd|].
      split; [apply sublist_cons, Hsub|]. split.
      * intros p [<-|Hp]; [left; exact Hq | apply Hall, Hp].
      * intros p Hp. cbn [List.find].
        destruct (String.eqb_spec (place_id q) (place_id p)) as [Heq|_];
          [|apply Hfirst, Hp].
        rewrite List.Forall_forall in Hout. specialize (Hout p Hp).
        rewrite <- Heq in Hout. contradiction.
    + destruct (IH ({[place_id q]} ∪ seen)) as (Hout & Hnd & Hsub & Hall & Hfirst).
      rewrite List.Forall_forall in Hout.
      split; [|split; [|split; [|split]]].
      * apply List.Forall_forall. intros p [<-|Hp]; [exact Hq|].
        specialize (Hout p Hp). intros Hs. apply Hout, elem_of_union.
        right. exact Hs.
      * cbn [List.map]. constructor; [|exact Hnd].
        intros Hin. apply List.in_map_iff in Hin as (p & Hid & Hp).
        apply (Hout p Hp), elem_of_union. left.
        apply elem_of_singleton. exact Hid.
      * apply sublist_skip, Hsub.
      * intros p [<-|Hp]; [right; left; reflexivity|].
        destruct (Hall p Hp) as [Hs|Hin].
        -- apply elem_of_union in Hs as [Hs|Hs].
           ++ apply elem_of_singleton in Hs. right. left. symmetry. exact Hs.
           ++ left. exact Hs.
        -- right. right. exact Hin.
      * intros p [<-|Hp]; cbn [List.find].
        -- rewrite String.eqb_refl. reflexivity.
        -- destruct (String.eqb_spec (place_id q) (place_id p)) as [Heq|_];
             [|apply Hfirst, Hp].
           exfalso. apply (Hout p Hp), elem_of_union. left.
           apply elem_of_singleton. symmetry. exact Heq.
Qed.

End DedupeFacts.

(** X13. De-duplication of the scan results keeps the first occurrence of
    every place id and nothing else: the result holds no id twice, it is a
    sub-list of the scan results in their order, every id of the scan is
    still present, each place kept is the first one of the scan with its
    id, and de-duplicating again changes nothing. *)
Theorem dedupeByPlaceId_first_occurrence (l : list Data.Place) :
  let out := Orchestrator.dedupeByPlaceId ∅ l in
  List.NoDup (List.map Data.place_id out)
  /\ sublist out l
  /\ (forall id : string,
        In id (List.map Data.place_id l) <-> In id (List.map Data.place_id out))
  /\ (forall p : Data.Place,
        In p out ->
        List.find (fun q => String.eqb (Data.place_id q) (Data.place_id p)) l
        = Some p)
  /\ Orchestrator.dedupeByPlaceId ∅ out = out.
Proof.
  intros out.
  destruct (dedupeByPlaceId_spec l ∅) as (_ & Hnd & Hsub & Hall & Hfirst).
  fold out in Hnd, Hsub, Hall, Hfirst.
  split; [exact Hnd|]. split; [exact Hsub|]. split; [|split; [exact Hfirst|]].
  - intros id. split.
    + intros Hin. apply List.in_map_iff in Hin as (p & <- & Hp).
      destruct (Hall p Hp) as [Hs|Hin]; [|exact Hin].
      exfalso. exact (not_elem_of_empty _ Hs).
    + intros Hin. apply List.in_map_iff in Hin as (p & <- & Hp).
      apply List.in_map. apply list_elem_of_In.
      eapply elem_of_sublist; [|exact Hsub]. apply list_elem_of_In. exact Hp.
  - clear Hsub Hall Hfirst.
    assert (Hgen : forall (seen : gset string) (o : list Data.Place),
              List.NoDup (List.map Data.place_id o) ->
              (forall p, In p o -> Data.place_id p ∉ seen) ->
              Orchestrator.dedupeByPlaceId seen o = o).
    { intros seen o. revert seen.
      induction o as [|q rest IH]; intros seen Hn Hs; [reflexivity|].
      cbn [Orchestrator.dedupeByPlaceId].
      rewrite bool_decide_false by (apply Hs; left; reflexivity).
      f_equal. cbn [List.map] in Hn. inversion Hn as [|? ? Hq Hrest]; subst.
      apply IH; [exact Hrest|].
      intros p Hp Hin. apply elem_of_union in Hin as [Hin|Hin].
      - apply elem_of_singleton in Hin. apply Hq. rewrite <- Hin.
        apply List.in_map. exact Hp.
      - apply (Hs p); [right; exact Hp | exact Hin]. }
    apply Hgen; [exact Hnd|]. intros p _. apply not_elem_of_empty.
Qed.

Section PersistFacts.
Import Js Data Runtime Gateway Orchestrator SearchActions Invariants.

Lemma keepsEnrichment_refl (row : DbPlace) : keepsEnrichment row row.
Proof. repeat split. Qed.

Lemma keepsEnrichment_trans (r1 r2 r3 : DbPlace) :
  keepsEnrichment r1 r2 -> keepsEnrichment r2 r3 -> keepsEnrichment r1 r3.
Proof.
  unfold keepsEnrichment.
  intros (? & ? & ? & ? & ? & ? & ?) (? & ? & ? & ? & ? & ? & ?).
  repeat split; congruence.
Qed.

Lemma savesPlacesOnly_refl (w : World) : savesPlacesOnly w w.
Proof.
  unfold savesPlacesOnly, sameProvider.
  repeat (split; [first [reflexivity | repeat split; reflexivity]|]).
  split; [auto|]. split; [|split; auto].
  intros k row H. exists row. split; [exact H | apply keepsEnrichment_refl].
Qed.

Lemma savesPlacesOnly_trans (w1 w2 w3 : World) :
  savesPlacesOnly w1 w2 -> savesPlacesOnly w2 w3 -> savesPlacesOnly w1 w3.
Proof.
  unfold savesPlacesOnly.
  intros (Hs1 & Hc1 & Hu1 & Hp1 & Hus1 & Hct1 & Hsh1 & Hsc1 & Hwk1 & Hrow1
          & Hnd1 & Hin1)
         (Hs2 & Hc2 & Hu2 & Hp2 & Hus2 & Hct2 & Hsh2 & Hsc2 & Hwk2 & Hrow2
          & Hnd2 & Hin2).
  split; [congruence|]. split; [congruence|]. split; [congruence|].
  split; [eapply sameProvider_trans; eassumption|].
  split; [congruence|]. split; [congruence|]. split; [congruence|].
  split; [congruence|]. split; [auto|]. split; [|split; [auto | auto]].
  intros k row H. destruct (Hrow1 k row H) as (row2 & H2 & Hk2).
  destruct (Hrow2 k row2 H2) as (row3 & H3 & Hk3).
  exists row3. split; [exact H3 | eapply keepsEnrichment_trans; eassumption].
Qed.

Lemma upsertPlace_saves (place : Place) (w : World) :
  exists (saved : DbPlace) (w' : World),
    upsertPlace place w = (Return saved, w')
    /\ savesPlacesOnly w w'
    /\ published w' = published w
    /\ enrichmentQueue w' = enrichmentQueue w
    /\ leads (db w') = leads (db w)
    /\ placeRows (db w') !! place_id place = Some saved
    /\ db_name saved = name place
    /\ db_website saved = website place
    /\ (wellKeyed (db w) -> googleId saved = place_id place).
Proof.
  unfold upsertPlace. eexists. eexists. split; [reflexivity|].
  cbn [db withDb placeRows withPlaces published enrichmentQueue leads].
  split; [|split; [reflexivity|split; [reflexivity|split; [reflexivity|
          split; [apply lookup_insert_eq|]]]]].
  - unfold savesPlacesOnly, sameProvider.
    cbn [db withDb placeRows withPlaces store clock uuidSeed events fetchCount
         currentKeyIndex users creditTransactions searchHistory searchCache
         leads].
    repeat (split; [first [reflexivity | repeat split; reflexivity]|]).
    split; [|split; [|split; [auto | auto]]].
    + intros Hwk k row. cbn [db withDb placeRows withPlaces].
      destruct (decide (k = place_id place)) as [->|Hne].
      * rewrite lookup_insert_eq. intros [= <-].
        destruct (placeRows (db w) !! place_id place) as [old|] eqn:Hold;
          [apply (Hwk _ _ Hold) | reflexivity].
      * rewrite lookup_insert_ne by congruence. apply Hwk.
    + intros k row Hrow. destruct (decide (k = place_id place)) as [->|Hne].
      * rewrite lookup_insert_eq, Hrow. eexists. split; [reflexivity|].
        repeat split.
      * rewrite lookup_insert_ne by congruence.
        exists row. split; [exact Hrow | apply keepsEnrichment_refl].
  - destruct (placeRows (db w) !! place_id place) as [old|] eqn:Hold;
      (split; [reflexivity|]); (split; [reflexivity|]).
    + intros Hwk. apply (Hwk _ _ Hold).
    + reflexivity.
Qed.

Lemma upsertLead_saves (userId placeId : string) (w : World) :
  exists w' : World,
    upsertLead userId placeId w = (Return tt, w')
    /\ savesPlacesOnly w w'
    /\ published w' = published w
    /\ enrichmentQueue w' = enrichmentQueue w
    /\ placeRows (db w') = placeRows (db w)
    /\ In (userId, placeId) (leads (db w')).
Proof.
  unfold upsertLead. case_bool_decide as Hin.
  - exists w. split; [reflexivity|]. split; [apply savesPlacesOnly_refl|].
    repeat (split; [reflexivity|]). apply list_elem_of_In. exact Hin.
  - eexists. split; [reflexivity|].
    cbn [db withDb leads withLeads placeRows published enrichmentQueue].
    split; [|repeat (split; [reflexivity|]);
             apply in_or_app; right; left; reflexivity].
    unfold savesPlacesOnly, sameProvider.
    cbn [db withDb placeRows withLeads store clock uuidSeed events fetchCount
         currentKeyIndex users creditTransactions searchHistory searchCache
         leads].
    repeat (split; [first [reflexivity | repeat split; reflexivity]|]).
    split; [auto|]. split; [|split].
    + intros k row H. exists row. split; [exact H | apply keepsEnrichment_refl].
    + intros Hnd. apply List.NoDup_app; [exact Hnd | |].
      * constructor; [intros [] | constructor].
      * intros x Hx [<-|[]]. apply Hin, list_elem_of_In. exact Hx.
    + intros x Hx. apply in_or_app. left. exact Hx.
Qed.

End PersistFacts.

Section PersistBatchFacts.
Import Js Data Runtime Gateway Orchestrator SearchActions Invariants.

Variable userId : string.
Variable effectiveJobId : string.

Lemma savedFor_later (place : Place) (w w' : World) :
  savesPlacesOnly w w' -> savedFor userId place w -> savedFor userId place w'.
Proof.
  intros Hs (row & Hrow & Hlead).
  destruct Hs as (_ & _ & _ & _ & _ & _ & _ & _ & _ & Hrows & _ & Hleads).
  destruct (Hrows _ _ Hrow) as (row' & Hrow' & Hid & _).
  exists row'. split; [exact Hrow'|]. rewrite Hid. apply Hleads, Hlead.
Qed.

Lemma persistOne_saves (place : Place) (w : World) :
  exists (out : Place) (w' : World),
    persistOne userId effectiveJobId place w = (Return out, w')
    /\ savesPlacesOnly w w'
    /\ published w' = published w
    /\ (wellKeyed (db w) -> place_id out = place_id place)
    /\ name out = name place
    /\ website out = website place
    /\ savedFor userId place w'.
Proof.
  unfold persistOne, mbind, IO_bind, bind.
  destruct (upsertPlace_saves place w)
    as (saved & w1 & Hup & Hs1 & Hp1 & _ & _ & Hrow1 & Hname & Hweb & Hid).
  rewrite Hup.
  destruct (upsertLead_saves userId (db_id saved) w1)
    as (w2 & Hlead & Hs2 & Hp2 & _ & Hrows2 & Hin2).
  rewrite Hlead.
  assert (Hsaved : savedFor userId place w2).
  { exists saved. split; [rewrite Hrows2; exact Hrow1 | exact Hin2]. }
  assert (Hs12 : savesPlacesOnly w w2)
    by (eapply savesPlacesOnly_trans; eassumption).
  destruct (bool_decide (db_emails saved = [])
            && match scrapeStatus saved with PENDING => true | _ => false end).
  - unfold addEnrichmentJob. cbn [mret IO_ret ret].
    eexists. eexists. split; [reflexivity|].
    split; [|split; [cbn; congruence|
             split; [exact Hid | split; [exact Hname | split; [exact Hweb|]]]]].
    + eapply savesPlacesOnly_trans; [exact Hs12|].
      unfold savesPlacesOnly, sameProvider. cbn.
      repeat (split; [first [reflexivity | repeat split; reflexivity]|]).
      split; [auto|]. split; [|split; auto].
      intros k row H. exists row. split; [exact H | apply keepsEnrichment_refl].
    + destruct Hsaved as (row & Hrow & Hl). exists row. split; assumption.
  - cbn [mret IO_ret ret].
    eexists. eexists. split; [reflexivity|].
    split; [exact Hs12|]. split; [congruence|].
    split; [exact Hid | split; [exact Hname | split; [exact Hweb | exact Hsaved]]].
Qed.

Lemma promiseAll_persist (placesToSave : list Place) :
  forall w : World,
    exists (outs : list Place) (w' : World),
      promiseAll (persistOne userId effectiveJobId) placesToSave w
      = (Return outs, w')
      /\ savesPlacesOnly w w'
      /\ published w' = published w
      /\ (wellKeyed (db w) ->
          List.map place_id outs = List.map place_id placesToSave)
      /\ List.map name outs = List.map name placesToSave
      /\ Forall (fun p => savedFor userId p w') placesToSave.
Proof.
  induction placesToSave as [|p rest IH]; intros w.
  - exists [], w. split; [reflexivity|]. split; [apply savesPlacesOnly_refl|].
    repeat split; constructor.
  - cbn [promiseAll]. unfold mbind, IO_bind, bind.
    destruct (persistOne_saves p w)
      as (out & w1 & Hone & Hs1 & Hp1 & Hid & Hname & _ & Hsaved).
    rewrite Hone.
    destruct (IH w1) as (outs & w' & Hrest & Hs2 & Hp2 & Hids & Hnames & Hall).
    rewrite Hrest. cbn [mret IO_ret ret].
    exists (out :: outs), w'. split; [reflexivity|].
    split; [eapply savesPlacesOnly_trans; eassumption|].
    split; [congruence|]. split; [|split].
    + intros Hwk. cbn [List.map]. f_equal; [apply Hid, Hwk|].
      apply Hids. destruct Hs1 as (_ & _ & _ & _ & _ & _ & _ & _ & Hk & _).
      apply Hk, Hwk.
    + cbn [List.map]. f_equal; assumption.
    + constructor; [eapply savedFor_later; eassumption | exact Hall].
Qed.

End PersistBatchFacts.

(** [persistAndPublish] on the reference store. *)
Lemma persistAndPublish_saves
    (userId effectiveJobId : string) (placesToSave : list Data.Place)
    (w : Runtime.World) :
  SearchActions.wellKeyed (Runtime.db w) ->
  exists (out : list Data.Place) (w' : Runtime.World),
    @Orchestrator.persistAndPublish Runtime.idealRedis userId effectiveJobId
      placesToSave w
    = (Runtime.Return out, w')
    /\ List.map Data.place_id out = List.map Data.place_id placesToSave
    /\ List.map Data.name out = List.map Data.name placesToSave
    /\ Invariants.savesPlacesOnly w w'
    /\ Forall
         (fun p =>
            exists row : Runtime.DbPlace,
              Runtime.placeRows (Runtime.db w') !! Data.place_id p = Some row
              /\ In (userId, Runtime.db_id row)
                   (Runtime.leads (Runtime.db w')))
         placesToSave
    /\ Runtime.published w'
       = Runtime.published w
         ++ (if negb (String.eqb effectiveJobId "")
                && negb (bool_decide (placesToSave = []))
             then [("search:updates:" +:+ effectiveJobId, Runtime.PPlaces out)]
             else []).
Proof.
  intros Hwk. unfold Orchestrator.persistAndPublish.
  case_bool_decide as Hempty.
  - subst placesToSave. exists [], w. split; [reflexivity|].
    split; [reflexivity|]. split; [reflexivity|].
    split; [apply savesPlacesOnly_refl|]. split; [constructor|].
    rewrite andb_false_r, app_nil_r. reflexivity.
  - unfold mbind, Runtime.IO_bind, Runtime.bind.
    destruct (promiseAll_persist userId effectiveJobId placesToSave w)
      as (outs & w1 & Hrun & Hs & Hp & Hids & Hnames & Hall).
    rewrite Hrun. specialize (Hids Hwk).
    assert (Hlen : length outs = length placesToSave).
    { rewrite <- (List.length_map Data.place_id outs), Hids.
      apply List.length_map. }
    assert (Hpos : (0 <? length outs)%nat = true).
    { apply Nat.ltb_lt. rewrite Hlen.
      destruct placesToSave; [contradiction | cbn; lia]. }
    rewrite Hpos, andb_true_r. cbn [negb andb].
    destruct (negb (String.eqb effectiveJobId "")).
    + cbn [Runtime.call Runtime.idealRedis]. unfold Runtime.idealCall.
      cbn [Runtime.runCmd]. rewrite withStore_same.
      cbn [mret Runtime.IO_ret Runtime.ret].
      eexists. eexists. split; [reflexivity|].
      split; [exact Hids|]. split; [exact Hnames|]. split; [|split].
      * eapply savesPlacesOnly_trans; [exact Hs|].
        unfold Invariants.savesPlacesOnly, Runtime.sameProvider. cbn.
        repeat (split; [first [reflexivity | repeat split; reflexivity]|]).
        split; [auto|]. split; [|split; auto].
        intros k row H. exists row.
        split; [exact H | apply keepsEnrichment_refl].
      * exact Hall.
      * cbn [Runtime.published Runtime.withPublished]. rewrite Hp.
        reflexivity.
    + cbn [mret Runtime.IO_ret Runtime.ret].
      exists outs, w1. split; [reflexivity|].
      split; [exact Hids|]. split; [exact Hnames|]. split; [exact Hs|].
      split; [exact Hall|]. rewrite Hp, app_nil_r. reflexivity.
Qed.

(** X14. Saving a batch of places answers one place per place and touches
    nothing but places, leads and enrichment jobs.  On the reference store,
    with a place table that respects its unique constraint,
    [persistAndPublish] returns, for every batch, as many places as it was
    given, in the same order and under the same ids and names; afterwards
    every place of the batch has a row and the user has a lead on it; rows
    that existed keep their id, enrichment data and scrape status; the
    store, the users, the ledger and the history are untouched; and the
    batch is published once on the job's channel, unless it is empty or
    there is no job id. *)
Theorem persistAndPublish_contract
    (userId effectiveJobId : string) (placesToSave : list Data.Place)
    (w : Runtime.World) :
  SearchActions.wellKeyed (Runtime.db w) ->
  exists (out : list Data.Place) (w' : Runtime.World),
    @Orchestrator.persistAndPublish Runtime.idealRedis userId effectiveJobId
      placesToSave w
    = (Runtime.Return out, w')
    /\ List.map Data.place_id out = List.map Data.place_id placesToSave
    /\ List.map Data.name out = List.map Data.name placesToSave
    /\ Invariants.savesPlacesOnly w w'
    /\ Forall
         (fun p =>
            exists row : Runtime.DbPlace,
              Runtime.placeRows (Runtime.db w') !! Data.place_id p = Some row
              /\ In (userId, Runtime.db_id row)
                   (Runtime.leads (Runtime.db w')))
         placesToSave
    /\ Runtime.published w'
       = Runtime.published w
         ++ (if negb (String.eqb effectiveJobId "")
                && negb (bool_decide (placesToSave = []))
             then [("search:updates:" +:+ effectiveJobId, Runtime.PPlaces out)]
             else []).
Proof. apply persistAndPublish_saves. Qed.


Lemma persistAndPublish_contract_witness :
  SearchActions.wellKeyed (Runtime.db Runtime.emptyWorld)
  /\ exists (out : list Data.Place) (w' : Runtime.World),
       @Orchestrator.persistAndPublish Runtime.idealRedis "user-1" "job-1"
         twentyPlaces Runtime.emptyWorld
       = (Runtime.Return out, w')
       /\ List.map Data.place_id out = List.map Data.place_id twentyPlaces
       /\ List.map Data.name out = List.map Data.name twentyPlaces
       /\ Invariants.savesPlacesOnly Runtime.emptyWorld w'
       /\ Forall
            (fun p =>
               exists row : Runtime.DbPlace,
                 Runtime.placeRows (Runtime.db w') !! Data.place_id p = Some row
                 /\ In ("user-1", Runtime.db_id row)
                      (Runtime.leads (Runtime.db w')))
            twentyPlaces
       /\ Runtime.published w'
          = Runtime.published Runtime.emptyWorld
            ++ (if negb (String.eqb "job-1" "")
                   && negb (bool_decide (twentyPlaces = []))
                then [("search:updates:" +:+ "job-1", Runtime.PPlaces out)]
                else []).
Proof.
  assert (Hwk : SearchActions.wellKeyed (Runtime.db Runtime.emptyWorld)).
  { intros k row H. cbn in H. rewrite lookup_empty in H. discriminate H. }
  split; [exact Hwk|].
  exact (persistAndPublish_contract "user-1" "job-1" twentyPlaces
           Runtime.emptyWorld Hwk).
Defined.

(** X15. A call the balance does not cover is refused before anything
    happens.  With any store client and any gateway, when the user exists
    and holds fewer credits than the call costs (10 for a new deep search,
    1 otherwise), [executeSearchCore] throws the insufficient-balance error
    for that cost; the world is as it was, but for the job id that has been
    drawn when none was given: no store command, no provider call, no
    debit. *)
Theorem executeSearchCore_insufficient_balance
    (client : Runtime.RedisClient) (config : Orchestrator.Config)
    (gateway : Orchestrator.PlacesGateway) (normalizeInput : string -> string)
    (city keyword userId : string) (initialPageToken : option string)
    (deepSearch : bool) (jobId : option string)
    (w : Runtime.World) (u : Runtime.User) :
  Runtime.users (Runtime.db w) !! userId = Some u ->
  (Runtime.credits u
   < Orchestrator.requiredCreditsOf initialPageToken deepSearch)%Z ->
  @Orchestrator.executeSearchCore client config gateway normalizeInput
    city keyword userId initialPageToken deepSearch jobId w
  = (Runtime.Throw
       (Orchestrator.insufficientBalance
          (Orchestrator.requiredCreditsOf initialPageToken deepSearch)),
     if Js.truthy jobId then w
     else Runtime.withUuidSeed (S (Runtime.uuidSeed w)) w).
Proof.
  intros Hu Hlow. unfold Orchestrator.executeSearchCore.
  unfold mbind, Runtime.IO_bind, Runtime.bind.
  destruct (Js.truthy jobId);
    cbn [mret Runtime.IO_ret Runtime.ret Runtime.randomUUID];
    unfold Orchestrator.findOrCreateUser;
    cbn [Runtime.db Runtime.withUuidSeed]; rewrite Hu;
    (destruct (Z.ltb_spec (Runtime.credits u)
                 (Orchestrator.requiredCreditsOf initialPageToken deepSearch));
     [reflexivity | lia]).
Qed.

Lemma executeSearchCore_insufficient_balance_witness :
  Runtime.users (Runtime.db oneCredit) !! "user-1"
  = Some {| Runtime.credits := 1;
            Runtime.subscriptionTier := Some Data.FREE;
            Runtime.email := "user-1@zakrom-test.com" |}
  /\ (1 < Orchestrator.requiredCreditsOf None true)%Z
  /\ @Orchestrator.executeSearchCore Runtime.idealRedis planOfTwenty
       fullPageGateway (fun s => s) "Rome" "gym" "user-1" None true
       (Some "job-1") oneCredit
     = (Runtime.Throw
          (Orchestrator.insufficientBalance
             (Orchestrator.requiredCreditsOf None true)),
        oneCredit).
Proof.
  split; [reflexivity|]. split; [cbn; lia|].
  exact (executeSearchCore_insufficient_balance Runtime.idealRedis
           planOfTwenty fullPageGateway (fun s => s) "Rome" "gym" "user-1"
           None true (Some "job-1") oneCredit _ eq_refl ltac:(cbn; lia)).
Defined.

Section DeepContinuationFacts.
Import Js Data Runtime Gateway Orchestrator SearchActions Invariants Polling.
Local Open Scope Z_scope.

Variable config : Config.

Lemma idealCall_GET_readable (key : string) (w : World) :
  readable key w = true ->
  exists r : Reply, idealCall (GET key) w = (Return r, w).
Proof.
  unfold readable. intros H. rewrite idealCall_GET. cbn [runCmd].
  destruct (lookupLive (clock w) key (store w)) as [[[p|n|l] t]|];
    try discriminate H; eexists; reflexivity.
Qed.

(** One page of a cached deep search, read from the slim list. *)
Lemma deepContinuation_page
    (userId job listKey dataKey : string) (s cachedSize : Z)
    (l : list Place) (w : World) :
  0 <= s ->
  payloadOf dataKey w = Some (PDeepList l cachedSize) ->
  readable listKey w = true ->
  wellKeyed (db w) ->
  exists (enriched : list Place) (w' : World),
    @deepContinuation idealRedis config userId job listKey dataKey
      ("deep:" +:+ pretty s) w
    = (Return (enriched,
               if s + DEEP_PAGE_SIZE config <? Z.of_nat (length l)
               then Some ("deep:" +:+ pretty (s + DEEP_PAGE_SIZE config))
               else None),
       w')
    /\ List.map place_id enriched
       = List.map place_id (slice l s (s + DEEP_PAGE_SIZE config))
    /\ List.map name enriched
       = List.map name (slice l s (s + DEEP_PAGE_SIZE config))
    /\ savesPlacesOnly w w'.
Proof.
  intros Hs Hdata Hlist Hwk. unfold deepContinuation.
  rewrite (deep_token_offset s Hs).
  unfold mbind, IO_bind, bind. cbn [call idealRedis].
  rewrite (idealCall_GET_payload _ _ _ Hdata).
  destruct (idealCall_GET_readable _ _ Hlist) as [ids Hids]. rewrite Hids.
  cbn [replyTruthy].
  destruct (persistAndPublish_saves userId job
              (slice l s (s + DEEP_PAGE_SIZE config)) w Hwk)
    as (out & w' & Hrun & Hid & Hname & Hsaves & _ & _).
  rewrite Hrun. cbn [mret IO_ret ret].
  exists out, w'. split; [reflexivity|].
  split; [exact Hid|]. split; [exact Hname | exact Hsaves].
Qed.

Variable gateway : PlacesGateway.
Variable normalizeInput : string -> string.

Lemma executeSearchCore_deep_page
    (city keyword userId : string) (deepSearch : bool) (jobId : option string)
    (s cachedSize : Z) (l : list Place) (u : User) (w : World) :
  let dataKey := "search:list:data:" +:+ normalizeInput city +:+ ":"
                 +:+ normalizeInput keyword in
  let listKey := "search:list:" +:+ normalizeInput city +:+ ":"
                 +:+ normalizeInput keyword in
  let D := DEEP_PAGE_SIZE config in
  0 <= s ->
  users (db w) !! userId = Some u ->
  1 <= credits u ->
  payloadOf dataKey w = Some (PDeepList l cachedSize) ->
  readable listKey w = true ->
  wellKeyed (db w) ->
  exists (r : SearchResult) (w' : World),
    @executeSearchCore idealRedis config gateway normalizeInput city keyword
      userId (Some ("deep:" +:+ pretty s)) deepSearch jobId w
    = (Return r, w')
    /\ List.map place_id (res_places r) = List.map place_id (slice l s (s + D))
    /\ List.map name (res_places r) = List.map name (slice l s (s + D))
    /\ res_nextPageToken r
       = (if s + D <? Z.of_nat (length l)
          then Some ("deep:" +:+ pretty (s + D)) else None)
    /\ savesPlacesOnly
         (if truthy jobId then w else withUuidSeed (S (uuidSeed w)) w) w'.
Proof.
  intros dataKey listKey D Hs Hu Hcredits Hdata Hlist Hwk.
  unfold executeSearchCore. cbv zeta.
  unfold mbind at 1, IO_bind at 1, bind at 1.
  set (w0 := if truthy jobId then w else withUuidSeed (S (uuidSeed w)) w).
  set (job := if truthy jobId then default "" jobId
              else "uuid-" +:+ pretty (uuidSeed w)).
  assert (Hjob : (if truthy jobId then mret (default "" jobId) else randomUUID) w
                 = (Return job, w0)).
  { unfold job, w0. destruct (truthy jobId); reflexivity. }
  rewrite Hjob.
  assert (Hsame : store w0 = store w /\ clock w0 = clock w /\ db w0 = db w).
  { unfold w0. destruct (truthy jobId); repeat split. }
  destruct Hsame as (Hst0 & Hcl0 & Hdb0).
  unfold mbind at 1, IO_bind at 1, bind at 1.
  unfold findOrCreateUser. rewrite Hdb0, Hu.
  destruct (deep_token_is_deep s) as [Hdeep Htruthy].
  unfold requiredCreditsOf. rewrite Htruthy. cbn [negb andb].
  destruct (Z.ltb_spec (credits u) 1) as [?|_]; [lia|].
  rewrite Hdeep. cbn [default].
  destruct (deepContinuation_page userId job listKey dataKey s cachedSize l w0
              Hs) as (enriched & w' & Hrun & Hid & Hname & Hsaves).
  { unfold payloadOf. rewrite Hst0, Hcl0. exact Hdata. }
  { unfold readable. rewrite Hst0, Hcl0. exact Hlist. }
  { rewrite Hdb0. exact Hwk. }
  unfold listKey, dataKey in Hrun.
  unfold mbind, IO_bind, bind, Datatypes.id. rewrite Hrun.
  cbn [mret IO_ret ret].
  eexists. eexists. split; [reflexivity|].
  cbn [res_places res_nextPageToken].
  split; [exact Hid|]. split; [exact Hname|]. split; [reflexivity | exact Hsaves].
Qed.

End DeepContinuationFacts.

(** X16. A page of a cached deep search is served from the cache alone,
    free of charge, and serving it again gives the same page.  On the
    reference store, for a user holding at least one credit, a token
    [deep:<s>] and a cached list [l]: the call returns the places of [l]
    from index [s] up to [s + DEEP_PAGE_SIZE], under their ids and in their
    order; the next token is [deep:<s + DEEP_PAGE_SIZE>] when the list goes
    on beyond the page and absent otherwise; no credit is debited and
    nothing is added to the ledger or the history; the store is left as it
    was and the provider is not called; and the same call made again
    returns the same ids and the same token. *)
Theorem deep_continuation_serves_cached_page
    (config : Orchestrator.Config) (gateway : Orchestrator.PlacesGateway)
    (normalizeInput : string -> string)
    (city keyword userId : string) (deepSearch : bool) (jobId : option string)
    (s cachedSize : Z) (l : list Data.Place) (u : Runtime.User)
    (w : Runtime.World) :
  let dataKey := "search:list:data:" +:+ normalizeInput city +:+ ":"
                 +:+ normalizeInput keyword in
  let listKey := "search:list:" +:+ normalizeInput city +:+ ":"
                 +:+ normalizeInput keyword in
  let D := Orchestrator.DEEP_PAGE_SIZE config in
  let run :=
    @Orchestrator.executeSearchCore Runtime.idealRedis config gateway
      normalizeInput city keyword userId (Some ("deep:" +:+ pretty s))
      deepSearch jobId in
  (0 <= s)%Z ->
  Runtime.users (Runtime.db w) !! userId = Some u ->
  (1 <= Runtime.credits u)%Z ->
  Polling.payloadOf dataKey w = Some (Runtime.PDeepList l cachedSize) ->
  Polling.readable listKey w = true ->
  SearchActions.wellKeyed (Runtime.db w) ->
  exists (r : Data.SearchResult) (w' : Runtime.World),
    run w = (Runtime.Return r, w')
    /\ List.map Data.place_id (Data.res_places r)
       = List.map Data.place_id (Js.slice l s (s + D))
    /\ Data.res_nextPageToken r
       = (if (s + D <? Z.of_nat (length l))%Z
          then Some ("deep:" +:+ pretty (s + D)%Z) else None)
    /\ Runtime.users (Runtime.db w') = Runtime.users (Runtime.db w)
    /\ Runtime.creditTransactions (Runtime.db w')
       = Runtime.creditTransactions (Runtime.db w)
    /\ Runtime.searchHistory (Runtime.db w')
       = Runtime.searchHistory (Runtime.db w)
    /\ Runtime.store w' = Runtime.store w
    /\ Runtime.sameProvider w w'
    /\ exists (r2 : Data.SearchResult) (w2 : Runtime.World),
         run w' = (Runtime.Return r2, w2)
         /\ List.map Data.place_id (Data.res_places r2)
            = List.map Data.place_id (Data.res_places r)
         /\ Data.res_nextPageToken r2 = Data.res_nextPageToken r.
Proof.
  intros dataKey listKey D run Hs Hu Hcredits Hdata Hlist Hwk.
  destruct (executeSearchCore_deep_page config gateway normalizeInput city
              keyword userId deepSearch jobId s cachedSize l u w
              Hs Hu Hcredits Hdata Hlist Hwk)
    as (r & w' & Hrun & Hids & _ & Htok & Hsaves).
  set (w0 := if Js.truthy jobId then w
             else Runtime.withUuidSeed (S (Runtime.uuidSeed w)) w) in Hsaves.
  assert (H0 : Runtime.store w0 = Runtime.store w
               /\ Runtime.clock w0 = Runtime.clock w
               /\ Runtime.db w0 = Runtime.db w
               /\ Runtime.sameProvider w w0).
  { unfold w0. destruct (Js.truthy jobId); repeat split. }
  destruct H0 as (Hst0 & Hcl0 & Hdb0 & Hprov0).
  destruct Hsaves as (Hst & Hcl & _ & Hprov & Hus & Hct & Hsh & _ & Hk & _).
  rewrite Hdb0 in Hus, Hct, Hsh, Hk. rewrite Hst0 in Hst. rewrite Hcl0 in Hcl.
  destruct (executeSearchCore_deep_page config gateway normalizeInput city
              keyword userId deepSearch jobId s cachedSize l u w' Hs)
    as (r2 & w2 & Hrun2 & Hids2 & _ & Htok2 & _).
  { rewrite Hus. exact Hu. }
  { exact Hcredits. }
  { unfold Polling.payloadOf. rewrite Hst, Hcl. exact Hdata. }
  { unfold Polling.readable. rewrite Hst, Hcl. exact Hlist. }
  { apply Hk, Hwk. }
  exists r, w'. split; [exact Hrun|]. split; [exact Hids|].
  split; [exact Htok|]. split; [exact Hus|]. split; [exact Hct|].
  split; [exact Hsh|]. split; [exact Hst|].
  split; [eapply sameProvider_trans; eassumption|].
  exists r2, w2. split; [exact Hrun2|].
  split; [rewrite Hids2, Hids; reflexivity | rewrite Htok2, Htok; reflexivity].
Qed.

Lemma deep_continuation_serves_cached_page_witness :
  let run :=
    @Orchestrator.executeSearchCore Runtime.idealRedis tenPerPage quietGateway
      (fun s => s) "Rome" "gym" "user-1" (Some ("deep:" +:+ pretty 10%Z))
      false (Some "job-1") in
  (0 <= 10)%Z
  /\ Runtime.users (Runtime.db deepCached) !! "user-1"
     = Some {| Runtime.credits := 5;
               Runtime.subscriptionTier := Some Data.FREE;
               Runtime.email := "user-1@zakrom-test.com" |}
  /\ (1 <= 5)%Z
  /\ Polling.payloadOf "search:list:data:Rome:gym" deepCached
     = Some (Runtime.PDeepList twentyPlaces 10)
  /\ Polling.readable "search:list:Rome:gym" deepCached = true
  /\ SearchActions.wellKeyed (Runtime.db deepCached)
  /\ exists (r : Data.SearchResult) (w' : Runtime.World),
       run deepCached = (Runtime.Return r, w')
       /\ List.map Data.place_id (Data.res_places r)
          = List.map Data.place_id
              (Js.slice twentyPlaces 10
                 (10 + Orchestrator.DEEP_PAGE_SIZE tenPerPage))
       /\ Data.res_nextPageToken r
          = (if (10 + Orchestrator.DEEP_PAGE_SIZE tenPerPage
                 <? Z.of_nat (length twentyPlaces))%Z
             then Some ("deep:"
                        +:+ pretty (10 + Orchestrator.DEEP_PAGE_SIZE tenPerPage)%Z)
             else None)
       /\ Runtime.users (Runtime.db w') = Runtime.users (Runtime.db deepCached)
       /\ Runtime.creditTransactions (Runtime.db w')
          = Runtime.creditTransactions (Runtime.db deepCached)
       /\ Runtime.searchHistory (Runtime.db w')
          = Runtime.searchHistory (Runtime.db deepCached)
       /\ Runtime.store w' = Runtime.store deepCached
       /\ Runtime.sameProvider deepCached w'
       /\ exists (r2 : Data.SearchResult) (w2 : Runtime.World),
            run w' = (Runtime.Return r2, w2)
            /\ List.map Data.place_id (Data.res_places r2)
               = List.map Data.place_id (Data.res_places r)
            /\ Data.res_nextPageToken r2 = Data.res_nextPageToken r.
Proof.
  intros run.
  assert (Hwk : SearchActions.wellKeyed (Runtime.db deepCached)).
  { intros k row H. cbn in H. rewrite lookup_empty in H. discriminate H. }
  split; [lia|]. split; [reflexivity|]. split; [lia|].
  split; [reflexivity|]. split; [reflexivity|]. split; [exact Hwk|].
  exact (deep_continuation_serves_cached_page tenPerPage quietGateway
           (fun s => s) "Rome" "gym" "user-1" false (Some "job-1") 10 10
           twentyPlaces _ deepCached ltac:(lia) eq_refl ltac:(cbn; lia)
           eq_refl eq_refl Hwk).
Defined.

Section PageSizeFacts.
Import Js Data Runtime Gateway Orchestrator.
Local Open Scope Z_scope.

Lemma slice_capped {A : Type} (l : list A) (n : Z) :
  0 <= n -> Z.of_nat (length (slice l 0 n)) <= n.
Proof. intros Hn. rewrite slice_prefix_length by exact Hn. lia. Qed.

Lemma slice_nil {A : Type} (a b : Z) : slice (@nil A) a b = [].
Proof. unfold slice. rewrite skipn_nil, firstn_nil. reflexivity. Qed.

End PageSizeFacts.

(** X17. A standard search never hands out more places than the plan
    allows.  With any store client and any gateway, a new standard search
    that returns yields at most [resultsPerSearch] places for the plan of
    the user (FREE when the user is new or has no plan), and none at all
    when that cap is not positive. *)
Theorem standard_search_respects_plan_cap
    (client : Runtime.RedisClient) (config : Orchestrator.Config)
    (gateway : Orchestrator.PlacesGateway) (normalizeInput : string -> string)
    (city keyword userId : string) (initialPageToken jobId : option string)
    (w w' : Runtime.World) (r : Data.SearchResult) :
  let tier := match Runtime.users (Runtime.db w) !! userId with
              | Some u => default Data.FREE (Runtime.subscriptionTier u)
              | None => Data.FREE
              end in
  Js.truthy initialPageToken = false ->
  @Orchestrator.executeSearchCore client config gateway normalizeInput
    city keyword userId initialPageToken false jobId w
  = (Runtime.Return r, w') ->
  (Z.of_nat (length (Data.res_places r))
   <= Z.max 0 (Orchestrator.resultsPerSearch config tier))%Z.
Proof.
  intros tier Htok H. unfold Orchestrator.executeSearchCore in H.
  apply bind_returns in H as (job & wj & Hjob & H).
  apply bind_returns in H as (user & w0 & Huser & H).
  cbv zeta in H.
  rewrite (truthy_false_not_deep _ Htok), Htok in H. cbn [negb andb] in H.
  destruct (Runtime.credits user
            <? Orchestrator.requiredCreditsOf initialPageToken false)%Z;
    [discriminate H|].
  apply bind_returns in H as ([[limited enr] next] & w2 & Hs & H).
  apply bind_returns in H as (? & w3 & _ & H).
  apply bind_returns in H as (? & w4 & _ & H).
  apply bind_returns in H as (? & w5 & _ & H).
  injection H as <- _. cbn [Data.res_places].
  assert (Htier : default Data.FREE (Runtime.subscriptionTier user) = tier).
  { assert (Hdb : Runtime.db wj = Runtime.db w).
    { destruct (Js.truthy jobId); injection Hjob as _ <-; reflexivity. }
    unfold Orchestrator.findOrCreateUser in Huser. rewrite Hdb in Huser.
    unfold tier.
    destruct (Runtime.users (Runtime.db w) !! userId) as [u|];
      injection Huser as <- _; reflexivity. }
  rewrite Htier in Hs.
  set (P := Orchestrator.resultsPerSearch config tier) in *.
  unfold Orchestrator.standardSearch in Hs.
  apply bind_returns in Hs as ([[allPlaces enriched] currentToken] & w6 & Hl & Hs).
  injection Hs as _ <- _ _.
  apply standardLoop_ran in Hl as [Heq|HP].
  - injection Heq as _ -> _. rewrite slice_nil. cbn. lia.
  - pose proof (slice_capped enriched P ltac:(lia)). lia.
Qed.

Lemma standard_search_respects_plan_cap_witness :
  Js.truthy None = false
  /\ exists (r : Data.SearchResult) (w' : Runtime.World),
       capReachedRun = (Runtime.Return r, w')
       /\ (Z.of_nat (length (Data.res_places r))
           <= Z.max 0 (Orchestrator.resultsPerSearch planOfTwenty
                         match Runtime.users (Runtime.db Runtime.emptyWorld)
                               !! "user-1" with
                         | Some u => default Data.FREE (Runtime.subscriptionTier u)
                         | None => Data.FREE
                         end))%Z.
Proof.
  split; [reflexivity|].
  destruct capReachedRun as [[r|e] w'] eqn:E.
  - exists r, w'. split; [reflexivity|].
    exact (standard_search_respects_plan_cap Runtime.idealRedis planOfTwenty
             fullPageGateway (fun s => s) "Rome" "gym" "user-1" None
             (Some "job-1") Runtime.emptyWorld w' r eq_refl E).
  - vm_compute in E. discriminate E.
Defined.

Section CacheFacts.
Import Js Data Runtime Gateway Orchestrator SearchActions Polling.
Local Open Scope Z_scope.

Variable config : Config.
Variable gateway : PlacesGateway.
Variable normalizeInput : string -> string.

(** A new search that returns has cached what it returns, in the store and
    in the durable cache, under the key of the query. *)
Lemma executeSearchCore_caches_result
    (city keyword userId : string) (initialPageToken : option string)
    (deepSearch : bool) (jobId : option string)
    (w w' : World) (r : SearchResult) :
  truthy initialPageToken = false ->
  @executeSearchCore idealRedis config gateway normalizeInput city keyword
    userId initialPageToken deepSearch jobId w
  = (Return r, w') ->
  let key := cacheKeyOf (normalizeInput city) (normalizeInput keyword)
               initialPageToken in
  store w' !! key
  = Some {| value := VStr (PResult r);
            expireAt := Some (clock w' + 1000 * LONG_TERM_TTL) |}
  /\ searchCache (db w') !! key = Some r.
Proof.
  intros Htok H key. unfold executeSearchCore in H.
  apply bind_returns in H as (job & wj & _ & H).
  apply bind_returns in H as (user & w0 & _ & H).
  cbv zeta in H.
  rewrite (truthy_false_not_deep _ Htok) in H.
  destruct (credits user <? requiredCreditsOf initialPageToken deepSearch);
    [discriminate H|].
  assert (Hneg : negb (truthy initialPageToken) = true) by (rewrite Htok; reflexivity).
  rewrite Hneg in H.
  apply bind_returns in H as ([[limited enr] next] & w2 & _ & H).
  apply bind_returns in H as (? & w3 & _ & H).
  apply bind_returns in H as (reply & w4 & Hset & H).
  apply bind_returns in H as (? & w5 & Hup & H).
  injection H as <- <-.
  cbn [call idealRedis] in Hset. rewrite idealCall_store in Hset by discriminate.
  cbn [runCmd] in Hset.
  change (1000 * LONG_TERM_TTL <=? 0) with false in Hset.
  cbn [andb fst snd] in Hset. injection Hset as _ <-.
  unfold upsertSearchCache in Hup. injection Hup as _ <-.
  cbn [store clock db withDb withStore searchCache withSearchCache].
  fold (cacheKeyOf (normalizeInput city) (normalizeInput keyword)
          initialPageToken). fold key.
  split; apply lookup_insert_eq.
Qed.

End CacheFacts.

(** X18. What a new search returns can be read back from the cache.  On the
    reference store, a new search (no page token) that returns [r] leaves
    [r] in the durable cache and in the store, under the key built from the
    normalized city and keyword, for 30 days; as long as that entry is
    there, [searchPlacesAsync] for a city and a keyword validated to the
    same ones answers [CACHED] with [r] and changes nothing: it takes no
    lock and enqueues no job. *)
Theorem search_result_cache_round_trip
    (config : Orchestrator.Config) (gateway : Orchestrator.PlacesGateway)
    (normalizeInput : string -> string)
    (safeParse : string -> string -> bool -> string + (string * string))
    (addSearchJob : SearchActions.SearchJobData -> Runtime.IO string)
    (parseText : string -> Runtime.Outcome Runtime.Payload)
    (city keyword userId : string) (initialPageToken : option string)
    (deepSearch : bool) (jobId : option string)
    (w w' : Runtime.World) (r : Data.SearchResult) :
  let key := SearchActions.cacheKeyOf (normalizeInput city)
               (normalizeInput keyword) initialPageToken in
  Js.truthy initialPageToken = false ->
  @Orchestrator.executeSearchCore Runtime.idealRedis config gateway
    normalizeInput city keyword userId initialPageToken deepSearch jobId w
  = (Runtime.Return r, w') ->
  Polling.payloadOf key w' = Some (Runtime.PResult r)
  /\ Polling.expiryOf key w'
     = Some (Runtime.clock w' + 1000 * Orchestrator.LONG_TERM_TTL)%Z
  /\ Runtime.searchCache (Runtime.db w') !! key = Some r
  /\ forall (rawCity rawKeyword caller : string) (deep2 : bool)
            (w2 : Runtime.World),
       safeParse rawCity rawKeyword deep2 = inr (city, keyword) ->
       Runtime.store w2 = Runtime.store w' ->
       (Runtime.clock w2
        < Runtime.clock w' + 1000 * Orchestrator.LONG_TERM_TTL)%Z ->
       @SearchActions.searchPlacesAsync Runtime.idealRedis normalizeInput
         safeParse addSearchJob parseText rawCity rawKeyword caller
         initialPageToken deep2 w2
       = (Runtime.Return (SearchActions.CACHED (Runtime.PResult r)), w2).
Proof.
  intros key Htok H.
  destruct (executeSearchCore_caches_result config gateway normalizeInput
              city keyword userId initialPageToken deepSearch jobId w w' r
              Htok H) as [Hstore Hdb].
  fold key in Hstore, Hdb.
  assert (Hread : forall w2 : Runtime.World,
            Runtime.store w2 = Runtime.store w' ->
            (Runtime.clock w2
             < Runtime.clock w' + 1000 * Orchestrator.LONG_TERM_TTL)%Z ->
            Runtime.lookupLive (Runtime.clock w2) key (Runtime.store w2)
            = Some {| Runtime.value := Runtime.VStr (Runtime.PResult r);
                      Runtime.expireAt :=
                        Some (Runtime.clock w'
                              + 1000 * Orchestrator.LONG_TERM_TTL)%Z |}).
  { intros w2 Hst Hcl. unfold Runtime.lookupLive. rewrite Hst, Hstore.
    unfold Runtime.live. cbn [Runtime.expireAt].
    destruct (Z.ltb_spec (Runtime.clock w2)
                (Runtime.clock w' + 1000 * Orchestrator.LONG_TERM_TTL));
      [reflexivity | lia]. }
  assert (Hnow : (Runtime.clock w'
                  < Runtime.clock w' + 1000 * Orchestrator.LONG_TERM_TTL)%Z).
  { unfold Orchestrator.LONG_TERM_TTL. lia. }
  split; [|split; [|split; [exact Hdb|]]].
  - unfold Polling.payloadOf. rewrite (Hread w' eq_refl Hnow). reflexivity.
  - unfold Polling.expiryOf. rewrite (Hread w' eq_refl Hnow). reflexivity.
  - intros rawCity rawKeyword caller deep2 w2 Hparse Hst Hcl.
    unfold SearchActions.searchPlacesAsync. rewrite Hparse. cbv zeta.
    fold key. unfold mbind, Runtime.IO_bind, Runtime.bind.
    cbn [Runtime.call Runtime.idealRedis].
    rewrite idealCall_GET. cbn [Runtime.runCmd]. rewrite (Hread w2 Hst Hcl).
    reflexivity.
Qed.

Lemma search_result_cache_round_trip_witness :
  Js.truthy None = false
  /\ exists (r : Data.SearchResult) (w' : Runtime.World),
       capReachedRun = (Runtime.Return r, w')
       /\ Polling.payloadOf "search:Rome:gym:p1" w' = Some (Runtime.PResult r)
       /\ Polling.expiryOf "search:Rome:gym:p1" w'
          = Some (Runtime.clock w' + 1000 * Orchestrator.LONG_TERM_TTL)%Z
       /\ Runtime.searchCache (Runtime.db w') !! "search:Rome:gym:p1" = Some r
       /\ forall (rawCity rawKeyword caller : string) (deep2 : bool)
                 (w2 : Runtime.World),
            acceptAll rawCity rawKeyword deep2 = inr ("Rome", "gym") ->
            Runtime.store w2 = Runtime.store w' ->
            (Runtime.clock w2
             < Runtime.clock w' + 1000 * Orchestrator.LONG_TERM_TTL)%Z ->
            @SearchActions.searchPlacesAsync Runtime.idealRedis (fun s => s)
              acceptAll queueStub noJson rawCity rawKeyword caller None deep2 w2
            = (Runtime.Return (SearchActions.CACHED (Runtime.PResult r)), w2).
Proof.
  split; [reflexivity|].
  destruct capReachedRun as [[r|e] w'] eqn:E.
  - exists r, w'. split; [reflexivity|].
    exact (search_result_cache_round_trip planOfTwenty fullPageGateway
             (fun s => s) acceptAll queueStub noJson "Rome" "gym" "user-1"
             None false (Some "job-1") Runtime.emptyWorld w' r eq_refl E).
  - vm_compute in E. discriminate E.
Defined.

Section AsyncFacts.
Import Js Data Runtime TrafficControl Gateway Orchestrator SearchActions Polling.
Local Open Scope Z_scope.

Lemma idealCall_SET (key : string) (v : Payload) (ttlMs : Z) (w : World) :
  0 < ttlMs ->
  idealCall (SET key v (Some ttlMs) false) w
  = (Return (Status "OK"),
     withStore (<[key := {| value := VStr v;
                            expireAt := Some (clock w + ttlMs) |}]> (store w)) w).
Proof.
  intros Httl. rewrite idealCall_store by discriminate. cbn [runCmd].
  destruct (Z.leb_spec ttlMs 0) as [?|_]; [lia | reflexivity].
Qed.

Lemma isFree_insert_ne (key key' : string) (e : Entry) (w w' : World) :
  key' <> key -> clock w' = clock w ->
  store w' = <[key' := e]> (store w) ->
  isFree key w' = isFree key w.
Proof.
  intros Hne Hcl Hst. unfold isFree. rewrite Hst, Hcl.
  rewrite lookupLive_insert_ne by exact Hne. reflexivity.
Qed.

Lemma lookupLive_delete_ne (now : Z) (key key' : string)
    (st : gmap string Entry) :
  key <> key' -> lookupLive now key' (delete key st) = lookupLive now key' st.
Proof.
  intros H. unfold lookupLive. rewrite lookup_delete_ne by exact H.
  reflexivity.
Qed.

Lemma lookupLive_free_later (key : string) (w : World) (now : Z) :
  isFree key w = true -> clock w <= now ->
  lookupLive now key (store w) = None.
Proof.
  intros Hfree Hle.
  pose proof (isFree_later key w (withClock now w) eq_refl Hle Hfree) as H.
  unfold isFree in H. cbn [clock store withClock] in H.
  destruct (lookupLive now key (store w)); [discriminate H | reflexivity].
Qed.

Variable normalizeInput : string -> string.
Variable safeParse : string -> string -> bool -> string + (string * string).
Variable parseText : string -> Outcome Payload.

(** The body of the locked block when neither a result nor a tracker is
    there: the job is enqueued and announced. *)
Lemma enqueueUnderLock_enqueues
    (addSearchJob : SearchJobData -> IO string)
    (city keyword userId : string) (tok : option string) (deep : bool)
    (normalizedCity normalizedKeyword token jobId : string) (w w2 : World) :
  let key := cacheKeyOf normalizedCity normalizedKeyword tok in
  let lockKey := "lock:job:" +:+ key in
  let tracker := "active-job:" +:+ key in
  let status := "job:" +:+ jobId +:+ ":status" in
  let announced := if String.eqb jobId "" then "pending" else jobId in
  truthy (Some token) = true ->
  isFree key w = true ->
  isFree tracker w = true ->
  heldText lockKey w = Some token ->
  addSearchJob {| job_city := city; job_keyword := keyword;
                  job_userId := userId; job_initialPageToken := tok;
                  job_deepSearch := deep |} w
  = (Return jobId, w2) ->
  store w2 = store w -> clock w2 = clock w ->
  @enqueueUnderLock idealRedis addSearchJob parseText city keyword userId tok
    deep key lockKey (Some token) w
  = (Return (JOB (PText jobId) None),
     withStore
       (delete lockKey
          (<[tracker := {| value := VStr (PText announced);
                           expireAt := Some (clock w + 1000 * 60) |}]>
             (<[status := {| value := VStr (PText "pending");
                             expireAt := Some (clock w + 1000 * 3600) |}]>
                (store w))))
       w2).
Proof.
  intros key lockKey tracker status announced Ht Hkey Htracker Hheld Hadd Hst Hcl.
  assert (Hsl : status <> lockKey).
  { unfold status, lockKey. intros H. cbn [String.append] in H. discriminate H. }
  assert (Htl : tracker <> lockKey).
  { unfold tracker, lockKey. intros H. cbn [String.append] in H. discriminate H. }
  unfold enqueueUnderLock, tryFinally.
  unfold mbind, IO_bind, bind. cbn [call idealRedis].
  rewrite (idealCall_GET_free _ _ Hkey). cbn [replyTruthy].
  fold tracker. rewrite (idealCall_GET_free _ _ Htracker). cbn [replyTruthy].
  rewrite Hadd. fold status.
  rewrite idealCall_SET by lia. rewrite idealCall_SET by lia.
  cbn [clock store withStore mret IO_ret ret]. rewrite Hst, Hcl.
  fold announced. rewrite Ht. cbn [default].
  rewrite releaseLock_ideal.
  assert (Hheld' :
    heldText lockKey
      (withStore
         (<[tracker := {| value := VStr (PText announced);
                          expireAt := Some (clock w + 1000 * 60) |}]>
            (<[status := {| value := VStr (PText "pending");
                            expireAt := Some (clock w + 1000 * 3600) |}]>
               (store w)))
         (withStore
            (<[status := {| value := VStr (PText "pending");
                            expireAt := Some (clock w + 1000 * 3600) |}]>
               (store w)) w2))
    = Some token).
  { unfold heldText in *. cbn [clock store withStore]. rewrite Hcl.
    rewrite !lookupLive_insert_ne by assumption. exact Hheld. }
  rewrite Hheld'. rewrite bool_decide_true by reflexivity.
  reflexivity.
Qed.

(** The body of the locked block when another request has already
    announced a job: that job is joined, whatever the queue would do. *)
Lemma enqueueUnderLock_joins
    (addSearchJob : SearchJobData -> IO string)
    (city keyword userId : string) (tok : option string) (deep : bool)
    (normalizedCity normalizedKeyword token announced : string) (w : World) :
  let key := cacheKeyOf normalizedCity normalizedKeyword tok in
  let lockKey := "lock:job:" +:+ key in
  let tracker := "active-job:" +:+ key in
  truthy (Some token) = true ->
  truthy (Some announced) = true ->
  isFree key w = true ->
  payloadOf tracker w = Some (PText announced) ->
  heldText lockKey w = Some token ->
  @enqueueUnderLock idealRedis addSearchJob parseText city keyword userId tok
    deep key lockKey (Some token) w
  = (Return (JOB (PText announced) (Some alreadyRunning)),
     withStore (delete lockKey (store w)) w).
Proof.
  intros key lockKey tracker Ht Ha Hkey Htracker Hheld.
  unfold enqueueUnderLock, tryFinally.
  unfold mbind, IO_bind, bind. cbn [call idealRedis].
  rewrite (idealCall_GET_free _ _ Hkey). cbn [replyTruthy].
  fold tracker. rewrite (idealCall_GET_payload _ _ _ Htracker).
  cbn [replyTruthy replyPayload]. cbn [truthy] in Ha. rewrite Ha.
  cbn [mret IO_ret ret]. rewrite Ht. cbn [default].
  rewrite releaseLock_ideal, Hheld. rewrite bool_decide_true by reflexivity.
  reflexivity.
Qed.

End AsyncFacts.

(** X19. Concurrent requests for the same uncached query create one job.
    On the reference store, with a queue that hands out a job id without
    touching the store or the clock: when the query has no cached result,
    no job lock and no tracker, [searchPlacesAsync] enqueues a job and
    answers with its id, marks the job pending, announces it under the
    tracker key for 60 seconds, and releases the job lock; and every
    further request for the same query made within those 60 seconds, while
    the store stays as it is, joins the announced job: it answers with that
    job's id without calling the queue, and leaves the store as it found
    it. *)
Theorem searchPlacesAsync_enqueues_once
    (normalizeInput : string -> string)
    (safeParse : string -> string -> bool -> string + (string * string))
    (addSearchJob : SearchActions.SearchJobData -> Runtime.IO string)
    (parseText : string -> Runtime.Outcome Runtime.Payload)
    (rawCity rawKeyword city keyword userId : string)
    (initialPageToken : option string) (deepSearch : bool)
    (w : Runtime.World) :
  let key := SearchActions.cacheKeyOf (normalizeInput city)
               (normalizeInput keyword) initialPageToken in
  let lockKey := "lock:job:" +:+ key in
  let tracker := "active-job:" +:+ key in
  safeParse rawCity rawKeyword deepSearch = inr (city, keyword) ->
  Polling.isFree key w = true ->
  Polling.isFree lockKey w = true ->
  Polling.isFree tracker w = true ->
  (forall (d : SearchActions.SearchJobData) (w0 : Runtime.World),
      exists (id : string) (w0' : Runtime.World),
        addSearchJob d w0 = (Runtime.Return id, w0')
        /\ Runtime.store w0' = Runtime.store w0
        /\ Runtime.clock w0' = Runtime.clock w0) ->
  exists (jobId : string) (w' : Runtime.World),
    let announced := if String.eqb jobId "" then "pending" else jobId in
    @SearchActions.searchPlacesAsync Runtime.idealRedis normalizeInput
      safeParse addSearchJob parseText rawCity rawKeyword userId
      initialPageToken deepSearch w
    = (Runtime.Return (SearchActions.JOB (Runtime.PText jobId) None), w')
    /\ Runtime.clock w' = Runtime.clock w
    /\ Polling.isFree lockKey w' = true
    /\ Polling.payloadOf ("job:" +:+ jobId +:+ ":status") w'
       = Some (Runtime.PText "pending")
    /\ Polling.payloadOf tracker w' = Some (Runtime.PText announced)
    /\ Polling.expiryOf tracker w' = Some (Runtime.clock w + 60000)%Z
    /\ forall (otherQueue : SearchActions.SearchJobData -> Runtime.IO string)
              (caller : string) (w2 : Runtime.World),
         Runtime.store w2 = Runtime.store w' ->
         (Runtime.clock w <= Runtime.clock w2 < Runtime.clock w + 60000)%Z ->
         exists w3 : Runtime.World,
           @SearchActions.searchPlacesAsync Runtime.idealRedis normalizeInput
             safeParse otherQueue parseText rawCity rawKeyword caller
             initialPageToken deepSearch w2
           = (Runtime.Return
                (SearchActions.JOB (Runtime.PText announced)
                   (Some SearchActions.alreadyRunning)),
              w3)
           /\ Runtime.store w3 = Runtime.store w2
           /\ Runtime.clock w3 = Runtime.clock w2.
Proof.
  intros key lockKey tracker Hparse Hkey Hlock Htracker Hqueue.
  assert (Hkl : lockKey <> key).
  { unfold lockKey, key, SearchActions.cacheKeyOf. intros H.
    cbn [String.append] in H. discriminate H. }
  assert (Hkt : tracker <> key).
  { unfold tracker, key, SearchActions.cacheKeyOf. intros H.
    cbn [String.append] in H. discriminate H. }
  assert (Hlt : lockKey <> tracker).
  { unfold tracker, lockKey. intros H. cbn [String.append] in H.
    discriminate H. }
  set (token := "uuid-" +:+ pretty (Runtime.uuidSeed w)).
  set (w1 := Runtime.withStore
               (<[lockKey := {| Runtime.value := Runtime.VStr (Runtime.PText token);
                                Runtime.expireAt := Some (Runtime.clock w + 10000)%Z |}]>
                  (Runtime.store w))
               (Runtime.withUuidSeed (S (Runtime.uuidSeed w)) w)).
  destruct (Hqueue {| SearchActions.job_city := city;
                      SearchActions.job_keyword := keyword;
                      SearchActions.job_userId := userId;
                      SearchActions.job_initialPageToken := initialPageToken;
                      SearchActions.job_deepSearch := deepSearch |} w1)
    as (jobId & w1' & Hadd & Hst1 & Hcl1).
  set (status := "job:" +:+ jobId +:+ ":status").
  set (announced := if String.eqb jobId "" then "pending" else jobId).
  assert (Hks : status <> key).
  { unfold status, key, SearchActions.cacheKeyOf. intros H.
    cbn [String.append] in H. discriminate H. }
  assert (Hls : lockKey <> status).
  { unfold status, lockKey. intros H. cbn [String.append] in H.
    discriminate H. }
  assert (Hts : tracker <> status).
  { unfold status, tracker. intros H. cbn [String.append] in H.
    discriminate H. }
  assert (Hann : Js.truthy (Some announced) = true).
  { unfold announced. cbn [Js.truthy].
    destruct (String.eqb jobId "") eqn:He; [reflexivity|]. rewrite He.
    reflexivity. }
  assert (Hrun :
    @SearchActions.searchPlacesAsync Runtime.idealRedis normalizeInput
      safeParse addSearchJob parseText rawCity rawKeyword userId
      initialPageToken deepSearch w
    = (Runtime.Return (SearchActions.JOB (Runtime.PText jobId) None),
       Runtime.withStore
         (delete lockKey
            (<[tracker := {| Runtime.value := Runtime.VStr (Runtime.PText announced);
                             Runtime.expireAt := Some (Runtime.clock w + 1000 * 60)%Z |}]>
               (<[status := {| Runtime.value := Runtime.VStr (Runtime.PText "pending");
                               Runtime.expireAt := Some (Runtime.clock w + 1000 * 3600)%Z |}]>
                  (Runtime.store w1))))
         w1')).
  { unfold SearchActions.searchPlacesAsync. rewrite Hparse. cbv zeta.
    fold key. fold lockKey. fold tracker.
    unfold mbind at 1, Runtime.IO_bind at 1, Runtime.bind at 1.
    cbn [Runtime.call Runtime.idealRedis].
    rewrite (idealCall_GET_free _ _ Hkey). cbn [Runtime.replyTruthy].
    unfold mbind at 1, Runtime.IO_bind at 1, Runtime.bind at 1.
    rewrite (acquireLock_free lockKey 10000 w ltac:(lia) Hlock).
    fold token. fold w1.
    change (negb (Js.truthy (Some token))) with false. cbv iota.
    apply (enqueueUnderLock_enqueues parseText addSearchJob city keyword
             userId initialPageToken deepSearch (normalizeInput city)
             (normalizeInput keyword) token jobId w1 w1').
    - reflexivity.
    - change (Polling.isFree key w1 = true).
      rewrite (isFree_insert_ne key lockKey _ w w1 Hkl eq_refl eq_refl).
      exact Hkey.
    - change (Polling.isFree tracker w1 = true).
      rewrite (isFree_insert_ne tracker lockKey _ w w1 Hlt eq_refl eq_refl).
      exact Htracker.
    - change (TrafficControl.heldText lockKey w1 = Some token).
      unfold TrafficControl.heldText, w1.
      cbn [Runtime.clock Runtime.store Runtime.withStore Runtime.withUuidSeed].
      rewrite lookupLive_insert_eq. unfold Runtime.live. cbn [Runtime.expireAt].
      destruct (Z.ltb_spec (Runtime.clock w) (Runtime.clock w + 10000));
        [reflexivity | lia].
    - exact Hadd.
    - exact Hst1.
    - exact Hcl1. }
  eexists jobId, _. split; [exact Hrun|].
  fold announced.
  cbn [Runtime.clock Runtime.store Runtime.withStore].
  assert (Hc1 : Runtime.clock w1 = Runtime.clock w) by reflexivity.
  assert (Htr : forall now : Z,
            (Runtime.clock w <= now < Runtime.clock w + 60000)%Z ->
            Runtime.lookupLive now tracker
              (delete lockKey
                 (<[tracker := {| Runtime.value := Runtime.VStr (Runtime.PText announced);
                                  Runtime.expireAt := Some (Runtime.clock w + 1000 * 60)%Z |}]>
                    (<[status := {| Runtime.value := Runtime.VStr (Runtime.PText "pending");
                                    Runtime.expireAt := Some (Runtime.clock w + 1000 * 3600)%Z |}]>
                       (Runtime.store w1))))
            = Some {| Runtime.value := Runtime.VStr (Runtime.PText announced);
                      Runtime.expireAt := Some (Runtime.clock w + 1000 * 60)%Z |}).
  { intros now Hnow. rewrite lookupLive_delete_ne by exact Hlt.
    rewrite lookupLive_insert_eq. unfold Runtime.live. cbn [Runtime.expireAt].
    destruct (Z.ltb_spec now (Runtime.clock w + 1000 * 60));
      [reflexivity | lia]. }
  split; [rewrite Hcl1; reflexivity|]. split; [|split; [|split; [|split]]].
  - unfold Polling.isFree, Runtime.lookupLive.
    cbn [Runtime.store Runtime.withStore]. rewrite lookup_delete_eq.
    reflexivity.
  - unfold Polling.payloadOf.
    cbn [Runtime.clock Runtime.store Runtime.withStore]. rewrite Hcl1, Hc1.
    fold status.
    rewrite lookupLive_delete_ne by exact Hls.
    rewrite lookupLive_insert_ne by exact Hts.
    rewrite lookupLive_insert_eq. unfold Runtime.live. cbn [Runtime.expireAt].
    destruct (Z.ltb_spec (Runtime.clock w) (Runtime.clock w + 1000 * 3600));
      [reflexivity | lia].
  - unfold Polling.payloadOf.
    cbn [Runtime.clock Runtime.store Runtime.withStore]. rewrite Hcl1, Hc1.
    rewrite Htr by lia. reflexivity.
  - unfold Polling.expiryOf.
    cbn [Runtime.clock Runtime.store Runtime.withStore]. rewrite Hcl1, Hc1.
    rewrite Htr by lia. reflexivity.
  - intros otherQueue caller w2 Hst2 Hcl2.
    cbn [Runtime.store Runtime.withStore] in Hst2.
    assert (Hkey2 : Polling.isFree key w2 = true).
    { unfold Polling.isFree. rewrite Hst2.
      rewrite lookupLive_delete_ne by exact Hkl.
      rewrite lookupLive_insert_ne by exact Hkt.
      rewrite lookupLive_insert_ne by exact Hks.
      unfold w1. cbn [Runtime.store Runtime.withStore].
      rewrite lookupLive_insert_ne by exact Hkl.
      rewrite (lookupLive_free_later key w (Runtime.clock w2) Hkey) by lia.
      reflexivity. }
    assert (Hlock2 : Polling.isFree lockKey w2 = true).
    { unfold Polling.isFree, Runtime.lookupLive. rewrite Hst2.
      rewrite lookup_delete_eq. reflexivity. }
    set (token2 := "uuid-" +:+ pretty (Runtime.uuidSeed w2)).
    set (w6 := Runtime.withStore
                 (<[lockKey := {| Runtime.value := Runtime.VStr (Runtime.PText token2);
                                  Runtime.expireAt := Some (Runtime.clock w2 + 10000)%Z |}]>
                    (Runtime.store w2))
                 (Runtime.withUuidSeed (S (Runtime.uuidSeed w2)) w2)).
    exists (Runtime.withStore (delete lockKey (Runtime.store w6)) w6).
    split; [|split].
    + unfold SearchActions.searchPlacesAsync. rewrite Hparse. cbv zeta.
      fold key. fold lockKey. fold tracker.
      unfold mbind at 1, Runtime.IO_bind at 1, Runtime.bind at 1.
      cbn [Runtime.call Runtime.idealRedis].
      rewrite (idealCall_GET_free _ _ Hkey2). cbn [Runtime.replyTruthy].
      unfold mbind at 1, Runtime.IO_bind at 1, Runtime.bind at 1.
      rewrite (acquireLock_free lockKey 10000 w2 ltac:(lia) Hlock2).
      fold token2. fold w6.
      change (negb (Js.truthy (Some token2))) with false. cbv iota.
      apply (enqueueUnderLock_joins parseText otherQueue city keyword caller
               initialPageToken deepSearch (normalizeInput city)
               (normalizeInput keyword) token2 announced w6).
      * reflexivity.
      * exact Hann.
      * change (Polling.isFree key w6 = true).
        rewrite (isFree_insert_ne key lockKey _ w2 w6 Hkl eq_refl eq_refl).
        exact Hkey2.
      * change (Polling.payloadOf tracker w6 = Some (Runtime.PText announced)).
        unfold Polling.payloadOf, w6.
        cbn [Runtime.clock Runtime.store Runtime.withStore Runtime.withUuidSeed].
        rewrite lookupLive_insert_ne by exact Hlt.
        rewrite Hst2, Htr by lia. reflexivity.
      * change (TrafficControl.heldText lockKey w6 = Some token2).
        unfold TrafficControl.heldText, w6.
        cbn [Runtime.clock Runtime.store Runtime.withStore Runtime.withUuidSeed].
        rewrite lookupLive_insert_eq. unfold Runtime.live.
        cbn [Runtime.expireAt].
        destruct (Z.ltb_spec (Runtime.clock w2) (Runtime.clock w2 + 10000));
          [reflexivity | lia].
    + unfold w6. cbn [Runtime.store Runtime.withStore].
      rewrite delete_insert_eq. apply delete_id.
      rewrite Hst2. apply lookup_delete_eq.
    + reflexivity.
Qed.

Lemma searchPlacesAsync_enqueues_once_witness :
  let key := SearchActions.cacheKeyOf "Rome" "gym" None in
  let lockKey := "lock:job:" +:+ key in
  let tracker := "active-job:" +:+ key in
  acceptAll "Rome" "gym" false = inr ("Rome", "gym")
  /\ Polling.isFree key Runtime.emptyWorld = true
  /\ Polling.isFree lockKey Runtime.emptyWorld = true
  /\ Polling.isFree tracker Runtime.emptyWorld = true
  /\ (forall (d : SearchActions.SearchJobData) (w0 : Runtime.World),
         exists (id : string) (w0' : Runtime.World),
           queueStub d w0 = (Runtime.Return id, w0')
           /\ Runtime.store w0' = Runtime.store w0
           /\ Runtime.clock w0' = Runtime.clock w0)
  /\ exists (jobId : string) (w' : Runtime.World),
       let announced := if String.eqb jobId "" then "pending" else jobId in
       @SearchActions.searchPlacesAsync Runtime.idealRedis (fun s => s)
         acceptAll queueStub noJson "Rome" "gym" "user-1" None false
         Runtime.emptyWorld
       = (Runtime.Return (SearchActions.JOB (Runtime.PText jobId) None), w')
       /\ Runtime.clock w' = Runtime.clock Runtime.emptyWorld
       /\ Polling.isFree lockKey w' = true
       /\ Polling.payloadOf ("job:" +:+ jobId +:+ ":status") w'
          = Some (Runtime.PText "pending")
       /\ Polling.payloadOf tracker w' = Some (Runtime.PText announced)
       /\ Polling.expiryOf tracker w'
          = Some (Runtime.clock Runtime.emptyWorld + 60000)%Z
       /\ forall (otherQueue : SearchActions.SearchJobData -> Runtime.IO string)
                 (caller : string) (w2 : Runtime.World),
            Runtime.store w2 = Runtime.store w' ->
            (Runtime.clock Runtime.emptyWorld <= Runtime.clock w2
             < Runtime.clock Runtime.emptyWorld + 60000)%Z ->
            exists w3 : Runtime.World,
              @SearchActions.searchPlacesAsync Runtime.idealRedis (fun s => s)
                acceptAll otherQueue noJson "Rome" "gym" caller None false w2
              = (Runtime.Return
                   (SearchActions.JOB (Runtime.PText announced)
                      (Some SearchActions.alreadyRunning)),
                 w3)
              /\ Runtime.store w3 = Runtime.store w2
              /\ Runtime.clock w3 = Runtime.clock w2.
Proof.
  intros key lockKey tracker.
  assert (Hqueue : forall (d : SearchActions.SearchJobData) (w0 : Runtime.World),
            exists (id : string) (w0' : Runtime.World),
              queueStub d w0 = (Runtime.Return id, w0')
              /\ Runtime.store w0' = Runtime.store w0
              /\ Runtime.clock w0' = Runtime.clock w0).
  { intros d w0. exists "job-7", w0. repeat split. }
  split; [reflexivity|]. split; [reflexivity|]. split; [reflexivity|].
  split; [reflexivity|]. split; [exact Hqueue|].
  exact (searchPlacesAsync_enqueues_once (fun s => s) acceptAll queueStub
           noJson "Rome" "gym" "Rome" "gym" "user-1" None false
           Runtime.emptyWorld eq_refl eq_refl eq_refl eq_refl Hqueue).
Defined.

Section EnrichedPlacesFacts.
Import Js Data Runtime Orchestrator SearchActions.
Local Open Scope Z_scope.

Lemma NoDup_map_filter {A B : Type} (g : A -> B) (f : A -> bool) (l : list A) :
  List.NoDup (List.map g l) -> List.NoDup (List.map g (List.filter f l)).
Proof.
  induction l as [|a l IH]; intros H; [constructor|].
  cbn [List.map] in H. inversion H as [|? ? Ha Hl]; subst.
  cbn [List.filter]. destruct (f a); [|apply IH, Hl].
  cbn [List.map]. constructor; [|apply IH, Hl].
  intros Hin. apply Ha. apply List.in_map_iff in Hin as (x & Hx & Hxin).
  apply List.filter_In in Hxin as [Hxin _].
  rewrite <- Hx. apply List.in_map. exact Hxin.
Qed.

(** The rows of a table that respects its unique constraint, listed under
    their ids. *)
Lemma rows_of_wellKeyed (d : Database) :
  wellKeyed d ->
  List.NoDup (List.map googleId (snd <$> map_to_list (placeRows d)))
  /\ (forall row : DbPlace,
        In row (snd <$> map_to_list (placeRows d)) <->
        placeRows d !! googleId row = Some row).
Proof.
  intros Hwk.
  assert (Hids : List.map googleId (snd <$> map_to_list (placeRows d))
                 = (map_to_list (placeRows d)).*1).
  { change (List.map googleId (snd <$> map_to_list (placeRows d)))
      with (googleId <$> (snd <$> map_to_list (placeRows d))).
    rewrite <- list_fmap_compose. apply list_fmap_ext.
    intros i [k row] Hl. cbn.
    apply list_elem_of_lookup_2 in Hl. apply elem_of_map_to_list in Hl.
    apply (Hwk _ _ Hl). }
  split.
  - rewrite Hids. apply NoDup_ListNoDup, NoDup_fst_map_to_list.
  - intros row. rewrite <- list_elem_of_In, list_elem_of_fmap. split.
    + intros ([k row'] & -> & Hin). cbn [snd].
      apply elem_of_map_to_list in Hin.
      rewrite (Hwk _ _ Hin). exact Hin.
    + intros Hrow. exists (googleId row, row). split; [reflexivity|].
      apply elem_of_map_to_list. exact Hrow.
Qed.

End EnrichedPlacesFacts.

(** X20. [getEnrichedPlaces] is a bounded, read-only lookup.  With a place
    table that respects its unique constraint, the call changes nothing and
    answers for exactly those of the first 200 requested ids that have a
    row, each once: at most 200 answers, no id twice, every answer carrying
    the emails, phones, website and scrape status of the row of its id; ids
    beyond the first 200 and ids without a row are left out. *)
Theorem getEnrichedPlaces_bounded_lookup
    (placeIds : list string) (w : Runtime.World) :
  SearchActions.wellKeyed (Runtime.db w) ->
  exists out : list SearchActions.EnrichedFields,
    SearchActions.getEnrichedPlaces placeIds w = (Runtime.Return out, w)
    /\ (length out <= 200)%nat
    /\ List.NoDup (List.map SearchActions.ef_place_id out)
    /\ (forall id : string,
          In id (List.map SearchActions.ef_place_id out) <->
          In id (Js.slice placeIds 0 200)
          /\ is_Some (Runtime.placeRows (Runtime.db w) !! id))
    /\ Forall
         (fun e =>
            exists row : Runtime.DbPlace,
              Runtime.placeRows (Runtime.db w) !! SearchActions.ef_place_id e
              = Some row
              /\ SearchActions.ef_emails e = Runtime.db_emails row
              /\ SearchActions.ef_phones e = Runtime.db_phones row
              /\ SearchActions.ef_website e = Runtime.db_website row
              /\ SearchActions.ef_scrapeStatus e = Runtime.scrapeStatus row)
         out.
Proof.
  intros Hwk. unfold SearchActions.getEnrichedPlaces.
  case_bool_decide as Hlen.
  - destruct placeIds; [|discriminate Hlen].
    exists []. split; [reflexivity|]. split; [cbn; lia|].
    split; [constructor|]. split; [|constructor].
    intros id. rewrite slice_nil. cbn. tauto.
  - cbv zeta. unfold mbind, Runtime.IO_bind, Runtime.bind,
      SearchActions.findManyByGoogleId. cbn [mret Runtime.IO_ret Runtime.ret].
    set (limitedIds := Js.slice placeIds 0 200).
    set (rows := List.filter
                   (fun row => bool_decide (Runtime.googleId row ∈ limitedIds))
                   (snd <$> map_to_list (Runtime.placeRows (Runtime.db w)))).
    destruct (rows_of_wellKeyed (Runtime.db w) Hwk) as [Hnd Hrows].
    assert (Hin : forall row, In row rows <->
              Runtime.placeRows (Runtime.db w) !! Runtime.googleId row = Some row
              /\ In (Runtime.googleId row) limitedIds).
    { intros row. unfold rows. rewrite List.filter_In, Hrows.
      rewrite bool_decide_eq_true, list_elem_of_In. reflexivity. }
    assert (Hmap : List.map SearchActions.ef_place_id
                     (List.map
                        (fun p =>
                           {| SearchActions.ef_place_id := Runtime.googleId p;
                              SearchActions.ef_emails := Runtime.db_emails p;
                              SearchActions.ef_emailScores :=
                                default "{}" (Runtime.db_emailScores p);
                              SearchActions.ef_phones := Runtime.db_phones p;
                              SearchActions.ef_socials :=
                                default "{}" (Runtime.db_socials p);
                              SearchActions.ef_website := Runtime.db_website p;
                              SearchActions.ef_scrapeStatus :=
                                Runtime.scrapeStatus p |}) rows)
                   = List.map Runtime.googleId rows).
    { rewrite List.map_map. reflexivity. }
    assert (Hnd' : List.NoDup (List.map Runtime.googleId rows)).
    { unfold rows. apply NoDup_map_filter. exact Hnd. }
    eexists. split; [reflexivity|]. rewrite Hmap.
    split; [|split; [exact Hnd'|split]].
    + rewrite List.length_map, <- (List.length_map Runtime.googleId rows).
      apply Nat.le_trans with (m := length limitedIds).
      * apply List.NoDup_incl_length; [exact Hnd'|].
        intros id Hid. apply List.in_map_iff in Hid as (row & <- & Hr).
        apply Hin in Hr as [_ Hr]. exact Hr.
      * unfold limitedIds. rewrite slice_prefix_length by lia. lia.
    + intros id. split.
      * intros Hid. apply List.in_map_iff in Hid as (row & <- & Hr).
        apply Hin in Hr as [Hrow Hl]. split; [exact Hl | eauto].
      * intros [Hl [row Hrow]].
        assert (Hg : Runtime.googleId row = id) by (apply (Hwk _ _ Hrow)).
        apply List.in_map_iff. exists row. split; [exact Hg|].
        apply Hin. rewrite Hg. split; assumption.
    + apply List.Forall_forall. intros e He.
      apply List.in_map_iff in He as (row & <- & Hr).
      apply Hin in Hr as [Hrow _]. exists row.
      cbn. repeat split. exact Hrow.
Qed.

Lemma getEnrichedPlaces_bounded_lookup_witness :
  let placeIds := ["place-3"; "not-saved"; "place-3"; "place-7"] in
  SearchActions.wellKeyed (Runtime.db savedTwenty)
  /\ exists out : list SearchActions.EnrichedFields,
       SearchActions.getEnrichedPlaces placeIds savedTwenty
       = (Runtime.Return out, savedTwenty)
       /\ (length out <= 200)%nat
       /\ List.NoDup (List.map SearchActions.ef_place_id out)
       /\ (forall id : string,
             In id (List.map SearchActions.ef_place_id out) <->
             In id (Js.slice placeIds 0 200)
             /\ is_Some (Runtime.placeRows (Runtime.db savedTwenty) !! id))
       /\ Forall
            (fun e =>
               exists row : Runtime.DbPlace,
                 Runtime.placeRows (Runtime.db savedTwenty)
                   !! SearchActions.ef_place_id e
                 = Some row
                 /\ SearchActions.ef_emails e = Runtime.db_emails row
                 /\ SearchActions.ef_phones e = Runtime.db_phones row
                 /\ SearchActions.ef_website e = Runtime.db_website row
                 /\ SearchActions.ef_scrapeStatus e = Runtime.scrapeStatus row)
            out.
Proof.
  intros placeIds.
  assert (Hwk : SearchActions.wellKeyed (Runtime.db savedTwenty)).
  { change (map_Forall (fun k row => Runtime.googleId row = k)
              (Runtime.placeRows (Runtime.db savedTwenty))).
    apply (bool_decide_unpack _). vm_compute. reflexivity. }
  split; [exact Hwk|].
  exact (getEnrichedPlaces_bounded_lookup placeIds savedTwenty Hwk).
Defined.

Section BillingInvariantFacts.
Import Js Data Runtime Orchestrator.
Local Open Scope Z_scope.

(** The billing transaction of a new search, case by case. *)
Lemma billingTransaction_cases
    (userId nc nk city keyword : string) (deep paid : bool) (cost : Z)
    (limited : list Place) (w : World) :
  let res := billingTransaction userId nc nk city keyword deep paid cost
               limited w in
  store (snd res) = store w /\ clock (snd res) = clock w
  /\ published (snd res) = published w
  /\ match users (db w) !! userId with
     | Some u =>
         if cost <=? credits u
         then fst res = Return tt
              /\ users (db (snd res))
                 = <[userId := {| credits := credits u - cost;
                                  subscriptionTier := subscriptionTier u;
                                  email := email u |}]> (users (db w))
              /\ placeRows (db (snd res)) = placeRows (db w)
              /\ exists entry : CreditTransaction,
                   creditTransactions (db (snd res))
                   = creditTransactions (db w) ++ [entry]
                   /\ ct_userId entry = userId
                   /\ ct_amount entry = - cost
         else res = (Throw (mkError "Yetersiz bakiye."), w)
     | None => res = (Throw (mkError "Yetersiz bakiye."), w)
     end.
Proof.
  intros res. subst res.
  unfold billingTransaction, transaction, mbind, IO_bind, bind,
    updateManyCredits.
  destruct (users (db w) !! userId) as [u|] eqn:Hu.
  - destruct (Z.leb_spec cost (credits u)) as [Hle|Hgt].
    + cbn [Z.eqb throw mret IO_ret ret createCreditTransaction].
      destruct paid; cbn [negb createSearchHistory mret IO_ret ret fst snd];
        cbn [db withDb users withUsers creditTransactions
             withCreditTransactions searchHistory withSearchHistory store clock
             published placeRows];
        (split; [reflexivity|]; split; [reflexivity|]; split; [reflexivity|];
         split; [reflexivity|]; split; [reflexivity|]; split; [reflexivity|];
         eexists; split; [reflexivity|]; split; reflexivity).
    + cbn [Z.eqb throw fst snd].
      split; [reflexivity|]. split; [reflexivity|]. split; [reflexivity|].
      destruct w; reflexivity.
  - cbn [Z.eqb throw fst snd].
    split; [reflexivity|]. split; [reflexivity|]. split; [reflexivity|].
    destruct w; reflexivity.
Qed.

End BillingInvariantFacts.

(** X21. The billing transaction of a new search keeps every balance
    non-negative and the ledger in step with the balances.  It commits
    exactly when the user exists and holds at least the cost; then that
    user's balance goes down by the cost, one ledger entry of minus the
    cost is appended for that user, and no other balance changes.
    Otherwise it throws and the whole world is as it was.  In both cases
    balances that were non-negative stay non-negative. *)
Theorem billingTransaction_keeps_balances_solvent
    (userId nc nk city keyword : string) (deep paid : bool) (cost : Z)
    (limited : list Data.Place) (w : Runtime.World) :
  let res := Orchestrator.billingTransaction userId nc nk city keyword deep
               paid cost limited w in
  map_Forall (fun _ u => (0 <= Runtime.credits u)%Z)
    (Runtime.users (Runtime.db w)) ->
  map_Forall (fun _ u => (0 <= Runtime.credits u)%Z)
    (Runtime.users (Runtime.db (snd res)))
  /\ ((exists u, Runtime.users (Runtime.db w) !! userId = Some u
                 /\ (cost <= Runtime.credits u)%Z)
      -> fst res = Runtime.Return tt
         /\ (Runtime.credits <$> Runtime.users (Runtime.db (snd res)) !! userId)
            = ((fun u => Runtime.credits u - cost)%Z
                 <$> Runtime.users (Runtime.db w) !! userId)
         /\ (forall other : string,
               other <> userId ->
               Runtime.users (Runtime.db (snd res)) !! other
               = Runtime.users (Runtime.db w) !! other)
         /\ exists entry : Runtime.CreditTransaction,
              Runtime.creditTransactions (Runtime.db (snd res))
              = Runtime.creditTransactions (Runtime.db w) ++ [entry]
              /\ Runtime.ct_userId entry = userId
              /\ Runtime.ct_amount entry = (- cost)%Z)
  /\ (~ (exists u, Runtime.users (Runtime.db w) !! userId = Some u
                   /\ (cost <= Runtime.credits u)%Z)
      -> res = (Runtime.Throw (Js.mkError "Yetersiz bakiye."), w)).
Proof.
  intros res Hsolvent.
  destruct (billingTransaction_cases userId nc nk city keyword deep paid cost
              limited w) as (_ & _ & _ & Hcases).
  fold res in Hcases.
  destruct (Runtime.users (Runtime.db w) !! userId) as [u|] eqn:Hu.
  - destruct (Z.leb_spec cost (Runtime.credits u)) as [Hle|Hgt].
    + destruct Hcases as (Hret & Husers & _ & Hledger).
      split; [|split].
      * rewrite Husers. apply map_Forall_insert_2; [cbn; lia | exact Hsolvent].
      * intros _. split; [exact Hret|]. split; [|split; [|exact Hledger]].
        -- rewrite Husers, lookup_insert_eq. reflexivity.
        -- intros other Hother. rewrite Husers.
           apply lookup_insert_ne. congruence.
      * intros Hno. exfalso. apply Hno. exists u. split; [reflexivity | exact Hle].
    + rewrite Hcases. cbn [fst snd]. split; [exact Hsolvent|]. split.
      * intros (u' & [= <-] & Hle). lia.
      * intros _. reflexivity.
  - rewrite Hcases. cbn [fst snd]. split; [exact Hsolvent|]. split.
    + intros (u' & Hu' & _). discriminate Hu'.
    + intros _. reflexivity.
Qed.

Lemma billingTransaction_keeps_balances_solvent_witness :
  let res := Orchestrator.billingTransaction "user-1" "rome" "gym" "Rome" "gym"
               false false 1 twentyPlaces oneCredit in
  map_Forall (fun _ u => (0 <= Runtime.credits u)%Z)
    (Runtime.users (Runtime.db oneCredit))
  /\ (exists u, Runtime.users (Runtime.db oneCredit) !! "user-1" = Some u
                /\ (1 <= Runtime.credits u)%Z)
  /\ fst res = Runtime.Return tt
  /\ (Runtime.credits <$> Runtime.users (Runtime.db (snd res)) !! "user-1")
     = Some 0%Z
  /\ map_Forall (fun _ u => (0 <= Runtime.credits u)%Z)
       (Runtime.users (Runtime.db (snd res))).
Proof.
  intros res.
  assert (Hsolvent : map_Forall (fun _ u => (0 <= Runtime.credits u)%Z)
                       (Runtime.users (Runtime.db oneCredit))).
  { apply (bool_decide_unpack _). vm_compute. reflexivity. }
  assert (Hcovers : exists u,
            Runtime.users (Runtime.db oneCredit) !! "user-1" = Some u
            /\ (1 <= Runtime.credits u)%Z).
  { eexists. split; [reflexivity | cbn; lia]. }
  destruct (billingTransaction_keeps_balances_solvent "user-1" "rome" "gym"
              "Rome" "gym" false false 1 twentyPlaces oneCredit Hsolvent)
    as (Hafter & Hcommit & _).
  destruct (Hcommit Hcovers) as (Hret & Hbalance & _).
  split; [exact Hsolvent|]. split; [exact Hcovers|]. split; [exact Hret|].
  split; [exact Hbalance | exact Hafter].
Defined.

Section DeepInitiationFacts.
Import Js Data Runtime Gateway Orchestrator SearchActions Invariants Polling.
Local Open Scope Z_scope.

Lemma string_length_app (s t : string) :
  String.length (s +:+ t) = (String.length s + String.length t)%nat.
Proof.
  induction s as [|a s IH]; [reflexivity|].
  change (String.length (String a s +:+ t)) with (S (String.length (s +:+ t))).
  rewrite IH. reflexivity.
Qed.

(** The three cache keys of a query are different keys. *)
Lemma cache_keys_differ (nc nk : string) (tok : option string) :
  truthy tok = false ->
  let listKey := "search:list:" +:+ nc +:+ ":" +:+ nk in
  let dataKey := "search:list:data:" +:+ nc +:+ ":" +:+ nk in
  let cacheKey := cacheKeyOf nc nk tok in
  listKey <> dataKey /\ cacheKey <> dataKey /\ cacheKey <> listKey.
Proof.
  intros Htok listKey dataKey cacheKey.
  unfold listKey, dataKey, cacheKey, cacheKeyOf. rewrite Htok.
  repeat split; intros H; apply (f_equal String.length) in H;
    rewrite !string_length_app in H; cbn [String.length] in H; lia.
Qed.

(** Saving a batch leaves the store and the clock alone, whatever the place
    table holds. *)
Lemma persistAndPublish_frame
    (userId job : string) (placesToSave : list Place) (w : World) :
  exists (out : list Place) (w' : World),
    @persistAndPublish idealRedis userId job placesToSave w = (Return out, w')
    /\ savesPlacesOnly w w'.
Proof.
  unfold persistAndPublish. case_bool_decide as Hempty.
  - exists [], w. split; [reflexivity | apply savesPlacesOnly_refl].
  - unfold mbind, IO_bind, bind.
    destruct (promiseAll_persist userId job placesToSave w)
      as (outs & w1 & Hrun & Hs & _).
    rewrite Hrun.
    destruct (negb (String.eqb job "") && (0 <? length outs)%nat).
    + cbn [call idealRedis]. unfold idealCall. cbn [runCmd].
      rewrite withStore_same. cbn [mret IO_ret ret].
      eexists. eexists. split; [reflexivity|].
      eapply savesPlacesOnly_trans; [exact Hs|].
      unfold savesPlacesOnly, sameProvider. cbn.
      repeat (split; [first [reflexivity | repeat split; reflexivity]|]).
      split; [auto|]. split; [|split; auto].
      intros k row H. exists row. split; [exact H | apply keepsEnrichment_refl].
    + cbn [mret IO_ret ret]. exists outs, w1. split; [reflexivity | exact Hs].
Qed.

Variable config : Config.
Variable gateway : PlacesGateway.
Variable normalizeInput : string -> string.

(** What a deep-search initiation leaves in the store. *)
Lemma deepInitiation_caches
    (userId job city keyword listKey dataKey : string)
    (remainingCredits gridSize maxPagesPerGrid : Z) (w w' : World)
    (limited enriched : list Place) (next : option string) :
  listKey <> dataKey ->
  @deepInitiation idealRedis config gateway userId job city keyword listKey
    dataKey remainingCredits gridSize maxPagesPerGrid w
  = (Return (limited, enriched, next), w') ->
  exists allPlaces : list Place,
    store w' !! listKey
    = Some {| value := VStr (PIds (List.map place_id allPlaces));
              expireAt := Some (clock w' + 1000 * LONG_TERM_TTL) |}
    /\ store w' !! dataKey
       = Some {| value := VStr (PDeepList (List.map slimPlace allPlaces)
                                  (DEEP_PAGE_SIZE config));
                 expireAt := Some (clock w' + 1000 * LONG_TERM_TTL) |}
    /\ limited = slice allPlaces 0 (DEEP_PAGE_SIZE config)
    /\ next = (if DEEP_PAGE_SIZE config <? Z.of_nat (length allPlaces)
               then Some ("deep:" +:+ pretty (DEEP_PAGE_SIZE config))
               else None).
Proof.
  intros Hne H. unfold deepInitiation in H.
  apply bind_returns in H as (cityResult & w1 & _ & H).
  apply bind_returns in H as ([all0 enr0] & wa & _ & H).
  cbv zeta in H.
  apply bind_returns in H as (? & wb & Hs1 & H).
  apply bind_returns in H as (? & wc & Hs2 & H).
  apply bind_returns in H as (enr & wd & Hp & H).
  injection H as <- _ <- <-.
  cbn [call idealRedis] in Hs1, Hs2.
  rewrite idealCall_SET in Hs1 by (unfold LONG_TERM_TTL; lia).
  injection Hs1 as _ <-.
  rewrite idealCall_SET in Hs2 by (unfold LONG_TERM_TTL; lia).
  injection Hs2 as _ <-.
  match type of Hp with _ ?W = _ => set (wc := W) in Hp end.
  assert (Hframe : store wd = store wc /\ clock wd = clock wc).
  { destruct (bool_decide (length enr0 = 0%nat)).
    - match type of Hp with
      | persistAndPublish _ _ ?ps _ = _ =>
          destruct (persistAndPublish_frame userId job ps wc)
            as (out & wd' & Hrun & Hsv)
      end.
      rewrite Hrun in Hp. injection Hp as _ <-.
      destruct Hsv as (Hst & Hcl & _). split; [exact Hst | exact Hcl].
    - injection Hp as _ <-. split; reflexivity. }
  destruct Hframe as [Hst Hcl]. unfold wc in Hst, Hcl.
  cbn [store clock withStore] in Hst, Hcl.
  eexists. rewrite Hst, Hcl.
  split; [|split; [|split; reflexivity]].
  - rewrite lookup_insert_ne by congruence. apply lookup_insert_eq.
  - apply lookup_insert_eq.
Qed.

End DeepInitiationFacts.

Section DeepProtocolFacts.
Import Js Data Runtime Gateway Orchestrator SearchActions Invariants Polling.
Local Open Scope Z_scope.

Variable config : Config.
Variable gateway : PlacesGateway.
Variable normalizeInput : string -> string.

Lemma slice_map {A B : Type} (f : A -> B) (l : list A) (a b : Z) :
  slice (List.map f l) a b = List.map f (slice l a b).
Proof.
  unfold slice. rewrite List.length_map.
  rewrite <- List.firstn_map, <- List.skipn_map. reflexivity.
Qed.

Lemma executeSearchCore_deep_init_caches
    (city keyword userId : string) (initialPageToken jobId : option string)
    (w w' : World) (r : SearchResult) :
  let listKey := "search:list:" +:+ normalizeInput city +:+ ":"
                 +:+ normalizeInput keyword in
  let dataKey := "search:list:data:" +:+ normalizeInput city +:+ ":"
                 +:+ normalizeInput keyword in
  truthy initialPageToken = false ->
  @executeSearchCore idealRedis config gateway normalizeInput city keyword
    userId initialPageToken true jobId w
  = (Return r, w') ->
  exists allPlaces : list Place,
    payloadOf listKey w' = Some (PIds (List.map place_id allPlaces))
    /\ payloadOf dataKey w'
       = Some (PDeepList (List.map slimPlace allPlaces) (DEEP_PAGE_SIZE config))
    /\ res_nextPageToken r
       = (if DEEP_PAGE_SIZE config <? Z.of_nat (length allPlaces)
          then Some ("deep:" +:+ pretty (DEEP_PAGE_SIZE config)) else None).
Proof.
  intros listKey dataKey Htok H.
  destruct (cache_keys_differ (normalizeInput city) (normalizeInput keyword)
              initialPageToken Htok) as (Hld & Hcd & Hcl).
  fold listKey in Hld, Hcl. fold dataKey in Hld, Hcd.
  unfold executeSearchCore in H.
  apply bind_returns in H as (job & wj & _ & H).
  apply bind_returns in H as (user & w0 & _ & H).
  cbv zeta in H.
  rewrite (truthy_false_not_deep _ Htok) in H.
  destruct (credits user <? requiredCreditsOf initialPageToken true);
    [discriminate H|].
  assert (Hneg : negb (truthy initialPageToken) = true)
    by (rewrite Htok; reflexivity).
  rewrite Hneg in H.
  apply bind_returns in H as ([[limited enr] next] & w2 & Hdi & H).
  apply bind_returns in H as (? & w3 & Hb & H).
  apply bind_returns in H as (reply & w4 & Hset & H).
  apply bind_returns in H as (? & w5 & Hup & H).
  injection H as <- <-.
  fold listKey in Hdi. fold dataKey in Hdi.
  apply (deepInitiation_caches config gateway) in Hdi
    as (allPlaces & Hlist & Hdata & _ & Hnext); [|exact Hld].
  pose proof (billingTransaction_cases userId (normalizeInput city)
                (normalizeInput keyword) city keyword true
                (isPaidPaginationOf initialPageToken true)
                (requiredCreditsOf initialPageToken true) limited w2)
    as (Hst3 & Hcl3 & _).
  rewrite Hb in Hst3, Hcl3. cbn [snd] in Hst3, Hcl3.
  cbn [call idealRedis] in Hset.
  rewrite idealCall_SET in Hset by (unfold LONG_TERM_TTL; lia).
  injection Hset as _ <-.
  unfold upsertSearchCache in Hup. injection Hup as _ <-.
  exists allPlaces. unfold payloadOf.
  cbn [store clock db withDb withStore res_nextPageToken].
  fold (cacheKeyOf (normalizeInput city) (normalizeInput keyword)
          initialPageToken).
  rewrite !lookupLive_insert_ne by assumption.
  unfold lookupLive. rewrite Hst3, Hcl3, Hlist, Hdata.
  unfold live. cbn [expireAt].
  destruct (Z.ltb_spec (clock w2) (clock w2 + 1000 * LONG_TERM_TTL)) as [_|Hge];
    [|unfold LONG_TERM_TTL in Hge; lia].
  split; [reflexivity|]. split; [reflexivity | exact Hnext].
Qed.

End DeepProtocolFacts.

(** X22. The pages of a deep search follow on from one another.  On the
    reference store, a new deep search that returns has cached the ids of
    its (capped) result list and the slim copy of that list, and it hands
    out the token [deep:<DEEP_PAGE_SIZE>] exactly when the list is longer
    than a page; presenting that token, a user who still holds a credit is
    served the places of the list from index [DEEP_PAGE_SIZE] up to twice
    that, under their ids and in their order, with the token of the page
    after that when there is one. *)
Theorem deep_search_pages_follow_on
    (config : Orchestrator.Config) (gateway : Orchestrator.PlacesGateway)
    (normalizeInput : string -> string)
    (city keyword userId : string) (initialPageToken jobId : option string)
    (w w' : Runtime.World) (r : Data.SearchResult) :
  let listKey := "search:list:" +:+ normalizeInput city +:+ ":"
                 +:+ normalizeInput keyword in
  let dataKey := "search:list:data:" +:+ normalizeInput city +:+ ":"
                 +:+ normalizeInput keyword in
  let D := Orchestrator.DEEP_PAGE_SIZE config in
  Js.truthy initialPageToken = false ->
  @Orchestrator.executeSearchCore Runtime.idealRedis config gateway
    normalizeInput city keyword userId initialPageToken true jobId w
  = (Runtime.Return r, w') ->
  exists allPlaces : list Data.Place,
    Polling.payloadOf listKey w'
    = Some (Runtime.PIds (List.map Data.place_id allPlaces))
    /\ Polling.payloadOf dataKey w'
       = Some (Runtime.PDeepList
                 (List.map Orchestrator.slimPlace allPlaces) D)
    /\ Data.res_nextPageToken r
       = (if (D <? Z.of_nat (length allPlaces))%Z
          then Some ("deep:" +:+ pretty D) else None)
    /\ forall (u : Runtime.User) (jobId2 : option string) (deep2 : bool),
         Runtime.users (Runtime.db w') !! userId = Some u ->
         (1 <= Runtime.credits u)%Z ->
         SearchActions.wellKeyed (Runtime.db w') ->
         (D < Z.of_nat (length allPlaces))%Z ->
         exists (r2 : Data.SearchResult) (w2 : Runtime.World),
           @Orchestrator.executeSearchCore Runtime.idealRedis config gateway
             normalizeInput city keyword userId (Data.res_nextPageToken r)
             deep2 jobId2 w'
           = (Runtime.Return r2, w2)
           /\ List.map Data.place_id (Data.res_places r2)
              = List.map Data.place_id (Js.slice allPlaces D (D + D))
           /\ Data.res_nextPageToken r2
              = (if (D + D <? Z.of_nat (length allPlaces))%Z
                 then Some ("deep:" +:+ pretty (D + D)%Z) else None).
Proof.
  intros listKey dataKey D Htok H.
  destruct (executeSearchCore_deep_init_caches config gateway normalizeInput
              city keyword userId initialPageToken jobId w w' r Htok H)
    as (allPlaces & Hlist & Hdata & Hnext).
  fold listKey in Hlist. fold dataKey in Hdata. fold D in Hdata, Hnext.
  exists allPlaces. split; [exact Hlist|]. split; [exact Hdata|].
  split; [exact Hnext|].
  intros u jobId2 deep2 Hu Hcredits Hwk Hmore.
  rewrite Hnext.
  destruct (Z.ltb_spec D (Z.of_nat (length allPlaces))) as [_|?]; [|lia].
  assert (HD : (0 <= D)%Z) by (unfold D, Orchestrator.DEEP_PAGE_SIZE; lia).
  destruct (executeSearchCore_deep_page config gateway normalizeInput city
              keyword userId deep2 jobId2 D D
              (List.map Orchestrator.slimPlace allPlaces) u w'
              HD Hu Hcredits Hdata)
    as (r2 & w2 & Hrun & Hids & _ & Htok2 & _).
  { unfold Polling.readable. unfold Polling.payloadOf in Hlist.
    fold listKey.
    destruct (Runtime.lookupLive (Runtime.clock w') listKey (Runtime.store w'))
      as [[[p|n|l] t]|]; try reflexivity. discriminate Hlist. }
  { exact Hwk. }
  exists r2, w2. split; [exact Hrun|]. split.
  - rewrite Hids. fold D. rewrite slice_map, List.map_map. reflexivity.
  - rewrite Htok2. fold D. rewrite List.length_map. reflexivity.
Qed.

Lemma deep_search_pages_follow_on_witness :
  Js.truthy None = false
  /\ exists (r : Data.SearchResult) (w' : Runtime.World),
       deepFallbackRun = (Runtime.Return r, w')
       /\ exists allPlaces : list Data.Place,
            Polling.payloadOf "search:list:Rome:gym" w'
            = Some (Runtime.PIds (List.map Data.place_id allPlaces))
            /\ Polling.payloadOf "search:list:data:Rome:gym" w'
               = Some (Runtime.PDeepList
                         (List.map Orchestrator.slimPlace allPlaces)
                         (Orchestrator.DEEP_PAGE_SIZE tenPerPage))
            /\ Data.res_nextPageToken r
               = (if (Orchestrator.DEEP_PAGE_SIZE tenPerPage
                      <? Z.of_nat (length allPlaces))%Z
                  then Some ("deep:"
                             +:+ pretty (Orchestrator.DEEP_PAGE_SIZE tenPerPage))
                  else None)
            /\ forall (u : Runtime.User) (jobId2 : option string) (deep2 : bool),
                 Runtime.users (Runtime.db w') !! "user-1" = Some u ->
                 (1 <= Runtime.credits u)%Z ->
                 SearchActions.wellKeyed (Runtime.db w') ->
                 (Orchestrator.DEEP_PAGE_SIZE tenPerPage
                  < Z.of_nat (length allPlaces))%Z ->
                 exists (r2 : Data.SearchResult) (w2 : Runtime.World),
                   @Orchestrator.executeSearchCore Runtime.idealRedis
                     tenPerPage noViewportGateway (fun s => s) "Rome" "gym"
                     "user-1" (Data.res_nextPageToken r) deep2 jobId2 w'
                   = (Runtime.Return r2, w2)
                   /\ List.map Data.place_id (Data.res_places r2)
                      = List.map Data.place_id
                          (Js.slice allPlaces
                             (Orchestrator.DEEP_PAGE_SIZE tenPerPage)
                             (Orchestrator.DEEP_PAGE_SIZE tenPerPage
                              + Orchestrator.DEEP_PAGE_SIZE tenPerPage))
                   /\ Data.res_nextPageToken r2
                      = (if (Orchestrator.DEEP_PAGE_SIZE tenPerPage
                             + Orchestrator.DEEP_PAGE_SIZE tenPerPage
                             <? Z.of_nat (length allPlaces))%Z
                         then Some ("deep:"
                                    +:+ pretty
                                          (Orchestrator.DEEP_PAGE_SIZE tenPerPage
                                           + Orchestrator.DEEP_PAGE_SIZE tenPerPage)%Z)
                         else None).
Proof.
  split; [reflexivity|].
  destruct deepFallbackRun as [[r|e] w'] eqn:E.
  - exists r, w'. split; [reflexivity|].
    exact (deep_search_pages_follow_on tenPerPage noViewportGateway
             (fun s => s) "Rome" "gym" "user-1" None (Some "job-1")
             Runtime.emptyWorld w' r eq_refl E).
  - vm_compute in E. discriminate E.
Defined.

Section AsyncBusyFacts.
Import Js Data Runtime TrafficControl Gateway Orchestrator SearchActions Polling.
Local Open Scope Z_scope.

(** Polling for a tracker that never appears: [tries] sleeps of 300 ms. *)
Lemma pollActiveJob_nothing (tracker : string) (tries : nat) :
  forall w : World,
    isFree tracker w = true ->
    exists w' : World,
      @pollActiveJob idealRedis tries tracker w = (Return None, w')
      /\ store w' = store w
      /\ clock w' = clock w + 300 * Z.of_nat tries
      /\ db w' = db w
      /\ uuidSeed w' = uuidSeed w
      /\ enrichmentQueue w' = enrichmentQueue w.
Proof.
  induction tries as [|tries IH]; intros w Hfree.
  - exists w. cbn. repeat split. lia.
  - cbn [pollActiveJob]. unfold mbind, IO_bind, bind. unfold sleep at 1.
    set (w1 := withEvents _ _).
    assert (Hfree1 : isFree tracker w1 = true).
    { apply (isFree_later tracker w w1); [reflexivity | cbn; lia | exact Hfree]. }
    cbn [call idealRedis]. rewrite (idealCall_GET_free _ _ Hfree1).
    cbn [replyTruthy].
    destruct (IH w1 Hfree1) as (w' & Hrun & Hst & Hcl & Hdb & Hu & Hq).
    exists w'. split; [exact Hrun|].
    split; [rewrite Hst; reflexivity|].
    split; [rewrite Hcl; unfold w1; cbn [clock withEvents withClock]; lia|].
    split; [rewrite Hdb; reflexivity|].
    split; [rewrite Hu; reflexivity | rewrite Hq; reflexivity].
Qed.

End AsyncBusyFacts.

(** X23. A request that finds the job lock taken waits a bounded time and
    then gives up, without enqueuing anything.  On the reference store,
    when the query has no cached result, the job lock is held for at least
    the next 1.5 seconds and no tracker appears, [searchPlacesAsync] polls
    the tracker five times, 300 ms apart, tries the lock once more and
    throws the system-busy error; the queue is not called (the outcome is
    the same for every queue), and the store and the database are as they
    were. *)
Theorem searchPlacesAsync_gives_up_when_busy
    (normalizeInput : string -> string)
    (safeParse : string -> string -> bool -> string + (string * string))
    (parseText : string -> Runtime.Outcome Runtime.Payload)
    (rawCity rawKeyword city keyword userId : string)
    (initialPageToken : option string) (deepSearch : bool)
    (holder : Runtime.Entry) (w : Runtime.World) :
  let key := SearchActions.cacheKeyOf (normalizeInput city)
               (normalizeInput keyword) initialPageToken in
  let lockKey := "lock:job:" +:+ key in
  let tracker := "active-job:" +:+ key in
  safeParse rawCity rawKeyword deepSearch = inr (city, keyword) ->
  Polling.isFree key w = true ->
  Polling.isFree tracker w = true ->
  Runtime.lookupLive (Runtime.clock w + 1500) lockKey (Runtime.store w)
  = Some holder ->
  exists w' : Runtime.World,
    (forall addSearchJob : SearchActions.SearchJobData -> Runtime.IO string,
        @SearchActions.searchPlacesAsync Runtime.idealRedis normalizeInput
          safeParse addSearchJob parseText rawCity rawKeyword userId
          initialPageToken deepSearch w
        = (Runtime.Throw SearchActions.systemBusy, w'))
    /\ Runtime.store w' = Runtime.store w
    /\ Runtime.clock w' = (Runtime.clock w + 1500)%Z
    /\ Runtime.db w' = Runtime.db w
    /\ Runtime.enrichmentQueue w' = Runtime.enrichmentQueue w.
Proof.
  intros key lockKey tracker Hparse Hkey Htracker Hheld.
  assert (Hheld0 : forall w0 : Runtime.World,
            Runtime.store w0 = Runtime.store w ->
            (Runtime.clock w0 <= Runtime.clock w + 1500)%Z ->
            Polling.isFree lockKey w0 = false).
  { intros w0 Hst Hcl. unfold Polling.isFree, Runtime.lookupLive in *.
    rewrite Hst.
    destruct (Runtime.store w !! lockKey) as [e|]; [|discriminate Hheld].
    destruct (Runtime.live (Runtime.clock w + 1500) e) eqn:He;
      [|discriminate Hheld].
    rewrite (live_later _ _ e Hcl He). reflexivity. }
  set (w1 := Runtime.withUuidSeed (S (Runtime.uuidSeed w)) w).
  destruct (pollActiveJob_nothing tracker 5 w1)
    as (w2 & Hpoll & Hst2 & Hcl2 & Hdb2 & Hu2 & Hq2).
  { apply (isFree_later tracker w w1); [reflexivity | cbn; lia | exact Htracker]. }
  exists (Runtime.withUuidSeed (S (Runtime.uuidSeed w2)) w2).
  split; [|split; [|split; [|split]]].
  - intros addSearchJob.
    unfold SearchActions.searchPlacesAsync. rewrite Hparse. cbv zeta.
    fold key. fold lockKey. fold tracker.
    unfold mbind at 1, Runtime.IO_bind at 1, Runtime.bind at 1.
    cbn [Runtime.call Runtime.idealRedis].
    rewrite (idealCall_GET_free _ _ Hkey). cbn [Runtime.replyTruthy].
    unfold mbind at 1, Runtime.IO_bind at 1, Runtime.bind at 1.
    rewrite (acquireLock_held lockKey 10000 w ltac:(lia)
               (Hheld0 w eq_refl ltac:(lia))).
    fold w1. cbn [Js.truthy negb].
    unfold mbind at 1, Runtime.IO_bind at 1, Runtime.bind at 1.
    rewrite Hpoll.
    unfold mbind at 1, Runtime.IO_bind at 1, Runtime.bind at 1.
    rewrite (acquireLock_held lockKey 10000 w2 ltac:(lia)).
    + reflexivity.
    + apply Hheld0; [exact Hst2|]. rewrite Hcl2. cbn. lia.
  - cbn [Runtime.store Runtime.withUuidSeed]. exact Hst2.
  - cbn [Runtime.clock Runtime.withUuidSeed]. rewrite Hcl2. cbn. lia.
  - cbn [Runtime.db Runtime.withUuidSeed]. exact Hdb2.
  - cbn [Runtime.enrichmentQueue Runtime.withUuidSeed]. exact Hq2.
Qed.

Lemma searchPlacesAsync_gives_up_when_busy_witness :
  let key := SearchActions.cacheKeyOf "Rome" "gym" None in
  let lockKey := "lock:job:" +:+ key in
  let tracker := "active-job:" +:+ key in
  acceptAll "Rome" "gym" false = inr ("Rome", "gym")
  /\ Polling.isFree key lockHeld = true
  /\ Polling.isFree tracker lockHeld = true
  /\ Runtime.lookupLive (Runtime.clock lockHeld + 1500) lockKey
       (Runtime.store lockHeld)
     = Some {| Runtime.value := Runtime.VStr (Runtime.PText "uuid-other");
               Runtime.expireAt := Some 10000%Z |}
  /\ exists w' : Runtime.World,
       (forall addSearchJob : SearchActions.SearchJobData -> Runtime.IO string,
           @SearchActions.searchPlacesAsync Runtime.idealRedis (fun s => s)
             acceptAll addSearchJob noJson "Rome" "gym" "user-2" None false
             lockHeld
           = (Runtime.Throw SearchActions.systemBusy, w'))
       /\ Runtime.store w' = Runtime.store lockHeld
       /\ Runtime.clock w' = (Runtime.clock lockHeld + 1500)%Z
       /\ Runtime.db w' = Runtime.db lockHeld
       /\ Runtime.enrichmentQueue w' = Runtime.enrichmentQueue lockHeld.
Proof.
  intros key lockKey tracker.
  split; [reflexivity|]. split; [reflexivity|]. split; [reflexivity|].
  split; [reflexivity|].
  exact (searchPlacesAsync_gives_up_when_busy (fun s => s) acceptAll noJson
           "Rome" "gym" "Rome" "gym" "user-2" None false _ lockHeld
           eq_refl eq_refl eq_refl eq_refl).
Defined.

(** ** What the gateway never touches *)

Section FrameFacts.
Import Js Data Runtime TrafficControl Gateway Invariants.
Local Open Scope Z_scope.

Variable R : World -> World -> Prop.
Hypothesis R_refl : forall w : World, R w w.
Hypothesis R_trans : forall w1 w2 w3 : World, R w1 w2 -> R w2 w3 -> R w1 w3.

Lemma Keeps_ret {A : Type} (a : A) : Keeps R (mret a).
Proof. intros w. apply R_refl. Qed.

Lemma Keeps_throw {A : Type} (e : JsError) : Keeps R (@throw A e).
Proof. intros w. apply R_refl. Qed.

Lemma Keeps_bind {A B : Type} (m : IO A) (k : A -> IO B) :
  Keeps R m -> (forall a : A, Keeps R (k a)) -> Keeps R (m ≫= k).
Proof.
  intros Hm Hk w. unfold mbind, IO_bind, bind.
  specialize (Hm w). destruct (m w) as [[a|e] w1]; cbn [snd] in *.
  - eapply R_trans; [exact Hm | apply Hk].
  - exact Hm.
Qed.

Lemma Keeps_tryCatch {A : Type} (body : IO A) (handler : JsError -> IO A) :
  Keeps R body -> (forall e : JsError, Keeps R (handler e)) ->
  Keeps R (tryCatch body handler).
Proof.
  intros Hm Hk w. unfold tryCatch.
  specialize (Hm w). destruct (body w) as [[a|e] w1]; cbn [snd] in *.
  - exact Hm.
  - eapply R_trans; [exact Hm | apply Hk].
Qed.

Lemma Keeps_tryFinally {A : Type} (body : IO A) (cleanup : IO unit) :
  Keeps R body -> Keeps R cleanup -> Keeps R (tryFinally body cleanup).
Proof.
  intros Hm Hk w. unfold tryFinally.
  specialize (Hm w). destruct (body w) as [r w1]; cbn [snd] in *.
  specialize (Hk w1). destruct (cleanup w1) as [[u|e] w2]; cbn [snd] in *;
    eapply R_trans; eauto.
Qed.

Lemma Keeps_promiseAll {A B : Type} (f : A -> IO B) (l : list A) :
  (forall x : A, Keeps R (f x)) -> Keeps R (promiseAll f l).
Proof.
  intros Hf. induction l as [|x rest IH]; cbn [promiseAll].
  - apply Keeps_ret.
  - apply Keeps_bind; [apply Hf|]. intros y.
    apply Keeps_bind; [exact IH|]. intros ys. apply Keeps_ret.
Qed.

End FrameFacts.

Section GatewayFrameFacts.
Import Js Data Runtime TrafficControl Gateway Orchestrator Invariants.
Local Open Scope Z_scope.

Lemma sameRecords_refl (w : World) : sameRecords w w.
Proof. repeat split. Qed.

Lemma sameRecords_trans (w1 w2 w3 : World) :
  sameRecords w1 w2 -> sameRecords w2 w3 -> sameRecords w1 w3.
Proof.
  intros (A1 & A2 & A3 & A4) (B1 & B2 & B3 & B4).
  repeat split; congruence.
Qed.

Lemma sameRecords_accounts (w w' : World) :
  sameRecords w w' -> sameAccounts w w'.
Proof. intros (H & _). unfold sameAccounts. rewrite H. repeat split. Qed.

(** A store command other than PUBLISH changes the store and nothing
    else. *)
Lemma idealCall_records (c : RCmd) :
  (forall ch msg, c <> PUBLISH ch msg) ->
  Keeps sameRecords (@call idealRedis c).
Proof.
  intros Hc w. cbn [call idealRedis]. unfold idealCall.
  destruct (runCmd (clock w) c (store w)) as [r st].
  destruct c; try (repeat split; fail).
  exfalso. eapply Hc. reflexivity.
Qed.

Lemma sleep_records (ms : Z) : Keeps sameRecords (sleep ms).
Proof. intros w. repeat split. Qed.

Variable GOOGLE_API_KEYS : list string.
Variable fetch : nat -> string -> SearchRequest -> FetchOutcome.

Lemma getNextApiKey_records : Keeps sameRecords (getNextApiKey GOOGLE_API_KEYS).
Proof.
  intros w. unfold getNextApiKey. case_bool_decide; repeat split.
Qed.

Lemma fetchWithTimeout_records (apiKey : string) (body : SearchRequest) :
  Keeps sameRecords (fetchWithTimeout fetch apiKey body).
Proof. intros w. repeat split. Qed.

Ltac frame_step :=
  first
    [ apply (Keeps_ret sameRecords sameRecords_refl)
    | apply (Keeps_throw sameRecords sameRecords_refl)
    | apply (Keeps_bind sameRecords sameRecords_trans);
      [|intros ?]
    | apply (Keeps_tryCatch sameRecords sameRecords_trans);
      [|intros ?]
    | apply (Keeps_tryFinally sameRecords sameRecords_trans)
    | apply idealCall_records; discriminate
    | apply sleep_records
    | apply getNextApiKey_records
    | apply fetchWithTimeout_records ].

Lemma attemptLoop_records (fuel : nat) (query : string)
    (options : SearchOptions) (attempt : Z) :
  Keeps sameRecords
    (@attemptLoop GOOGLE_API_KEYS fetch fuel query options attempt).
Proof.
  revert attempt. induction fuel as [|fuel IH]; intros attempt;
    cbn [attemptLoop]; destruct (attempt <? maxAttempts);
    [frame_step | frame_step | | frame_step].
  frame_step; [frame_step|].
  frame_step; [frame_step|].
  destruct a0 as [status text json|error].
  - destruct (negb (responseOk status)).
    + destruct (isRetryable status && (attempt <? maxAttempts - 1)).
      * frame_step; [frame_step | apply IH].
      * frame_step.
    + destruct json; frame_step.
  - destruct (String.eqb (err_name error) "AbortError"
              && (attempt <? maxAttempts - 1)); [apply IH | frame_step].
Qed.

Lemma expireOnFirst_records (count : Reply) (key : string) (seconds : Z) :
  Keeps sameRecords (@expireOnFirst idealRedis count key seconds).
Proof.
  unfold expireOnFirst. destruct (replyIsInt count 1); repeat frame_step.
Qed.

Lemma withInflightLimiter_records {T : Type} (key : string)
    (maxConcurrent : JsNumber) (ttlSec : Z) (work : IO T) :
  Keeps sameRecords work ->
  Keeps sameRecords
    (@withInflightLimiter idealRedis T key maxConcurrent ttlSec work).
Proof.
  intros Hw. unfold withInflightLimiter.
  destruct (limitDisabled maxConcurrent); [exact Hw|].
  frame_step; [frame_step|].
  frame_step; [apply expireOnFirst_records|].
  destruct (lt maxConcurrent (replyNumber a)).
  - repeat frame_step.
  - frame_step; [exact Hw | repeat frame_step].
Qed.

Lemma withCircuitBreaker_records {T : Type} (serviceName : string)
    (config : CircuitConfig) (work : IO T) :
  Keeps sameRecords work ->
  Keeps sameRecords (@withCircuitBreaker idealRedis T serviceName config work).
Proof.
  intros Hw. unfold withCircuitBreaker.
  frame_step; [frame_step|].
  destruct (replyIsText a "OPEN"); [frame_step|].
  frame_step; [exact Hw|].
  unfold recordFailure.
  frame_step; [frame_step|].
  frame_step; [|frame_step].
  destruct (le _ _); repeat frame_step.
Qed.

Lemma searchText_records (query : string) (options : SearchOptions) :
  Keeps sameRecords (@searchText idealRedis GOOGLE_API_KEYS fetch query options).
Proof.
  unfold searchText.
  apply withCircuitBreaker_records, withInflightLimiter_records,
    attemptLoop_records.
Qed.

Lemma sectorLoop_records
    (search : string -> SearchOptions -> IO GatewayResponse)
    (fuel : nat) (query : string) (bias : LocationBias) (maxPages : nat)
    (acc : list Place) (token : option string) (pageCount : nat) :
  (forall q o, Keeps sameRecords (search q o)) ->
  Keeps sameRecords
    (sectorLoop search fuel query bias maxPages acc token pageCount).
Proof.
  intros Hs. revert acc token pageCount.
  induction fuel as [|fuel IH]; intros acc token pageCount; cbn [sectorLoop].
  - frame_step.
  - frame_step; [destruct (0 <? pageCount)%nat; frame_step|].
    frame_step; [apply Hs|].
    destruct (truthy (nextPageToken a0) && (S pageCount <? maxPages)%nat);
      [apply IH | frame_step].
Qed.

Lemma scanCity_records
    (search : string -> SearchOptions -> IO GatewayResponse)
    (query : string) (viewport : GridGenerator.Viewport)
    (options : ScanOptions) :
  (forall q o, Keeps sameRecords (search q o)) ->
  Keeps sameRecords (scanCity search query viewport options).
Proof.
  intros Hs. unfold scanCity. cbv zeta.
  frame_step; [|frame_step].
  apply (Keeps_promiseAll sameRecords sameRecords_refl sameRecords_trans).
  intros point. unfold scanSector.
  frame_step; [|frame_step].
  apply sectorLoop_records, Hs.
Qed.

End GatewayFrameFacts.

(** X24. The gateway is a client of the provider and of the store, and of
    nothing else.  On the reference store, for every credential pool and
    every provider, whether they return or throw, [searchText] and
    [scanCity] write no durable record, queue no enrichment job, publish
    nothing and draw no id; in particular they never touch a balance, the
    ledger or the search history. *)
Theorem googlePlacesGateway_keeps_records
    (keys : list string)
    (fetch : nat -> string -> Gateway.SearchRequest -> Gateway.FetchOutcome) :
  let gateway := @Orchestrator.googlePlacesGateway Runtime.idealRedis keys fetch in
  (forall (query : string) (options : Gateway.SearchOptions),
      Invariants.Keeps Invariants.sameRecords
        (Orchestrator.gw_searchText gateway query options))
  /\ (forall (query : string) (viewport : GridGenerator.Viewport)
             (options : Gateway.ScanOptions),
        Invariants.Keeps Invariants.sameRecords
          (Orchestrator.gw_scanCity gateway query viewport options))
  /\ Invariants.keepsAccounts gateway.
Proof.
  intros gateway.
  assert (Hs : forall q o,
             Invariants.Keeps Invariants.sameRecords
               (Orchestrator.gw_searchText gateway q o))
    by (intros q o; apply searchText_records).
  assert (Hc : forall q v o,
             Invariants.Keeps Invariants.sameRecords
               (Orchestrator.gw_scanCity gateway q v o))
    by (intros q v o; apply scanCity_records; intros; apply searchText_records).
  split; [exact Hs|]. split; [exact Hc|].
  split; intros; intros w; apply sameRecords_accounts; [apply Hs | apply Hc].
Qed.

(** ** A new search charges once, and only by committing *)

Section ChargeFacts.
Import Js Data Runtime TrafficControl Gateway Orchestrator Invariants.
Local Open Scope Z_scope.

Lemma sameAccounts_refl (w : World) : sameAccounts w w.
Proof. repeat split. Qed.

Lemma sameAccounts_trans (w1 w2 w3 : World) :
  sameAccounts w1 w2 -> sameAccounts w2 w3 -> sameAccounts w1 w3.
Proof.
  intros (A1 & A2 & A3) (B1 & B2 & B3). repeat split; congruence.
Qed.

Lemma idealCall_accounts (c : RCmd) : Keeps sameAccounts (@call idealRedis c).
Proof.
  intros w. cbn [call idealRedis]. unfold idealCall.
  destruct (runCmd (clock w) c (store w)) as [r st].
  destruct c; repeat split.
Qed.

Lemma upsertPlace_accounts (place : Place) :
  Keeps sameAccounts (upsertPlace place).
Proof. intros w. repeat split. Qed.

Lemma upsertLead_accounts (userId placeId : string) :
  Keeps sameAccounts (upsertLead userId placeId).
Proof.
  intros w. unfold upsertLead. case_bool_decide; repeat split.
Qed.

Lemma addEnrichmentJob_accounts (job : EnrichmentJob) :
  Keeps sameAccounts (addEnrichmentJob job).
Proof. intros w. repeat split. Qed.

Lemma persistOne_accounts (userId job : string) (place : Place) :
  Keeps sameAccounts (persistOne userId job place).
Proof.
  unfold persistOne.
  apply (Keeps_bind sameAccounts sameAccounts_trans);
    [apply upsertPlace_accounts|]. intros saved.
  apply (Keeps_bind sameAccounts sameAccounts_trans);
    [apply upsertLead_accounts|]. intros _.
  apply (Keeps_bind sameAccounts sameAccounts_trans).
  - destruct (bool_decide (db_emails saved = [])
              && match scrapeStatus saved with PENDING => true | _ => false end);
      [apply addEnrichmentJob_accounts
      | apply (Keeps_ret sameAccounts sameAccounts_refl)].
  - intros _. apply (Keeps_ret sameAccounts sameAccounts_refl).
Qed.

(** The store client of the search: any client whose commands keep out of
    the accounts, whether they return or throw. *)
Context {client : RedisClient}.
Hypothesis client_keeps : forall c : RCmd, Keeps sameAccounts (call c).

Variable config : Config.
Variable gateway : PlacesGateway.
Hypothesis gateway_keeps : keepsAccounts gateway.

Lemma persistAndPublish_accounts (userId job : string) (l : list Place) :
  Keeps sameAccounts (persistAndPublish userId job l).
Proof.
  unfold persistAndPublish. case_bool_decide;
    [apply (Keeps_ret sameAccounts sameAccounts_refl)|].
  apply (Keeps_bind sameAccounts sameAccounts_trans).
  - apply (Keeps_promiseAll sameAccounts sameAccounts_refl sameAccounts_trans).
    intros place. apply persistOne_accounts.
  - intros batch.
    apply (Keeps_bind sameAccounts sameAccounts_trans).
    + destruct (negb (String.eqb job "") && (0 <? length batch)%nat).
      * apply (Keeps_bind sameAccounts sameAccounts_trans);
          [apply client_keeps|].
        intros _. apply (Keeps_ret sameAccounts sameAccounts_refl).
      * apply (Keeps_ret sameAccounts sameAccounts_refl).
    + intros _. apply (Keeps_ret sameAccounts sameAccounts_refl).
Qed.

Ltac acct_step :=
  first
    [ apply (Keeps_ret sameAccounts sameAccounts_refl)
    | apply (Keeps_throw sameAccounts sameAccounts_refl)
    | apply (Keeps_bind sameAccounts sameAccounts_trans)
    | apply client_keeps
    | apply persistAndPublish_accounts
    | apply (proj1 gateway_keeps)
    | apply (proj2 gateway_keeps) ].

Lemma deepInitiation_accounts
    (userId job city keyword listKey dataKey : string)
    (remainingCredits gridSize maxPagesPerGrid : Z) :
  Keeps sameAccounts
    (deepInitiation config gateway userId job city keyword
       listKey dataKey remainingCredits gridSize maxPagesPerGrid).
Proof.
  unfold deepInitiation.
  acct_step; [acct_step|]. intros cityResult. cbv zeta.
  acct_step.
  - destruct (viewportOf <$> (head (places cityResult) ≫= viewport)) as [v|].
    + destruct (usableViewport v).
      * acct_step; [acct_step|]. intros ?. acct_step.
      * acct_step; [acct_step|]. intros ?.
        acct_step; [acct_step|]. intros ?. acct_step.
    + acct_step; [acct_step|]. intros ?.
      acct_step; [acct_step|]. intros ?. acct_step.
  - intros [allPlaces enriched].
    acct_step; [acct_step|]. intros ?.
    acct_step; [acct_step|]. intros ?.
    acct_step; [|intros ?; acct_step].
    case_bool_decide; acct_step.
Qed.

Lemma standardLoop_accounts (fuel : nat) (userId job query : string)
    (pageSize maxFetches : Z) (allPlaces enriched : list Place)
    (token : option string) (fetchCount : Z) :
  Keeps sameAccounts
    (standardLoop gateway fuel userId job query pageSize
       maxFetches allPlaces enriched token fetchCount).
Proof.
  revert allPlaces enriched token fetchCount.
  induction fuel as [|fuel IH]; intros allPlaces enriched token fetchCount;
    cbn [standardLoop];
    destruct ((fetchCount <? maxFetches)
              && (Z.of_nat (length allPlaces) <? pageSize));
    [acct_step | acct_step | | acct_step].
  acct_step; [acct_step|]. intros result.
  acct_step.
  - destruct (0 <? length (places result))%nat; acct_step.
  - intros batch.
    destruct (negb (truthy (nextPageToken result))); [acct_step | apply IH].
Qed.

Lemma standardSearch_accounts (userId job city keyword : string)
    (pageSize : Z) :
  Keeps sameAccounts
    (standardSearch gateway userId job city keyword pageSize).
Proof.
  unfold standardSearch. cbv zeta.
  acct_step; [apply standardLoop_accounts|].
  intros [[allPlaces enriched] token]. acct_step.
Qed.

(** The billing transaction of a new search, when the balance covers the
    cost. *)
Lemma billingTransaction_commits
    (userId nc nk city keyword : string) (deep : bool) (cost : Z)
    (limited : list Place) (w : World) (u : User) :
  users (db w) !! userId = Some u ->
  cost <= credits u ->
  exists (w' : World) (entry : CreditTransaction) (h : SearchHistory),
    billingTransaction userId nc nk city keyword deep false cost limited w
    = (Return tt, w')
    /\ store w' = store w /\ clock w' = clock w
    /\ users (db w')
       = <[userId := {| credits := credits u - cost;
                        subscriptionTier := subscriptionTier u;
                        email := email u |}]> (users (db w))
    /\ creditTransactions (db w') = creditTransactions (db w) ++ [entry]
    /\ ct_userId entry = userId /\ ct_amount entry = - cost
    /\ searchHistory (db w') = searchHistory (db w) ++ [h]
    /\ sh_userId h = userId /\ sh_city h = nc /\ sh_keyword h = nk.
Proof.
  intros Hu Hle.
  unfold billingTransaction, transaction, mbind, IO_bind, bind,
    updateManyCredits.
  rewrite Hu. destruct (Z.leb_spec cost (credits u)) as [_|Hgt]; [|lia].
  cbn [Z.eqb throw mret IO_ret ret createCreditTransaction negb
       createSearchHistory].
  eexists. eexists. eexists. split; [reflexivity|].
  cbn [db withDb users withUsers creditTransactions withCreditTransactions
       searchHistory withSearchHistory store clock ct_userId ct_amount
       sh_userId sh_city sh_keyword].
  repeat split; reflexivity.
Qed.

Lemma billingTransaction_refuses
    (userId nc nk city keyword : string) (deep paid : bool) (cost : Z)
    (limited : list Place) (w : World) (u : User) :
  users (db w) !! userId = Some u ->
  credits u < cost ->
  billingTransaction userId nc nk city keyword deep paid cost limited w
  = (Throw (mkError "Yetersiz bakiye."), w).
Proof.
  intros Hu Hlt.
  unfold billingTransaction, transaction, mbind, IO_bind, bind,
    updateManyCredits.
  rewrite Hu. destruct (Z.leb_spec cost (credits u)) as [Hle|_]; [lia|].
  cbn [Z.eqb throw]. destruct w; reflexivity.
Qed.

Lemma bind_run {A B : Type} (m : IO A) (k : A -> IO B) (w : World) :
  (m ≫= k) w
  = match m w with
    | (Return a, w1) => k a w1
    | (Throw e, w1) => (Throw e, w1)
    end.
Proof. reflexivity. Qed.

Variable normalizeInput : string -> string.

Lemma executeSearchCore_charges
    (city keyword userId : string) (initialPageToken : option string)
    (deepSearch : bool) (jobId : option string) (w : World) (u : User) :
  let cost := requiredCreditsOf initialPageToken deepSearch in
  let res := executeSearchCore config gateway normalizeInput
               city keyword userId initialPageToken deepSearch jobId w in
  truthy initialPageToken = false ->
  users (db w) !! userId = Some u ->
  match fst res with
  | Return r =>
      cost <= credits u
      /\ chargedOnce userId (normalizeInput city) (normalizeInput keyword)
           cost u w (snd res)
  | Throw _ =>
      sameAccounts w (snd res)
      \/ (cost <= credits u
          /\ chargedOnce userId (normalizeInput city) (normalizeInput keyword)
               cost u w (snd res))
  end.
Proof.
  intros cost res Htok Hu. subst res.
  unfold executeSearchCore. cbv zeta. rewrite bind_run.
  set (draw := if truthy jobId then mret (default "" jobId) else randomUUID).
  assert (Hdraw : exists job wj,
             draw w = (Return job, wj) /\ db wj = db w).
  { subst draw. destruct (truthy jobId); eexists; eexists; split; reflexivity. }
  destruct Hdraw as (job & wj & -> & Hdb).
  assert (Hfind : findOrCreateUser userId wj = (Return u, wj))
    by (unfold findOrCreateUser; rewrite Hdb, Hu; reflexivity).
  rewrite bind_run, Hfind.
  fold cost.
  destruct (Z.ltb_spec (credits u) cost) as [Hlt|Hge].
  { cbn [throw fst snd]. left. unfold sameAccounts. rewrite Hdb.
    repeat split. }
  rewrite (truthy_false_not_deep _ Htok).
  assert (Hneg : negb (truthy initialPageToken) = true)
    by (rewrite Htok; reflexivity).
  rewrite Hneg. rewrite bind_run.
  match goal with
  | |- context [ (if deepSearch then ?a else ?b) wj ] =>
      set (branch := if deepSearch then a else b)
  end.
  assert (Hbranch : Keeps sameAccounts branch).
  { subst branch. destruct deepSearch;
      [apply deepInitiation_accounts | apply standardSearch_accounts]. }
  specialize (Hbranch wj).
  assert (Hwj : sameAccounts w wj)
    by (unfold sameAccounts; rewrite Hdb; repeat split).
  destruct (branch wj) as [[[[limited enr] next]|e] w2]; cbn [snd] in Hbranch;
    [|cbn [fst snd]; left; eapply sameAccounts_trans; eassumption].
  pose proof (sameAccounts_trans _ _ _ Hwj Hbranch) as (Hu2 & Hc2 & Hh2).
  assert (Hu2' : users (db w2) !! userId = Some u) by (rewrite Hu2; exact Hu).
  assert (Hpaid : isPaidPaginationOf initialPageToken deepSearch = false).
  { unfold isPaidPaginationOf. rewrite (truthy_false_not_deep _ Htok).
    destruct (negb (truthy initialPageToken) && deepSearch); reflexivity. }
  rewrite Hpaid.
  destruct (billingTransaction_commits userId (normalizeInput city)
              (normalizeInput keyword) city keyword deepSearch cost limited
              w2 u Hu2' Hge)
    as (w3 & entry & h & Hbill & _ & _ & Hu3 & Hc3 & He1 & He2 & Hh3
        & Hh4 & Hh5 & Hh6).
  rewrite bind_run, Hbill. rewrite bind_run.
  assert (Hcharged : forall w4 : World,
             sameAccounts w3 w4 ->
             chargedOnce userId (normalizeInput city) (normalizeInput keyword)
               cost u w w4).
  { intros w4 (Hu4 & Hc4 & Hh4'). split; [|split].
    - rewrite Hu4, Hu3, Hu2. reflexivity.
    - exists entry. rewrite Hc4, Hc3, Hc2. repeat split; assumption.
    - exists h. rewrite Hh4', Hh3, Hh2. repeat split; assumption. }
  match goal with
  | |- context [ call ?c w3 ] =>
      pose proof (client_keeps c w3) as Hset;
      destruct (call c w3) as [[reply|e] w4]
  end; cbn [snd] in Hset.
  - rewrite bind_run. unfold upsertSearchCache.
    cbn [mret IO_ret ret fst snd].
    split; [exact Hge|]. apply Hcharged.
    destruct Hset as (Hu4 & Hc4 & Hh4'). repeat split; assumption.
  - cbn [fst snd]. right. split; [exact Hge|]. apply Hcharged, Hset.
Qed.

End ChargeFacts.

(** X25. A new search charges its cost at most once, and only by
    committing its billing transaction.  With any store client whose
    commands keep out of the accounts (they may throw), a gateway that keeps
    out of the accounts and a user who exists: a new search (no page token)
    that returns has found the balance sufficient, has lowered that balance
    by the cost (10 for a deep search, 1 otherwise) and no other, and has
    appended one ledger entry of minus the cost and one history entry for
    the normalized query; a new search that throws has either left the
    users, the ledger and the history as they were, or has made exactly that
    one charge: the cache writes follow the commit, and a write that is
    refused there leaves the search charged. *)
Theorem new_search_charges_on_success
    (client : Runtime.RedisClient)
    (config : Orchestrator.Config) (gateway : Orchestrator.PlacesGateway)
    (normalizeInput : string -> string)
    (city keyword userId : string) (initialPageToken : option string)
    (deepSearch : bool) (jobId : option string)
    (w : Runtime.World) (u : Runtime.User) :
  let cost := Orchestrator.requiredCreditsOf initialPageToken deepSearch in
  let res := @Orchestrator.executeSearchCore client config gateway
               normalizeInput city keyword userId initialPageToken deepSearch
               jobId w in
  let chargedOnce :=
    Runtime.users (Runtime.db (snd res))
    = <[userId := {| Runtime.credits := (Runtime.credits u - cost)%Z;
                     Runtime.subscriptionTier := Runtime.subscriptionTier u;
                     Runtime.email := Runtime.email u |}]>
        (Runtime.users (Runtime.db w))
    /\ (exists entry : Runtime.CreditTransaction,
          Runtime.creditTransactions (Runtime.db (snd res))
          = Runtime.creditTransactions (Runtime.db w) ++ [entry]
          /\ Runtime.ct_userId entry = userId
          /\ Runtime.ct_amount entry = (- cost)%Z)
    /\ (exists h : Runtime.SearchHistory,
          Runtime.searchHistory (Runtime.db (snd res))
          = Runtime.searchHistory (Runtime.db w) ++ [h]
          /\ Runtime.sh_userId h = userId
          /\ Runtime.sh_city h = normalizeInput city
          /\ Runtime.sh_keyword h = normalizeInput keyword) in
  Js.truthy initialPageToken = false ->
  (forall c : Runtime.RCmd,
      Invariants.Keeps Invariants.sameAccounts (@Runtime.call client c)) ->
  Invariants.keepsAccounts gateway ->
  Runtime.users (Runtime.db w) !! userId = Some u ->
  match fst res with
  | Runtime.Return r => (cost <= Runtime.credits u)%Z /\ chargedOnce
  | Runtime.Throw _ =>
      Invariants.sameAccounts w (snd res)
      \/ ((cost <= Runtime.credits u)%Z /\ chargedOnce)
  end.
Proof.
  intros cost res chargedOnce Htok Hclient Hgw Hu.
  exact (@executeSearchCore_charges client Hclient config gateway Hgw
           normalizeInput city keyword userId initialPageToken deepSearch
           jobId w u Htok Hu).
Qed.

Lemma new_search_charges_on_success_witness :
  Js.truthy (@None string) = false
  /\ (forall c : Runtime.RCmd,
        Invariants.Keeps Invariants.sameAccounts (@Runtime.call Runtime.idealRedis c))
  /\ (forall c : Runtime.RCmd,
        Invariants.Keeps Invariants.sameAccounts (@Runtime.call refusingResults c))
  /\ Invariants.keepsAccounts fullPageGateway
  /\ Runtime.users (Runtime.db deepCached) !! "user-1"
     = Some {| Runtime.credits := 5; Runtime.subscriptionTier := Some Data.FREE;
               Runtime.email := "user-1@zakrom-test.com" |}
  /\ (exists r : Data.SearchResult,
        fst chargedRun = Runtime.Return r
        /\ (Runtime.credits
              <$> Runtime.users (Runtime.db (snd chargedRun)) !! "user-1")
           = Some 4%Z)
  /\ (fst chargedThenRefused
      = Runtime.Throw
          (Js.mkError "READONLY You can't write against a read only replica.")
      /\ (Runtime.credits
            <$> Runtime.users (Runtime.db (snd chargedThenRefused)) !! "user-1")
         = Some 4%Z
      /\ length (Runtime.creditTransactions (Runtime.db (snd chargedThenRefused)))
         = S (length (Runtime.creditTransactions (Runtime.db deepCached)))).
Proof.
  split; [reflexivity|].
  assert (Hideal : forall c : Runtime.RCmd,
             Invariants.Keeps Invariants.sameAccounts
               (@Runtime.call Runtime.idealRedis c))
    by exact idealCall_accounts.
  split; [exact Hideal|].
  assert (Hrefusing : forall c : Runtime.RCmd,
             Invariants.Keeps Invariants.sameAccounts
               (@Runtime.call refusingResults c)).
  { intros c w.
    destruct c as [k|k v ttl nx|k|k|k n|k|k lo hi|k sc m|k|ch msg];
      try exact (Hideal _ w).
    destruct v; try exact (Hideal _ w). repeat split. }
  split; [exact Hrefusing|].
  assert (Hk : Invariants.keepsAccounts fullPageGateway)
    by (split; intros; intros w; repeat split).
  split; [exact Hk|].
  assert (Hu : Runtime.users (Runtime.db deepCached) !! "user-1"
               = Some {| Runtime.credits := 5;
                         Runtime.subscriptionTier := Some Data.FREE;
                         Runtime.email := "user-1@zakrom-test.com" |})
    by (vm_compute; reflexivity).
  split; [exact Hu|].
  split.
  - pose proof (new_search_charges_on_success Runtime.idealRedis planOfTwenty
                  fullPageGateway (fun s => s) "Rome" "gym" "user-1" None
                  false (Some "job-1") deepCached _ eq_refl Hideal Hk Hu) as H.
    cbv zeta in H. fold chargedRun in H.
    destruct (fst chargedRun) as [r|e] eqn:E.
    + exists r. split; [reflexivity|].
      destruct H as (_ & Hus & _). rewrite Hus, lookup_insert_eq. reflexivity.
    + vm_compute in E. discriminate E.
  - pose proof (new_search_charges_on_success refusingResults planOfTwenty
                  fullPageGateway (fun s => s) "Rome" "gym" "user-1" None
                  false (Some "job-1") deepCached _ eq_refl Hrefusing Hk Hu)
      as H.
    cbv zeta in H. fold chargedThenRefused in H.
    split; [vm_compute; reflexivity|].
    destruct (fst chargedThenRefused) as [r|e] eqn:E;
      [vm_compute in E; discriminate E|].
    destruct H as [(_ & Hsame & _)|(_ & Hus & (entry & Hled & _) & _)].
    + exfalso.
      assert (Hlen : length (Runtime.creditTransactions
                               (Runtime.db (snd chargedThenRefused)))
                     = length (Runtime.creditTransactions
                                 (Runtime.db deepCached)))
        by (rewrite Hsame; reflexivity).
      vm_compute in Hlen. discriminate Hlen.
    + split; [rewrite Hus, lookup_insert_eq; reflexivity|].
      rewrite Hled, length_app. cbn [length]. lia.
Defined.

(** ** A page of a deep search whose slim list is gone *)

Section DeepExpiryFacts.
Import Js Data Runtime Gateway Orchestrator SearchActions Invariants Polling.
Local Open Scope Z_scope.

Variable config : Config.
Variable gateway : PlacesGateway.
Variable normalizeInput : string -> string.

(** With a [deep:] token and a user who holds a credit, the call comes down
    to branch A, run after the job id has been settled. *)
Lemma executeSearchCore_deep_entry
    (client : RedisClient) (city keyword userId token : string)
    (deepSearch : bool) (jobId : option string) (u : User) (w : World) :
  isDeepToken (Some token) = true ->
  users (db w) !! userId = Some u ->
  1 <= credits u ->
  @executeSearchCore client config gateway normalizeInput city keyword userId
    (Some token) deepSearch jobId w
  = ('(enrichedPlaces, nextToken) ←
       @deepContinuation client config userId
         (if truthy jobId then default "" jobId
          else "uuid-" +:+ pretty (uuidSeed w))
         ("search:list:" +:+ normalizeInput city +:+ ":"
          +:+ normalizeInput keyword)
         ("search:list:data:" +:+ normalizeInput city +:+ ":"
          +:+ normalizeInput keyword)
         token;
     mret {| res_places := enrichedPlaces; res_nextPageToken := nextToken;
             res_jobId := if truthy jobId then default "" jobId
                          else "uuid-" +:+ pretty (uuidSeed w) |})
      (if truthy jobId then w else withUuidSeed (S (uuidSeed w)) w).
Proof.
  intros Hdeep Hu Hcredits.
  assert (Htruthy : truthy (Some token) = true).
  { unfold isDeepToken in Hdeep. unfold truthy.
    destruct (negb (String.eqb token "")); [reflexivity | discriminate Hdeep]. }
  unfold executeSearchCore. cbv zeta.
  unfold mbind at 1, IO_bind at 1, bind at 1.
  set (w0 := if truthy jobId then w else withUuidSeed (S (uuidSeed w)) w).
  set (job := if truthy jobId then default "" jobId
              else "uuid-" +:+ pretty (uuidSeed w)).
  assert (Hjob : (if truthy jobId then mret (default "" jobId) else randomUUID) w
                 = (Return job, w0)).
  { unfold job, w0. destruct (truthy jobId); reflexivity. }
  rewrite Hjob.
  assert (Hdb0 : db w0 = db w) by (unfold w0; destruct (truthy jobId); reflexivity).
  unfold mbind at 1, IO_bind at 1, bind at 1.
  unfold findOrCreateUser. rewrite Hdb0, Hu.
  unfold requiredCreditsOf. rewrite Htruthy. cbn [negb andb].
  destruct (Z.ltb_spec (credits u) 1) as [?|_]; [lia|].
  rewrite Hdeep. cbn [default]. reflexivity.
Qed.

(** A [deep:] token whose offset part is empty or begins with a letter
    carries no number. *)
Lemma deep_token_without_offset (rest : string) :
  rest = ""
  \/ (exists (a : Ascii.ascii) (more : string),
        rest = String a more
        /\ ((65 <= Ascii.nat_of_ascii a <= 90)%nat
            \/ (97 <= Ascii.nat_of_ascii a <= 122)%nat)) ->
  parseInt (default "" (splitOn ":" ("deep:" +:+ rest) !! 1%nat)) = None.
Proof.
  intros [->|(a & more & -> & Hletter)]; [reflexivity|].
  change ("deep:" +:+ String a more)
    with (String "d" (String "e" (String "e" (String "p"
            (String ":" (String a more)))))).
  cbn [splitOn Ascii.eqb Bool.eqb].
  assert (Hne : forall c : Ascii.ascii,
             (Ascii.nat_of_ascii c < 65)%nat -> Ascii.eqb a c = false).
  { intros c Hc. destruct (Ascii.eqb_spec a c) as [->|]; [lia | reflexivity]. }
  change (splitOn ":" (String a more))
    with (if Ascii.eqb a ":"
          then EmptyString :: splitOn ":" more
          else match splitOn ":" more with
               | piece :: pieces => String a piece :: pieces
               | [] => [String a EmptyString]
               end).
  rewrite (Hne ":"%char) by (vm_compute; lia).
  assert (Hparse : forall piece : string, parseInt (String a piece) = None).
  { intros piece. unfold parseInt.
    rewrite (Hne "-"%char), (Hne "+"%char) by (vm_compute; lia).
    cbn [leadingDigits]. unfold digitOf.
    destruct ((48 <=? Z.of_nat (Ascii.nat_of_ascii a))
              && (Z.of_nat (Ascii.nat_of_ascii a) <=? 57)) eqn:Hd;
      [|reflexivity].
    apply andb_true_iff in Hd as [_ Hd]. apply Z.leb_le in Hd. lia. }
  destruct (splitOn ":" more) as [|piece pieces];
    [exact (Hparse "") | exact (Hparse piece)].
Qed.

Lemma findManyPlaces_ids (ids : list string) (w : World) (id : string) :
  wellKeyed (db w) ->
  In id (List.map place_id
           (List.map placeOfRow
              (flat_map (fun k => match placeRows (db w) !! k with
                                  | Some row => [row]
                                  | None => []
                                  end) ids)))
  <-> In id ids /\ is_Some (placeRows (db w) !! id).
Proof.
  intros Hwk. rewrite List.map_map, in_map_iff. split.
  - intros (row & Hid & Hin). apply in_flat_map in Hin as (k & Hk & Hrow).
    destruct (placeRows (db w) !! k) as [row'|] eqn:Hl; [|destruct Hrow].
    destruct Hrow as [->|[]]. cbn [placeOfRow place_id] in Hid.
    rewrite (Hwk _ _ Hl) in Hid. subst k. split; [exact Hk | eauto].
  - intros (Hin & row & Hl). exists row. split.
    + cbn [placeOfRow place_id]. exact (Hwk _ _ Hl).
    + apply in_flat_map. exists id. split; [exact Hin|].
      rewrite Hl. left. reflexivity.
Qed.

Lemma deep_page_without_data
    (city keyword userId : string) (deepSearch : bool) (jobId : option string)
    (u : User) (w : World) :
  let listKey := "search:list:" +:+ normalizeInput city +:+ ":"
                 +:+ normalizeInput keyword in
  let dataKey := "search:list:data:" +:+ normalizeInput city +:+ ":"
                 +:+ normalizeInput keyword in
  let D := DEEP_PAGE_SIZE config in
  let w0 := if truthy jobId then w else withUuidSeed (S (uuidSeed w)) w in
  users (db w) !! userId = Some u ->
  1 <= credits u ->
  (forall (client : RedisClient) (rest : string),
      rest = ""
      \/ (exists (a : Ascii.ascii) (more : string),
            rest = String a more
            /\ ((65 <= Ascii.nat_of_ascii a <= 90)%nat
                \/ (97 <= Ascii.nat_of_ascii a <= 122)%nat)) ->
      @executeSearchCore client config gateway normalizeInput city keyword
        userId (Some ("deep:" +:+ rest)) deepSearch jobId w
      = (Throw (mkError "Geçersiz sayfa tokenı."), w0))
  /\ (forall s : Z,
        0 <= s ->
        isFree dataKey w = true ->
        isFree listKey w = true ->
        @executeSearchCore idealRedis config gateway normalizeInput city
          keyword userId (Some ("deep:" +:+ pretty s)) deepSearch jobId w
        = (Throw (mkError "Arama süresi dolmuş, lütfen tekrar arayın."), w0))
  /\ (forall (s : Z) (ids : list string),
        0 <= s ->
        isFree dataKey w = true ->
        payloadOf listKey w = Some (PIds ids) ->
        wellKeyed (db w) ->
        exists r : SearchResult,
          @executeSearchCore idealRedis config gateway normalizeInput city
            keyword userId (Some ("deep:" +:+ pretty s)) deepSearch jobId w
          = (Return r, w0)
          /\ (forall id : string,
                In id (List.map place_id (res_places r)) <->
                In id (slice ids s (s + D))
                /\ is_Some (placeRows (db w) !! id))
          /\ res_nextPageToken r
             = (if s + D <? Z.of_nat (length ids)
                then Some ("deep:" +:+ pretty (s + D)) else None)).
Proof.
  intros listKey dataKey D w0 Hu Hcredits.
  assert (Hsame : store w0 = store w /\ clock w0 = clock w /\ db w0 = db w).
  { unfold w0. destruct (truthy jobId); repeat split. }
  destruct Hsame as (Hst0 & Hcl0 & Hdb0).
  split; [|split].
  - intros client rest Hrest.
    assert (Hdeep : isDeepToken (Some ("deep:" +:+ rest)) = true)
      by (destruct rest; reflexivity).
    rewrite (executeSearchCore_deep_entry client city keyword userId _
               deepSearch jobId u w Hdeep Hu Hcredits).
    fold w0. unfold deepContinuation.
    rewrite (deep_token_without_offset rest Hrest). reflexivity.
  - intros s Hs Hdata Hlist.
    rewrite (executeSearchCore_deep_entry idealRedis city keyword userId _
               deepSearch jobId u w (proj1 (deep_token_is_deep s)) Hu Hcredits).
    fold w0 listKey dataKey. unfold deepContinuation.
    rewrite (deep_token_offset s Hs).
    unfold mbind, IO_bind, bind. cbn [call idealRedis].
    rewrite (idealCall_GET_free dataKey w0)
      by (unfold isFree; rewrite Hst0, Hcl0; exact Hdata).
    rewrite (idealCall_GET_free listKey w0)
      by (unfold isFree; rewrite Hst0, Hcl0; exact Hlist).
    reflexivity.
  - intros s ids Hs Hdata Hlist Hwk.
    rewrite (executeSearchCore_deep_entry idealRedis city keyword userId _
               deepSearch jobId u w (proj1 (deep_token_is_deep s)) Hu Hcredits).
    fold w0 listKey dataKey. unfold deepContinuation.
    rewrite (deep_token_offset s Hs).
    unfold mbind, IO_bind, bind. cbn [call idealRedis].
    rewrite (idealCall_GET_free dataKey w0)
      by (unfold isFree; rewrite Hst0, Hcl0; exact Hdata).
    rewrite (idealCall_GET_payload listKey (PIds ids) w0)
      by (unfold payloadOf; rewrite Hst0, Hcl0; exact Hlist).
    cbn [replyTruthy negb]. unfold findManyPlaces.
    cbn [mret IO_ret ret]. eexists. split; [reflexivity|].
    cbn [res_places res_nextPageToken]. split; [|reflexivity].
    intros id. rewrite Hdb0. apply findManyPlaces_ids. exact Hwk.
Qed.

End DeepExpiryFacts.

(** X26. A page of a deep search whose slim list is gone.  For a user who
    holds a credit and a [deep:] token: a token whose offset part is empty
    or begins with a letter carries no number and is refused with the
    invalid-token error before the store is read, with any store client; on
    the reference store, for a token [deep:<s>], when neither the slim list
    nor the
    id list is cached any more the call throws the search-expired error;
    when only the id list is left, the call answers from the saved rows:
    exactly the ids of the page that have a row, with the token of the next
    page when the id list goes on.  In all three cases nothing is charged,
    saved, queued or published: the world is as it was, but for the job id
    that has been drawn when none was given. *)
Theorem deep_page_without_slim_list
    (config : Orchestrator.Config) (gateway : Orchestrator.PlacesGateway)
    (normalizeInput : string -> string)
    (city keyword userId : string) (deepSearch : bool) (jobId : option string)
    (u : Runtime.User) (w : Runtime.World) :
  let listKey := "search:list:" +:+ normalizeInput city +:+ ":"
                 +:+ normalizeInput keyword in
  let dataKey := "search:list:data:" +:+ normalizeInput city +:+ ":"
                 +:+ normalizeInput keyword in
  let D := Orchestrator.DEEP_PAGE_SIZE config in
  let w0 := if Js.truthy jobId then w
            else Runtime.withUuidSeed (S (Runtime.uuidSeed w)) w in
  Runtime.users (Runtime.db w) !! userId = Some u ->
  (1 <= Runtime.credits u)%Z ->
  (forall (client : Runtime.RedisClient) (rest : string),
      rest = ""
      \/ (exists (a : Ascii.ascii) (more : string),
            rest = String a more
            /\ ((65 <= Ascii.nat_of_ascii a <= 90)%nat
                \/ (97 <= Ascii.nat_of_ascii a <= 122)%nat)) ->
      @Orchestrator.executeSearchCore client config gateway normalizeInput
        city keyword userId (Some ("deep:" +:+ rest)) deepSearch jobId w
      = (Runtime.Throw (Js.mkError "Geçersiz sayfa tokenı."), w0))
  /\ (forall s : Z,
        (0 <= s)%Z ->
        Polling.isFree dataKey w = true ->
        Polling.isFree listKey w = true ->
        @Orchestrator.executeSearchCore Runtime.idealRedis config gateway
          normalizeInput city keyword userId (Some ("deep:" +:+ pretty s))
          deepSearch jobId w
        = (Runtime.Throw
             (Js.mkError "Arama süresi dolmuş, lütfen tekrar arayın."), w0))
  /\ (forall (s : Z) (ids : list string),
        (0 <= s)%Z ->
        Polling.isFree dataKey w = true ->
        Polling.payloadOf listKey w = Some (Runtime.PIds ids) ->
        SearchActions.wellKeyed (Runtime.db w) ->
        exists r : Data.SearchResult,
          @Orchestrator.executeSearchCore Runtime.idealRedis config gateway
            normalizeInput city keyword userId (Some ("deep:" +:+ pretty s))
            deepSearch jobId w
          = (Runtime.Return r, w0)
          /\ (forall id : string,
                In id (List.map Data.place_id (Data.res_places r)) <->
                In id (Js.slice ids s (s + D))
                /\ is_Some (Runtime.placeRows (Runtime.db w) !! id))
          /\ Data.res_nextPageToken r
             = (if (s + D <? Z.of_nat (length ids))%Z
                then Some ("deep:" +:+ pretty (s + D)%Z) else None)).
Proof. apply deep_page_without_data. Qed.

Lemma deep_page_without_slim_list_witness :
  let run w token :=
    @Orchestrator.executeSearchCore Runtime.idealRedis tenPerPage quietGateway
      (fun s => s) "Rome" "gym" "user-1" (Some token) false (Some "job-1") w in
  (Runtime.users (Runtime.db oneCredit) !! "user-1"
   = Some {| Runtime.credits := 1; Runtime.subscriptionTier := Some Data.FREE;
             Runtime.email := "user-1@zakrom-test.com" |}
   /\ (1 <= 1)%Z
   /\ run oneCredit "deep:soon"
      = (Runtime.Throw (Js.mkError "Geçersiz sayfa tokenı."), oneCredit)
   /\ run oneCredit ("deep:" +:+ pretty 10%Z)
      = (Runtime.Throw
           (Js.mkError "Arama süresi dolmuş, lütfen tekrar arayın."),
         oneCredit))
  /\ (Runtime.users (Runtime.db idsOnly) !! "user-1"
      = Some {| Runtime.credits := 5; Runtime.subscriptionTier := Some Data.FREE;
                Runtime.email := "user-1@zakrom-test.com" |}
      /\ (1 <= 5)%Z
      /\ SearchActions.wellKeyed (Runtime.db idsOnly)
      /\ exists r : Data.SearchResult,
           run idsOnly ("deep:" +:+ pretty 10%Z) = (Runtime.Return r, idsOnly)
           /\ Data.res_nextPageToken r = None).
Proof.
  intros run. split.
  - assert (Hu : Runtime.users (Runtime.db oneCredit) !! "user-1"
                 = Some {| Runtime.credits := 1;
                           Runtime.subscriptionTier := Some Data.FREE;
                           Runtime.email := "user-1@zakrom-test.com" |})
      by (vm_compute; reflexivity).
    split; [exact Hu|]. split; [lia|].
    destruct (deep_page_without_slim_list tenPerPage quietGateway (fun s => s)
                "Rome" "gym" "user-1" false (Some "job-1") _ oneCredit Hu
                ltac:(cbn; lia)) as (Hbad & Hgone & _).
    split.
    + apply (Hbad Runtime.idealRedis "soon"). right.
      exists "s"%char, "oon". split; [reflexivity|]. right.
      change (97 <= 115 <= 122)%nat. lia.
    + exact (Hgone 10%Z ltac:(lia) eq_refl eq_refl).
  - assert (Hu : Runtime.users (Runtime.db idsOnly) !! "user-1"
                 = Some {| Runtime.credits := 5;
                           Runtime.subscriptionTier := Some Data.FREE;
                           Runtime.email := "user-1@zakrom-test.com" |})
      by (vm_compute; reflexivity).
    split; [exact Hu|]. split; [lia|].
    assert (Hwk : SearchActions.wellKeyed (Runtime.db idsOnly)).
    { change (map_Forall (fun k row => Runtime.googleId row = k)
                (Runtime.placeRows (Runtime.db idsOnly))).
      apply (bool_decide_unpack _). vm_compute. reflexivity. }
    split; [exact Hwk|].
    destruct (deep_page_without_slim_list tenPerPage quietGateway (fun s => s)
                "Rome" "gym" "user-1" false (Some "job-1") _ idsOnly Hu
                ltac:(cbn; lia)) as (_ & _ & Hids).
    destruct (Hids 10%Z (List.map Data.place_id twentyPlaces) ltac:(lia)
                eq_refl ltac:(vm_compute; reflexivity) Hwk)
      as (r & Hrun & _ & Htok).
    exists r. split; [exact Hrun|]. rewrite Htok. reflexivity.
Defined.

(** ** Properties of the enrichment worker *)

Section WorkerFacts.
Import Js Data Runtime Orchestrator Invariants EnrichmentWorker.

Lemma truthy_nonempty (s : string) : truthy (Some s) = true <-> s <> "".
Proof.
  unfold truthy. destruct (String.eqb_spec s ""); cbn; split; congruence.
Qed.

Lemma findPlaceById_found (placeId k : string) (row : DbPlace) (d : Database) :
  uniqueIds d ->
  placeRows d !! k = Some row ->
  db_id row = placeId ->
  findPlaceById placeId d = Some (k, row).
Proof.
  intros Huniq Hl Hid. unfold findPlaceById.
  destruct (List.find _ (map_to_list (placeRows d))) as [[k' row']|] eqn:Hf.
  - apply List.find_some in Hf as [Hin Heq]. cbn [snd] in Heq.
    apply String.eqb_eq in Heq.
    apply list_elem_of_In, elem_of_map_to_list in Hin.
    assert (k' = k) by (eapply Huniq; eauto; congruence). subst k'.
    congruence.
  - exfalso.
    assert (Hin : In (k, row) (map_to_list (placeRows d)))
      by (apply list_elem_of_In, elem_of_map_to_list; exact Hl).
    pose proof (List.find_none _ _ Hf _ Hin) as Hno. cbn [snd] in Hno.
    rewrite Hid, String.eqb_refl in Hno. discriminate Hno.
Qed.

Lemma findPlaceById_missing (placeId : string) (d : Database) :
  (forall (k : string) (row : DbPlace),
      placeRows d !! k = Some row -> db_id row <> placeId) ->
  findPlaceById placeId d = None.
Proof.
  intros Hno. unfold findPlaceById.
  destruct (List.find _ (map_to_list (placeRows d))) as [[k' row']|] eqn:Hf;
    [|reflexivity].
  apply List.find_some in Hf as [Hin Heq]. cbn [snd] in Heq.
  apply String.eqb_eq in Heq.
  apply list_elem_of_In, elem_of_map_to_list in Hin.
  destruct (Hno _ _ Hin Heq).
Qed.

Lemma tracks_update (placeId k : string) (w w' : World) (r : DbPlace)
    (data : DbPlace -> DbPlace) :
  db_id (data r) = db_id r ->
  tracks placeId k w w' r ->
  updatePlaceById placeId data w' = (Return (data r), putRow k (data r) w')
  /\ tracks placeId k w (putRow k (data r) w') (data r)
  /\ published (putRow k (data r) w') = published w'
  /\ store (putRow k (data r) w') = store w'.
Proof.
  intros Hdata (Hl & Huniq & Hid & Hrow & Hrest).
  split.
  { unfold updatePlaceById.
    rewrite (findPlaceById_found placeId k r (db w') Huniq Hl Hid).
    reflexivity. }
  split; [|split; reflexivity].
  unfold tracks, putRow.
  cbn [db withDb placeRows withPlaces users leads creditTransactions
       searchHistory searchCache enrichmentQueue].
  split; [apply lookup_insert_eq|]. split.
  { intros k1 k2 r1 r2 H1 H2 Heq.
    cbn [placeRows withPlaces] in H1, H2.
    assert (Hold : forall k0 r0,
               <[k := data r]> (placeRows (db w')) !! k0 = Some r0 ->
               exists r0', placeRows (db w') !! k0 = Some r0'
                           /\ db_id r0' = db_id r0).
    { intros k0 r0 H0. destruct (decide (k0 = k)) as [->|Hne].
      - rewrite lookup_insert_eq in H0. injection H0 as <-.
        exists r. split; [exact Hl | symmetry; exact Hdata].
      - rewrite lookup_insert_ne in H0 by congruence. eauto. }
    destruct (Hold _ _ H1) as (r1' & H1' & E1).
    destruct (Hold _ _ H2) as (r2' & H2' & E2).
    eapply Huniq; eauto. congruence. }
  split; [congruence|].
  split; [rewrite Hrow; apply insert_insert_eq|].
  exact Hrest.
Qed.

Lemma tracks_start (placeId k : string) (w : World) (row : DbPlace) :
  uniqueIds (db w) ->
  placeRows (db w) !! k = Some row ->
  db_id row = placeId ->
  tracks placeId k w w row.
Proof.
  intros Huniq Hl Hid. unfold tracks, onlyRow.
  split; [exact Hl|]. split; [exact Huniq|]. split; [exact Hid|].
  split; [symmetry; apply insert_id; exact Hl|]. repeat split.
Qed.

Lemma tracks_records (placeId k : string) (w w1 w2 : World) (r : DbPlace) :
  tracks placeId k w w1 r -> sameRecords w1 w2 -> tracks placeId k w w2 r.
Proof.
  intros (Hl & Huniq & Hid & Hrow) (Hdb & Hq & _ & _).
  unfold tracks, onlyRow in *. rewrite Hdb, Hq.
  split; [exact Hl|]. split; [exact Huniq|]. split; [exact Hid | exact Hrow].
Qed.

Context {scrapeWebsite : string -> IO ScrapedData}
        {searchDuckDuckGoTargets : string -> IO DdgTargets}.
Variable orEmpty : option Json -> Json.
Variable objectKeys : Json -> nat.
Variable spread : Json -> Json -> Json.
Variable trim : string -> string.
Variable stringify : list EnrichmentUpdate -> string.

Hypothesis scrape_keeps :
  forall url : string, Keeps sameRecords (scrapeWebsite url).
Hypothesis lookup_keeps :
  forall query : string, Keeps sameRecords (searchDuckDuckGoTargets query).

Lemma lookupTargets_cases (job : EnrichmentJob) (target : string)
    (missing : bool) (w : World) :
  sameRecords w
    (snd (lookupTargets searchDuckDuckGoTargets orEmpty job target missing w))
  /\ forall (target' : string) (used : bool) (found : Json),
       fst (lookupTargets searchDuckDuckGoTargets orEmpty job target missing w)
       = Return (target', used, found) ->
       (used = true -> truthy (Some target) = false)
       /\ (truthy (Some target) = true -> target' = target).
Proof.
  unfold lookupTargets.
  destruct (negb (truthy (Some target)) || missing).
  - rewrite bind_run.
    pose proof (lookup_keeps
                  (ej_name job +:+ " " +:+ default "undefined" (ej_address job))
                  w) as Hk.
    destruct (searchDuckDuckGoTargets _ w) as [[d|e] wd]; cbn [snd] in Hk.
    + destruct (truthy (ddg_website d));
        [destruct (truthy (Some target)) eqn:Ht; cbn [negb]|];
        (split; [exact Hk|]); intros t' u f H; injection H as <- <- <-;
        split; intros; congruence.
    + split; [exact Hk|]. intros t' u f H. discriminate H.
  - split; [apply sameRecords_refl|].
    intros t' u f H. injection H as <- <- <-. split; intros; congruence.
Qed.

(** The [try] block, case by case, for a job whose row exists. *)
Lemma enrich_cases (job : EnrichmentJob) (w : World) (k : string)
    (row : DbPlace) :
  uniqueIds (db w) ->
  placeRows (db w) !! k = Some row ->
  db_id row = ej_placeId job ->
  match @enrich idealRedis scrapeWebsite searchDuckDuckGoTargets orEmpty
          objectKeys spread trim stringify job w with
  | (Return _, w2) =>
      exists (row' : DbPlace) (msgs : list (string * Payload)),
        onlyRow k row' w w2
        /\ published w2 = published w ++ msgs
        /\ scrapeStatus row' = COMPLETED
        /\ db_id row' = db_id row
        /\ googleId row' = googleId row
        /\ db_name row' = db_name row
        /\ (db_emails row' = db_emails row \/ db_emails row' <> [])
        /\ (db_phones row' = db_phones row \/ db_phones row' <> [])
        /\ (db_website row' = db_website row
            \/ exists site, db_website row' = Some site /\ site <> "")
        /\ (forall site : string,
              db_website row = Some site -> site <> "" -> trim site <> "" ->
              db_website row' = Some (trim site))
        /\ (msgs = []
            \/ ej_jobId job <> ""
               /\ msgs = [("search:updates:" +:+ ej_jobId job,
                           PText (stringify [updateOf row']))])
  | (Throw _, w2) =>
      tracks (ej_placeId job) k w w2 (withStatus PROCESSING row)
      /\ published w2 = published w
  end.
Proof.
  intros Huniq Hl Hid.
  pose proof (tracks_start _ _ _ _ Huniq Hl Hid) as T0.
  destruct (tracks_update _ _ _ _ row (withStatus PROCESSING) eq_refl T0)
    as (Hup1 & T1 & Hp1 & _).
  set (r1 := withStatus PROCESSING row) in *.
  set (w1 := putRow k r1 w) in *.
  unfold enrich. cbv zeta. rewrite bind_run, Hup1.
  rewrite bind_run.
  match goal with
  | |- context [ lookupTargets _ _ job ?t ?m w1 ] =>
      destruct (lookupTargets_cases job t m w1) as [Hk Hused];
      destruct (lookupTargets searchDuckDuckGoTargets orEmpty job t m w1)
        as [[[[target used] found]|e] wd] eqn:Hlook
  end; cbn [fst snd] in Hk, Hused; cbv beta iota.
  2:{ split; [exact (tracks_records _ _ _ _ _ _ T1 Hk)|].
      destruct Hk as (_ & _ & Hp & _). congruence. }
  specialize (Hused _ _ _ eq_refl). destruct Hused as [Hused Hkeep].
  pose proof (tracks_records _ _ _ _ _ _ T1 Hk) as Td.
  assert (Hpd : published wd = published w)
    by (destruct Hk as (_ & _ & Hp & _); congruence).
  assert (Hhas : forall site : string,
             db_website row = Some site -> site <> "" ->
             truthy (Some target) = true).
  { intros site Hw Hne. apply truthy_nonempty in Hne.
    subst r1. cbn [withStatus db_website] in Hkeep. rewrite Hw in Hkeep.
    cbn [default] in Hkeep. unfold Datatypes.id in Hkeep.
    destruct (truthy (Some (ej_website job))) eqn:Hj;
      rewrite Hkeep by assumption; assumption. }
  destruct (truthy (Some target)) eqn:Htarget; cbn [negb].
  2:{ (* nothing to scrape *)
      destruct (tracks_update _ _ _ _ r1 (withStatus COMPLETED) eq_refl Td)
        as (Hup & (_ & _ & _ & Hrow) & Hp & _).
      rewrite bind_run, Hup. cbn [mret IO_ret ret fst snd].
      exists (withStatus COMPLETED r1), [].
      split; [exact Hrow|]. rewrite app_nil_r.
      split; [congruence|].
      do 4 (split; [reflexivity|]).
      do 3 (split; [left; reflexivity|]).
      split; [|left; reflexivity].
      intros site Hw Hne _. specialize (Hhas site Hw Hne). discriminate Hhas. }
  rewrite bind_run.
  pose proof (scrape_keeps target wd) as Hs.
  destruct (scrapeWebsite target wd) as [[data|e] ws]; cbn [snd] in Hs;
    cbv beta iota.
  2:{ split; [exact (tracks_records _ _ _ _ _ _ Td Hs)|].
      destruct Hs as (_ & _ & Hp & _). congruence. }
  pose proof (tracks_records _ _ _ _ _ _ Td Hs) as Ts.
  assert (Hps : published ws = published w)
    by (destruct Hs as (_ & _ & Hp & _); congruence).
  rewrite bind_run.
  match goal with
  | |- context [ updatePlaceById _ (withEnrichment ?em ?sc ?ph ?so ?site) ws ] =>
      set (emails' := em); set (scores' := sc); set (phones' := ph);
      set (socials' := so); set (site' := site);
      destruct (tracks_update _ _ _ _ r1
                  (withEnrichment emails' scores' phones' socials' site')
                  eq_refl Ts)
        as (Hup & (_ & _ & _ & Hrow) & Hp & Hst)
  end.
  rewrite Hup.
  set (row' := withEnrichment emails' scores' phones' socials' site' r1) in *.
  assert (Hemails : db_emails row' = db_emails row \/ db_emails row' <> []).
  { subst row' emails'. cbn [withEnrichment db_emails].
    destruct (sd_emails data) as [|a rest]; cbn; [left; reflexivity|].
    right. discriminate. }
  assert (Hphones : db_phones row' = db_phones row \/ db_phones row' <> []).
  { subst row' phones'. cbn [withEnrichment db_phones].
    destruct (sd_phones data) as [|a rest]; cbn; [left; reflexivity|].
    right. discriminate. }
  assert (Htarget' : target <> "") by (apply truthy_nonempty; exact Htarget).
  assert (Hsite : db_website row' = db_website row
                  \/ exists site, db_website row' = Some site /\ site <> "").
  { subst row' site'. cbn [withEnrichment db_website].
    rewrite ?Htarget, ?andb_true_r.
    destruct used; [right; eauto|].
    match goal with
    | |- context [ truthy (Some ?f) ] =>
        destruct (truthy (Some f)) eqn:Hf;
        [right; exists f; split; [reflexivity | apply truthy_nonempty; exact Hf]
        |left; reflexivity]
    end. }
  assert (Hkept : forall site : string,
             db_website row = Some site -> site <> "" -> trim site <> "" ->
             db_website row' = Some (trim site)).
  { intros site Hw Hne Htrim.
    assert (Hu : used = false).
    { destruct used; [|reflexivity]. specialize (Hused eq_refl).
      subst r1. cbn [withStatus db_website] in Hused. rewrite Hw in Hused.
      cbn [default] in Hused. unfold Datatypes.id in Hused.
      destruct (truthy (Some (ej_website job))) eqn:Hj; cbv iota in Hused;
        [congruence|].
      apply truthy_nonempty in Hne. congruence. }
    subst row' site'. cbn [withEnrichment db_website]. rewrite Hu.
    cbn [andb]. subst r1. cbn [withStatus db_website]. rewrite Hw.
    cbn [default]. unfold Datatypes.id.
    apply truthy_nonempty in Htrim. rewrite Htrim. cbv iota.
    rewrite Htrim. reflexivity. }
  destruct (truthy (Some (ej_jobId job))) eqn:Hjob.
  - rewrite bind_run. cbn [call idealRedis]. unfold idealCall.
    cbn [runCmd mret IO_ret ret fst snd].
    exists row', [("search:updates:" +:+ ej_jobId job,
                   PText (stringify [updateOf row']))].
    split.
    { destruct Hrow as (H1 & H2 & H3 & H4 & H5 & H6 & H7).
      unfold onlyRow.
      cbn [db withPublished withStore enrichmentQueue]. repeat split; assumption. }
    cbn [published withPublished withStore]. rewrite Hp, Hps.
    split; [reflexivity|].
    repeat (split; [first [reflexivity | assumption]|]).
    right. split; [apply truthy_nonempty; exact Hjob | reflexivity].
  - cbn [mret IO_ret ret fst snd].
    exists row', []. split; [exact Hrow|]. rewrite app_nil_r.
    split; [congruence|].
    repeat (split; [first [reflexivity | assumption]|]).
    left. reflexivity.
Qed.

(** The processor, case by case, for a job whose row exists. *)
Lemma processJob_cases (job : EnrichmentJob) (w : World) (k : string)
    (row : DbPlace) :
  uniqueIds (db w) ->
  placeRows (db w) !! k = Some row ->
  db_id row = ej_placeId job ->
  let res := @processJob idealRedis scrapeWebsite searchDuckDuckGoTargets
               orEmpty objectKeys spread trim stringify job w in
  match fst res with
  | Return _ =>
      exists (row' : DbPlace) (msgs : list (string * Payload)),
        onlyRow k row' w (snd res)
        /\ published (snd res) = published w ++ msgs
        /\ scrapeStatus row' = COMPLETED
        /\ db_id row' = db_id row
        /\ googleId row' = googleId row
        /\ db_name row' = db_name row
        /\ (db_emails row' = db_emails row \/ db_emails row' <> [])
        /\ (db_phones row' = db_phones row \/ db_phones row' <> [])
        /\ (db_website row' = db_website row
            \/ exists site, db_website row' = Some site /\ site <> "")
        /\ (forall site : string,
              db_website row = Some site -> site <> "" -> trim site <> "" ->
              db_website row' = Some (trim site))
        /\ (msgs = []
            \/ ej_jobId job <> ""
               /\ msgs = [("search:updates:" +:+ ej_jobId job,
                           PText (stringify [updateOf row']))])
  | Throw _ =>
      onlyRow k (withStatus FAILED row) w (snd res)
      /\ published (snd res) = published w
  end.
Proof.
  intros Huniq Hl Hid res. subst res.
  pose proof (enrich_cases job w k row Huniq Hl Hid) as H.
  unfold processJob, tryCatch.
  destruct (enrich _ _ _ _ _ _ _ job w) as [[u|e] w2].
  - exact H.
  - destruct H as [T2 Hp2].
    destruct (tracks_update _ _ _ _ (withStatus PROCESSING row)
                (withStatus FAILED) eq_refl T2)
      as (Hup & (_ & _ & _ & Hrow) & Hp & _).
    rewrite bind_run, Hup. cbn [throw fst snd].
    split; [exact Hrow | congruence].
Qed.

(** A job for a place that has no row. *)
Lemma processJob_missing (client : RedisClient) (job : EnrichmentJob)
    (w : World) :
  (forall (k : string) (row : DbPlace),
      placeRows (db w) !! k = Some row -> db_id row <> ej_placeId job) ->
  @processJob client scrapeWebsite searchDuckDuckGoTargets orEmpty objectKeys
    spread trim stringify job w
  = (Throw recordNotFound, w).
Proof.
  intros Hno.
  assert (Hup : forall data : DbPlace -> DbPlace,
             updatePlaceById (ej_placeId job) data w = (Throw recordNotFound, w)).
  { intros data. unfold updatePlaceById.
    rewrite (findPlaceById_missing _ _ Hno). reflexivity. }
  unfold processJob, tryCatch, enrich. cbv zeta.
  rewrite bind_run, Hup, bind_run, Hup. reflexivity.
Qed.

End WorkerFacts.

(** X27. An enrichment job settles the status of its place.  On the
    reference store, with a scraper and a web search that keep out of the
    records, for a job whose place has a row (the only one with its id):
    when the processor returns, the row is COMPLETED and keeps its id, its
    provider id and its name; when it throws, whatever failed, the row is
    FAILED and is otherwise as it was before the job, and nothing has been
    published; in both cases no other row and no other record has changed,
    so the row is never left PROCESSING.  A job whose place has no row
    throws the not-found error and changes nothing, with any store client. *)
Theorem enrichment_job_settles_status
    (scrapeWebsite : string -> Runtime.IO EnrichmentWorker.ScrapedData)
    (searchDuckDuckGoTargets : string -> Runtime.IO EnrichmentWorker.DdgTargets)
    (orEmpty : option Data.Json -> Data.Json) (objectKeys : Data.Json -> nat)
    (spread : Data.Json -> Data.Json -> Data.Json) (trim : string -> string)
    (stringify : list EnrichmentWorker.EnrichmentUpdate -> string)
    (job : Runtime.EnrichmentJob) (w : Runtime.World) :
  let run client :=
    @EnrichmentWorker.processJob client scrapeWebsite searchDuckDuckGoTargets
      orEmpty objectKeys spread trim stringify job w in
  (forall url : string,
      Invariants.Keeps Invariants.sameRecords (scrapeWebsite url)) ->
  (forall query : string,
      Invariants.Keeps Invariants.sameRecords (searchDuckDuckGoTargets query)) ->
  (forall (k : string) (row : Runtime.DbPlace),
      EnrichmentWorker.uniqueIds (Runtime.db w) ->
      Runtime.placeRows (Runtime.db w) !! k = Some row ->
      Runtime.db_id row = Runtime.ej_placeId job ->
      match fst (run Runtime.idealRedis) with
      | Runtime.Return _ =>
          exists row' : Runtime.DbPlace,
            EnrichmentWorker.onlyRow k row' w (snd (run Runtime.idealRedis))
            /\ Runtime.scrapeStatus row' = Data.COMPLETED
            /\ Runtime.db_id row' = Runtime.db_id row
            /\ Runtime.googleId row' = Runtime.googleId row
            /\ Runtime.db_name row' = Runtime.db_name row
      | Runtime.Throw _ =>
          EnrichmentWorker.onlyRow k
            (EnrichmentWorker.withStatus Data.FAILED row) w
            (snd (run Runtime.idealRedis))
          /\ Runtime.published (snd (run Runtime.idealRedis))
             = Runtime.published w
      end)
  /\ ((forall (k : string) (row : Runtime.DbPlace),
          Runtime.placeRows (Runtime.db w) !! k = Some row ->
          Runtime.db_id row <> Runtime.ej_placeId job) ->
      forall client : Runtime.RedisClient,
        run client = (Runtime.Throw EnrichmentWorker.recordNotFound, w)).
Proof.
  intros run Hscrape Hlookup. split.
  - intros k row Huniq Hl Hid.
    pose proof (@processJob_cases scrapeWebsite searchDuckDuckGoTargets orEmpty
                  objectKeys spread trim stringify Hscrape Hlookup job w k row
                  Huniq Hl Hid) as H.
    cbv zeta in H. unfold run.
    destruct (fst (EnrichmentWorker.processJob _ _ _ _ _ _ _ job w)).
    + destruct H as (row' & msgs & Hrow & _ & Hst & Hid' & Hg & Hn & _).
      exists row'. split; [exact Hrow|]. repeat split; assumption.
    + exact H.
  - intros Hno client. apply processJob_missing. exact Hno.
Qed.

Lemma enrichment_job_settles_status_witness :
  (forall url : string, Invariants.Keeps Invariants.sameRecords (silentSite url))
  /\ (forall query : string,
        Invariants.Keeps Invariants.sameRecords (otherSite query))
  /\ EnrichmentWorker.uniqueIds (Runtime.db oneListing)
  /\ Runtime.placeRows (Runtime.db oneListing) !! "g-1" = Some knownGym
  /\ Runtime.db_id knownGym = Runtime.ej_placeId gymJob
  /\ (exists row' : Runtime.DbPlace,
        fst (gymRun gymJob) = Runtime.Return tt
        /\ EnrichmentWorker.onlyRow "g-1" row' oneListing (snd (gymRun gymJob))
        /\ Runtime.scrapeStatus row' = Data.COMPLETED)
  /\ gymRun strayJob
     = (Runtime.Throw EnrichmentWorker.recordNotFound, oneListing).
Proof.
  assert (Hs : forall url : string,
             Invariants.Keeps Invariants.sameRecords (silentSite url))
    by (intros url w; repeat split).
  assert (Hl : forall query : string,
             Invariants.Keeps Invariants.sameRecords (otherSite query))
    by (intros query w; repeat split).
  assert (Hrow : Runtime.placeRows (Runtime.db oneListing) !! "g-1"
                 = Some knownGym) by (vm_compute; reflexivity).
  assert (Huniq : EnrichmentWorker.uniqueIds (Runtime.db oneListing)).
  { intros k1 k2 r1 r2 H1 H2 _.
    change (Runtime.placeRows (Runtime.db oneListing))
      with ({[ "g-1" := knownGym ]} : gmap string Runtime.DbPlace) in H1, H2.
    apply lookup_singleton_Some in H1 as [<- _].
    apply lookup_singleton_Some in H2 as [<- _]. reflexivity. }
  destruct (enrichment_job_settles_status silentSite otherSite
              (fun j => default "{}" j) (fun _ => 0%nat) (fun a b => b)
              (fun s => s) (fun _ => "[update]") gymJob oneListing Hs Hl)
    as [Hfound _].
  destruct (enrichment_job_settles_status silentSite otherSite
              (fun j => default "{}" j) (fun _ => 0%nat) (fun a b => b)
              (fun s => s) (fun _ => "[update]") strayJob oneListing Hs Hl)
    as [_ Hstray].
  split; [exact Hs|]. split; [exact Hl|]. split; [exact Huniq|].
  split; [exact Hrow|]. split; [reflexivity|]. split.
  - specialize (Hfound "g-1" knownGym Huniq Hrow eq_refl).
    fold (gymRun gymJob) in Hfound.
    destruct (fst (gymRun gymJob)) as [[]|e] eqn:E.
    + destruct Hfound as (row' & Honly & Hst & _).
      exists row'. split; [reflexivity|]. split; assumption.
    + vm_compute in E. discriminate E.
  - apply Hstray. intros k row H Hid.
    change (Runtime.placeRows (Runtime.db oneListing))
      with ({[ "g-1" := knownGym ]} : gmap string Runtime.DbPlace) in H.
    apply lookup_singleton_Some in H as [_ <-]. discriminate Hid.
Defined.

(** X28. Enriching a place again never erases what was known.  On the
    reference store, with a scraper and a web search that keep out of the
    records, when the processor returns for a job whose place has a row:
    emails are replaced only by a non-empty list of scraped emails, and
    phones likewise; a row that had a website still has one, and when its
    own website is not blank after trimming, the row keeps exactly that
    trimmed website, whatever site the job named or the web search found;
    and at most one update is published, on the channel of the job's search
    and carrying the row as saved, and none when the job names no search. *)
Theorem enrichment_never_erases
    (scrapeWebsite : string -> Runtime.IO EnrichmentWorker.ScrapedData)
    (searchDuckDuckGoTargets : string -> Runtime.IO EnrichmentWorker.DdgTargets)
    (orEmpty : option Data.Json -> Data.Json) (objectKeys : Data.Json -> nat)
    (spread : Data.Json -> Data.Json -> Data.Json) (trim : string -> string)
    (stringify : list EnrichmentWorker.EnrichmentUpdate -> string)
    (job : Runtime.EnrichmentJob) (w : Runtime.World)
    (k : string) (row : Runtime.DbPlace) (u : unit) :
  let res :=
    @EnrichmentWorker.processJob Runtime.idealRedis scrapeWebsite
      searchDuckDuckGoTargets orEmpty objectKeys spread trim stringify job w in
  (forall url : string,
      Invariants.Keeps Invariants.sameRecords (scrapeWebsite url)) ->
  (forall query : string,
      Invariants.Keeps Invariants.sameRecords (searchDuckDuckGoTargets query)) ->
  EnrichmentWorker.uniqueIds (Runtime.db w) ->
  Runtime.placeRows (Runtime.db w) !! k = Some row ->
  Runtime.db_id row = Runtime.ej_placeId job ->
  fst res = Runtime.Return u ->
  exists (row' : Runtime.DbPlace) (msgs : list (string * Runtime.Payload)),
    Runtime.placeRows (Runtime.db (snd res)) !! k = Some row'
    /\ (Runtime.db_emails row <> [] -> Runtime.db_emails row' <> [])
    /\ (Runtime.db_phones row <> [] -> Runtime.db_phones row' <> [])
    /\ (forall site : string,
          Runtime.db_website row = Some site -> site <> "" ->
          exists site' : string,
            Runtime.db_website row' = Some site' /\ site' <> "")
    /\ (forall site : string,
          Runtime.db_website row = Some site -> site <> "" ->
          trim site <> "" ->
          Runtime.db_website row' = Some (trim site))
    /\ Runtime.published (snd res) = Runtime.published w ++ msgs
    /\ (msgs = []
        \/ Runtime.ej_jobId job <> ""
           /\ msgs = [("search:updates:" +:+ Runtime.ej_jobId job,
                       Runtime.PText
                         (stringify [EnrichmentWorker.updateOf row']))]).
Proof.
  intros res Hscrape Hlookup Huniq Hl Hid Hret.
  pose proof (@processJob_cases scrapeWebsite searchDuckDuckGoTargets orEmpty
                objectKeys spread trim stringify Hscrape Hlookup job w k row
                Huniq Hl Hid) as H.
  cbv zeta in H. fold res in H. rewrite Hret in H.
  destruct H as (row' & msgs & (Hrows & _) & Hpub & _ & _ & _ & _ & Hem & Hph
                 & Hsite & Hkept & Hmsgs).
  exists row', msgs.
  split; [rewrite Hrows; apply lookup_insert_eq|].
  split; [destruct Hem as [->|]; auto|].
  split; [destruct Hph as [->|]; auto|].
  split.
  { intros site Hw Hne. destruct Hsite as [->|Hnew]; [eauto | exact Hnew]. }
  split; [exact Hkept|]. split; assumption.
Qed.

Lemma enrichment_never_erases_witness :
  (forall url : string, Invariants.Keeps Invariants.sameRecords (silentSite url))
  /\ (forall query : string,
        Invariants.Keeps Invariants.sameRecords (otherSite query))
  /\ EnrichmentWorker.uniqueIds (Runtime.db oneListing)
  /\ Runtime.placeRows (Runtime.db oneListing) !! "g-1" = Some knownGym
  /\ Runtime.db_id knownGym = Runtime.ej_placeId gymJob
  /\ fst (gymRun gymJob) = Runtime.Return tt
  /\ exists row' : Runtime.DbPlace,
       Runtime.placeRows (Runtime.db (snd (gymRun gymJob))) !! "g-1" = Some row'
       /\ Runtime.db_emails row' <> []
       /\ Runtime.db_phones row' <> []
       /\ Runtime.db_website row' = Some "https://gym.it".
Proof.
  assert (Hs : forall url : string,
             Invariants.Keeps Invariants.sameRecords (silentSite url))
    by (intros url w; repeat split).
  assert (Hl : forall query : string,
             Invariants.Keeps Invariants.sameRecords (otherSite query))
    by (intros query w; repeat split).
  assert (Hrow : Runtime.placeRows (Runtime.db oneListing) !! "g-1"
                 = Some knownGym) by (vm_compute; reflexivity).
  assert (Huniq : EnrichmentWorker.uniqueIds (Runtime.db oneListing)).
  { intros k1 k2 r1 r2 H1 H2 _.
    change (Runtime.placeRows (Runtime.db oneListing))
      with ({[ "g-1" := knownGym ]} : gmap string Runtime.DbPlace) in H1, H2.
    apply lookup_singleton_Some in H1 as [<- _].
    apply lookup_singleton_Some in H2 as [<- _]. reflexivity. }
  assert (Hret : fst (gymRun gymJob) = Runtime.Return tt)
    by (vm_compute; reflexivity).
  split; [exact Hs|]. split; [exact Hl|]. split; [exact Huniq|].
  split; [exact Hrow|]. split; [reflexivity|]. split; [exact Hret|].
  destruct (enrichment_never_erases silentSite otherSite
              (fun j => default "{}" j) (fun _ => 0%nat) (fun a b => b)
              (fun s => s) (fun _ => "[update]") gymJob oneListing "g-1"
              knownGym tt Hs Hl Huniq Hrow eq_refl Hret)
    as (row' & msgs & Hl' & Hem & Hph & _ & Hkept & _).
  exists row'. split; [exact Hl'|].
  split; [apply Hem; discriminate|]. split; [apply Hph; discriminate|].
  apply (Hkept "https://gym.it"); [reflexivity | discriminate | discriminate].
Defined.
